(* ===== verification/_CoqProject ===== *)
-Q . S2P
Prelude.v
Types.v
FrameAlloc.v
EarlyPmm.v
Pmm.v
Paging.v
Vmm.v
Kmalloc.v
Mm.v
KString.v
ListHead.v
Sched.v
Wait.v
Vga.v
Tty.v
Layout.v
Apic.v
Madt.v
Input.v
Descriptors.v
HeapApi.v
StateMonad.v
Block.v
FsTypes.v
Dcache.v
Ext2File.v
Ext2Dir.v
Ext2Super.v
Vfs.v
ByteMem.v
BootLoad.v
BootVolume.v
Pci.v
Ahci.v
ProcMem.v
Elf.v
ElfLoad.v
Pic.v
Acpi.v
ApicInit.v
Machine.v
Switch.v
Entry.v
Syscall.v
Libc.v
User.v
Console.v
ProcCreate.v
InitTask.v
Kernel.v
