(* ===== verification/Prelude.v ===== *)
(** * SnapOS, a verification library

    SnapOS is a small x86-64 kernel written in C: a two-stage boot loader, a
    physical and a virtual memory manager, a heap, a scheduler with wait
    queues, a text console and a terminal, interrupt routing over the APICs,
    an ext2 file system behind a VFS and a dentry cache, and a first user
    program.  This library is a shallow embedding of its C code, and of the
    assembly that switches tasks and crosses the border of user mode, with the
    theorems that make each part correct and theorems on their composition.

    ** How C is read

    - A pointer is its 64-bit address, a [Z]; machine integers are [Z] with the
      wrap-around written out ([u8], [u32], [u64], [s32], [s64] below).
    - A function returns a [res]: [Ok], [Panic] (the kernel stopped), [Fault]
      (an access C or the hardware does not define: an index outside an array,
      a NULL or dangling pointer, memory that is not there) or [OutOfFuel].
      A theorem that concludes [Ok], [returns] or [holds] therefore also says
      that the code terminates, stays in bounds and does not panic.
    - State is explicit: small components pass a record; the block layer and
      the file systems share one state through the monad [M] of StateMonad.
    - Memory is a map from addresses to 64-bit words (page tables, heap, lists,
      tasks) or to bytes (strings, user memory).  Structures that overlap or
      alias in C do so here: free lists, list nodes and page tables are read
      and written at their addresses.
    - Interrupts are off while a handler or a locked region runs; spinlocks are
      the empty structure of the single-processor build.  What another task
      does while one sleeps appears as an arbitrary state at the next step.

    ** Files and what they model

    Foundations
    - Prelude: results, machine integers, arrays, loops, list lemmas, tactics.
    - Types: include/types.h, include/mm.h, include/paging.h, asm/paging.h.
    - Layout: packed structures read from byte buffers.
    - StateMonad: operations on a shared state and their specifications.

    Memory
    - EarlyPmm: arch/x86_64/kernel/setup.c, mm/early_pmm.c.
    - Pmm: mm/pmm.c.
    - FrameAlloc: the function pointer pmm_current_alloc_frame, as the class
      [FrameAllocator] with instances in EarlyPmm and Pmm.
    - Paging: arch/x86_64/kernel/paging.c, with [hw_walk], the processor's own
      translation, as the specification.
    - Vmm: mm/vmm.c.  Kmalloc: mm/kmalloc.c.  Mm: mm/mm.c.
    - HeapApi: the heap as its clients see it, the class [KernelHeap]; its
      instance is the heap of Kmalloc over the bitmap of Pmm.
    - ByteMem: bytes in word memory.  ProcMem: heap, page tables and ranges of
      a process together.  ProcCreate: a new address space and its stack.

    Tasks and devices
    - KString: klibc/string.c.  Libc: usr/libc/src/string.c, the same text.
    - ListHead: include/list.h.  Sched: kernel/sched.c, kernel/task.c,
      arch/x86_64/kernel/process.c.  Wait: kernel/wait.c, include/wait.h.
    - Vga: drivers/vga/vga.c.  Tty: kernel/tty.c, arch/x86_64/uaccess.asm.
    - Input: drivers/ps2/ps2.c, kernel/input.c.
    - Apic: arch/x86_64/apic/apic.c, cores.c, kernel/irq.c, the arch irq.c.
    - Madt: arch/x86_64/apic/madt.c.  Descriptors: gdt.c, idt/idt.c,
      idt/exceptions.c.
    - Pic: arch/x86_64/apic/pic.c, with the two 8259 controllers as state
      machines.  Acpi: arch/x86_64/acpi/acpi.c, on firmware memory read through
      the page tables.  ApicInit: init_apic, which joins Pic, Acpi, Madt, Apic,
      the heap and the page tables.
    - Machine: the instructions of switch.asm, isr.asm and syscall.asm with
      their effect on registers and memory.  Switch: the frames process.c makes
      and the switch between tasks.  Entry: interrupt stubs, syscall_entry and
      the table of kernel/syscall.c.

    Boot, programs and the whole
    - BootLoad, BootVolume: arch/x86_64/boot/loadkernel.c and the volume it
      reads.
    - Elf, ElfLoad: fs/elf.c and what it leaves in memory.
    - Syscall: sys_read and sys_write of fs/vfs.c, sys_not_implemented,
      tty_init.
    - User: usr/bin/init.c over the class [Terminal].  Console: the kernel's
      system calls on terminal, screen, wait queues and file table as an
      instance of it.
    - InitTask: kernel/init_task.c.  Kernel: kmain and setup.c's init and
      setup_stage2 over the class [KernelOps] of what they call.

    Storage
    - Block: block/block.c, block/partition.c; a disk driver is the class
      [DiskDriver], with a disk in memory as an instance for the examples.
    - Pci: drivers/pci/pci.c, arch/x86_64/pci.c.  Ahci: drivers/ahci/ahci.c; the
      controller is the class [Hba], and [HbaDisk] says what it promises to do
      with the command structures it finds in memory.
    - FsTypes: include/vfs.h, include/fs/ext2.h.  Dcache and Vfs: fs/vfs.c.
    - Ext2File: fs/ext2/ext2.c, fs/ext2/file.c.  Ext2Dir: fs/ext2/inode.c,
      fs/ext2/dir.c.  Ext2Super: fs/ext2/super.c, ext2_register.

    ** What the theorems show

    - Boot memory map: the sanitised map is sorted, disjoint, and gives every
      address the type of the most restrictive region over it; the early
      allocator hands out distinct usable frames.
    - Frame bitmap: initialisation frees exactly the usable frames; an
      allocation takes the first fitting run and changes nothing else; freeing
      undoes it.
    - Page tables: the walk finds the entry the processor uses and creates
      missing tables without changing a translation; a mapped range translates
      page by page to its frames with its protection; the copy of the kernel
      table translates kernel addresses as the original.
    - Heap: an invariant over pools, free lists and blocks in use, preserved by
      kmalloc and kfree, from which the interface of HeapApi follows.
    - Lists, scheduler, wait queues: circular lists refine sequences; timer
      ticks run the queue round robin; wake_up reaches every sleeping waiter;
      waiting and finishing restores the queue.
    - Console, terminal, keyboard: the screen refines a tape of cells; typing
      refines line editing; tty_read returns one complete line; scan codes
      become the characters of the layout.
    - Interrupts: a requested interrupt reaches exactly its handler; gates
      decode to their handlers; the MADT walks terminate; the RSDP and table
      searches find the first valid structure; init_apic leaves the legacy
      controllers masked and the APICs, cores and overrides of the tables set.
    - Machine level: a task that is switched away and back continues with its
      registers, flags and stack; interrupts give every register back; a system
      call reaches the function of its number and returns to user code; new
      user tasks and kernel threads start where they should.
    - Storage: partition scanning registers one device per table entry or
      releases everything; ext2_read_file delivers exactly the bytes of the
      file; directory search finds the first matching entry; vfs_lookup is the
      walk over the path's names, and a name found once is served from the
      dentry cache; an AHCI read ends with the sectors in the buffers or an
      error; PCI search finds the first function of a class.
    - Composition: the boot loader copies exactly the kernel file; the ELF
      loader maps and fills every segment; the init task gets an address space
      with stack and program and a frame that enters it; in a session at the
      terminal every typed line is echoed on the screen.

    Some theorems record behaviour the code probably does not mean: the 2 MiB
    page constant, the boundary array, the address-space list, kfree's guess
    from page contents, waking a queued task, an erased newline.

    ** Fuel

    Loops that are bounded by a counter recurse on it.  The others take fuel:
    a fixed amount that the theorem shows to suffice (one pool page has at most
    128 slots; a range of n pages takes n steps; a bitmap of n bytes at most
    8n + 1), or any fuel above the length of the list walked.  Mutually
    recursive calls (kmalloc with its node list) take a depth of 2, because a
    node fits the first tier.

    ** Not modelled

    - The assembly of the boot sectors, of start.asm (a stack, then init and
      kmain) and the one-instruction routines of special_insns.asm, whose
      effects are part of the components that use them; of syscall_init the
      values it loads.
    - kmain is proved against the stages that [KernelStages] promises, not on
      one state that joins all components: every component has its own state.
    - The words of a task's block while the executable loader runs: the theorem
      on the first task describes the frame it sets in terms of the kernel
      stack that the block names at that time.
    - A C function called from assembly is its effect as a whole: the return
      address on the stack is not modelled.
    - More than one processor: SnapOS starts only the first core, and its
      spinlocks are empty.
    - Timing, caches and memory ordering: barriers and TLB flushes are recorded
      where the code issues them, not given a semantics. *)

From stdpp Require Export base gmap list strings sorting.
From Stdlib Require Export ZArith Lia.
#[global] Open Scope Z_scope.

(** ** Results

    A C function of the kernel ends in one of four ways: it returns, it calls
    [panic] (which never returns), it performs an access the C standard or the
    hardware does not define (an index outside an array, a null or dangling
    pointer), or the model's loop bound was reached.  Every fallible operation
    of the development returns a [res]; the theorems that say "the code
    returns" conclude with [Ok]. *)

Inductive res (A : Type) : Type :=
| Ok (x : A)
| Panic (msg : string)
| Fault
| OutOfFuel.
Arguments Ok {A} x.
Arguments Panic {A} msg.
Arguments Fault {A}.
Arguments OutOfFuel {A}.

#[export] Instance res_ret : MRet res := fun A x => Ok x.
#[export] Instance res_bind : MBind res := fun A B f m =>
  match m with
  | Ok x => f x
  | Panic s => Panic s
  | Fault => Fault
  | OutOfFuel => OutOfFuel
  end.

Definition is_Ok {A} (m : res A) : Prop := ∃ x, m = Ok x.
Definition ok {A} (m : res A) : bool := match m with Ok _ => true | _ => false end.

Lemma bind_Ok_inv {A B} (f : A → res B) (m : res A) y :
  (m ≫= f) = Ok y ↔ ∃ x, m = Ok x ∧ f x = Ok y.
Proof. destruct m; simpl; naive_solver. Qed.

Lemma bind_Ok {A B} (f : A → res B) x : (Ok x ≫= f) = f x.
Proof. done. Qed.

Lemma bind_ret_r {A} (m : res A) : (m ≫= λ x, Ok x) = m.
Proof. by destruct m. Qed.

(** [res_inv H] splits a successful run recorded in [H] into its steps. *)
Ltac res_inv H :=
  repeat match type of H with
  | (_ ≫= _) = Ok _ =>
      let x := fresh "x" in let Hx := fresh "Hx" in
      apply bind_Ok_inv in H as (x & Hx & H)
  | Ok _ = Ok _ => injection H as H
  | (if ?b then _ else _) = Ok _ => let E := fresh "E" in destruct b eqn:E
  | Panic _ = Ok _ => discriminate H
  | Fault = Ok _ => discriminate H
  | OutOfFuel = Ok _ => discriminate H
  end.

(** ** Arithmetic *)

(** [zlia] is [lia] with division and modulo by constants unfolded. *)
Ltac zlia := zify; Z.to_euclidean_division_equations; lia.

(** [bdec] turns boolean comparisons of the context and the goal into facts. *)
Ltac bdec :=
  repeat match goal with
  | H : (_ && _) = true |- _ => apply andb_true_iff in H as [? ?]
  | H : (_ && _) = false |- _ => apply andb_false_iff in H
  | H : (_ || _) = true |- _ => apply orb_true_iff in H
  | H : (_ || _) = false |- _ => apply orb_false_iff in H as [? ?]
  | H : negb _ = true |- _ => apply negb_true_iff in H
  | H : negb _ = false |- _ => apply negb_false_iff in H
  | H : (_ =? _) = true |- _ => apply Z.eqb_eq in H
  | H : (_ =? _) = false |- _ => apply Z.eqb_neq in H
  | H : (_ <? _) = true |- _ => apply Z.ltb_lt in H
  | H : (_ <? _) = false |- _ => apply Z.ltb_ge in H
  | H : (_ <=? _) = true |- _ => apply Z.leb_le in H
  | H : (_ <=? _) = false |- _ => apply Z.leb_gt in H
  end.

(** Unsigned wrap-around at the widths the kernel uses. *)
Definition u8 (x : Z) : Z := x mod 2 ^ 8.
Definition u16 (x : Z) : Z := x mod 2 ^ 16.
Definition u32 (x : Z) : Z := x mod 2 ^ 32.
Definition u64 (x : Z) : Z := x mod 2 ^ 64.

(** Two's-complement readings of a wrapped value. *)
Definition s8 (x : Z) : Z := let y := u8 x in if y <? 2 ^ 7 then y else y - 2 ^ 8.
Definition s32 (x : Z) : Z := let y := u32 x in if y <? 2 ^ 31 then y else y - 2 ^ 32.
Definition s64 (x : Z) : Z := let y := u64 x in if y <? 2 ^ 63 then y else y - 2 ^ 64.

Lemma u8_small x : 0 <= x < 2 ^ 8 → u8 x = x.
Proof. apply Z.mod_small. Qed.
Lemma u16_small x : 0 <= x < 2 ^ 16 → u16 x = x.
Proof. apply Z.mod_small. Qed.
Lemma u32_small x : 0 <= x < 2 ^ 32 → u32 x = x.
Proof. apply Z.mod_small. Qed.
Lemma u64_small x : 0 <= x < 2 ^ 64 → u64 x = x.
Proof. apply Z.mod_small. Qed.
Lemma u8_range x : 0 <= u8 x < 2 ^ 8.
Proof. apply Z.mod_pos_bound; lia. Qed.
Lemma u16_range x : 0 <= u16 x < 2 ^ 16.
Proof. apply Z.mod_pos_bound; lia. Qed.
Lemma u32_range x : 0 <= u32 x < 2 ^ 32.
Proof. apply Z.mod_pos_bound; lia. Qed.
Lemma u64_range x : 0 <= u64 x < 2 ^ 64.
Proof. apply Z.mod_pos_bound; lia. Qed.

Create HintDb machine.
#[export] Hint Resolve u8_range u16_range u32_range u64_range : machine.

Lemma s64_small x : - 2 ^ 63 <= x < 2 ^ 63 → s64 x = x.
Proof.
  intros. unfold s64, u64. destruct (Z.ltb_spec (x mod 2 ^ 64) (2 ^ 63)); zlia.
Qed.

Lemma s32_small x : - 2 ^ 31 <= x < 2 ^ 31 → s32 x = x.
Proof.
  intros. unfold s32, u32. destruct (Z.ltb_spec (x mod 2 ^ 32) (2 ^ 31)); zlia.
Qed.

Lemma s64_u64 x : s64 (u64 x) = s64 x.
Proof. unfold s64, u64. by rewrite Z.mod_mod by lia. Qed.

(** ** Bits *)

(** [x & (1 << b)] is non-zero exactly when bit [b] of [x] is set. *)
Lemma land_bit_0 x b : 0 <= b →
  (Z.land x (Z.shiftl 1 b) =? 0) = negb (Z.testbit x b).
Proof.
  intros Hb. rewrite Z.shiftl_1_l. destruct (Z.testbit x b) eqn:E; simpl.
  - apply Z.eqb_neq. intros H0.
    assert (Z.testbit (Z.land x (2 ^ b)) b = false) as Hf by by rewrite H0, Z.bits_0.
    rewrite Z.land_spec, E, Z.pow2_bits_true in Hf by done. done.
  - apply Z.eqb_eq. apply Z.bits_inj'. intros n Hn.
    rewrite Z.land_spec, Z.bits_0.
    destruct (decide (n = b)) as [->|]; [by rewrite E|].
    rewrite Z.pow2_bits_false by done. by rewrite andb_false_r.
Qed.

Lemma testbit_lor_bit x b n : 0 <= b → 0 <= n →
  Z.testbit (Z.lor x (Z.shiftl 1 b)) n = (bool_decide (n = b) || Z.testbit x n).
Proof.
  intros Hb Hn. rewrite Z.lor_spec, Z.shiftl_1_l.
  case_bool_decide; subst.
  - rewrite Z.pow2_bits_true by done. by rewrite orb_true_r.
  - rewrite Z.pow2_bits_false by done. by rewrite orb_false_r.
Qed.

Lemma testbit_clear_bit x b n : 0 <= b → 0 <= n →
  Z.testbit (Z.land x (Z.lnot (Z.shiftl 1 b))) n = (negb (bool_decide (n = b)) && Z.testbit x n).
Proof.
  intros Hb Hn. rewrite Z.land_spec, Z.lnot_spec, Z.shiftl_1_l by done.
  case_bool_decide; subst; simpl.
  - rewrite Z.pow2_bits_true by done. by rewrite andb_false_r.
  - rewrite Z.pow2_bits_false by done. by rewrite andb_true_r.
Qed.

Lemma testbit_above k x n : 0 <= x < 2 ^ k → k <= n → Z.testbit x n = false.
Proof.
  intros Hx Hn. destruct (decide (k < 0)); [rewrite Z.pow_neg_r in Hx; lia|].
  destruct (decide (x = 0)) as [->|]; [by rewrite Z.bits_0|].
  apply Z.bits_above_log2; [lia|].
  assert (Z.log2 x < k); [|lia]. apply Z.log2_lt_pow2; lia.
Qed.

Lemma lt_pow2_of_bits k x : 0 <= k → 0 <= x →
  (∀ n, k <= n → Z.testbit x n = false) → x < 2 ^ k.
Proof.
  intros Hk Hx Hb. destruct (decide (x = 0)) as [->|]; [apply Z.pow_pos_nonneg; lia|].
  destruct (decide (k <= Z.log2 x)) as [Hl|]; [|apply Z.log2_lt_cancel; rewrite Z.log2_pow2; lia].
  specialize (Hb _ Hl). rewrite Z.bit_log2 in Hb by lia. done.
Qed.

Lemma lor_range k x y : 0 <= k → 0 <= x < 2 ^ k → 0 <= y < 2 ^ k → 0 <= Z.lor x y < 2 ^ k.
Proof.
  intros Hk Hx Hy. assert (0 <= Z.lor x y) by (apply Z.lor_nonneg; lia). split; [done|].
  apply lt_pow2_of_bits; [done..|]. intros n Hn.
  by rewrite Z.lor_spec, !(testbit_above k) by done.
Qed.

Lemma land_range_l k x y : 0 <= k → 0 <= x < 2 ^ k → 0 <= Z.land x y < 2 ^ k.
Proof.
  intros Hk Hx. assert (0 <= Z.land x y) by (apply Z.land_nonneg; lia). split; [done|].
  apply lt_pow2_of_bits; [done..|]. intros n Hn.
  by rewrite Z.land_spec, (testbit_above k x) by done.
Qed.

(** Clearing the low [k] bits of a [w]-bit word. *)
Lemma land_high_mask w k x : 0 <= k <= w → 0 <= x < 2 ^ w →
  Z.land x (Z.lnot (2 ^ k - 1) mod 2 ^ w) = x - x mod 2 ^ k.
Proof.
  intros Hk Hx.
  assert (x - x mod 2 ^ k = Z.shiftl (Z.shiftr x k) k) as ->.
  { rewrite Z.shiftl_mul_pow2, Z.shiftr_div_pow2 by lia.
    assert (0 < 2 ^ k) by (apply Z.pow_pos_nonneg; lia).
    rewrite (Z.div_mod x (2 ^ k)) at 1 by lia. lia. }
  apply Z.bits_inj'. intros n Hn.
  replace (2 ^ k - 1) with (Z.ones k) by (rewrite Z.ones_equiv; lia).
  rewrite Z.land_spec, Z.shiftl_spec by done.
  destruct (Z.ltb_spec n w).
  - rewrite Z.mod_pow2_bits_low, Z.lnot_spec by lia.
    destruct (Z.ltb_spec n k).
    + rewrite Z.ones_spec_low, (Z.testbit_neg_r (Z.shiftr x k)) by lia. by rewrite andb_false_r.
    + rewrite Z.ones_spec_high, Z.shiftr_spec by lia.
      rewrite andb_true_r. f_equal. lia.
  - rewrite (testbit_above w x) by lia. simpl.
    symmetry. destruct (Z.ltb_spec n k); [lia|].
    rewrite Z.shiftr_spec by lia. apply (testbit_above w); lia.
Qed.

(** ** Lists addressed by machine integers

    [arr_get] and [arr_set] are [a[i]] and [a[i] = x] on an array of known
    extent: an index outside it is a [Fault]. *)

Definition arr_get {A} (l : list A) (i : Z) : res A :=
  if (0 <=? i) && (i <? Z.of_nat (length l)) then
    match l !! Z.to_nat i with Some x => Ok x | None => Fault end
  else Fault.

Definition arr_set {A} (l : list A) (i : Z) (x : A) : res (list A) :=
  if (0 <=? i) && (i <? Z.of_nat (length l)) then Ok (<[Z.to_nat i := x]> l) else Fault.

(** Total reading, used in specifications. *)
Definition znth {A} (d : A) (l : list A) (i : Z) : A := default d (l !! Z.to_nat i).

Section arrays.
Context {A : Type}.
Implicit Types (l : list A) (i : Z) (x : A).

Lemma arr_get_Ok l i x : arr_get l i = Ok x ↔ 0 <= i ∧ l !! Z.to_nat i = Some x.
Proof.
  unfold arr_get. destruct (Z.leb_spec 0 i); destruct (Z.ltb_spec i (Z.of_nat (length l))); simpl.
  - destruct (l !! Z.to_nat i) eqn:E; naive_solver.
  - split; [done|]. intros [_ Hl]. apply lookup_lt_Some in Hl. lia.
  - split; [done|lia].
  - split; [done|lia].
Qed.

Lemma arr_get_znth d l i : 0 <= i < Z.of_nat (length l) → arr_get l i = Ok (znth d l i).
Proof.
  intros Hi. apply arr_get_Ok. split; [lia|]. unfold znth.
  destruct (lookup_lt_is_Some_2 l (Z.to_nat i)) as [x Hx]; [lia|]. by rewrite Hx.
Qed.

Lemma arr_set_Ok l i x : 0 <= i < Z.of_nat (length l) → arr_set l i x = Ok (<[Z.to_nat i := x]> l).
Proof.
  intros Hi. unfold arr_set.
  destruct (Z.leb_spec 0 i); destruct (Z.ltb_spec i (Z.of_nat (length l))); simpl; done || lia.
Qed.

Lemma arr_set_Ok_inv l i x l' : arr_set l i x = Ok l' →
  0 <= i < Z.of_nat (length l) ∧ l' = <[Z.to_nat i := x]> l.
Proof. unfold arr_set. intros H. res_inv H. bdec. done. Qed.

Lemma arr_set_Fault l i x : i < 0 ∨ Z.of_nat (length l) <= i → arr_set l i x = Fault.
Proof.
  intros Hi. unfold arr_set.
  destruct (Z.leb_spec 0 i); destruct (Z.ltb_spec i (Z.of_nat (length l))); simpl; done || lia.
Qed.

Lemma znth_insert_eq d l i x : 0 <= i < Z.of_nat (length l) → znth d (<[Z.to_nat i := x]> l) i = x.
Proof. intros. unfold znth. by rewrite list_lookup_insert_eq by lia. Qed.

Lemma znth_insert_ne d l i j x : 0 <= i → 0 <= j → i ≠ j →
  znth d (<[Z.to_nat i := x]> l) j = znth d l j.
Proof. intros. unfold znth. by rewrite list_lookup_insert_ne by lia. Qed.
End arrays.

(** ** Counting loops

    [for_range n i body s] is [for (k = i; k < i + n; k++) s = body(k, s)]. *)

Fixpoint for_range {S} (n : nat) (i : Z) (body : Z → S → res S) (s : S) : res S :=
  match n with
  | O => Ok s
  | Datatypes.S n' => s' ← body i s; for_range n' (i + 1) body s'
  end.

(** [runs m Q E]: [m] either returns a value satisfying [Q] or panics with a
    message satisfying [E]; it neither faults nor exhausts its fuel.
    [returns m Q] excludes panics as well. *)
Definition runs {A} (m : res A) (Q : A → Prop) (E : string → Prop) : Prop :=
  match m with
  | Ok x => Q x
  | Panic s => E s
  | Fault => False
  | OutOfFuel => False
  end.

Definition returns {A} (m : res A) (Q : A → Prop) : Prop := runs m Q (λ _, False).

Lemma runs_bind {A B} (m : res A) (f : A → res B) R Q E :
  runs m R E → (∀ x, R x → runs (f x) Q E) → runs (m ≫= f) Q E.
Proof. destruct m; simpl; naive_solver. Qed.

Lemma runs_mono {A} (m : res A) (Q Q' : A → Prop) (E E' : string → Prop) :
  runs m Q E → (∀ x, Q x → Q' x) → (∀ s, E s → E' s) → runs m Q' E'.
Proof. destruct m; simpl; naive_solver. Qed.

Lemma returns_bind {A B} (m : res A) (f : A → res B) R Q :
  returns m R → (∀ x, R x → returns (f x) Q) → returns (m ≫= f) Q.
Proof. apply runs_bind. Qed.

Lemma returns_mono {A} (m : res A) (Q Q' : A → Prop) : returns m Q → (∀ x, Q x → Q' x) → returns m Q'.
Proof. intros HQ HQ'. by eapply runs_mono. Qed.

Lemma returns_Ok {A} (m : res A) Q : returns m Q ↔ ∃ x, m = Ok x ∧ Q x.
Proof. destruct m; simpl; naive_solver. Qed.

(** The invariant rule of counting loops. *)
Lemma for_range_runs {S} (I : Z → S → Prop) (E : string → Prop) n i body (s : S) :
  I i s →
  (∀ k s, i <= k < i + Z.of_nat n → I k s → runs (body k s) (I (k + 1)) E) →
  runs (for_range n i body s) (I (i + Z.of_nat n)) E.
Proof.
  revert i s. induction n as [|n IH]; intros i s Hi Hstep; simpl.
  - by rewrite Z.add_0_r.
  - apply runs_bind with (R := I (i + 1)); [apply Hstep; [lia|done]|]. intros s' Hs'.
    replace (i + Z.of_nat (Datatypes.S n)) with (i + 1 + Z.of_nat n) by lia.
    apply IH; [done|]. intros k t Hk. apply Hstep. lia.
Qed.

(** [for (k = lo; k < hi; k++)] with both bounds explicit. *)
Lemma for_range_upto {S} (I : Z → S → Prop) (E : string → Prop) lo hi n body (s : S) :
  lo <= hi → n = Z.to_nat (hi - lo) → I lo s →
  (∀ k s, lo <= k < hi → I k s → runs (body k s) (I (k + 1)) E) →
  runs (for_range n lo body s) (I hi) E.
Proof.
  intros Hle -> Hlo Hstep.
  apply runs_mono with (Q := I (lo + Z.of_nat (Z.to_nat (hi - lo)))) (E := E); [|intros x|done].
  - apply for_range_runs; [done|]. intros k t Hk. apply Hstep. lia.
  - by replace (lo + Z.of_nat (Z.to_nat (hi - lo))) with hi by lia.
Qed.

(** ** Word-addressed memory

    Kernel data reached through pointers (page-table entries, free-list
    links, list nodes) lives in 64-bit words at 8-byte-aligned addresses.  A
    word that was never written reads as [0]. *)

Definition ld (m : gmap Z Z) (a : Z) : Z := default 0 (m !! a).
Definition st (m : gmap Z Z) (a v : Z) : gmap Z Z := <[a := v]> m.

Lemma ld_st_eq m a v : ld (st m a v) a = v.
Proof. unfold ld, st. by rewrite lookup_insert_eq. Qed.
Lemma ld_st_ne m a b v : a ≠ b → ld (st m a v) b = ld m b.
Proof. intros. unfold ld, st. by rewrite lookup_insert_ne. Qed.
Lemma ld_st m a b v : ld (st m a v) b = if decide (a = b) then v else ld m b.
Proof. case_decide; subst; [apply ld_st_eq|by apply ld_st_ne]. Qed.
#[export] Hint Rewrite ld_st_eq : mem.
#[export] Hint Rewrite ld_st_ne using (lia || congruence) : mem.
