(* ===== verification/Types.v ===== *)
(** * Shared types and macros

    The parts of include/types.h, include/mm.h, include/paging.h and
    arch/x86_64/include/asm/paging.h the components use: error numbers and
    error pointers, page geometry and alignment, the direct map, and the
    physical-region records.  A pointer is its 64-bit address. *)

From S2P Require Import Prelude.

(** ** include/types.h *)

Definition MAX_ERRNO : Z := 4095.
Definition ENOENT : Z := 2.
Definition EIO : Z := 5.
Definition EBADF : Z := 9.
Definition ENOMEM : Z := 12.
Definition EFAULT : Z := 14.
Definition ENODEV : Z := 19.
Definition ENOTDIR : Z := 20.
Definition EINVAL : Z := 22.
Definition ENOSYS : Z := 38.
Definition EUCLEAN : Z := 117.

Definition NULL : Z := 0.
Definition SSIZE_MAX : Z := 2 ^ 63 - 1.

Definition ERR_PTR (err : Z) : Z := u64 err.
Definition PTR_ERR (ptr : Z) : Z := s64 ptr.
Definition IS_ERR (ptr : Z) : bool := u64 (- MAX_ERRNO) <=? u64 ptr.

Definition u32_min (a b : Z) : Z := if a <? b then a else b.
Definition size_min (a b : Z) : Z := if a <? b then a else b.

Lemma u32_min_spec a b : u32_min a b = Z.min a b.
Proof. unfold u32_min. destruct (Z.ltb_spec a b); lia. Qed.
Lemma size_min_spec a b : size_min a b = Z.min a b.
Proof. unfold size_min. destruct (Z.ltb_spec a b); lia. Qed.

(** An error pointer reads back as its error, is recognised as an error, and
    no other address is. *)
Lemma PTR_ERR_ERR_PTR e : - MAX_ERRNO <= e < 0 → PTR_ERR (ERR_PTR e) = e.
Proof. unfold PTR_ERR, ERR_PTR, MAX_ERRNO. intros. rewrite s64_u64. apply s64_small. lia. Qed.

Lemma IS_ERR_iff p : 0 <= p < 2 ^ 64 →
  IS_ERR p = true ↔ ∃ e, - MAX_ERRNO <= e < 0 ∧ p = ERR_PTR e.
Proof.
  unfold IS_ERR, ERR_PTR, MAX_ERRNO, u64. intros Hp. rewrite Z.leb_le. split.
  - intros H. exists (p - 2 ^ 64). zlia.
  - intros (e & He & ->). zlia.
Qed.

(** ** arch/x86_64/include/asm/paging.h *)

Definition PAGE_SIZE : Z := 4096.
Definition PAGE_SIZE_2M : Z := PAGE_SIZE * 1024 * 2.
Definition PAGE_SIZE_1G : Z := 1024 * 1024 * 1024.
Definition PAGE_ALIGN_UP (x : Z) : Z := Z.land (u64 (u64 (x + PAGE_SIZE) - 1)) (u64 (Z.lnot (PAGE_SIZE - 1))).
Definition PAGE_ALIGN_DOWN (x : Z) : Z := Z.land x (u64 (Z.lnot (PAGE_SIZE - 1))).

Definition PGD_INDEX (vaddr : Z) : Z := Z.land (Z.shiftr vaddr 39) 511.
Definition PUD_INDEX (vaddr : Z) : Z := Z.land (Z.shiftr vaddr 30) 511.
Definition PMD_INDEX (vaddr : Z) : Z := Z.land (Z.shiftr vaddr 21) 511.
Definition PTE_INDEX (vaddr : Z) : Z := Z.land (Z.shiftr vaddr 12) 511.

(** include/paging.h: the macro complements the masked address bitwise; its
    value is used as a truth value. *)
Definition IS_PAGE_ALIGNED (x : Z) : Z := u64 (Z.lnot (Z.land x (PAGE_SIZE - 1))).

(** The macro's value is never 0, so [!IS_PAGE_ALIGNED(x)] is always false. *)
Lemma IS_PAGE_ALIGNED_guard x : (IS_PAGE_ALIGNED x =? 0) = false.
Proof.
  apply Z.eqb_neq. unfold IS_PAGE_ALIGNED, PAGE_SIZE. replace (4096 - 1) with (Z.ones 12) by reflexivity.
  rewrite Z.land_ones by lia. unfold u64, Z.lnot. zlia.
Qed.

(** The alignment guards of the kernel never fire.  [IS_PAGE_ALIGNED]
    complements the page offset bitwise instead of testing it, so its value is
    non-zero for every address, and [!IS_PAGE_ALIGNED(p)] is false even for
    misaligned [p]. *)
Theorem IS_PAGE_ALIGNED_always_true x : IS_PAGE_ALIGNED x ≠ 0.
Proof. apply Z.eqb_neq, IS_PAGE_ALIGNED_guard. Qed.

Lemma PAGE_ALIGN_DOWN_spec x : 0 <= x < 2 ^ 64 → PAGE_ALIGN_DOWN x = x - x mod PAGE_SIZE.
Proof. intros. by apply (land_high_mask 64 12). Qed.

Lemma PAGE_ALIGN_UP_spec x : 0 <= x → x + PAGE_SIZE <= 2 ^ 64 →
  PAGE_ALIGN_UP x = (x + PAGE_SIZE - 1) - (x + PAGE_SIZE - 1) mod PAGE_SIZE.
Proof.
  unfold PAGE_SIZE. intros. unfold PAGE_ALIGN_UP.
  assert (u64 (u64 (x + PAGE_SIZE) - 1) = x + PAGE_SIZE - 1) as -> by (unfold u64, PAGE_SIZE; zlia).
  apply (land_high_mask 64 12); unfold PAGE_SIZE; lia.
Qed.

Lemma PAGE_ALIGN_UP_bounds x : 0 <= x → x + PAGE_SIZE <= 2 ^ 64 →
  x <= PAGE_ALIGN_UP x < x + PAGE_SIZE ∧ PAGE_ALIGN_UP x mod PAGE_SIZE = 0.
Proof. intros. rewrite PAGE_ALIGN_UP_spec by done. unfold PAGE_SIZE in *. zlia. Qed.

Lemma PAGE_ALIGN_DOWN_bounds x : 0 <= x < 2 ^ 64 →
  x - PAGE_SIZE < PAGE_ALIGN_DOWN x <= x ∧ 0 <= PAGE_ALIGN_DOWN x ∧ PAGE_ALIGN_DOWN x mod PAGE_SIZE = 0.
Proof. intros. rewrite PAGE_ALIGN_DOWN_spec by done. unfold PAGE_SIZE in *. zlia. Qed.

(** ** include/mm.h *)

Definition KERNEL_START_PHYS_ADDR : Z := 0x1000000.
Definition KERNEL_START_VIRT_ADDR : Z := 0xFFFFFFFF81000000.
Definition MIN_USABLE_PADDR : Z := 0x100000.
Definition ID_VIRT_REGION_START : Z := 0xffff888000000000.
Definition PHYS_TO_VIRT (x : Z) : Z := u64 (x + ID_VIRT_REGION_START).
Definition VIRT_TO_PHYS (x : Z) : Z := u64 (x - ID_VIRT_REGION_START).

Lemma VIRT_TO_PHYS_TO_VIRT p : 0 <= p < 2 ^ 64 → VIRT_TO_PHYS (PHYS_TO_VIRT p) = p.
Proof. unfold VIRT_TO_PHYS, PHYS_TO_VIRT, u64, ID_VIRT_REGION_START. zlia. Qed.

Lemma PHYS_TO_VIRT_inj p q : 0 <= p < 2 ^ 64 → 0 <= q < 2 ^ 64 →
  PHYS_TO_VIRT p = PHYS_TO_VIRT q → p = q.
Proof.
  intros Hp Hq H. rewrite <- (VIRT_TO_PHYS_TO_VIRT p), <- (VIRT_TO_PHYS_TO_VIRT q) by done. by rewrite H.
Qed.

(** The direct map holds physical addresses below 2^46 (64 TiB) without
    wrapping: PHYS_TO_VIRT is then a plain translation. *)
Lemma PHYS_TO_VIRT_small p : 0 <= p < 2 ^ 46 → PHYS_TO_VIRT p = p + ID_VIRT_REGION_START.
Proof. unfold PHYS_TO_VIRT, u64, ID_VIRT_REGION_START. zlia. Qed.

Inductive phys_region_type :=
| PHYS_REGION_USABLE
| PHYS_REGION_RESERVED
| PHYS_REGION_ACPI_RECLAIMABLE
| PHYS_REGION_ACPI_NVS
| PHYS_REGION_BAD.

#[export] Instance phys_region_type_eq_dec : EqDecision phys_region_type.
Proof. solve_decision. Defined.

Record phys_region := PhysRegion {
  pr_start : Z;
  pr_end : Z;
  pr_type : phys_region_type
}.

#[export] Instance phys_region_eq_dec : EqDecision phys_region.
Proof. solve_decision. Defined.
#[export] Instance phys_region_inhabited : Inhabited phys_region :=
  populate (PhysRegion 0 0 PHYS_REGION_USABLE).

Record phys_iovec := PhysIovec { iov_addr : Z; iov_length : Z }.
