(* ===== verification/FrameAlloc.v ===== *)
(** * The frame-allocator interface

    The paging code never names an allocator: it calls through the function
    pointer [pmm_current_alloc_frame] (include/mm.h), which is
    [early_pmm_alloc_frame] during boot and [pmm_alloc_frame] afterwards.  The
    class states what every allocator behind that pointer promises; EarlyPmm.v
    and Pmm.v give the two instances, and Paging.v is proved against the
    class. *)

From S2P Require Import Prelude Types.

Class FrameAllocator (F : Type) := {
  (** The call through the pointer: a physical address, or NULL. *)
  fa_alloc : F → res (Z * F);
  (** The allocator's invariant and the frames it can still hand out. *)
  fa_inv : F → Prop;
  fa_avail : F → Z → Prop;
  fa_avail_frame s p : fa_inv s → fa_avail s p → p mod PAGE_SIZE = 0 ∧ 0 < p < 2 ^ 52;
  fa_alloc_spec s : fa_inv s →
    returns (fa_alloc s) (λ '(p, s'), fa_inv s' ∧
      ((p = NULL ∧ (∀ f, ¬ fa_avail s f) ∧ (∀ f, ¬ fa_avail s' f)) ∨
       (fa_avail s p ∧ ¬ fa_avail s' p ∧ ∀ f, fa_avail s' f → fa_avail s f)))
}.
