(* ===== verification/EarlyPmm.v ===== *)
(** * The boot-time memory map and the early frame allocator

    arch/x86_64/kernel/setup.c ([arch_get_memory_map]) turns the BIOS E820
    table into physical regions; mm/early_pmm.c sanitises them into disjoint,
    sorted, typed regions ([pmm_sanitize_memory_map]) and hands out frames from
    the usable ones with a bump cursor until the bitmap allocator takes over. *)

From S2P Require Import Prelude Types FrameAlloc.

Definition PHYS_REGION_MAX_SIZE : Z := 128.

(** ** arch/x86_64/kernel/setup.c *)

Record e820_entry := E820Entry { e_base : Z; e_len : Z; e_type : Z }.

Definition e820_region_type (type : Z) : phys_region_type :=
  if type =? 1 then PHYS_REGION_USABLE
  else if type =? 2 then PHYS_REGION_RESERVED
  else if type =? 3 then PHYS_REGION_ACPI_RECLAIMABLE
  else if type =? 4 then PHYS_REGION_ACPI_NVS
  else if type =? 5 then PHYS_REGION_BAD
  else PHYS_REGION_RESERVED.

Definition phys_region_push (regions : list phys_region) (i base len type : Z)
  : res (Z * list phys_region) :=
  if len =? 0 then Ok (i, regions) else
  regions' ← arr_set regions i (PhysRegion base (u64 (base + len)) (e820_region_type type));
  Ok (i + 1, regions').

Fixpoint arch_get_memory_map_loop (entries : list e820_entry) (index : Z)
    (regions : list phys_region) : res (Z * list phys_region) :=
  match entries with
  | [] => Ok (index, regions)
  | e :: rest =>
      '(index', regions') ← phys_region_push regions index (e_base e) (e_len e) (e_type e);
      arch_get_memory_map_loop rest index' regions'
  end.

(** [entries] is the table the boot sector left at 0x510, [size] entries long. *)
Definition arch_get_memory_map (entries : list e820_entry) (regions : list phys_region) :=
  arch_get_memory_map_loop entries 0 regions.

(** ** mm/early_pmm.c: sanitising the map *)

Definition region_priority (t : phys_region_type) : Z :=
  match t with
  | PHYS_REGION_USABLE => 0
  | PHYS_REGION_RESERVED => 1
  | PHYS_REGION_ACPI_RECLAIMABLE => 1
  | PHYS_REGION_ACPI_NVS => 2
  | PHYS_REGION_BAD => 3
  end.

(** Selection sort of the first [n] elements of [arr], in place. *)
Definition sort_u64 (arr : list Z) (n : Z) : res (list Z) :=
  for_range (Z.to_nat n) 0 (λ i arr,
    min_idx ← for_range (Z.to_nat (n - (i + 1))) (i + 1) (λ j min_idx,
        a ← arr_get arr min_idx;
        b ← arr_get arr j;
        Ok (if a <=? b then min_idx else j)) i;
    if min_idx =? i then Ok arr else
      tmp ← arr_get arr i;
      x ← arr_get arr min_idx;
      arr1 ← arr_set arr i x;
      arr_set arr1 min_idx tmp) arr.

Definition max_u64 (a b : Z) : Z := if b <? a then a else b.

(** The loop over [in] that collects both ends of each region. *)
Fixpoint collect_boundaries (ins : list phys_region) (nb : Z) (boundaries : list Z)
  : res (Z * list Z) :=
  match ins with
  | [] => Ok (nb, boundaries)
  | r :: rest =>
      b1 ← arr_set boundaries nb (pr_start r);
      b2 ← arr_set b1 (nb + 1) (pr_end r);
      collect_boundaries rest (nb + 2) b2
  end.

(** The in-place removal of repeated boundaries; the state is [(nu, boundaries)]. *)
Definition dedup_boundaries (nb : Z) (boundaries : list Z) : res (Z * list Z) :=
  for_range (Z.to_nat nb) 0 (λ i '(nu, boundaries),
    x ← arr_get boundaries i;
    dup ← (if i =? 0 then Ok false else y ← arr_get boundaries (nu - 1); Ok (x =? y));
    if (dup : bool) then Ok (nu, boundaries)
    else boundaries' ← arr_set boundaries nu x; Ok (nu + 1, boundaries')) (0, boundaries).

(** The inner loop over [in]: (covered, best_priority, best_type). *)
Definition best_step (sub_start sub_end : Z) (acc : bool * Z * phys_region_type) (r : phys_region)
  : bool * Z * phys_region_type :=
  let '(covered, best_priority, best_type) := acc in
  if (pr_start r <=? sub_start) && (sub_end <=? pr_end r) then
    let p := region_priority (pr_type r) in
    if best_priority <? p then (true, p, pr_type r) else (true, best_priority, best_type)
  else acc.

Definition best_region (ins : list phys_region) (sub_start sub_end : Z) : bool * Z * phys_region_type :=
  foldl (best_step sub_start sub_end) (false, -1, PHYS_REGION_USABLE) ins.

Definition out_full_msg : string := "pmm_sanitize_memory_map: out full.".

(** One sub-interval appended to [out] (whose length is [out_count]). *)
Definition out_push (out : list phys_region) (out_max sub_start sub_end : Z) (t : phys_region_type)
  : res (list phys_region) :=
  match last out with
  | Some r =>
      if bool_decide (pr_type r = t) && (pr_end r =? sub_start) then
        Ok (<[Nat.pred (length out) := PhysRegion (pr_start r) sub_end (pr_type r)]> out)
      else if out_max <=? Z.of_nat (length out) then Panic out_full_msg
      else Ok (out ++ [PhysRegion sub_start sub_end t])
  | None =>
      if out_max <=? Z.of_nat (length out) then Panic out_full_msg
      else Ok (out ++ [PhysRegion sub_start sub_end t])
  end.

Definition emit_intervals (ins : list phys_region) (nu : Z) (boundaries : list Z) (out_max : Z)
  : res (list phys_region) :=
  for_range (Z.to_nat (nu - 1)) 0 (λ i out,
    sub_start ← arr_get boundaries i;
    sub_end ← arr_get boundaries (i + 1);
    let '(covered, _, best_type) := best_region ins sub_start sub_end in
    if (covered : bool) then out_push out out_max sub_start sub_end best_type else Ok out) [].

(** [boundaries] is the function's static array of PHYS_REGION_MAX_SIZE*2 words. *)
Definition pmm_sanitize_memory_map (ins : list phys_region) (boundaries : list Z) (out_max : Z)
  : res (list phys_region) :=
  match ins with
  | [] => Ok []
  | _ =>
      '(nb, b1) ← collect_boundaries ins 0 boundaries;
      b2 ← sort_u64 b1 nb;
      '(nu, b3) ← dedup_boundaries nb b2;
      emit_intervals ins nu b3 out_max
  end.

(** ** mm/early_pmm.c: the bump allocator *)

(** [pa_reg] is [Some i] for [&clean[i]] and [None] for a null pointer. *)
Record pa_state := PaState { pa_reg : option Z; pa_idx : Z; pa_cursor : Z }.

Record early_pmm := EarlyPmmState { clean : list phys_region; pa : pa_state }.

Definition early_pmm_get_max_usable (clean : list phys_region) : Z :=
  foldl (λ mx r, if bool_decide (pr_type r = PHYS_REGION_USABLE) then pr_end r else mx) NULL clean.

Definition ealry_pmm_get_cursor (s : early_pmm) : Z := pa_cursor (pa s).

(** The scan of [pa_next]; [n] bounds the regions left, [i] is the loop index. *)
Fixpoint pa_next_loop (n : nat) (i : Z) (clean : list phys_region) (p : pa_state) : res pa_state :=
  match n with
  | O => Ok (PaState None (Z.of_nat (length clean)) (pa_cursor p))
  | S n' =>
      r ← arr_get clean i;
      if bool_decide (pr_type r ≠ PHYS_REGION_USABLE) then pa_next_loop n' (i + 1) clean p
      else if pr_end r <=? MIN_USABLE_PADDR then pa_next_loop n' (i + 1) clean p
      else Ok (PaState (Some i) i (PAGE_ALIGN_UP (max_u64 MIN_USABLE_PADDR (pr_start r))))
  end.

Definition pa_next (s : early_pmm) : res early_pmm :=
  let i := u64 (pa_idx (pa s) + 1) in
  p ← pa_next_loop (Z.to_nat (Z.of_nat (length (clean s)) - i)) i (clean s) (pa s);
  Ok (EarlyPmmState (clean s) p).

Definition pa_init (s : early_pmm) : res early_pmm :=
  pa_next (EarlyPmmState (clean s) (PaState (pa_reg (pa s)) (u64 (-1)) (pa_cursor (pa s)))).

(** The [while (pa.reg)] loop shared by the two allocation functions, for a
    request of [size] bytes. *)
Fixpoint early_alloc_loop (fuel : nat) (size : Z) (s : early_pmm) : res (Z * early_pmm) :=
  match fuel with
  | O => OutOfFuel
  | S fuel' =>
      match pa_reg (pa s) with
      | None => Ok (NULL, s)
      | Some i =>
          r ← arr_get (clean s) i;
          let c := pa_cursor (pa s) in
          if u64 (c + size) <=? pr_end r then
            Ok (c, EarlyPmmState (clean s) (PaState (pa_reg (pa s)) (pa_idx (pa s)) (u64 (c + size))))
          else s' ← pa_next s; early_alloc_loop fuel' size s'
      end
  end.

Definition early_fuel (s : early_pmm) : nat := (length (clean s) + 2)%nat.

Definition early_pmm_alloc_frame (s : early_pmm) : res (Z * early_pmm) :=
  early_alloc_loop (early_fuel s) PAGE_SIZE s.

Definition early_pmm_alloc_continuous_frames (count : Z) (s : early_pmm) : res (Z * early_pmm) :=
  early_alloc_loop (early_fuel s) (u64 (PAGE_SIZE * count)) s.

(** [kernel_end] is the linker symbol [_kernel_end]; [raw] and [boundaries]
    are the static arrays of PHYS_REGION_MAX_SIZE+1 and PHYS_REGION_MAX_SIZE*2
    elements. *)
Definition early_pmm_init (kernel_end : Z) (entries : list e820_entry) : res (Z * early_pmm) :=
  let s0 := EarlyPmmState [] (PaState None 0 0) in
  let raw := replicate (Z.to_nat (PHYS_REGION_MAX_SIZE + 1)) (PhysRegion 0 0 PHYS_REGION_USABLE) in
  let boundaries := replicate (Z.to_nat (PHYS_REGION_MAX_SIZE * 2)) 0 in
  '(raw_count, raw1) ← arch_get_memory_map entries raw;
  raw2 ← arr_set raw1 raw_count
    (PhysRegion (PAGE_ALIGN_DOWN KERNEL_START_PHYS_ADDR)
       (PAGE_ALIGN_UP (u64 (KERNEL_START_PHYS_ADDR + kernel_end - KERNEL_START_VIRT_ADDR)))
       PHYS_REGION_RESERVED);
  let raw_count := raw_count + 1 in
  clean ← pmm_sanitize_memory_map (take (Z.to_nat raw_count) raw2) boundaries PHYS_REGION_MAX_SIZE;
  if (raw_count =? 0) || (Z.of_nat (length clean) =? 0) then Ok (- EINVAL, s0) else
  s1 ← pa_init (EarlyPmmState clean (PaState None 0 0));
  if bool_decide (pa_reg (pa s1) = None) then Ok (- ENOMEM, s1) else Ok (0, s1).

Example sanitize_demo :
  pmm_sanitize_memory_map
    [PhysRegion 0 0x9f000 PHYS_REGION_USABLE; PhysRegion 0x100000 0x8000000 PHYS_REGION_USABLE;
     PhysRegion 0x1000000 0x1100000 PHYS_REGION_RESERVED] (replicate 256 0) 128
  = Ok [PhysRegion 0 0x9f000 PHYS_REGION_USABLE; PhysRegion 0x100000 0x1000000 PHYS_REGION_USABLE;
        PhysRegion 0x1000000 0x1100000 PHYS_REGION_RESERVED; PhysRegion 0x1100000 0x8000000 PHYS_REGION_USABLE].
Proof. vm_compute. reflexivity. Qed.

(** ** Sorting *)

(** The inner scan finds the index of a minimum of [arr[i..n)]. *)
Lemma min_idx_spec arr n i : 0 <= i < n → n <= Z.of_nat (length arr) →
  returns (for_range (Z.to_nat (n - (i + 1))) (i + 1) (λ j min_idx,
        a ← arr_get arr min_idx;
        b ← arr_get arr j;
        Ok (if a <=? b then min_idx else j)) i)
    (λ m, i <= m < n ∧ ∀ q, i <= q < n → znth 0 arr m <= znth 0 arr q).
Proof.
  intros Hi Hn.
  apply (for_range_upto (λ k m, i <= m < k ∧ ∀ q, i <= q < k → znth 0 arr m <= znth 0 arr q));
    [lia|done|..].
  - split; [lia|]. intros q Hq. by replace q with i by lia.
  - intros k m Hk [Hm Hmin]. rewrite !(arr_get_znth 0) by lia. simpl.
    destruct (Z.leb_spec (znth 0 arr m) (znth 0 arr k)); split; try lia; intros q Hq;
      (destruct (decide (q = k)) as [->|]; [lia|]); specialize (Hmin q); lia.
Qed.

Definition sorted_upto (arr : list Z) (i n : Z) : Prop :=
  ∀ p q, 0 <= p < i → p < q < n → znth 0 arr p <= znth 0 arr q.

(** Exchanging position [i] with the position [m] of a minimum of the rest. *)
Lemma swap_min_step arr n i m : 0 <= i <= m → m < n → n <= Z.of_nat (length arr) →
  (∀ q, i <= q < n → znth 0 arr m <= znth 0 arr q) →
  sorted_upto arr i n →
  sorted_upto (<[Z.to_nat m := znth 0 arr i]> (<[Z.to_nat i := znth 0 arr m]> arr)) (i + 1) n.
Proof.
  intros Hi Hm Hn Hmin Hs p q Hp Hq.
  set (arr' := <[Z.to_nat m := _]> _).
  assert (∀ k, 0 <= k < n → znth 0 arr' k =
    if decide (k = m) then znth 0 arr i else if decide (k = i) then znth 0 arr m else znth 0 arr k) as Hk.
  { intros k Hk. unfold arr'. repeat case_decide; subst.
    - rewrite znth_insert_eq; [done|]. rewrite length_insert. lia.
    - rewrite znth_insert_ne, znth_insert_eq by lia. done.
    - by rewrite !znth_insert_ne by lia. }
  rewrite !Hk by lia. unfold sorted_upto in Hs.
  assert (m = i ∨ i < m) as [->|] by lia;
    repeat case_decide; subst; try lia; solve [apply Hmin; lia|apply Hs; lia].
Qed.

Lemma sort_u64_spec arr n : 0 <= n <= Z.of_nat (length arr) →
  returns (sort_u64 arr n) (λ arr', length arr' = length arr ∧
    take (Z.to_nat n) arr' ≡ₚ take (Z.to_nat n) arr ∧ sorted_upto arr' n n).
Proof.
  intros Hn.
  set (I := λ i arr', length arr' = length arr ∧
    take (Z.to_nat n) arr' ≡ₚ take (Z.to_nat n) arr ∧ sorted_upto arr' i n).
  unfold sort_u64. apply (for_range_upto I); [lia|f_equal; lia|..].
  - split_and!; [done..|]. intros p q Hp. lia.
  - intros i a Hi (Hl & Hp & Hs).
    eapply runs_bind; [apply (min_idx_spec a n i); lia|].
    intros m (Hm & Hmin).
    destruct (Z.eqb_spec m i) as [->|Hne].
    + split_and!; [done..|]. intros p q Hpi Hq.
      destruct (decide (p = i)) as [->|]; [apply Hmin; lia|apply Hs; lia].
    + rewrite !(arr_get_znth 0) by lia. simpl.
      rewrite arr_set_Ok by lia. simpl. rewrite arr_set_Ok by (rewrite length_insert; lia).
      split_and!; [by rewrite !length_insert| |apply swap_min_step; lia || done].
      rewrite !take_insert_lt by lia. rewrite <- Hp. unfold znth.
      destruct (lookup_lt_is_Some_2 a (Z.to_nat i)) as [x Hx]; [lia|].
      destruct (lookup_lt_is_Some_2 a (Z.to_nat m)) as [y Hy]; [lia|].
      rewrite Hx, Hy. simpl. apply Permutation_insert_swap; by rewrite lookup_take_lt by lia.
Qed.

(** ** Boundaries *)

Definition region_ends (ins : list phys_region) : list Z :=
  flat_map (λ r, [pr_start r; pr_end r]) ins.

Lemma length_region_ends ins : length (region_ends ins) = (2 * length ins)%nat.
Proof. induction ins; simpl in *; lia. Qed.

Lemma collect_boundaries_spec ins nb b :
  0 <= nb → nb + 2 * Z.of_nat (length ins) <= Z.of_nat (length b) →
  ∃ b', collect_boundaries ins nb b = Ok (nb + 2 * Z.of_nat (length ins), b') ∧
    length b' = length b ∧
    take (Z.to_nat (nb + 2 * Z.of_nat (length ins))) b' = take (Z.to_nat nb) b ++ region_ends ins.
Proof.
  revert nb b. induction ins as [|r ins IH]; intros nb b Hnb Hlen.
  - exists b. simpl. rewrite !Z.add_0_r, app_nil_r. done.
  - cbn [collect_boundaries length] in *. rewrite arr_set_Ok by lia. simpl.
    rewrite arr_set_Ok by (rewrite length_insert; lia). simpl.
    destruct (IH (nb + 2) (<[Z.to_nat (nb + 1):=pr_end r]> (<[Z.to_nat nb:=pr_start r]> b)))
      as (b' & Hb' & Hl & Ht); [lia|rewrite !length_insert; lia|].
    exists b'. rewrite Hb'. rewrite !length_insert in Hl.
    replace (nb + 2 * Z.of_nat (S (length ins))) with (nb + 2 + 2 * Z.of_nat (length ins)) by lia.
    split_and!; [done..|]. rewrite Ht. cbn [region_ends flat_map]. fold (region_ends ins).
    replace (Z.to_nat (nb + 2)) with (S (S (Z.to_nat nb))) by lia.
    replace (Z.to_nat (nb + 1)) with (S (Z.to_nat nb)) by lia.
    rewrite (take_S_r _ _ (pr_end r)) by (rewrite list_lookup_insert_eq; [done|rewrite length_insert; lia]).
    rewrite take_insert_ge by lia.
    rewrite (take_S_r _ _ (pr_start r)) by (rewrite list_lookup_insert_eq by lia; done).
    rewrite take_insert_ge by lia. by rewrite <- !app_assoc.
Qed.

(** More regions than the boundary array was sized for write past its end. *)
Lemma collect_boundaries_overflow ins nb b :
  0 <= nb <= Z.of_nat (length b) → Z.of_nat (length b) < nb + 2 * Z.of_nat (length ins) →
  collect_boundaries ins nb b = Fault.
Proof.
  revert nb b. induction ins as [|r ins IH]; intros nb b Hnb Hlen; cbn [collect_boundaries length] in *; [lia|].
  destruct (decide (nb < Z.of_nat (length b))).
  - rewrite arr_set_Ok by lia. simpl.
    destruct (decide (nb + 1 < Z.of_nat (length b))).
    + rewrite arr_set_Ok by (rewrite length_insert; lia). simpl.
      apply IH; rewrite !length_insert; lia.
    + rewrite arr_set_Fault; [done|]. rewrite length_insert. lia.
  - by rewrite arr_set_Fault by lia.
Qed.

Definition strictly_sorted (b : list Z) (nu : Z) : Prop :=
  ∀ p q, 0 <= p < q → q < nu → znth 0 b p < znth 0 b q.

Definition elem_upto (b : list Z) (n x : Z) : Prop := ∃ k, 0 <= k < n ∧ znth 0 b k = x.

(** The state of the de-duplication loop at index [i] over the array [b0]. *)
Definition dedup_inv (b0 : list Z) (i : Z) (st : Z * list Z) : Prop :=
  let '(nu, b) := st in
  0 <= nu <= i ∧ (0 < i → 0 < nu ∧ znth 0 b (nu - 1) = znth 0 b0 (i - 1)) ∧
  length b = length b0 ∧ (∀ k, i <= k → znth 0 b k = znth 0 b0 k) ∧
  strictly_sorted b nu ∧ (∀ x, elem_upto b nu x ↔ elem_upto b0 i x).

Lemma elem_upto_snoc b n x : 0 <= n →
  elem_upto b (n + 1) x ↔ elem_upto b n x ∨ x = znth 0 b n.
Proof.
  intros. split.
  - intros (k & Hk & <-). destruct (decide (k = n)) as [->|]; [by right|left; exists k; lia].
  - intros [(k & Hk & <-)| ->]; [exists k; lia|exists n; lia].
Qed.

Lemma dedup_inv_skip b0 i nu b : 0 < i → sorted_upto b0 (i + 1) (i + 1) →
  dedup_inv b0 i (nu, b) → znth 0 b i = znth 0 b (nu - 1) → dedup_inv b0 (i + 1) (nu, b).
Proof.
  intros Hi Hs (Hnu & Hlast & Hl & Hrest & Hss & Hel) Heq.
  destruct (Hlast Hi) as [Hpos Hl1]. rewrite Hrest in Heq by lia.
  split_and!; try lia; try done.
  - intros _. split; [lia|]. replace (i + 1 - 1) with i by lia. congruence.
  - intros k Hk. apply Hrest. lia.
  - intros x. rewrite elem_upto_snoc, Hel by lia. split; [by left|].
    intros [?| ->]; [done|]. exists (i - 1). split; [lia|]. congruence.
Qed.

Lemma dedup_inv_push b0 i nu b : 0 <= i < Z.of_nat (length b0) → sorted_upto b0 (i + 1) (i + 1) →
  dedup_inv b0 i (nu, b) → (0 < i → znth 0 b i ≠ znth 0 b (nu - 1)) →
  dedup_inv b0 (i + 1) (nu + 1, <[Z.to_nat nu := znth 0 b i]> b).
Proof.
  intros Hi Hs (Hnu & Hlast & Hl & Hrest & Hss & Hel) Hne.
  assert (znth 0 b i = znth 0 b0 i) as Ei by (apply Hrest; lia).
  assert (∀ k, 0 <= k < nu → znth 0 (<[Z.to_nat nu := znth 0 b i]> b) k = znth 0 b k) as Hk1
    by (intros; apply znth_insert_ne; lia).
  assert (znth 0 (<[Z.to_nat nu := znth 0 b i]> b) nu = znth 0 b i) as Hk2 by (apply znth_insert_eq; lia).
  split_and!; try lia.
  - intros _. split; [lia|]. replace (nu + 1 - 1) with nu by lia. replace (i + 1 - 1) with i by lia. congruence.
  - by rewrite length_insert.
  - intros k Hk. rewrite znth_insert_ne by lia. apply Hrest. lia.
  - intros p q Hp Hq. rewrite Hk1 by lia. destruct (decide (q = nu)) as [->|].
    + rewrite Hk2. destruct (Hlast ltac:(lia)) as [_ Hl1].
      specialize (Hne ltac:(lia)).
      assert (znth 0 b0 (i - 1) <= znth 0 b0 i) by (apply Hs; lia).
      destruct (decide (p = nu - 1)) as [->|]; [lia|].
      specialize (Hss p (nu - 1)). lia.
    + rewrite Hk1 by lia. apply Hss; lia.
  - intros x. rewrite !elem_upto_snoc, <- Hel by lia. rewrite Hk2, Ei.
    assert (elem_upto (<[Z.to_nat nu := znth 0 b0 i]> b) nu x ↔ elem_upto b nu x) as ->; [|done].
    rewrite <- Ei. split; intros (k & Hk & <-); exists k; split; try done; rewrite Hk1 by lia; done.
Qed.

Lemma dedup_boundaries_spec b0 nb : 0 <= nb <= Z.of_nat (length b0) → sorted_upto b0 nb nb →
  returns (dedup_boundaries nb b0) (dedup_inv b0 nb).
Proof.
  intros Hnb Hs. unfold dedup_boundaries. apply (for_range_upto (dedup_inv b0)); [lia|f_equal; lia|..].
  - split_and!; try lia; try done. intros p q. lia.
  - intros i [nu b] Hi Hinv. pose proof Hinv as (Hnu & Hlast & Hl & _).
    assert (sorted_upto b0 (i + 1) (i + 1)) by (intros p q Hp Hq; apply Hs; lia).
    rewrite (arr_get_znth 0 b i) by lia. simpl.
    destruct (Z.eqb_spec i 0) as [->|Hi0]; simpl.
    + rewrite arr_set_Ok by lia. simpl. apply dedup_inv_push; [lia|done..|lia].
    + destruct (Hlast ltac:(lia)). rewrite (arr_get_znth 0 b (nu - 1)) by lia. simpl.
      destruct (Z.eqb_spec (znth 0 b i) (znth 0 b (nu - 1))).
      * apply dedup_inv_skip; done || lia.
      * rewrite arr_set_Ok by lia. simpl. apply dedup_inv_push; done || lia.
Qed.

(** ** What the sanitised map means *)

Definition covers (r : phys_region) (a : Z) : Prop := pr_start r <= a < pr_end r.

(** [chosen C ins t]: among the regions satisfying [C], the first one of the
    highest priority has type [t]. *)
Definition chosen (C : phys_region → Prop) (ins : list phys_region) (t : phys_region_type) : Prop :=
  ∃ pre r post, ins = pre ++ r :: post ∧ C r ∧ pr_type r = t ∧
    (∀ r', r' ∈ pre → C r' → region_priority (pr_type r') < region_priority t) ∧
    (∀ r', r' ∈ post → C r' → region_priority (pr_type r') <= region_priority t).

(** The type the raw map gives to the byte at address [a]. *)
Definition owner (ins : list phys_region) (a : Z) (t : phys_region_type) : Prop :=
  chosen (λ r, covers r a) ins t.

(** The type a list of regions gives to the byte at address [a]. *)
Definition typed_at (out : list phys_region) (a : Z) (t : phys_region_type) : Prop :=
  ∃ r, r ∈ out ∧ covers r a ∧ pr_type r = t.

(** Consecutive regions do not overlap, and touch only if their types differ. *)
Definition separated (r1 r2 : phys_region) : Prop :=
  pr_end r1 < pr_start r2 ∨ (pr_end r1 = pr_start r2 ∧ pr_type r1 ≠ pr_type r2).

Fixpoint regions_wf (l : list phys_region) : Prop :=
  match l with
  | [] => True
  | r :: rest =>
      pr_start r < pr_end r ∧
      match rest with [] => True | r2 :: _ => separated r r2 end ∧ regions_wf rest
  end.

Lemma region_priority_nonneg t : 0 <= region_priority t.
Proof. by destruct t. Qed.

Lemma chosen_ext C1 C2 ins t : (∀ r, r ∈ ins → C1 r ↔ C2 r) → chosen C1 ins t ↔ chosen C2 ins t.
Proof.
  intros HC. split; intros (pre & r & post & -> & Hr & Ht & Hpre & Hpost); exists pre, r, post;
    split_and!; try done; try (apply HC; [set_solver|done]);
    intros r' Hin Hr'; (apply Hpre || apply Hpost); try done; apply HC; set_solver.
Qed.

Lemma chosen_functional C ins t1 t2 : chosen C ins t1 → chosen C ins t2 → t1 = t2.
Proof.
  intros (p1 & r1 & q1 & E1 & C1 & T1 & P1 & Q1) (p2 & r2 & q2 & E2 & C2 & T2 & P2 & Q2). subst t1 t2 ins.
  apply app_eq_inv in E2 as [(k & -> & E)|(k & -> & E)]; destruct k as [|x k];
    cbn [app] in E; injection E as <- ?; subst; try done.
  - specialize (P1 r2 ltac:(set_solver) C2). specialize (Q2 r1 ltac:(set_solver) C1). lia.
  - specialize (Q1 r2 ltac:(set_solver) C2). specialize (P2 r1 ltac:(set_solver) C1). lia.
Qed.

(** One more region at the end of the scan: it loses, or it takes over. *)
Lemma chosen_snoc_keep C ins r t : chosen C ins t →
  (C r → region_priority (pr_type r) <= region_priority t) → chosen C (ins ++ [r]) t.
Proof.
  intros (pre & r0 & post & -> & H0 & Ht & Hpre & Hpost) Hr.
  exists pre, r0, (post ++ [r]). split_and!; try done; [by rewrite <- app_assoc|].
  intros r' [Hin| ->%list_elem_of_singleton]%elem_of_app Hr'; auto.
Qed.

Lemma chosen_snoc_take C ins r : C r →
  (∀ r', r' ∈ ins → C r' → region_priority (pr_type r') < region_priority (pr_type r)) →
  chosen C (ins ++ [r]) (pr_type r).
Proof. intros Hr Hlt. exists ins, r, []. set_solver. Qed.

Lemma chosen_max C ins t r : chosen C ins t → r ∈ ins → C r →
  region_priority (pr_type r) <= region_priority t.
Proof.
  intros (pre & r0 & post & -> & H0 & Ht & Hpre & Hpost) [Hin|[->|Hin]%elem_of_cons]%elem_of_app Hr.
  - specialize (Hpre r Hin Hr). lia.
  - by subst t.
  - by apply Hpost.
Qed.

(** The inner loop computes [chosen] for "covers the whole sub-interval". *)
Lemma best_region_spec ins s e :
  let C r := pr_start r <= s ∧ e <= pr_end r in
  let '(covered, p, t) := best_region ins s e in
  if (covered : bool) then chosen C ins t ∧ p = region_priority t
  else p = -1 ∧ ∀ r, r ∈ ins → ¬ C r.
Proof.
  intros C. unfold best_region. induction ins as [|r ins IH] using rev_ind; [set_solver|].
  rewrite foldl_app. cbn [foldl].
  destruct (foldl (best_step s e) (false, -1, PHYS_REGION_USABLE) ins) as [[c p] t].
  unfold best_step. destruct ((pr_start r <=? s) && (e <=? pr_end r)) eqn:E.
  - assert (C r) as Hr by (bdec; done).
    pose proof (region_priority_nonneg (pr_type r)).
    destruct (Z.ltb_spec p (region_priority (pr_type r))) as [Hp|Hp]; destruct c; destruct IH as [IH IH'];
      try lia; (split; [|done || lia]).
    + apply chosen_snoc_take; [done|]. intros r' Hin Hr'.
      pose proof (chosen_max _ _ _ _ IH Hin Hr'). lia.
    + apply chosen_snoc_take; [done|]. intros r' Hin Hr'. by destruct (IH' r').
    + apply chosen_snoc_keep; [done|lia].
  - assert (¬ C r) as Hr by (intros [? ?]; bdec; lia).
    destruct c; destruct IH as [IH IH'].
    + split; [by apply chosen_snoc_keep|done].
    + split; [done|]. intros r' [Hin| ->%list_elem_of_singleton]%elem_of_app; eauto.
Qed.

(** ** Emitting the regions *)

Lemma regions_wf_snoc l r : regions_wf l → pr_start r < pr_end r →
  (∀ r0, last l = Some r0 → separated r0 r) → regions_wf (l ++ [r]).
Proof.
  induction l as [|r1 l IH]; intros Hwf Hr Hlast; [done|].
  destruct Hwf as (H1 & H2 & H3). split_and!; [done| |apply IH; [done..|]].
  - destruct l; [by apply Hlast|done].
  - intros r0 Hr0. apply Hlast. by destruct l.
Qed.

Lemma regions_wf_grow l r e : regions_wf (l ++ [r]) → pr_end r <= e →
  regions_wf (l ++ [PhysRegion (pr_start r) e (pr_type r)]).
Proof.
  induction l as [|r1 l IH]; intros Hwf He; [simpl in *; lia|].
  destruct Hwf as (H1 & H2 & H3). split_and!; [done| |by apply IH].
  by destruct l.
Qed.

Lemma regions_wf_tail r l : regions_wf (r :: l) → regions_wf l.
Proof. by intros (_ & _ & ?). Qed.

(** The effect of appending one sub-interval. *)
Definition push_effect (out : list phys_region) (s e : Z) (t : phys_region_type) (out' : list phys_region) : Prop :=
  regions_wf out' ∧ (∀ r, r ∈ out' → pr_end r <= e) ∧
  (∀ a t', typed_at out' a t' ↔ typed_at out a t' ∨ (s <= a < e ∧ t' = t)) ∧
  (length out' <= S (length out))%nat.

Lemma typed_at_snoc out r a t : typed_at (out ++ [r]) a t ↔ typed_at out a t ∨ (covers r a ∧ t = pr_type r).
Proof. unfold typed_at. set_solver. Qed.

Lemma push_effect_snoc out s e t : regions_wf out → (∀ r, r ∈ out → pr_end r <= s) → s < e →
  (∀ r, last out = Some r → separated r (PhysRegion s e t)) →
  push_effect out s e t (out ++ [PhysRegion s e t]).
Proof.
  intros Hwf Hend Hse Hsep. split_and!.
  - by apply regions_wf_snoc.
  - intros r [Hr| ->%list_elem_of_singleton]%elem_of_app; simpl; [specialize (Hend r Hr)|]; lia.
  - intros a t'. rewrite typed_at_snoc. done.
  - rewrite length_app. simpl. lia.
Qed.

Lemma push_effect_grow l r e : regions_wf (l ++ [r]) → (∀ r', r' ∈ l ++ [r] → pr_end r' <= pr_end r) → pr_end r < e →
  push_effect (l ++ [r]) (pr_end r) e (pr_type r) (l ++ [PhysRegion (pr_start r) e (pr_type r)]).
Proof.
  intros Hwf Hend He. split_and!.
  - apply regions_wf_grow; [done|lia].
  - intros r' [Hr'| ->%list_elem_of_singleton]%elem_of_app; simpl; [|lia].
    specialize (Hend r' ltac:(set_solver)). lia.
  - intros a t'. rewrite !typed_at_snoc. unfold covers. simpl.
    assert (pr_start r < pr_end r) as Hr.
    { clear -Hwf. induction l as [|r1 l IH]; [by destruct Hwf|apply IH; by eapply regions_wf_tail]. }
    split.
    + intros [?|[Hc ->]]; [by left; left|]. destruct (decide (a < pr_end r)); [left; right|right]; split; done || lia.
    + intros [[?|[Hc ->]]|[Hc ->]]; [by left|right; split; done || lia..].
  - rewrite !length_app. simpl. lia.
Qed.

Lemma out_push_spec out out_max s e t : regions_wf out → (∀ r, r ∈ out → pr_end r <= s) → s < e →
  runs (out_push out out_max s e t) (push_effect out s e t)
    (λ m, m = out_full_msg ∧ out_max <= Z.of_nat (length out)).
Proof.
  intros Hwf Hend Hse. unfold out_push. destruct (last out) as [r|] eqn:Hl.
  - assert (pr_end r <= s) as Hrs.
    { apply Hend. apply last_Some in Hl as [l ->]. set_solver. }
    case_bool_decide as Ht; destruct (Z.eqb_spec (pr_end r) s) as [Hs|Hs]; cbn [andb].
    + apply last_Some in Hl as [l ->]. subst s t.
      rewrite length_app. cbn [length].
      replace (Nat.pred (length l + 1)) with (length l + 0)%nat by lia.
      rewrite insert_app_r. by apply push_effect_grow.
    + destruct (Z.leb_spec out_max (Z.of_nat (length out))); [done|]. apply push_effect_snoc; try done.
      intros r' Hr'. left. simpl. simplify_eq. lia.
    + destruct (Z.leb_spec out_max (Z.of_nat (length out))); [done|]. apply push_effect_snoc; try done.
      intros r' Hr'. right. simplify_eq. done.
    + destruct (Z.leb_spec out_max (Z.of_nat (length out))); [done|]. apply push_effect_snoc; try done.
      intros r' Hr'. left. simpl. simplify_eq. lia.
  - destruct (Z.leb_spec out_max (Z.of_nat (length out))); [done|]. apply push_effect_snoc; try done.
    intros r. by rewrite Hl.
Qed.

Lemma sorted_gap b nu x i : strictly_sorted b nu → elem_upto b nu x → 0 <= i → i + 1 < nu →
  x <= znth 0 b i ∨ znth 0 b (i + 1) <= x.
Proof.
  intros Hs (k & Hk & <-) Hi Hi'. destruct (decide (k <= i)).
  - left. destruct (decide (k = i)) as [->|]; [lia|]. specialize (Hs k i). lia.
  - right. destruct (decide (k = i + 1)) as [->|]; [lia|]. specialize (Hs (i + 1) k). lia.
Qed.

Section emit.
Context (ins : list phys_region) (nu : Z) (b : list Z).
Hypothesis Hlen : nu <= Z.of_nat (length b).
Hypothesis Hsorted : strictly_sorted b nu.
Hypothesis Hends : ∀ r, r ∈ ins → elem_upto b nu (pr_start r) ∧ elem_upto b nu (pr_end r).

(** Inside an elementary interval, covering a byte is covering the interval. *)
Lemma elementary_owner i a t : 0 <= i → i + 1 < nu → znth 0 b i <= a < znth 0 b (i + 1) →
  chosen (λ r, pr_start r <= znth 0 b i ∧ znth 0 b (i + 1) <= pr_end r) ins t ↔ owner ins a t.
Proof using Hsorted Hends.
  intros Hi Hi' Ha. apply chosen_ext. intros r Hr. destruct (Hends r Hr) as [H1 H2].
  pose proof (sorted_gap _ _ _ _ Hsorted H1 Hi Hi'). pose proof (sorted_gap _ _ _ _ Hsorted H2 Hi Hi').
  unfold covers. lia.
Qed.

Definition emit_inv (i : Z) (out : list phys_region) : Prop :=
  regions_wf out ∧ (∀ r, r ∈ out → pr_end r <= znth 0 b i) ∧
  (∀ a t, a < znth 0 b i → typed_at out a t ↔ owner ins a t) ∧ Z.of_nat (length out) <= i.

Lemma emit_inv_skip i out : 0 <= i → i + 1 < nu → emit_inv i out →
  (∀ a t, znth 0 b i <= a < znth 0 b (i + 1) → ¬ owner ins a t) → emit_inv (i + 1) out.
Proof using Hsorted.
  intros Hi Hi' (Hwf & He & Hty & Hl) Hno.
  assert (znth 0 b i < znth 0 b (i + 1)) by (apply Hsorted; lia).
  split_and!; [done| | |lia].
  - intros r Hr. specialize (He r Hr). lia.
  - intros a t Ha. destruct (decide (a < znth 0 b i)); [by apply Hty|].
    split; [|intros Ho; destruct (Hno a t); lia || done].
    intros (r & Hr & Hc & _). specialize (He r Hr). unfold covers in Hc. lia.
Qed.

Lemma emit_inv_push i out out' t : 0 <= i → i + 1 < nu → emit_inv i out →
  (∀ a, znth 0 b i <= a < znth 0 b (i + 1) → owner ins a t) →
  push_effect out (znth 0 b i) (znth 0 b (i + 1)) t out' → emit_inv (i + 1) out'.
Proof using Hsorted.
  intros Hi Hi' (Hwf & He & Hty & Hl) Hown (Hwf' & He' & Hty' & Hl').
  split_and!; [done|done| |lia]. intros a t' Ha. rewrite Hty'.
  destruct (decide (a < znth 0 b i)) as [Hlt|Hge].
  - rewrite Hty by done. split; [intros [?|[? ?]]; [done|lia]|by left].
  - split.
    + intros [(r & Hr & Hc & _)|[_ ->]]; [|apply Hown; lia].
      specialize (He r Hr). unfold covers in Hc. lia.
    + intros Ho. right. split; [lia|]. eapply chosen_functional; [done|]. apply Hown. lia.
Qed.

Lemma emit_intervals_spec out_max : 0 < nu →
  runs (emit_intervals ins nu b out_max)
    (λ out, regions_wf out ∧ ∀ a t, typed_at out a t ↔ owner ins a t)
    (λ m, m = out_full_msg ∧ out_max < nu - 1).
Proof using Hlen Hsorted Hends.
  intros Hnu. unfold emit_intervals.
  apply runs_mono with (Q := emit_inv (nu - 1)) (E := λ m, m = out_full_msg ∧ out_max < nu - 1); [| |done].
  - apply (for_range_upto emit_inv); [lia|f_equal; lia|..].
    + split_and!; [done|set_solver| |simpl; lia]. intros a t Ha. split; [intros (r & Hr & _); set_solver|].
      intros (pre & r & post & -> & [Hc _] & _). destruct (Hends r ltac:(set_solver)) as [(k & Hk & Hks) _].
      destruct (decide (k = 0)) as [->|]; [lia|]. specialize (Hsorted 0 k). lia.
    + intros i out Hi Hinv. rewrite !(arr_get_znth 0) by lia. simpl.
      pose proof (best_region_spec ins (znth 0 b i) (znth 0 b (i + 1))) as Hbest.
      destruct (best_region ins (znth 0 b i) (znth 0 b (i + 1))) as [[c p] t].
      pose proof Hinv as (Hwf & He & _ & Hl). destruct c.
      * destruct Hbest as [Hch _]. eapply runs_mono; [apply out_push_spec; try done|..].
        -- apply Hsorted; lia.
        -- intros out' Hpush. eapply emit_inv_push; try done; try lia.
           intros a Ha. by apply (elementary_owner i a t); try lia.
        -- intros m [-> Hm]. split; [done|]. lia.
      * destruct Hbest as [_ Hno]. apply emit_inv_skip; try done; try lia.
        intros a t' Ha Ho. apply (elementary_owner i) in Ho; try lia.
        destruct Ho as (pre & r & post & -> & Hr & _). apply (Hno r); set_solver.
  - intros out (Hwf & He & Hty & _). split; [done|]. intros a t.
    destruct (decide (a < znth 0 b (nu - 1))) as [Hlt|Hge]; [by apply Hty|].
    split.
    + intros (r & Hr & Hc & _). specialize (He r Hr). unfold covers in Hc. lia.
    + intros (pre & r & post & -> & [_ Hc] & _). destruct (Hends r ltac:(set_solver)) as [_ (k & Hk & Hks)].
      destruct (decide (k = nu - 1)) as [->|]; [lia|]. specialize (Hsorted k (nu - 1)). lia.
Qed.
End emit.

Lemma elem_upto_take b n x : 0 <= n <= Z.of_nat (length b) →
  elem_upto b n x ↔ x ∈ take (Z.to_nat n) b.
Proof.
  intros Hn. rewrite list_elem_of_lookup. split.
  - intros (k & Hk & <-). exists (Z.to_nat k). rewrite lookup_take_lt by lia.
    unfold znth. destruct (lookup_lt_is_Some_2 b (Z.to_nat k)) as [y Hy]; [lia|]. by rewrite Hy.
  - intros (k & Hk). apply lookup_take_Some in Hk as [Hk ?]. exists (Z.of_nat k).
    unfold znth. rewrite Nat2Z.id, Hk. split; [lia|done].
Qed.

Lemma region_ends_elem ins r : r ∈ ins → pr_start r ∈ region_ends ins ∧ pr_end r ∈ region_ends ins.
Proof.
  induction ins as [|r' ins IH]; [set_solver|]. cbn [region_ends flat_map]. fold (region_ends ins).
  intros [->|Hin]%elem_of_cons; [set_solver|]. destruct (IH Hin). set_solver.
Qed.

(** C20: the sanitised memory map.  For up to 128 raw regions,
    [pmm_sanitize_memory_map] returns a list of non-empty regions sorted by
    address, disjoint and merged wherever neighbours have the same type, that
    gives every byte of the physical address space exactly the type of the
    highest-priority raw region covering it (the first one among equals) and
    leaves uncovered bytes uncovered; the only other outcome is the "out full"
    panic, which needs more than 64 raw regions. *)
Theorem sanitize_correct ins boundaries :
  Z.of_nat (length ins) <= PHYS_REGION_MAX_SIZE →
  Z.of_nat (length boundaries) = PHYS_REGION_MAX_SIZE * 2 →
  runs (pmm_sanitize_memory_map ins boundaries PHYS_REGION_MAX_SIZE)
    (λ out, regions_wf out ∧ ∀ a t, typed_at out a t ↔ owner ins a t)
    (λ m, m = out_full_msg ∧ 64 < Z.of_nat (length ins)).
Proof.
  unfold PHYS_REGION_MAX_SIZE. intros Hin Hb. unfold pmm_sanitize_memory_map.
  destruct ins as [|r0 ins0].
  { split; [done|]. intros a t. split; [intros (r & Hr & _); set_solver|].
    intros (pre & r & post & Heq & _). by destruct pre. }
  set (ins := r0 :: ins0) in *.
  destruct (collect_boundaries_spec ins 0 boundaries) as (b1 & Hc & Hl1 & Ht1); [lia|lia|].
  rewrite Hc. cbn [mbind res_bind]. rewrite Z.add_0_l in Ht1. cbn [Z.to_nat take app] in Ht1. rewrite !Z.add_0_l.
  set (nb := 2 * Z.of_nat (length ins)) in *.
  eapply runs_bind; [eapply runs_mono; [apply (sort_u64_spec b1 nb); lia|intros x Hx; exact Hx|done]|].
  intros b2 (Hl2 & Hp2 & Hs2).
  eapply runs_bind; [eapply runs_mono; [apply (dedup_boundaries_spec b2 nb); [lia|done]|intros x Hx; exact Hx|done]|].
  intros [nu b3] (Hnu & Hpos & Hl3 & _ & Hss & Hel).
  eapply runs_mono; [apply emit_intervals_spec|..]; try done; try lia.
  - intros r Hr. rewrite !Hel, !elem_upto_take, Hp2 by lia.
    rewrite Ht1. by apply region_ends_elem.
  - apply Hpos. unfold nb, ins. simpl. lia.
  - intros m [-> Hm]. split; [done|]. lia.
Qed.

Lemma sanitize_correct_witness :
  ∃ ins boundaries, Z.of_nat (length ins) <= PHYS_REGION_MAX_SIZE ∧
    Z.of_nat (length boundaries) = PHYS_REGION_MAX_SIZE * 2 ∧
    runs (pmm_sanitize_memory_map ins boundaries PHYS_REGION_MAX_SIZE)
      (λ out, regions_wf out ∧ ∀ a t, typed_at out a t ↔ owner ins a t)
      (λ m, m = out_full_msg ∧ 64 < Z.of_nat (length ins)).
Proof.
  exists [PhysRegion 0 0x9f000 PHYS_REGION_USABLE; PhysRegion 0x100000 0x8000000 PHYS_REGION_USABLE;
     PhysRegion 0x1000000 0x1100000 PHYS_REGION_RESERVED], (replicate 256 0).
  split; [vm_compute; discriminate|]. split; [reflexivity|].
  apply sanitize_correct; [vm_compute; discriminate|reflexivity].
Defined.

(** C39: the boundary array holds two words for each of 128 regions, but the
    caller passes up to 128 E820 regions plus the kernel image: with 129 raw
    regions the collection loop writes past the end of the array. *)
Theorem sanitize_129_overflows ins boundaries :
  Z.of_nat (length ins) = PHYS_REGION_MAX_SIZE + 1 →
  Z.of_nat (length boundaries) = PHYS_REGION_MAX_SIZE * 2 →
  pmm_sanitize_memory_map ins boundaries PHYS_REGION_MAX_SIZE = Fault.
Proof.
  unfold PHYS_REGION_MAX_SIZE. intros Hin Hb. unfold pmm_sanitize_memory_map.
  destruct ins as [|r ins]; [simpl in Hin; lia|].
  rewrite collect_boundaries_overflow; [done|lia|lia].
Qed.

Lemma sanitize_129_overflows_witness :
  pmm_sanitize_memory_map (replicate 129 (PhysRegion 0 1 PHYS_REGION_USABLE)) (replicate 256 0)
    PHYS_REGION_MAX_SIZE = Fault.
Proof. apply sanitize_129_overflows; reflexivity. Defined.

(** ** The bump allocator *)

(** Physical addresses fit the 52 bits an x86-64 page-table entry can hold. *)
Definition regions_bounded (l : list phys_region) : Prop :=
  ∀ r, r ∈ l → 0 <= pr_start r ∧ pr_end r <= 2 ^ 52.

(** The allocator points into a usable region, at a page boundary inside or
    just past it. *)
Definition pa_ok (s : early_pmm) : Prop :=
  match pa_reg (pa s) with
  | None => True
  | Some i =>
      pa_idx (pa s) = i ∧ 0 <= i ∧
      ∃ r, clean s !! Z.to_nat i = Some r ∧ pr_type r = PHYS_REGION_USABLE ∧
        pa_cursor (pa s) mod PAGE_SIZE = 0 ∧
        MIN_USABLE_PADDR <= pa_cursor (pa s) <= 2 ^ 53 ∧ pr_start r <= pa_cursor (pa s)
  end.

(** A block of [size] bytes at the page boundary [f], above the first MiB and
    inside the usable region number [j]. *)
Definition fits (size : Z) (clean : list phys_region) (j : Z) (f : Z) : Prop :=
  f mod PAGE_SIZE = 0 ∧ MIN_USABLE_PADDR <= f ∧
  ∃ r, clean !! Z.to_nat j = Some r ∧ pr_type r = PHYS_REGION_USABLE ∧
    pr_start r <= f ∧ f + size <= pr_end r.

(** The blocks the allocator can still hand out: the rest of the current
    region and every later usable region. *)
Definition available (size : Z) (s : early_pmm) (f : Z) : Prop :=
  match pa_reg (pa s) with
  | None => False
  | Some i => ∃ j, i <= j ∧ fits size (clean s) j f ∧ (j = i → pa_cursor (pa s) <= f)
  end.

Lemma regions_wf_ordered l i j r1 r2 : regions_wf l → (i < j)%nat →
  l !! i = Some r1 → l !! j = Some r2 → pr_end r1 <= pr_start r2.
Proof.
  revert i j r1 r2. induction l as [|r l IH]; intros i j r1 r2 Hwf Hij H1 H2; [done|].
  destruct j as [|j]; [lia|]. simpl in H2. destruct Hwf as (Hr & Hsep & Hwf).
  destruct i as [|i]; simpl in H1; [|by apply (IH i j r1 r2); try lia].
  injection H1 as ->. destruct l as [|r' l]; [done|].
  assert (pr_end r1 <= pr_start r') by (destruct Hsep as [|[? _]]; lia).
  destruct j as [|j]; simpl in H2; [by simplify_eq|].
  specialize (IH 0%nat (S j) r' r2 Hwf ltac:(lia) eq_refl H2). destruct Hwf. lia.
Qed.

Section bump.
Context (cl : list phys_region).
Hypothesis Hwf : regions_wf cl.
Hypothesis Hbd : regions_bounded cl.

Lemma bounded_lookup i r : cl !! i = Some r → 0 <= pr_start r < pr_end r ∧ pr_end r <= 2 ^ 52.
Proof using Hwf Hbd.
  intros Hr. destruct (Hbd r) as [? ?]; [by eapply list_elem_of_lookup_2|].
  split; [|done]. split; [done|]. clear -Hwf Hr. revert i Hr. induction cl as [|r' l IH]; intros [|i] Hr; simplify_eq/=.
  - by destruct Hwf.
  - destruct Hwf as (_ & _ & ?). eauto.
Qed.

(** [pa_next] moves to the next region that can hold anything at all. *)
Lemma pa_next_loop_spec n i p : 0 <= i → Z.of_nat n = Z.of_nat (length cl) - i →
  returns (pa_next_loop n i cl p) (λ p',
    let s' := EarlyPmmState cl p' in
    pa_ok s' ∧ (∀ j, pa_reg p' = Some j → i <= j < Z.of_nat (length cl)) ∧
    ∀ size f, 0 < size → available size s' f ↔ ∃ j, i <= j ∧ fits size cl j f).
Proof using Hwf Hbd.
  revert i. induction n as [|n IH]; intros i Hi Hn.
  { split_and!; [done..|]. intros size f Hsz. simpl. split; [done|].
    intros (j & Hj & _ & _ & r & Hr & _). apply lookup_lt_Some in Hr. lia. }
  cbn [pa_next_loop].
  destruct (lookup_lt_is_Some_2 cl (Z.to_nat i)) as [r Hr]; [lia|].
  assert (arr_get cl i = Ok r) as -> by (apply arr_get_Ok; done). cbn [mbind res_bind].
  destruct (bounded_lookup _ _ Hr) as [Hst Hend].
  assert (∀ size f, 0 < size → (∃ j, i <= j ∧ fits size cl j f) ↔
    fits size cl i f ∨ ∃ j, i + 1 <= j ∧ fits size cl j f) as Hsplit.
  { intros size f Hsz. split.
    - intros (j & Hj & Hf). destruct (decide (j = i)) as [->|]; [by left|right; exists j; split; [lia|done]].
    - intros [Hf|(j & Hj & Hf)]; [exists i|exists j]; split; done || lia. }
  assert ((∀ size f, 0 < size → ¬ fits size cl i f) →
    returns (pa_next_loop n (i + 1) cl p) (λ p',
      let s' := EarlyPmmState cl p' in
      pa_ok s' ∧ (∀ j, pa_reg p' = Some j → i <= j < Z.of_nat (length cl)) ∧
      ∀ size f, 0 < size → available size s' f ↔ ∃ j, i <= j ∧ fits size cl j f)) as Hskip.
  { intros Hno. eapply runs_mono; [apply (IH (i + 1)); lia| |done].
    intros p' (Hok & Hj & Hav). split_and!; [done| |].
    - intros j Hpj. specialize (Hj j Hpj). lia.
    - intros size f Hsz. rewrite Hav, Hsplit by done. specialize (Hno size f Hsz). tauto. }
  case_bool_decide as Hty.
  { apply Hskip. intros size f _ (_ & _ & r' & Hr' & Ht & _). simplify_eq. }
  destruct (Z.leb_spec (pr_end r) MIN_USABLE_PADDR) as [Hlow|Hlow].
  { apply Hskip. intros size f Hsz (_ & Hf & r' & Hr' & _ & _ & He). simplify_eq. lia. }
  assert (max_u64 MIN_USABLE_PADDR (pr_start r) = Z.max MIN_USABLE_PADDR (pr_start r)) as Hmax
    by (unfold max_u64; destruct (Z.ltb_spec (pr_start r) MIN_USABLE_PADDR); lia).
  pose proof (PAGE_ALIGN_UP_bounds (max_u64 MIN_USABLE_PADDR (pr_start r))) as [Hc1 Hc2];
    [rewrite Hmax; lia|rewrite Hmax; unfold PAGE_SIZE, MIN_USABLE_PADDR; lia|].
  rewrite Hmax in *.
  apply lookup_lt_Some in Hr as Hlt.
  split_and!.
  - split_and!; [done|done|]. exists r. unfold PAGE_SIZE, MIN_USABLE_PADDR in *. split_and!; done || simpl; lia.
  - intros j. simpl. intros. simplify_eq. lia.
  - intros size f Hsz. unfold available. simpl. split.
    + intros (j & Hj & Hf & _). eauto.
    + intros (j & Hj & Hf). exists j. split_and!; [done..|]. intros ->.
      destruct Hf as (Hal & Hmin & r' & Hr' & _ & Hs & _). simplify_eq.
      unfold PAGE_SIZE in *. zlia.
Qed.
End bump.

Section bump_alloc.
Context (cl : list phys_region).
Hypothesis Hwf : regions_wf cl.
Hypothesis Hbd : regions_bounded cl.
Hypothesis Hlen : Z.of_nat (length cl) < 2 ^ 64.

(** What one request of [size] bytes may return. *)
Definition alloc_post (size : Z) (s : early_pmm) (ret : Z * early_pmm) : Prop :=
  let '(p, s') := ret in
  clean s' = cl ∧ pa_ok s' ∧
  ((p = NULL ∧ pa_reg (pa s') = None ∧ ∀ f, ¬ available size s f) ∨
   (available size s p ∧ is_Some (pa_reg (pa s')) ∧
    ∀ f, available PAGE_SIZE s' f → available PAGE_SIZE s f ∧ p + size <= f)).

Lemma bump_here size s i r : clean s = cl → pa_ok s → pa_reg (pa s) = Some i →
  cl !! Z.to_nat i = Some r → 0 < size <= 2 ^ 53 → size mod PAGE_SIZE = 0 →
  pa_cursor (pa s) + size <= pr_end r →
  alloc_post size s (pa_cursor (pa s),
    EarlyPmmState cl (PaState (Some i) (pa_idx (pa s)) (pa_cursor (pa s) + size))).
Proof using Hwf Hbd.
  intros Hcl Hok Hreg Hr Hsz Hmul Hfit. unfold pa_ok in Hok. rewrite Hreg, Hcl in Hok.
  destruct Hok as (Hidx & Hi & r' & Hr' & Hty & Hal & Hmin & Hst).
  assert (r' = r) as -> by congruence. subst i.
  destruct (bounded_lookup cl Hwf Hbd _ _ Hr) as [_ Hend].
  split_and!; [done| |].
  - split_and!; [done..|]. exists r. unfold PAGE_SIZE in *. split_and!; simpl; done || lia || zlia.
  - right. unfold available, fits. rewrite Hreg, Hcl. simpl. split; [|split; [done|]].
    + exists (pa_idx (pa s)). split_and!; try lia. exists r. done.
    + intros f (j & Hj & Hf & Hcur). split.
      * exists j. split_and!; [done|apply Hf..|]. intros ->. specialize (Hcur eq_refl). lia.
      * destruct (decide (j = pa_idx (pa s))) as [->|]; [by apply Hcur|].
        destruct Hf as (_ & _ & r2 & Hr2 & _ & Hs2 & _).
        pose proof (regions_wf_ordered cl (Z.to_nat (pa_idx (pa s))) (Z.to_nat j) r r2 Hwf ltac:(lia) Hr Hr2). lia.
Qed.

Lemma available_tail size s i f : clean s = cl → pa_reg (pa s) = Some i →
  (∃ j, i + 1 <= j ∧ fits size cl j f) → available size s f.
Proof.
  intros Hcl Hreg (j & Hj & Hf). unfold available. rewrite Hreg, Hcl.
  exists j. split_and!; [lia|done|lia].
Qed.

Lemma pa_next_spec s : clean s = cl → 0 <= u64 (pa_idx (pa s) + 1) <= Z.of_nat (length cl) →
  returns (pa_next s) (λ s', let i := u64 (pa_idx (pa s) + 1) in
    clean s' = cl ∧ pa_ok s' ∧ (∀ j, pa_reg (pa s') = Some j → i <= j < Z.of_nat (length cl)) ∧
    ∀ size f, 0 < size → available size s' f ↔ ∃ j, i <= j ∧ fits size cl j f).
Proof using Hwf Hbd.
  intros Hcl Hi. unfold pa_next. rewrite Hcl.
  eapply runs_bind; [apply (pa_next_loop_spec cl Hwf Hbd); lia|]. intros p' Hp'. by split.
Qed.

(** Nothing is lost when the cursor leaves a region that is too small. *)
Lemma available_skip size s i r f : clean s = cl → pa_reg (pa s) = Some i → 0 <= i →
  cl !! Z.to_nat i = Some r → pr_end r < pa_cursor (pa s) + size →
  available size s f ↔ ∃ j, i + 1 <= j ∧ fits size cl j f.
Proof.
  intros Hcl Hreg Hi Hr Hfull. split; [|by apply available_tail].
  unfold available. rewrite Hreg, Hcl. intros (j & Hj & Hf & Hcur). exists j. split; [|done].
  destruct (decide (j = i)) as [->|]; [|lia]. specialize (Hcur eq_refl).
  destruct Hf as (_ & _ & r' & Hr' & _ & _ & He). assert (r' = r) as -> by congruence. lia.
Qed.

Lemma early_alloc_loop_spec fuel size s : clean s = cl → pa_ok s →
  0 < size <= 2 ^ 53 → size mod PAGE_SIZE = 0 →
  match pa_reg (pa s) with Some i => Z.of_nat (length cl) - i < Z.of_nat fuel | None => (0 < fuel)%nat end →
  returns (early_alloc_loop fuel size s) (alloc_post size s).
Proof using Hwf Hbd Hlen.
  revert s. induction fuel as [|fuel IH]; intros s Hcl Hok Hsz Hmul Hfuel.
  { destruct (pa_reg (pa s)) as [i|] eqn:E; [|lia]. unfold pa_ok in Hok. rewrite E in Hok.
    destruct Hok as (_ & Hi & r & Hr & _). apply lookup_lt_Some in Hr. rewrite Hcl in Hr. lia. }
  cbn [early_alloc_loop]. destruct (pa_reg (pa s)) as [i|] eqn:Hreg.
  2:{ split_and!; [done..|]. left. split_and!; [done..|]. intros f Hf. unfold available in Hf. by rewrite Hreg in Hf. }
  pose proof Hok as Hok'. unfold pa_ok in Hok'. rewrite Hreg, Hcl in Hok'.
  destruct Hok' as (Hidx & Hi & r & Hr & Hty & Hal & Hmin & Hst).
  rewrite Hcl. assert (arr_get cl i = Ok r) as -> by (apply arr_get_Ok; done). cbn [mbind res_bind].
  rewrite u64_small by (unfold MIN_USABLE_PADDR in *; lia).
  destruct (Z.leb_spec (pa_cursor (pa s) + size) (pr_end r)) as [Hfit|Hfit]; [by eapply bump_here|].
  apply lookup_lt_Some in Hr as Hlt.
  assert (u64 (pa_idx (pa s) + 1) = i + 1) as Hu by (rewrite u64_small; lia).
  eapply runs_bind; [apply pa_next_spec; [done|lia]|].
  cbn zeta. rewrite Hu. intros s1 (Hcl1 & Hok1 & Hj1 & Hav1).
  eapply runs_mono; [apply IH; try done| |done].
  { destruct (pa_reg (pa s1)) as [j|]; [specialize (Hj1 j eq_refl)|]; lia. }
  assert (∀ f, available size s1 f ↔ available size s f) as Heq.
  { intros f. rewrite Hav1 by lia. symmetry. by eapply available_skip. }
  intros [p s2] (Hcl2 & Hok2 & [(-> & Hnone & Hno)|(Hp & Hs2 & Hrest)]); split_and!; try done.
  - left. split_and!; [done..|]. intros f. by rewrite <- Heq.
  - right. rewrite <- Heq. split_and!; [done..|]. intros f Hf. destruct (Hrest f Hf) as [Hf1 ?].
    split; [|done]. apply (available_tail _ s i); [done..|]. by apply Hav1.
Qed.
End bump_alloc.

(** Early frame allocation.  On a sanitised map, [early_pmm_alloc_frame]
    always returns: either a page-aligned frame above the first MiB that lies
    inside a usable region and was still available, after which only frames
    beyond it are available (so no frame is handed out twice), or NULL, and
    then no frame was available at all. *)
Theorem early_alloc_frame_correct s :
  regions_wf (clean s) → regions_bounded (clean s) → Z.of_nat (length (clean s)) < 2 ^ 64 → pa_ok s →
  returns (early_pmm_alloc_frame s) (λ '(p, s'),
    clean s' = clean s ∧ pa_ok s' ∧
    ((p = NULL ∧ ∀ f, ¬ available PAGE_SIZE s f) ∨
     (available PAGE_SIZE s p ∧ p ≠ NULL ∧ p mod PAGE_SIZE = 0 ∧
      (∃ r, r ∈ clean s ∧ pr_type r = PHYS_REGION_USABLE ∧ pr_start r <= p ∧ p + PAGE_SIZE <= pr_end r) ∧
      ∀ f, available PAGE_SIZE s' f → available PAGE_SIZE s f ∧ p + PAGE_SIZE <= f))).
Proof.
  intros Hwf Hbd Hlen Hok. unfold early_pmm_alloc_frame.
  eapply runs_mono; [apply (early_alloc_loop_spec (clean s)); try done| |done].
  - unfold early_fuel, pa_ok in *. destruct (pa_reg (pa s)); lia.
  - intros [p s'] (Hcl & Hok' & [(? & ? & ?)|(Hp & _ & Hrest)]); split_and!; try done; [by left|right].
    split_and!; try done; unfold available in Hp; destruct (pa_reg (pa s)) as [i|]; try done;
      destruct Hp as (j & _ & (Hal & Hmin & r & Hr & Hty & Hs & He) & _).
    + unfold MIN_USABLE_PADDR, NULL in *. lia.
    + done.
    + exists r. split_and!; try done. by eapply list_elem_of_lookup_2.
Qed.

Definition demo_early : early_pmm :=
  EarlyPmmState
    [PhysRegion 0 0x9f000 PHYS_REGION_USABLE; PhysRegion 0x100000 0x1000000 PHYS_REGION_USABLE;
     PhysRegion 0x1000000 0x1100000 PHYS_REGION_RESERVED; PhysRegion 0x1100000 0x8000000 PHYS_REGION_USABLE]
    (PaState (Some 1) 1 0x100000).

Lemma demo_early_wf : regions_wf (clean demo_early) ∧ regions_bounded (clean demo_early) ∧
  Z.of_nat (length (clean demo_early)) < 2 ^ 64 ∧ pa_ok demo_early.
Proof.
  split; [|split; [|split; [simpl; lia|]]].
  - cbn. repeat split; try lia; (left; simpl; lia) || (right; done).
  - intros r Hr. cbn in Hr. repeat (apply elem_of_cons in Hr as [->|Hr]; [simpl; lia|]). set_solver.
  - split_and!; [done|done|]. exists (PhysRegion 0x100000 0x1000000 PHYS_REGION_USABLE). done.
Qed.

Lemma early_alloc_frame_correct_witness :
  early_pmm_alloc_frame demo_early = Ok (0x100000, EarlyPmmState (clean demo_early) (PaState (Some 1) 1 0x101000)) ∧
  returns (early_pmm_alloc_frame demo_early) (λ '(p, s'),
    clean s' = clean demo_early ∧ pa_ok s' ∧
    ((p = NULL ∧ ∀ f, ¬ available PAGE_SIZE demo_early f) ∨
     (available PAGE_SIZE demo_early p ∧ p ≠ NULL ∧ p mod PAGE_SIZE = 0 ∧
      (∃ r, r ∈ clean demo_early ∧ pr_type r = PHYS_REGION_USABLE ∧ pr_start r <= p ∧ p + PAGE_SIZE <= pr_end r) ∧
      ∀ f, available PAGE_SIZE s' f → available PAGE_SIZE demo_early f ∧ p + PAGE_SIZE <= f))).
Proof.
  split; [vm_compute; reflexivity|]. apply early_alloc_frame_correct; apply demo_early_wf.
Defined.

(** The early allocator behind [pmm_current_alloc_frame]. *)
#[export] Program Instance early_frame_allocator : FrameAllocator early_pmm := {|
  fa_alloc := early_pmm_alloc_frame;
  fa_inv s := regions_wf (clean s) ∧ regions_bounded (clean s) ∧
    Z.of_nat (length (clean s)) < 2 ^ 64 ∧ pa_ok s;
  fa_avail := available PAGE_SIZE
|}.
Next Obligation.
  intros s p (Hwf & Hbd & _ & _) Hp. unfold available in Hp.
  destruct (pa_reg (pa s)) as [i|]; [|done].
  destruct Hp as (j & _ & (Hal & Hmin & r & Hr & _ & _ & He) & _).
  destruct (bounded_lookup _ Hwf Hbd _ _ Hr) as [_ Hend].
  unfold PAGE_SIZE, MIN_USABLE_PADDR in *. lia.
Qed.
Next Obligation.
  intros s (Hwf & Hbd & Hlen & Hok). unfold early_pmm_alloc_frame.
  eapply runs_mono; [apply (early_alloc_loop_spec (clean s)); try done| |done].
  - unfold early_fuel, pa_ok in *. destruct (pa_reg (pa s)); lia.
  - intros [p s'] (Hcl & Hok' & Hcase). rewrite Hcl. split; [done|].
    destruct Hcase as [(-> & Hnone & Hno)|(Hp & _ & Hrest)]; [left|right].
    + split_and!; [done..|]. intros f. unfold available. rewrite Hnone. by intros [].
    + split_and!; [done| |intros f Hf; by apply Hrest].
      intros Hp'. apply Hrest in Hp' as [_ ?]. unfold PAGE_SIZE in *. lia.
Qed.
