(* ===== verification/Pmm.v ===== *)
(** * The bitmap frame allocator (mm/pmm.c)

    One bit per physical frame, set when the frame is taken.  [bitmap] is the
    byte array the allocator owns; its length is the C variable [size], and an
    access outside it is a [Fault].  [taken] is the abstract view: frame
    numbers beyond the bitmap count as taken. *)

From S2P Require Import Prelude Types FrameAlloc EarlyPmm.

Record pmm := Pmm { bitmap : list Z }.

Definition pmm_size (s : pmm) : Z := Z.of_nat (length (bitmap s)).

(** ** Operations *)

(** [for (uint8_t b = 0; b < 8; b++)] of [pmm_alloc_frame]: the first clear bit. *)
Fixpoint find_free_bit (n : nat) (b byte : Z) : option Z :=
  match n with
  | O => None
  | S n' => if Z.land byte (Z.shiftl 1 b) =? 0 then Some b else find_free_bit n' (b + 1) byte
  end.

Fixpoint pmm_alloc_frame_loop (n : nat) (i : Z) (bm : list Z) : res (Z * list Z) :=
  match n with
  | O => Ok (NULL, bm)
  | S n' =>
      byte ← arr_get bm i;
      if byte =? 0xff then pmm_alloc_frame_loop n' (i + 1) bm else
      match find_free_bit 8 0 byte with
      | Some b =>
          bm' ← arr_set bm i (u8 (Z.lor byte (Z.shiftl 1 b)));
          Ok (u64 ((i * 8 + b) * PAGE_SIZE), bm')
      | None => pmm_alloc_frame_loop n' (i + 1) bm
      end
  end.

Definition pmm_alloc_frame (s : pmm) : res (Z * pmm) :=
  '(p, bm) ← pmm_alloc_frame_loop (length (bitmap s)) 0 (bitmap s);
  Ok (p, Pmm bm).

Definition pmm_free_frame (paddr : Z) (s : pmm) : res pmm :=
  if IS_PAGE_ALIGNED paddr =? 0 then Panic "pmm_free_frame: trying to free unlaigned addr" else
  let frame_no := PAGE_ALIGN_DOWN paddr / PAGE_SIZE in
  let byte_idx := frame_no / 8 in
  let bit_idx := u8 (frame_no mod 8) in
  byte ← arr_get (bitmap s) byte_idx;
  if Z.land byte (Z.shiftl 1 bit_idx) =? 0 then
    Panic "pmm_free_frame: trying to free a frame that doesn't exist."
  else
    bm ← arr_set (bitmap s) byte_idx (u8 (Z.land byte (Z.lnot (Z.shiftl 1 bit_idx))));
    Ok (Pmm bm).

(** Set, respectively clear, the bit of frame [i]: the bodies of the loops of
    [mark_taken] and [pmm_free_contiguous_frames]. *)
Definition set_bit (i : Z) (bm : list Z) : res (list Z) :=
  byte ← arr_get bm (i / 8);
  arr_set bm (i / 8) (u8 (Z.lor byte (Z.shiftl 1 (i mod 8)))).

Definition clear_bit (i : Z) (bm : list Z) : res (list Z) :=
  byte ← arr_get bm (i / 8);
  arr_set bm (i / 8) (u8 (Z.land byte (Z.lnot (Z.shiftl 1 (i mod 8))))).

Definition mark_taken (pfn_start count : Z) (bm : list Z) : res (list Z) :=
  for_range (Z.to_nat count) pfn_start set_bit bm.

(** The [for] loop of [check_for_contiguous_frames]: from frame [i], at most
    [n] free frames are stepped over; the result is the final [i] and [count]. *)
Fixpoint contiguous_scan (n : nat) (i : Z) (bm : list Z) : res (Z * nat) :=
  match n with
  | O => Ok (i, O)
  | S n' =>
      if i / 8 <? Z.of_nat (length bm) then
        byte ← arr_get bm (i / 8);
        if Z.land byte (Z.shiftl 1 (i mod 8)) =? 0 then contiguous_scan n' (i + 1) bm
        else Ok (i, n)
      else Ok (i, n)
  end.

(** Returns (found, idx, b). *)
Definition check_for_contiguous_frames (count idx b : Z) (bm : list Z) : res (bool * Z * Z) :=
  '(i, rest) ← contiguous_scan (Z.to_nat count) (idx * 8 + b) bm;
  let i := if (rest =? 0)%nat then i else i + 1 in
  Ok ((rest =? 0)%nat, i / 8, i mod 8).

Fixpoint contiguous_loop (fuel : nat) (count idx b : Z) (bm : list Z) : res (Z * list Z) :=
  match fuel with
  | O => OutOfFuel
  | S fuel' =>
      if idx <? Z.of_nat (length bm) then
        byte ← arr_get bm idx;
        if byte =? 0xff then contiguous_loop fuel' count (idx + 1) 0 bm else
        '(found, idx', b') ← check_for_contiguous_frames count idx b bm;
        if (found : bool) then
          bm' ← mark_taken (idx * 8 + b) count bm;
          Ok (u64 ((idx * 8 + b) * PAGE_SIZE), bm')
        else contiguous_loop fuel' count idx' b' bm
      else Ok (NULL, bm)
  end.

Definition contiguous_fuel (bm : list Z) : nat := (8 * length bm + 1)%nat.

Definition pmm_alloc_contiguous_frames (count : Z) (s : pmm) : res (Z * pmm) :=
  if count =? 0 then Panic "pmm_alloc_contiguous_frames: count must be > 0."
  else if count =? 1 then pmm_alloc_frame s
  else
    '(p, bm) ← contiguous_loop (contiguous_fuel (bitmap s)) count 0 0 (bitmap s);
    Ok (p, Pmm bm).

Definition pmm_free_contiguous_frames (paddr count : Z) (s : pmm) : res pmm :=
  if IS_PAGE_ALIGNED paddr =? 0 then Panic "pmm_free_contiguous_frames: paddr not page aligned." else
  bm ← for_range (Z.to_nat count) (paddr / PAGE_SIZE) clear_bit (bitmap s);
  Ok (Pmm bm).

(** The inner [for (uint8_t b = lo; b < hi; b++) bitmap[byte] &= ~(1 << b)]. *)
Definition clear_bits_in_byte (byte lo hi : Z) (bm : list Z) : res (list Z) :=
  for_range (Z.to_nat (hi - lo)) lo (λ b bm,
    x ← arr_get bm byte;
    arr_set bm byte (u8 (Z.land x (Z.lnot (Z.shiftl 1 b))))) bm.

(** One iteration of the region loop of [pmm_init]. *)
Definition pmm_init_region (cursor : Z) (r : phys_region) (bm : list Z) : res (list Z) :=
  if bool_decide (pr_type r ≠ PHYS_REGION_USABLE) || (pr_end r <=? cursor) then Ok bm else
  let start := pr_start r in
  let start := if start <? MIN_USABLE_PADDR then MIN_USABLE_PADDR else start in
  let start := if start <? cursor then cursor else start in
  let sframe := PAGE_ALIGN_UP start / PAGE_SIZE in
  let eframe := PAGE_ALIGN_DOWN (pr_end r) / PAGE_SIZE in
  if eframe <=? sframe then Ok bm else
  let sbyte := sframe / 8 in let ebyte := eframe / 8 in
  let sbit := sframe mod 8 in let ebit := eframe mod 8 in
  if sbyte =? ebyte then clear_bits_in_byte sbyte sbit ebit bm
  else
    bm1 ← clear_bits_in_byte sbyte sbit 8 bm;
    bm2 ← clear_bits_in_byte ebyte 0 ebit bm1;
    for_range (Z.to_nat (ebyte - (sbyte + 1))) (sbyte + 1) (λ i bm, arr_set bm i 0) bm2.

Fixpoint pmm_init_loop (cursor : Z) (regions : list phys_region) (bm : list Z) : res (list Z) :=
  match regions with
  | [] => Ok bm
  | r :: rest => bm' ← pmm_init_region cursor r bm; pmm_init_loop cursor rest bm'
  end.

(** Returns (status, the early allocator's state, the bitmap). *)
Definition pmm_init (s : early_pmm) : res (Z * early_pmm * pmm) :=
  let max_paddr := early_pmm_get_max_usable (clean s) in
  let frame_count := PAGE_ALIGN_UP max_paddr / PAGE_SIZE in
  let size := (frame_count + 7) / 8 in
  let size_in_frame := PAGE_ALIGN_UP size / PAGE_SIZE in
  '(bm_phys, s') ← early_pmm_alloc_continuous_frames size_in_frame s;
  if bm_phys =? NULL then Ok (- ENOMEM, s', Pmm []) else
  let bm := replicate (Z.to_nat size) 0xff in
  let cur_cursor := ealry_pmm_get_cursor s' in
  bm' ← pmm_init_loop cur_cursor (clean s') bm;
  Ok (0, s', Pmm bm').

(** ** The abstract view *)

Definition taken (bm : list Z) (n : Z) : bool := Z.testbit (znth 0xff bm (n / 8)) (n mod 8).

Definition bm_wf (bm : list Z) : Prop := Forall (λ x, 0 <= x < 2 ^ 8) bm.

(** No frame of [[n, n+count)] is taken. *)
Definition free_run (bm : list Z) (n count : Z) : Prop := ∀ k, n <= k < n + count → taken bm k = false.

Lemma znth_wf bm i : bm_wf bm → 0 <= znth 0xff bm i < 2 ^ 8.
Proof.
  intros Hwf. unfold znth. destruct (bm !! Z.to_nat i) eqn:E; simpl; [|lia].
  eapply Forall_lookup_1 in Hwf; [|done]. done.
Qed.

(** Every bit of the byte 0xff is set. *)
Lemma testbit_ff m : 0 <= m < 8 → Z.testbit 0xff m = true.
Proof.
  intros Hm. assert (m = 0 ∨ m = 1 ∨ m = 2 ∨ m = 3 ∨ m = 4 ∨ m = 5 ∨ m = 6 ∨ m = 7) as Hc by lia.
  by destruct Hc as [->|[->|[->|[->|[->|[->|[->| ->]]]]]]].
Qed.

Lemma taken_beyond bm n : 8 * Z.of_nat (length bm) <= n → taken bm n = true.
Proof.
  intros Hn. unfold taken, znth. rewrite lookup_ge_None_2 by zlia. simpl. apply testbit_ff. zlia.
Qed.

Lemma byte_ff x : 0 <= x < 2 ^ 8 → (∀ m, 0 <= m < 8 → Z.testbit x m = true) → x = 0xff.
Proof.
  intros Hx Hb. apply Z.bits_inj'. intros n Hn. destruct (decide (n < 8)).
  - by rewrite Hb, testbit_ff by lia.
  - by rewrite !(testbit_above 8) by lia.
Qed.

Lemma testbit_u8 x m : 0 <= m < 8 → Z.testbit (u8 x) m = Z.testbit x m.
Proof. intros. unfold u8. by rewrite Z.mod_pow2_bits_low by lia. Qed.

(** Writing byte [i] changes the bits of frames [8i .. 8i+7] only. *)
Lemma taken_insert bm i x n : 0 <= i < Z.of_nat (length bm) → 0 <= n →
  taken (<[Z.to_nat i := x]> bm) n = if decide (n / 8 = i) then Z.testbit x (n mod 8) else taken bm n.
Proof.
  intros Hi Hn. unfold taken. case_decide as E.
  - rewrite E, znth_insert_eq by done. done.
  - rewrite znth_insert_ne by zlia. done.
Qed.

Lemma bm_wf_insert bm i x : bm_wf bm → bm_wf (<[i := u8 x]> bm).
Proof. intros. apply Forall_insert; [done|]. apply u8_range. Qed.

Lemma set_bit_spec k bm : 0 <= k < 8 * Z.of_nat (length bm) → bm_wf bm →
  returns (set_bit k bm) (λ bm', length bm' = length bm ∧ bm_wf bm' ∧
    ∀ n, 0 <= n → taken bm' n = bool_decide (n = k) || taken bm n).
Proof.
  intros Hk Hwf. unfold set_bit. rewrite (arr_get_znth 0xff) by zlia. simpl.
  rewrite arr_set_Ok by zlia. split_and!; [by rewrite length_insert|by apply bm_wf_insert|].
  intros n Hn. rewrite taken_insert by zlia. case_decide as E.
  - rewrite testbit_u8, testbit_lor_bit by zlia. rewrite <- E. fold (taken bm n).
    f_equal. apply bool_decide_ext. zlia.
  - rewrite bool_decide_eq_false_2; [done|]. intros ->. done.
Qed.

Lemma clear_bit_spec k bm : 0 <= k < 8 * Z.of_nat (length bm) → bm_wf bm →
  returns (clear_bit k bm) (λ bm', length bm' = length bm ∧ bm_wf bm' ∧
    ∀ n, 0 <= n → taken bm' n = negb (bool_decide (n = k)) && taken bm n).
Proof.
  intros Hk Hwf. unfold clear_bit. rewrite (arr_get_znth 0xff) by zlia. simpl.
  rewrite arr_set_Ok by zlia. split_and!; [by rewrite length_insert|by apply bm_wf_insert|].
  intros n Hn. rewrite taken_insert by zlia. case_decide as E.
  - rewrite testbit_u8, testbit_clear_bit by zlia. rewrite <- E. fold (taken bm n).
    f_equal. f_equal. apply bool_decide_ext. zlia.
  - rewrite bool_decide_eq_false_2; [done|]. intros ->. done.
Qed.

(** [mark_taken] and the freeing loop act on exactly the frames of the range. *)
Definition in_range (lo hi n : Z) : bool := (lo <=? n) && (n <? hi).

Lemma in_range_spec lo hi n : in_range lo hi n = true ↔ lo <= n < hi.
Proof. unfold in_range. rewrite andb_true_iff, Z.leb_le, Z.ltb_lt. done. Qed.

Lemma in_range_succ lo k n : lo <= k → in_range lo (k + 1) n = bool_decide (n = k) || in_range lo k n.
Proof.
  intros. apply eq_iff_eq_true. rewrite orb_true_iff, !in_range_spec, bool_decide_eq_true. lia.
Qed.

Lemma mark_taken_spec lo count bm : 0 <= lo → 0 <= count → lo + count <= 8 * Z.of_nat (length bm) → bm_wf bm →
  returns (mark_taken lo count bm) (λ bm', length bm' = length bm ∧ bm_wf bm' ∧
    ∀ n, 0 <= n → taken bm' n = in_range lo (lo + count) n || taken bm n).
Proof.
  intros Hlo Hc Hlen Hwf. unfold mark_taken.
  apply (for_range_upto (λ hi bm', length bm' = length bm ∧ bm_wf bm' ∧
    ∀ n, 0 <= n → taken bm' n = in_range lo hi n || taken bm n)); [lia|f_equal; lia|..].
  - split_and!; [done..|]. intros n Hn. unfold in_range. destruct (Z.leb_spec lo n); destruct (Z.ltb_spec n lo); done || lia.
  - intros k bm1 Hk (Hl & Hwf1 & Ht). eapply runs_mono; [apply set_bit_spec; [lia|done]| |done].
    intros bm2 (Hl2 & Hwf2 & Ht2). split_and!; [lia|done|]. intros n Hn.
    rewrite Ht2, Ht, in_range_succ by lia. by rewrite orb_assoc.
Qed.

Lemma clear_range_spec lo count bm : 0 <= lo → 0 <= count → lo + count <= 8 * Z.of_nat (length bm) → bm_wf bm →
  returns (for_range (Z.to_nat count) lo clear_bit bm) (λ bm', length bm' = length bm ∧ bm_wf bm' ∧
    ∀ n, 0 <= n → taken bm' n = negb (in_range lo (lo + count) n) && taken bm n).
Proof.
  intros Hlo Hc Hlen Hwf.
  apply (for_range_upto (λ hi bm', length bm' = length bm ∧ bm_wf bm' ∧
    ∀ n, 0 <= n → taken bm' n = negb (in_range lo hi n) && taken bm n)); [lia|f_equal; lia|..].
  - split_and!; [done..|]. intros n Hn. unfold in_range. destruct (Z.leb_spec lo n); destruct (Z.ltb_spec n lo); done || lia.
  - intros k bm1 Hk (Hl & Hwf1 & Ht). eapply runs_mono; [apply clear_bit_spec; [lia|done]| |done].
    intros bm2 (Hl2 & Hwf2 & Ht2). split_and!; [lia|done|]. intros n Hn.
    rewrite Ht2, Ht, in_range_succ by lia. by rewrite negb_orb, andb_assoc.
Qed.

(** ** Single frames *)

Lemma find_free_bit_spec n b byte : 0 <= b →
  match find_free_bit n b byte with
  | Some m => b <= m < b + Z.of_nat n ∧ Z.testbit byte m = false ∧ ∀ k, b <= k < m → Z.testbit byte k = true
  | None => ∀ k, b <= k < b + Z.of_nat n → Z.testbit byte k = true
  end.
Proof.
  revert b. induction n as [|n IH]; intros b Hb; cbn [find_free_bit]; [lia|].
  rewrite land_bit_0 by done. destruct (Z.testbit byte b) eqn:E; cbn [negb].
  - specialize (IH (b + 1) ltac:(lia)). destruct (find_free_bit n (b + 1) byte) as [m|].
    + destruct IH as (Hm & Hf & Hk). split_and!; [lia..|done|].
      intros k Hk'. destruct (decide (k = b)) as [->|]; [done|]. apply Hk. lia.
    + intros k Hk'. destruct (decide (k = b)) as [->|]; [done|]. apply IH. lia.
  - split_and!; [lia..|done|lia].
Qed.

(** The result of a search for one frame: the lowest free one, now taken. *)
Definition first_free (bm : list Z) (n : Z) : Prop :=
  0 <= n < 8 * Z.of_nat (length bm) ∧ taken bm n = false ∧ ∀ k, 0 <= k < n → taken bm k = true.

Definition takes (bm : list Z) (lo count : Z) (bm' : list Z) : Prop :=
  length bm' = length bm ∧ bm_wf bm' ∧
  ∀ n, 0 <= n → taken bm' n = in_range lo (lo + count) n || taken bm n.

Lemma pmm_alloc_frame_loop_spec n i bm : bm_wf bm → Z.of_nat (length bm) <= 2 ^ 40 →
  0 <= i → Z.of_nat n = Z.of_nat (length bm) - i → (∀ k, 0 <= k < 8 * i → taken bm k = true) →
  returns (pmm_alloc_frame_loop n i bm) (λ '(p, bm'),
    (p = NULL ∧ bm' = bm ∧ ∀ k, 0 <= k → taken bm k = true) ∨
    (∃ f, p = f * PAGE_SIZE ∧ first_free bm f ∧ takes bm f 1 bm')).
Proof.
  intros Hwf Hlen. revert i. induction n as [|n IH]; intros i Hi Hn Hbefore; cbn [pmm_alloc_frame_loop].
  { left. split_and!; [done..|]. intros k Hk.
    destruct (decide (k < 8 * i)); [apply Hbefore; lia|apply taken_beyond; lia]. }
  rewrite (arr_get_znth 0xff) by lia. cbn [mbind res_bind].
  pose proof (znth_wf bm i Hwf) as Hbyte.
  assert ((∀ m, 0 <= m < 8 → Z.testbit (znth 0xff bm i) m = true) →
    ∀ k, 0 <= k < 8 * (i + 1) → taken bm k = true) as Hnext.
  { intros Hall k Hk. destruct (decide (k < 8 * i)); [apply Hbefore; lia|].
    unfold taken. replace (k / 8) with i by zlia. apply Hall. zlia. }
  destruct (Z.eqb_spec (znth 0xff bm i) 0xff) as [E|E].
  { apply IH; [lia..|]. apply Hnext. intros m Hm. rewrite E. by apply testbit_ff. }
  pose proof (find_free_bit_spec 8 0 (znth 0xff bm i) ltac:(lia)) as Hf.
  destruct (find_free_bit 8 0 (znth 0xff bm i)) as [b|].
  2:{ apply IH; [lia..|]. apply Hnext. intros m Hm. apply Hf. lia. }
  destruct Hf as (Hb & Hfree & Hlow). rewrite arr_set_Ok by lia. cbn [mbind res_bind].
  right. exists (i * 8 + b). split; [|split].
  - rewrite u64_small; unfold PAGE_SIZE; lia.
  - split; [lia|]. split.
    + unfold taken. replace ((i * 8 + b) / 8) with i by zlia. replace ((i * 8 + b) mod 8) with b by zlia. done.
    + intros k Hk. destruct (decide (k < 8 * i)); [apply Hbefore; lia|].
      unfold taken. replace (k / 8) with i by zlia. apply Hlow. zlia.
  - split_and!; [by rewrite length_insert|by apply bm_wf_insert|]. intros k Hk.
    rewrite taken_insert by lia. rewrite in_range_succ by lia.
    replace (in_range (i * 8 + b) (i * 8 + b) k) with false
      by (unfold in_range; destruct (Z.leb_spec (i * 8 + b) k); destruct (Z.ltb_spec k (i * 8 + b)); done || lia).
    rewrite orb_false_r. case_decide as Ek.
    + rewrite testbit_u8, testbit_lor_bit by zlia. unfold taken. rewrite Ek. f_equal.
      apply bool_decide_ext. zlia.
    + rewrite bool_decide_eq_false_2; [done|]. zlia.
Qed.

Lemma pmm_alloc_frame_spec s : bm_wf (bitmap s) → pmm_size s <= 2 ^ 40 →
  returns (pmm_alloc_frame s) (λ '(p, s'),
    (p = NULL ∧ s' = s ∧ ∀ k, 0 <= k → taken (bitmap s) k = true) ∨
    (∃ f, p = f * PAGE_SIZE ∧ first_free (bitmap s) f ∧ takes (bitmap s) f 1 (bitmap s'))).
Proof.
  intros Hwf Hlen. unfold pmm_alloc_frame.
  eapply runs_bind; [apply pmm_alloc_frame_loop_spec; [done|done|lia|lia|lia]|].
  intros [p bm] [(-> & -> & Hall)|Hf]; [left|by right]. by destruct s.
Qed.

(** ** Runs of frames *)

Lemma contiguous_scan_spec n i bm : bm_wf bm → 0 <= i →
  returns (contiguous_scan n i bm) (λ '(j, rest),
    i <= j ∧ Z.of_nat rest = Z.of_nat n - (j - i) ∧ (rest <= n)%nat ∧ free_run bm i (j - i) ∧
    (rest ≠ 0%nat → taken bm j = true)).
Proof.
  intros Hwf. revert i. induction n as [|n IH]; intros i Hi; cbn [contiguous_scan].
  { split_and!; try lia. intros k. lia. }
  destruct (Z.ltb_spec (i / 8) (Z.of_nat (length bm))) as [Hlt|Hge].
  2:{ split_and!; try lia; [intros k; lia|]. intros _. apply taken_beyond. zlia. }
  rewrite (arr_get_znth 0xff) by zlia. cbn [mbind res_bind]. rewrite land_bit_0 by zlia.
  fold (taken bm i). destruct (taken bm i) eqn:E; cbn [negb].
  - split_and!; try lia; [intros k; lia|done].
  - eapply runs_mono; [apply IH; lia| |done]. intros [j rest] (Hj & Hr & Hle & Hrun & Hstop).
    split_and!; try lia; [|done]. intros k Hk. destruct (decide (k = i)) as [->|]; [done|]. apply Hrun. lia.
Qed.

(** The search resumes after a taken frame: no run can start in between. *)
Definition no_run_before (bm : list Z) (count pos : Z) : Prop := ∀ n, 0 <= n < pos → ¬ free_run bm n count.

Lemma no_run_past bm count pos j : no_run_before bm count pos → taken bm j = true → pos <= j < pos + count →
  no_run_before bm count (j + 1).
Proof.
  intros Hno Hj Hpos n Hn Hrun. destruct (decide (n < pos)); [by apply (Hno n); [lia|]|].
  rewrite (Hrun j) in Hj by lia. done.
Qed.

Lemma free_run_bound bm n count : 0 < count → free_run bm n count → n + count <= 8 * Z.of_nat (length bm).
Proof.
  intros Hc Hrun. destruct (decide (n + count <= 8 * Z.of_nat (length bm))); [done|].
  specialize (Hrun (n + count - 1) ltac:(lia)). rewrite taken_beyond in Hrun by lia. done.
Qed.

Lemma contiguous_loop_spec fuel count idx b bm : bm_wf bm → Z.of_nat (length bm) <= 2 ^ 40 → 1 < count →
  0 <= idx → 0 <= b < 8 → Z.max 0 (8 * Z.of_nat (length bm) - (idx * 8 + b)) < Z.of_nat fuel →
  no_run_before bm count (idx * 8 + b) →
  returns (contiguous_loop fuel count idx b bm) (λ '(p, bm'),
    (p = NULL ∧ bm' = bm ∧ ∀ n, 0 <= n → ¬ free_run bm n count) ∨
    (∃ f, 0 <= f ∧ p = f * PAGE_SIZE ∧ free_run bm f count ∧ no_run_before bm count f ∧ takes bm f count bm')).
Proof.
  intros Hwf Hlen Hc. revert idx b. induction fuel as [|fuel IH]; intros idx b Hi Hb Hfuel Hno;
    cbn [contiguous_loop].
  { lia. }
  destruct (Z.ltb_spec idx (Z.of_nat (length bm))) as [Hlt|Hge].
  2:{ left. split_and!; [done..|]. intros n Hn Hrun.
      pose proof (free_run_bound bm n count ltac:(lia) Hrun). apply (Hno n); [lia|done]. }
  rewrite (arr_get_znth 0xff) by lia. cbn [mbind res_bind].
  destruct (Z.eqb_spec (znth 0xff bm idx) 0xff) as [E|E].
  { apply IH; try lia. intros n Hn Hrun. destruct (decide (n < idx * 8 + b)); [by apply (Hno n); [lia|]|].
    specialize (Hrun n ltac:(lia)). unfold taken in Hrun. replace (n / 8) with idx in Hrun by zlia.
    rewrite E, testbit_ff in Hrun by zlia. done. }
  unfold check_for_contiguous_frames.
  pose proof (contiguous_scan_spec (Z.to_nat count) (idx * 8 + b) bm Hwf ltac:(lia)) as Hscan.
  destruct (contiguous_scan (Z.to_nat count) (idx * 8 + b) bm) as [[j rest]| | |]; try done.
  destruct Hscan as (Hj & Hr & Hle & Hrun & Hstop). cbn [mbind res_bind].
  destruct (Nat.eqb_spec rest 0) as [->|Hne].
  - pose proof (free_run_bound bm (idx * 8 + b) count ltac:(lia)) as Hbd.
    assert (free_run bm (idx * 8 + b) count) as Hfree by (intros k Hk; apply Hrun; lia).
    eapply runs_bind; [apply mark_taken_spec; try lia; [by apply Hbd|done]|].
    intros bm' Htakes. right. exists (idx * 8 + b). split; [lia|]. split; [|done].
    rewrite u64_small; [done|]. specialize (Hbd Hfree). unfold PAGE_SIZE. lia.
  - apply IH; try zlia.
    replace ((j + 1) / 8 * 8 + (j + 1) mod 8) with (j + 1) by zlia.
    apply no_run_past with (pos := idx * 8 + b); [done|by apply Hstop|lia].
Qed.

(** Two well-formed bitmaps with the same bits are the same bytes. *)
Lemma bm_ext bm1 bm2 : bm_wf bm1 → bm_wf bm2 → length bm1 = length bm2 →
  (∀ n, 0 <= n → taken bm1 n = taken bm2 n) → bm1 = bm2.
Proof.
  intros H1 H2 Hl Ht. apply list_eq_same_length with (length bm2); [done..|].
  intros i x y Hi Hx Hy. pose proof (Forall_lookup_1 _ _ _ _ H1 Hx) as Bx.
  pose proof (Forall_lookup_1 _ _ _ _ H2 Hy) as By. cbn beta in Bx, By.
  apply Z.bits_inj'. intros m Hm. destruct (decide (m < 8)); [|by rewrite !(testbit_above 8) by lia].
  specialize (Ht (8 * Z.of_nat i + m) ltac:(lia)). unfold taken, znth in Ht.
  replace ((8 * Z.of_nat i + m) / 8) with (Z.of_nat i) in Ht by zlia.
  replace ((8 * Z.of_nat i + m) mod 8) with m in Ht by zlia.
  rewrite Nat2Z.id, Hx, Hy in Ht. done.
Qed.

(** The state the allocator keeps after initialisation: bytes, a bitmap of at
    most 2^40 bytes (physical addresses of 55 bits), frame 0 never free. *)
Definition pmm_ok (s : pmm) : Prop :=
  bm_wf (bitmap s) ∧ pmm_size s <= 2 ^ 40 ∧ taken (bitmap s) 0 = true.

(** C21: single-frame allocation.  [pmm_alloc_frame] returns the address of
    the lowest-numbered free frame, which is never NULL, marks that frame and
    no other, and keeps the invariant; it returns NULL exactly when every
    frame is taken, leaving the bitmap alone. *)
Theorem pmm_alloc_frame_correct s : pmm_ok s →
  returns (pmm_alloc_frame s) (λ '(p, s'), pmm_ok s' ∧
    ((p = NULL ∧ s' = s ∧ ∀ k, 0 <= k → taken (bitmap s) k = true) ∨
     (∃ f, p = f * PAGE_SIZE ∧ p ≠ NULL ∧ first_free (bitmap s) f ∧ takes (bitmap s) f 1 (bitmap s')))).
Proof.
  intros (Hwf & Hlen & H0). eapply runs_mono; [by apply pmm_alloc_frame_spec| |done].
  intros [p s'] [(-> & -> & Hall)|(f & -> & Hf & Ht)]; (split; [|eauto]); [done|..].
  - destruct Ht as (Hl & Hwf' & Ht). split_and!; [done|unfold pmm_size in *; lia|].
    rewrite Ht, H0 by lia. apply orb_true_r.
  - right. exists f. split_and!; try apply Ht; try apply Hf; [done|].
    destruct Hf as (Hf0 & Hff & _). assert (f ≠ 0) by congruence. unfold NULL, PAGE_SIZE. lia.
Qed.

Definition demo_pmm : pmm := Pmm [0xff; 0x1f; 0x00].

Lemma demo_pmm_ok : pmm_ok demo_pmm.
Proof. split_and!; [by repeat (constructor; [lia|])|vm_compute; discriminate|reflexivity]. Qed.

Lemma pmm_alloc_frame_correct_witness :
  pmm_alloc_frame demo_pmm = Ok (13 * PAGE_SIZE, Pmm [0xff; 0x3f; 0x00]) ∧
  returns (pmm_alloc_frame demo_pmm) (λ '(p, s'), pmm_ok s' ∧
    ((p = NULL ∧ s' = demo_pmm ∧ ∀ k, 0 <= k → taken (bitmap demo_pmm) k = true) ∨
     (∃ f, p = f * PAGE_SIZE ∧ p ≠ NULL ∧ first_free (bitmap demo_pmm) f ∧
        takes (bitmap demo_pmm) f 1 (bitmap s')))).
Proof. split; [vm_compute; reflexivity|]. apply pmm_alloc_frame_correct, demo_pmm_ok. Defined.

Lemma takes_ok s f count bm : pmm_ok s → takes (bitmap s) f count bm → pmm_ok (Pmm bm).
Proof.
  intros (Hwf & Hlen & H0) (Hl & Hwf' & Ht). split_and!; [done|unfold pmm_size in *; simpl; lia|].
  simpl. rewrite Ht, H0 by lia. apply orb_true_r.
Qed.

(** The outcome of a first-fit search for [count] frames. *)
Definition first_fit (s : pmm) (count : Z) (ret : Z * pmm) : Prop :=
  let '(p, s') := ret in
  pmm_ok s' ∧
  ((p = NULL ∧ s' = s ∧ ∀ n, 0 <= n → ¬ free_run (bitmap s) n count) ∨
   (∃ f, 0 < f ∧ p = f * PAGE_SIZE ∧ free_run (bitmap s) f count ∧
      no_run_before (bitmap s) count f ∧ takes (bitmap s) f count (bitmap s'))).

Lemma first_fit_one s p s' : pmm_ok s →
  (p = NULL ∧ s' = s ∧ (∀ k, 0 <= k → taken (bitmap s) k = true)) ∨
  (∃ f, p = f * PAGE_SIZE ∧ first_free (bitmap s) f ∧ takes (bitmap s) f 1 (bitmap s')) →
  first_fit s 1 (p, s').
Proof.
  intros Hok [(-> & -> & Hall)|(f & -> & Hf & Ht)].
  - split; [done|]. left. split_and!; [done..|]. intros n Hn Hrun.
    specialize (Hrun n ltac:(lia)). rewrite Hall in Hrun; done.
  - destruct s' as [bm]. split; [by eapply takes_ok|]. right. exists f.
    destruct Hf as (Hf & Hff & Hlow), Hok as (_ & _ & H0).
    split; [assert (f ≠ 0) by congruence; lia|]. split; [done|]. split; [|split; [|done]].
    + intros k Hk. by replace k with f by lia.
    + intros n Hn Hrun. specialize (Hrun n ltac:(lia)). rewrite Hlow in Hrun; done.
Qed.

Lemma alloc_contiguous_spec s count : pmm_ok s → 0 < count →
  returns (pmm_alloc_contiguous_frames count s) (first_fit s count).
Proof.
  intros Hok Hc. pose proof Hok as (Hwf & Hlen & H0). unfold pmm_alloc_contiguous_frames.
  destruct (Z.eqb_spec count 0); [lia|]. destruct (Z.eqb_spec count 1) as [->|].
  - eapply runs_mono; [by apply pmm_alloc_frame_spec| |done].
    intros [p s'] Hp. by apply first_fit_one.
  - eapply runs_bind; [apply contiguous_loop_spec; unfold contiguous_fuel, pmm_size in *; try lia; try done; intros k; lia|].
    intros [p bm] [(-> & -> & Hno)|(f & Hf & -> & Hrun & Hno & Ht)].
    + split; [by destruct s|]. left. by destruct s.
    + split; [by eapply takes_ok|]. right. exists f. split; [|done].
      assert (f ≠ 0); [|lia]. intros ->. rewrite Hrun in H0 by lia. done.
Qed.

(** C17: contiguous allocation.  For a non-zero [count],
    [pmm_alloc_contiguous_frames] terminates and is a first-fit search: it
    returns the lowest run of [count] free frames and marks exactly that run,
    or NULL with the bitmap unchanged, and then no such run exists. *)
Theorem pmm_alloc_contiguous_correct s count : pmm_ok s → 0 < count →
  returns (pmm_alloc_contiguous_frames count s) (first_fit s count).
Proof. apply alloc_contiguous_spec. Qed.

Lemma pmm_alloc_contiguous_correct_witness :
  pmm_alloc_contiguous_frames 5 demo_pmm = Ok (13 * PAGE_SIZE, Pmm [0xff; 0xff; 0x03]) ∧
  returns (pmm_alloc_contiguous_frames 5 demo_pmm) (first_fit demo_pmm 5).
Proof.
  split; [vm_compute; reflexivity|]. apply pmm_alloc_contiguous_correct; [apply demo_pmm_ok|reflexivity].
Defined.

(** ** Freeing *)

(** For an address whose frame the bitmap covers, [pmm_free_frame] clears that
    frame's bit and no other when the frame is taken, and panics when it is
    free (a double free is caught). *)
Lemma pmm_free_frame_spec s p : pmm_ok s → 0 <= p < 2 ^ 64 → p / PAGE_SIZE < 8 * pmm_size s →
  if taken (bitmap s) (p / PAGE_SIZE) then
    returns (pmm_free_frame p s) (λ s', length (bitmap s') = length (bitmap s) ∧ bm_wf (bitmap s') ∧
      ∀ n, 0 <= n → taken (bitmap s') n = negb (bool_decide (n = p / PAGE_SIZE)) && taken (bitmap s) n)
  else pmm_free_frame p s = Panic "pmm_free_frame: trying to free a frame that doesn't exist.".
Proof.
  intros (Hwf & Hlen & _) Hp Hrange. unfold pmm_free_frame. rewrite IS_PAGE_ALIGNED_guard.
  assert (PAGE_ALIGN_DOWN p / PAGE_SIZE = p / PAGE_SIZE) as ->.
  { rewrite PAGE_ALIGN_DOWN_spec by done. unfold PAGE_SIZE. zlia. }
  set (n := p / PAGE_SIZE) in *. assert (0 <= n) by (unfold n, PAGE_SIZE; zlia).
  unfold pmm_size in *. rewrite (arr_get_znth 0xff) by zlia. cbn [mbind res_bind].
  rewrite u8_small by zlia. rewrite land_bit_0 by zlia. fold (taken (bitmap s) n).
  destruct (taken (bitmap s) n) eqn:E; cbn [negb]; [|done].
  pose proof (clear_bit_spec n (bitmap s) ltac:(lia) Hwf) as Hclear. unfold clear_bit in Hclear.
  rewrite (arr_get_znth 0xff) in Hclear by zlia. cbn [mbind res_bind] in Hclear.
  eapply runs_bind; [exact Hclear|]. done.
Qed.

(** Freeing what was just allocated.  After a successful
    [pmm_alloc_contiguous_frames], [pmm_free_contiguous_frames] on the
    returned address and the same count succeeds and restores the bitmap byte
    for byte. *)
Theorem pmm_alloc_free_contiguous s count p s' : pmm_ok s → 0 < count →
  pmm_alloc_contiguous_frames count s = Ok (p, s') → p ≠ NULL →
  pmm_free_contiguous_frames p count s' = Ok s.
Proof.
  intros Hok Hc Halloc Hp. pose proof (alloc_contiguous_spec s count Hok Hc) as Hspec.
  rewrite Halloc in Hspec. destruct Hspec as [Hok' [(-> & _)|(f & Hf & -> & Hrun & _ & Hl & Hwf' & Ht)]]; [done|].
  pose proof Hok as (Hwf & Hlen & _). unfold pmm_free_contiguous_frames. rewrite IS_PAGE_ALIGNED_guard.
  replace (f * PAGE_SIZE / PAGE_SIZE) with f by (unfold PAGE_SIZE; zlia).
  pose proof (free_run_bound _ _ _ Hc Hrun).
  pose proof (clear_range_spec f count (bitmap s') ltac:(lia) ltac:(lia) ltac:(lia) Hwf') as Hclear.
  destruct (for_range (Z.to_nat count) f clear_bit (bitmap s')) as [bm| | |]; try done. cbn [mbind res_bind].
  destruct Hclear as (Hl2 & Hwf2 & Ht2). destruct s as [bm0]. f_equal. f_equal. simpl in *.
  apply bm_ext; [done|done|lia|]. intros n Hn. rewrite Ht2, Ht by done.
  destruct (in_range f (f + count) n) eqn:E; [|done]. apply in_range_spec in E. by rewrite Hrun.
Qed.

Lemma pmm_alloc_free_contiguous_witness :
  pmm_free_contiguous_frames (13 * PAGE_SIZE) 5 (Pmm [0xff; 0xff; 0x03]) = Ok demo_pmm.
Proof.
  apply (pmm_alloc_free_contiguous demo_pmm 5); [apply demo_pmm_ok|reflexivity|vm_compute; reflexivity|discriminate].
Defined.

(** The bitmap allocator behind [pmm_current_alloc_frame]. *)
#[export] Program Instance pmm_frame_allocator : FrameAllocator pmm := {|
  fa_alloc := pmm_alloc_frame;
  fa_inv s := pmm_ok s ∧ pmm_size s <= 2 ^ 37;
  fa_avail s p := p mod PAGE_SIZE = 0 ∧ 0 <= p ∧ taken (bitmap s) (p / PAGE_SIZE) = false
|}.
Next Obligation.
  intros s p [(_ & _ & H0) Hlen] (Hal & Hp & Ht). split; [done|].
  destruct (decide (8 * pmm_size s <= p / PAGE_SIZE)) as [Hge|Hlt].
  - rewrite taken_beyond in Ht by done. done.
  - assert (p / PAGE_SIZE ≠ 0) as Hne by congruence. unfold PAGE_SIZE in *. zlia.
Qed.
Next Obligation.
  intros s [Hok Hlen]. pose proof Hok as (Hwf & Hl & _).
  eapply runs_mono; [by apply pmm_alloc_frame_spec| |done].
  intros [p [bm]] [(-> & [= ->] & Hall)|(f & -> & Hf & Ht)].
  - destruct s as [bm0]. simpl in *. split; [done|]. left. split; [done|].
    split; intros f (_ & Hf & Hft); rewrite Hall in Hft by (unfold PAGE_SIZE; zlia); done.
  - split; [split; [by eapply takes_ok|destruct Ht as [Hll _]; unfold pmm_size in *; simpl in *; lia]|].
    right. destruct Hf as (Hf & Hff & _), Ht as (_ & _ & Ht). cbn [bitmap] in *.
    replace (f * PAGE_SIZE / PAGE_SIZE) with f by (unfold PAGE_SIZE; zlia).
    split_and!.
    + unfold PAGE_SIZE. zlia.
    + unfold PAGE_SIZE. lia.
    + done.
    + intros (_ & _ & Hft). rewrite Ht in Hft by lia.
      assert (in_range f (f + 1) f = true) as Hr by (apply in_range_spec; lia). by rewrite Hr in Hft.
    + intros q (Hal & Hq & Hqt). split_and!; [done..|].
      rewrite Ht in Hqt by (unfold PAGE_SIZE; zlia). by apply orb_false_iff in Hqt as [_ ?].
Qed.

(** ** Initialisation *)

(** [bm'] is [bm] with the frames of [[lo, hi)] made free. *)
Definition clears (lo hi : Z) (bm bm' : list Z) : Prop :=
  length bm' = length bm ∧ bm_wf bm' ∧
  ∀ n, 0 <= n → taken bm' n = negb (in_range lo hi n) && taken bm n.

Lemma in_range_empty lo hi n : hi <= lo → in_range lo hi n = false.
Proof. intros. unfold in_range. destruct (Z.leb_spec lo n); destruct (Z.ltb_spec n hi); done || lia. Qed.

Lemma clears_refl lo hi bm : hi <= lo → bm_wf bm → clears lo hi bm bm.
Proof. intros. split_and!; [done..|]. intros. by rewrite in_range_empty. Qed.

Lemma clears_trans lo mid hi bm1 bm2 bm3 : lo <= mid <= hi →
  clears lo mid bm1 bm2 → clears mid hi bm2 bm3 → clears lo hi bm1 bm3.
Proof.
  intros Hm (L1 & _ & T1) (L2 & W2 & T2). split_and!; [congruence|done|].
  intros n Hn. rewrite T2, T1 by done. rewrite andb_assoc, <- negb_orb. f_equal. f_equal.
  apply eq_iff_eq_true. rewrite orb_true_iff, !in_range_spec. lia.
Qed.

Lemma clear_bits_in_byte_spec byte lo hi bm : bm_wf bm → 0 <= byte → 0 <= lo <= hi → hi <= 8 →
  (lo < hi → byte < Z.of_nat (length bm)) →
  returns (clear_bits_in_byte byte lo hi bm) (clears (8 * byte + lo) (8 * byte + hi) bm).
Proof.
  intros Hwf Hbyte Hlo Hhi Hlen. unfold clear_bits_in_byte.
  apply (for_range_upto (λ h bm', clears (8 * byte + lo) (8 * byte + h) bm bm')); [lia|done|..].
  - apply clears_refl; [lia|done].
  - intros b bm1 Hb Hc. pose proof Hc as (Hl & Hwf1 & _).
    pose proof (clear_bit_spec (8 * byte + b) bm1 ltac:(lia) Hwf1) as Hclear. unfold clear_bit in Hclear.
    replace ((8 * byte + b) / 8) with byte in Hclear by zlia.
    replace ((8 * byte + b) mod 8) with b in Hclear by zlia.
    eapply runs_mono; [exact Hclear| |done]. intros bm2 (Hl2 & Hwf2 & Ht2).
    eapply clears_trans with (mid := 8 * byte + b); [lia|done|].
    split_and!; [done..|]. intros n Hn. rewrite Ht2 by done. f_equal. f_equal.
    replace (8 * byte + (b + 1)) with (8 * byte + b + 1) by lia.
    rewrite in_range_succ, in_range_empty, orb_false_r by lia. done.
Qed.

Lemma zero_bytes_spec lo hi bm : bm_wf bm → 0 <= lo <= hi → hi <= Z.of_nat (length bm) →
  returns (for_range (Z.to_nat (hi - lo)) lo (λ i bm, arr_set bm i 0) bm) (clears (8 * lo) (8 * hi) bm).
Proof.
  intros Hwf Hlo Hhi.
  apply (for_range_upto (λ h bm', clears (8 * lo) (8 * h) bm bm')); [lia|done|..].
  - apply clears_refl; [lia|done].
  - intros i bm1 Hi Hc. pose proof Hc as (Hl & Hwf1 & _). rewrite arr_set_Ok by lia.
    eapply clears_trans with (mid := 8 * i); [lia|done|]. split_and!.
    + by rewrite length_insert.
    + by apply (bm_wf_insert bm1 (Z.to_nat i) 0).
    + intros n Hn. rewrite taken_insert by lia. case_decide as E.
      * rewrite Z.bits_0. assert (in_range (8 * i) (8 * (i + 1)) n = true) as -> by (apply in_range_spec; zlia). done.
      * assert (in_range (8 * i) (8 * (i + 1)) n = false) as ->; [|done].
        apply not_true_is_false. rewrite in_range_spec. zlia.
Qed.

(** The frames that lie wholly inside [r], above the first MiB and not below
    the early allocator's cursor. *)
Definition region_frame (cursor : Z) (r : phys_region) (n : Z) : Prop :=
  pr_type r = PHYS_REGION_USABLE ∧ MIN_USABLE_PADDR <= n * PAGE_SIZE ∧ cursor <= n * PAGE_SIZE ∧
  pr_start r <= n * PAGE_SIZE ∧ (n + 1) * PAGE_SIZE <= pr_end r.

#[export] Instance region_frame_dec cursor r n : Decision (region_frame cursor r n).
Proof. unfold region_frame. apply _. Defined.

Lemma pmm_init_region_spec cursor r bm : bm_wf bm → 0 <= pr_start r < pr_end r → pr_end r <= 2 ^ 52 →
  0 <= cursor <= 2 ^ 54 → (pr_type r = PHYS_REGION_USABLE → pr_end r / PAGE_SIZE <= 8 * Z.of_nat (length bm)) →
  returns (pmm_init_region cursor r bm) (λ bm', length bm' = length bm ∧ bm_wf bm' ∧
    ∀ n, 0 <= n → taken bm' n = negb (bool_decide (region_frame cursor r n)) && taken bm n).
Proof.
  intros Hwf Hs He Hc Hlen. unfold pmm_init_region.
  assert ((∀ n, ¬ region_frame cursor r n) →
    length bm = length bm ∧ bm_wf bm ∧
    ∀ n, 0 <= n → taken bm n = negb (bool_decide (region_frame cursor r n)) && taken bm n) as Hnone.
  { intros Hno. split_and!; [done..|]. intros n Hn. by rewrite bool_decide_eq_false_2. }
  unfold region_frame in *. unfold MIN_USABLE_PADDR in *.
  case_bool_decide as Hty; cbn [orb]; [apply Hnone; by intros n (? & _)|].
  specialize (Hlen Hty).
  destruct (Z.leb_spec (pr_end r) cursor); [apply Hnone; intros n; unfold PAGE_SIZE; lia|].
  set (start := if (if pr_start r <? 0x100000 then 0x100000 else pr_start r) <? cursor then cursor
    else if pr_start r <? 0x100000 then 0x100000 else pr_start r).
  assert (start = Z.max cursor (Z.max 0x100000 (pr_start r))) as Hst.
  { unfold start. destruct (Z.ltb_spec (pr_start r) 0x100000);
      match goal with |- context [?a <? cursor] => destruct (Z.ltb_spec a cursor) end; lia. }
  assert (0 <= start <= 2 ^ 55) as Hsb by lia. clearbody start.
  destruct (PAGE_ALIGN_UP_bounds start) as [Hup Hupm]; [lia|unfold PAGE_SIZE; lia|].
  destruct (PAGE_ALIGN_DOWN_bounds (pr_end r)) as (Hdn & Hdn0 & Hdnm); [lia|].
  set (sframe := PAGE_ALIGN_UP start / PAGE_SIZE). set (eframe := PAGE_ALIGN_DOWN (pr_end r) / PAGE_SIZE).
  assert (∀ n, in_range sframe eframe n = true ↔ start <= n * PAGE_SIZE ∧ (n + 1) * PAGE_SIZE <= pr_end r) as Hr.
  { intros n. rewrite in_range_spec. unfold sframe, eframe, PAGE_SIZE in *. zlia. }
  assert (0 <= sframe ∧ eframe <= 8 * Z.of_nat (length bm)) as [Hsf Hef]
    by (unfold sframe, eframe, PAGE_SIZE in *; zlia).
  assert (∀ bm', clears sframe eframe bm bm' → length bm' = length bm ∧ bm_wf bm' ∧
    ∀ n, 0 <= n → taken bm' n = negb (bool_decide (pr_type r = PHYS_REGION_USABLE ∧ 1048576 <= n * PAGE_SIZE ∧
      cursor <= n * PAGE_SIZE ∧ pr_start r <= n * PAGE_SIZE ∧ (n + 1) * PAGE_SIZE <= pr_end r)) && taken bm n) as Hfin.
  { intros bm' (Hl & Hw & Ht). split_and!; [done..|]. intros n Hn. rewrite Ht by done. f_equal. f_equal.
    apply eq_iff_eq_true. rewrite Hr, bool_decide_eq_true, Hst. unfold PAGE_SIZE. intuition lia. }
  clearbody sframe eframe. clear Hup Hupm Hdn Hdn0 Hdnm Hr Hnone start Hst Hsb.
  destruct (Z.leb_spec eframe sframe); [apply Hfin, clears_refl; done|].
  destruct (Z.eqb_spec (sframe / 8) (eframe / 8)) as [Heq|Hne].
  - eapply runs_mono; [apply clear_bits_in_byte_spec; [done|zlia..]| |done].
    intros bm'. rewrite Heq at 1. intros Hcl. apply Hfin.
    replace (8 * (eframe / 8) + sframe mod 8) with sframe in Hcl by zlia.
    replace (8 * (sframe / 8) + eframe mod 8) with eframe in Hcl by zlia. done.
  - eapply runs_bind; [apply clear_bits_in_byte_spec; [done|zlia..]|].
    intros bm1 H1. pose proof H1 as (L1 & W1 & _).
    eapply runs_bind; [apply clear_bits_in_byte_spec; [done|zlia..]|].
    intros bm2 H2. pose proof H2 as (L2 & W2 & _).
    eapply runs_mono; [apply zero_bytes_spec; [done|zlia..]| |done].
    intros bm3 H3. apply Hfin. destruct H1 as (_ & _ & T1), H2 as (_ & _ & T2), H3 as (L3 & W3 & T3).
    split_and!; [congruence|done|]. intros n Hn. rewrite T3, T2, T1 by done.
    rewrite !andb_assoc, <- !negb_orb. f_equal. f_equal.
    apply eq_iff_eq_true. rewrite !orb_true_iff, !in_range_spec. zlia.
Qed.

Lemma pmm_init_loop_spec cursor regions bm : bm_wf bm → 0 <= cursor <= 2 ^ 54 →
  (∀ r, r ∈ regions → 0 <= pr_start r < pr_end r ∧ pr_end r <= 2 ^ 52 ∧
    (pr_type r = PHYS_REGION_USABLE → pr_end r / PAGE_SIZE <= 8 * Z.of_nat (length bm))) →
  returns (pmm_init_loop cursor regions bm) (λ bm', length bm' = length bm ∧ bm_wf bm' ∧
    ∀ n, 0 <= n → taken bm' n = true ↔ taken bm n = true ∧ ∀ r, r ∈ regions → ¬ region_frame cursor r n).
Proof.
  intros Hwf Hc. revert bm Hwf. induction regions as [|r regions IH]; intros bm Hwf Hr; cbn [pmm_init_loop].
  { split_and!; [done..|]. intros n Hn. split; [|by intros []]. intros Ht. split; [done|]. by intros r ?%elem_of_nil. }
  destruct (Hr r (list_elem_of_here r regions)) as (Hs & He & Hl).
  eapply runs_bind; [by apply pmm_init_region_spec|]. intros bm1 (Hl1 & Hwf1 & Ht1).
  eapply runs_mono; [apply IH; [done|]| |done].
  { intros r' Hr'. rewrite Hl1. apply Hr. by apply list_elem_of_further. }
  intros bm2 (Hl2 & Hwf2 & Ht2). split_and!; [congruence|done|]. intros n Hn.
  rewrite Ht2, Ht1, andb_true_iff, negb_true_iff, bool_decide_eq_false by done. setoid_rewrite elem_of_cons.
  split.
  - intros [[Hno Ht] Hrest]. split; [done|]. intros r' [->|Hr']; [done|by apply Hrest].
  - intros [Ht Hno]. split; [split; [|done]|]; auto.
Qed.

Lemma regions_wf_prefix l r : regions_wf (l ++ [r]) → regions_wf l.
Proof.
  induction l as [|r1 l IH]; [done|]. intros (H1 & H2 & H3). split_and!; [done| |by apply IH].
  by destruct l.
Qed.

(** The last usable region of a sorted map has the highest end. *)
Lemma max_usable_bound l : regions_wf l → regions_bounded l →
  0 <= early_pmm_get_max_usable l <= 2 ^ 52 ∧
  ∀ r, r ∈ l → pr_type r = PHYS_REGION_USABLE → pr_end r <= early_pmm_get_max_usable l.
Proof.
  unfold early_pmm_get_max_usable. induction l as [|r0 l IH] using rev_ind; intros Hwf Hbd.
  { split; [simpl; unfold NULL; lia|set_solver]. }
  destruct IH as [Hm Hmax]; [by eapply regions_wf_prefix|intros r Hr; apply Hbd; set_solver|].
  rewrite foldl_app. cbn [foldl].
  assert (0 <= pr_start r0 < pr_end r0 ∧ pr_end r0 <= 2 ^ 52) as H0.
  { eapply (bounded_lookup (l ++ [r0])); [done..|]. by apply list_lookup_middle. }
  case_bool_decide as Hty; (split; [lia|]).
  - intros r [Hr| ->%list_elem_of_singleton]%elem_of_app _; [|lia].
    apply list_elem_of_lookup in Hr as [i Hi].
    pose proof (regions_wf_ordered (l ++ [r0]) i (length l) r r0 Hwf (lookup_lt_Some _ _ _ Hi)
      ltac:(by rewrite lookup_app_l by (by eapply lookup_lt_Some)) ltac:(by apply list_lookup_middle)). lia.
  - intros r [Hr| ->%list_elem_of_singleton]%elem_of_app Ht; [by apply Hmax|done].
Qed.

(** A free frame at or past the cursor is one the early allocator still has. *)
Lemma region_frame_available s r n i : regions_wf (clean s) → pa_ok s → pa_reg (pa s) = Some i →
  r ∈ clean s → region_frame (pa_cursor (pa s)) r n → available PAGE_SIZE s (n * PAGE_SIZE).
Proof.
  intros Hwf Hok Hreg Hr (Hty & Hmin & Hcur & Hs & He). unfold available, pa_ok in *. rewrite Hreg in *.
  destruct Hok as (_ & Hi & r0 & Hr0 & _ & _ & _ & Hst).
  apply list_elem_of_lookup in Hr as [j Hj]. exists (Z.of_nat j). split_and!; [|split; [apply Z_mod_mult|split; [done|]]|done].
  - destruct (decide (Z.of_nat j < i)) as [Hlt|]; [|lia].
    pose proof (regions_wf_ordered _ j (Z.to_nat i) r r0 Hwf ltac:(lia) Hj Hr0). unfold PAGE_SIZE in *. lia.
  - exists r. rewrite Nat2Z.id. split_and!; try done. lia.
Qed.

(** The bitmap [pmm_init] sizes covers every byte below the last usable one. *)
Lemma bitmap_size_bounds M : 0 < M <= 2 ^ 52 →
  let size := (PAGE_ALIGN_UP M / PAGE_SIZE + 7) / 8 in
  0 < size <= 2 ^ 37 ∧ M <= 8 * size * PAGE_SIZE.
Proof.
  intros HM size. destruct (PAGE_ALIGN_UP_bounds M) as [HU HUm]; [lia|unfold PAGE_SIZE; lia|].
  assert (M <= PAGE_ALIGN_UP M / PAGE_SIZE * PAGE_SIZE ∧ 0 < PAGE_ALIGN_UP M / PAGE_SIZE <= 2 ^ 40) as [Hlo Hhi]
    by (unfold PAGE_SIZE in *; clear -HU HUm HM; zlia).
  unfold size. set (fc := PAGE_ALIGN_UP M / PAGE_SIZE) in *. clearbody fc. unfold PAGE_SIZE in *.
  clear -Hlo Hhi. zlia.
Qed.

(** After the [memset], every frame is taken. *)
Lemma taken_fresh k n : 0 <= n → taken (replicate k 0xff) n = true.
Proof.
  intros Hn. destruct (decide (n < 8 * Z.of_nat k)); [|apply taken_beyond; rewrite length_replicate; lia].
  unfold taken, znth. rewrite lookup_replicate_2 by zlia. apply testbit_ff. zlia.
Qed.

(** Initialisation of the frame bitmap and the hand-over from the early
    allocator.  [pmm_init] returns; on success the bitmap invariant holds, a
    frame is free exactly when it lies wholly inside a usable region, above
    the first MiB and not below the early allocator's cursor, and every frame
    marked free is one the early allocator had not handed out (the bitmap's
    own storage included). *)
Theorem pmm_init_correct s :
  regions_wf (clean s) → regions_bounded (clean s) → Z.of_nat (length (clean s)) < 2 ^ 64 → pa_ok s →
  returns (pmm_init s) (λ '(status, s', m),
    status = - ENOMEM ∨
    (status = 0 ∧ fa_inv s' ∧ fa_inv m ∧
     ∀ n, 0 <= n →
       (taken (bitmap m) n = false ↔ ∃ r, r ∈ clean s ∧ region_frame (pa_cursor (pa s')) r n) ∧
       (taken (bitmap m) n = false → available PAGE_SIZE s' (n * PAGE_SIZE)))).
Proof.
  intros Hwf Hbd Hlen Hok. unfold pmm_init.
  destruct (max_usable_bound _ Hwf Hbd) as [HM Hmax].
  destruct (pa_reg (pa s)) as [i|] eqn:Hreg.
  2:{ unfold early_pmm_alloc_continuous_frames. destruct (early_fuel s) eqn:E; [unfold early_fuel in E; lia|].
      cbn [early_alloc_loop]. rewrite Hreg. by left. }
  set (M := early_pmm_get_max_usable (clean s)) in *.
  assert (0 < M) as HMpos.
  { unfold pa_ok in Hok. rewrite Hreg in Hok. destruct Hok as (_ & _ & r & Hr & Hty & _).
    pose proof (bounded_lookup _ Hwf Hbd _ _ Hr). specialize (Hmax r (list_elem_of_lookup_2 _ _ _ Hr) Hty). lia. }
  set (size := (PAGE_ALIGN_UP M / PAGE_SIZE + 7) / 8).
  destruct (bitmap_size_bounds M) as [Hsize HMs]; [lia|]. fold size in Hsize, HMs.
  clearbody size. destruct (PAGE_ALIGN_UP_bounds size) as [HS HSm]; [lia|unfold PAGE_SIZE; lia|].
  unfold early_pmm_alloc_continuous_frames.
  replace (u64 (PAGE_SIZE * (PAGE_ALIGN_UP size / PAGE_SIZE))) with (PAGE_ALIGN_UP size)
    by (unfold PAGE_SIZE in *; rewrite u64_small; zlia).
  eapply runs_bind.
  { apply (early_alloc_loop_spec (clean s)); try done; [unfold PAGE_SIZE in *; lia|].
    rewrite Hreg. unfold early_fuel. unfold pa_ok in Hok. rewrite Hreg in Hok. lia. }
  intros [p s'] (Hcl & Hok' & Hcase). destruct (Z.eqb_spec p NULL) as [->|Hp]; [by left|].
  destruct Hcase as [(-> & _)|(_ & [i' Hreg'] & _)]; [done|].
  assert (0 <= pa_cursor (pa s') <= 2 ^ 54) as Hcur.
  { unfold pa_ok in Hok'. rewrite Hreg' in Hok'. unfold MIN_USABLE_PADDR in Hok'. destruct Hok' as (_ & _ & r & _ & _ & _ & ? & _). lia. }
  rewrite Hcl. eapply runs_bind.
  { apply pmm_init_loop_spec; [apply Forall_replicate; lia|done|].
    intros r Hr. pose proof Hr as [j Hj]%list_elem_of_lookup. destruct (bounded_lookup _ Hwf Hbd _ _ Hj).
    split_and!; try lia. intros Hty. specialize (Hmax r Hr Hty). rewrite length_replicate.
    unfold PAGE_SIZE in *. zlia. }
  intros bm (Hl & Hwfb & Ht). rewrite length_replicate in Hl. right.
  assert (∀ n, 0 <= n → taken bm n = false ↔ ∃ r, r ∈ clean s ∧ region_frame (pa_cursor (pa s')) r n) as Hfree.
  { intros n Hn. rewrite <- not_true_iff_false, Ht by done.
    rewrite taken_fresh by done.
    split; [|intros (r & Hr & Hf) [_ Hno]; by apply (Hno r)].
    intros Hno. destruct (decide (Exists (λ r, region_frame (pa_cursor (pa s')) r n) (clean s))) as [He|He].
    - by apply Exists_exists in He.
    - destruct Hno. split; [done|]. intros r Hr Hf. apply He, Exists_exists. eauto. }
  split; [done|]. split; [by rewrite <- Hcl in *|]. split.
  - split; [|unfold pmm_size; simpl; lia]. split_and!; [done|unfold pmm_size; simpl; lia|]. simpl.
    apply not_false_is_true. rewrite Hfree by lia. intros (r & _ & _ & Hmin & _).
    unfold MIN_USABLE_PADDR, PAGE_SIZE in Hmin. lia.
  - intros n Hn. split; [by apply Hfree|]. intros (r & Hr & Hf)%Hfree; [|done].
    eapply region_frame_available; [|done|done|by rewrite Hcl|done]. by rewrite Hcl.
Qed.

Lemma pmm_init_correct_witness :
  ∃ s' m, pmm_init demo_early = Ok (0, s', m) ∧ bitmap m !! 31%nat = Some 0xff ∧
  returns (pmm_init demo_early) (λ '(status, s', m),
    status = - ENOMEM ∨
    (status = 0 ∧ fa_inv s' ∧ fa_inv m ∧
     ∀ n, 0 <= n →
       (taken (bitmap m) n = false ↔ ∃ r, r ∈ clean demo_early ∧ region_frame (pa_cursor (pa s')) r n) ∧
       (taken (bitmap m) n = false → available PAGE_SIZE s' (n * PAGE_SIZE)))).
Proof.
  eexists _, _. split; [vm_compute; reflexivity|]. split; [vm_compute; reflexivity|].
  apply pmm_init_correct; apply demo_early_wf.
Defined.
