(* ===== verification/Paging.v ===== *)
(** * Page tables (arch/x86_64/kernel/paging.c)

    The four-level page tables live in word memory, reached through the direct
    map.  [mmu_walk], [mmu_map_one] and [mmu_map_range] are the kernel's code;
    [hw_walk] is the processor's translation of a virtual address, the
    specification the code is measured against.  The frame allocator is the
    [FrameAllocator] interface, as the code calls it through a pointer. *)

From S2P Require Import Prelude Types FrameAlloc EarlyPmm Pmm.

Definition _PAGE_PRESENT : Z := Z.shiftl 1 0.
Definition _PAGE_RW : Z := Z.shiftl 1 1.
Definition _PAGE_USER : Z := Z.shiftl 1 2.
Definition _PAGE_WRITE_THROUGH : Z := Z.shiftl 1 3.
Definition _PAGE_CACHE_DISABLE : Z := Z.shiftl 1 4.
Definition _PAGE_PS : Z := Z.shiftl 1 7.
Definition _PAGE_NO_EXECUTE : Z := Z.shiftl 1 63.
Definition ENTRY_PADDR_MASK : Z := 0xFFFFFFFFFF000.

Record pgprot := PgProt { prot_flags : Z; allow_overwrite : bool }.

Inductive mmu_level := LVL_PGD | LVL_PUD | LVL_PMD | LVL_PTE.
Inductive page_size := PAGE_4K | PAGE_2M | PAGE_1G.

#[export] Instance mmu_level_eq_dec : EqDecision mmu_level.
Proof. solve_decision. Defined.
#[export] Instance page_size_eq_dec : EqDecision page_size.
Proof. solve_decision. Defined.

(** The machine state the paging code works on: memory, the frame allocator
    behind the function pointer, and the addresses given to [invlpg]. *)
Record mmu (F : Type) := Mmu { mem : gmap Z Z; frames : F; flushed : list Z }.
Arguments Mmu {F}.
Arguments mem {F}.
Arguments frames {F}.
Arguments flushed {F}.

(** [memset(p, 0, 8 * n)] on word memory. *)
Fixpoint zero_words (n : nat) (p : Z) (m : gmap Z Z) : gmap Z Z :=
  match n with
  | O => m
  | S n' => zero_words n' (p + 8) (st m (u64 p) 0)
  end.

Definition is_page_aligned (addr alignment : Z) : bool := Z.land addr (alignment - 1) =? 0.

Definition pgd_to_pud (pgd : Z) : Z := PHYS_TO_VIRT (Z.land pgd ENTRY_PADDR_MASK).
Definition pud_to_pmd (pud : Z) : Z := PHYS_TO_VIRT (Z.land pud ENTRY_PADDR_MASK).
Definition pmd_to_pte (pmd : Z) : Z := PHYS_TO_VIRT (Z.land pmd ENTRY_PADDR_MASK).

(** [&base[i]] for a table of 8-byte entries. *)
Definition entry_ptr (base i : Z) : Z := u64 (base + 8 * i).

Definition present (e : Z) : bool := negb (Z.land e _PAGE_PRESENT =? 0).
Definition huge (e : Z) : bool := negb (Z.land e _PAGE_PS =? 0).

Definition no_frames_msg : string := "mmu_alloc_table: no free frames.".
Definition huge_msg : string :=
  "mmu_map_one: vaddr is in an existing huge mapping, i still havent implemented splitting.".
Definition mapped_msg : string :=
  "mmu_map_one: trying to map an already mapped vaddr with opts.allow_overwrite=false.".

Section paging.
Context {F : Type} `{FrameAllocator F}.
Implicit Types s : mmu F.

Definition mmu_alloc_table (entry : Z) (s : mmu F) : res (mmu F) :=
  '(phys_frame, fr) ← fa_alloc (frames s);
  if phys_frame =? NULL then Panic no_frames_msg else
  let m := zero_words 512 (PHYS_TO_VIRT phys_frame) (mem s) in
  let m := st m entry (Z.lor (Z.lor (Z.lor phys_frame _PAGE_PRESENT) _PAGE_RW) _PAGE_USER) in
  Ok (Mmu m fr (flushed s)).

(** Returns (entry pointer, hit_huge). *)
Definition mmu_walk (pgd vaddr : Z) (level : mmu_level) (s : mmu F) : res (Z * bool * mmu F) :=
  let pgd_entry := entry_ptr pgd (PGD_INDEX vaddr) in
  if decide (level = LVL_PGD) then Ok (pgd_entry, false, s) else
  s ← (if present (ld (mem s) pgd_entry) then Ok s else mmu_alloc_table pgd_entry s);
  let pud_entry := entry_ptr (pgd_to_pud (ld (mem s) pgd_entry)) (PUD_INDEX vaddr) in
  if decide (level = LVL_PUD) then Ok (pud_entry, false, s) else
  if present (ld (mem s) pud_entry) && huge (ld (mem s) pud_entry) then Ok (NULL, true, s) else
  s ← (if present (ld (mem s) pud_entry) then Ok s else mmu_alloc_table pud_entry s);
  let pmd_entry := entry_ptr (pud_to_pmd (ld (mem s) pud_entry)) (PMD_INDEX vaddr) in
  if decide (level = LVL_PMD) then Ok (pmd_entry, false, s) else
  if present (ld (mem s) pmd_entry) && huge (ld (mem s) pmd_entry) then Ok (NULL, true, s) else
  s ← (if present (ld (mem s) pmd_entry) then Ok s else mmu_alloc_table pmd_entry s);
  Ok (entry_ptr (pmd_to_pte (ld (mem s) pmd_entry)) (PTE_INDEX vaddr), false, s).

Definition mmu_map_one (pgd vaddr paddr : Z) (size : page_size) (opts : pgprot) (s : mmu F) : res (mmu F) :=
  let level := match size with PAGE_1G => LVL_PUD | PAGE_2M => LVL_PMD | PAGE_4K => LVL_PTE end in
  '(entry, hit_huge, s) ← mmu_walk pgd vaddr level s;
  if (hit_huge : bool) then Panic huge_msg else
  let val := ld (mem s) entry in
  if present val && negb (allow_overwrite opts) then Panic mapped_msg else
  let fl := if present val then vaddr :: flushed s else flushed s in
  let ps := if decide (size = PAGE_4K) then 0 else _PAGE_PS in
  Ok (Mmu (st (mem s) entry (Z.lor (Z.lor (Z.lor paddr _PAGE_PRESENT) (prot_flags opts)) ps))
        (frames s) fl).

Context (cpu_has_1g_pages : bool).

Definition chunk_of (vaddr paddr len : Z) : page_size * Z :=
  if cpu_has_1g_pages && is_page_aligned vaddr PAGE_SIZE_1G && is_page_aligned paddr PAGE_SIZE_1G &&
     (PAGE_SIZE_1G <=? len) then (PAGE_1G, PAGE_SIZE_1G)
  else if is_page_aligned vaddr PAGE_SIZE_2M && is_page_aligned paddr PAGE_SIZE_2M &&
     (PAGE_SIZE_2M <=? len) then (PAGE_2M, PAGE_SIZE_2M)
  else (PAGE_4K, PAGE_SIZE).

Fixpoint map_range_loop (fuel : nat) (pgd vaddr paddr len : Z) (opts : pgprot) (s : mmu F) : res (mmu F) :=
  match fuel with
  | O => OutOfFuel
  | S fuel' =>
      if 0 <? len then
        let '(size, chunk) := chunk_of vaddr paddr len in
        s ← mmu_map_one pgd vaddr paddr size opts s;
        map_range_loop fuel' pgd (u64 (vaddr + chunk)) (u64 (paddr + chunk)) (u64 (len - chunk)) opts s
      else Ok s
  end.

Definition map_range_fuel (len : Z) : nat := S (Z.to_nat (len / PAGE_SIZE)).

Definition mmu_map_range (pgd vaddr paddr len : Z) (opts : pgprot) (s : mmu F) : res (mmu F) :=
  if negb (is_page_aligned vaddr PAGE_SIZE) || negb (is_page_aligned paddr PAGE_SIZE) then
    Panic "mmu_map_range: vaddr/paddr not page algined"
  else if negb (is_page_aligned len PAGE_SIZE) then Panic "mmu_map_range: len not page algined"
  else map_range_loop (map_range_fuel len) pgd vaddr paddr len opts s.
End paging.

(** ** The processor's page walk

    A table of height [3] is the PGD, of height [0] a page table.  The walk
    reads one entry per level, stops at a missing entry, and ends at a leaf: a
    height-0 entry, or a PUD/PMD entry with the PS bit. *)

Definition shift_of (n : nat) : Z := 12 + 9 * Z.of_nat n.
Definition index_of (n : nat) (va : Z) : Z := Z.land (Z.shiftr va (shift_of n)) 511.

Definition is_leaf (n : nat) (e : Z) : bool :=
  match n with O => true | 1%nat | 2%nat => huge e | _ => false end.

(** The frame a leaf entry of height [n] maps. *)
Definition leaf_base (n : nat) (e : Z) : Z :=
  Z.land e ENTRY_PADDR_MASK - Z.land e ENTRY_PADDR_MASK mod 2 ^ shift_of n.

Definition entry_addr (t i : Z) : Z := entry_ptr (PHYS_TO_VIRT t) i.

(** The walk from the table at physical address [t]: the physical address
    [va] translates to and the leaf entry used. *)
Fixpoint hw_walk (n : nat) (m : gmap Z Z) (t va : Z) : option (Z * Z) :=
  let e := ld m (entry_addr t (index_of n va)) in
  if negb (present e) then None
  else if is_leaf n e then Some (leaf_base n e + va mod 2 ^ shift_of n, e)
  else match n with
       | O => None
       | S n' => hw_walk n' m (Z.land e ENTRY_PADDR_MASK) va
       end.

(** Translation with the root table [pgd_phys] in CR3. *)
Definition translate (m : gmap Z Z) (pgd_phys va : Z) : option (Z * Z) := hw_walk 3 m pgd_phys va.

(** ** Geometry of the tree

    [pre n va] numbers the height-[n] entry that covers [va] among all entries
    of that height, so a height-[n] table on the path of [va] is number
    [pre (S n) va]. *)

Definition lin (va : Z) : Z := va mod 2 ^ 48.
Definition pre (n : nat) (va : Z) : Z := lin va / 2 ^ shift_of n.

Lemma index_of_pre n va : (n <= 3)%nat → index_of n va = pre n va mod 512.
Proof.
  intros Hn. unfold index_of, pre, lin. rewrite Z.shiftr_div_pow2 by (unfold shift_of; lia).
  change 511 with (Z.ones 9). rewrite Z.land_ones by lia. change (2 ^ 9) with 512.
  destruct n as [|[|[|[|n]]]]; [..|lia]; unfold shift_of; simpl Z.of_nat;
    [change (2 ^ (12 + 9 * 0)) with (2 ^ 12)|change (2 ^ (12 + 9 * 1)) with (2 ^ 21)
    |change (2 ^ (12 + 9 * 2)) with (2 ^ 30)|change (2 ^ (12 + 9 * 3)) with (2 ^ 39)]; zlia.
Qed.

Lemma shift_of_pos n : 0 < 2 ^ shift_of n.
Proof. apply Z.pow_pos_nonneg; unfold shift_of; lia. Qed.

Lemma shift_of_S n : 2 ^ shift_of (S n) = 2 ^ shift_of n * 512.
Proof. change 512 with (2 ^ 9). rewrite <- Z.pow_add_r by (unfold shift_of; lia). f_equal. unfold shift_of. lia. Qed.

Lemma pre_S n va : pre (S n) va = pre n va / 512.
Proof. unfold pre. pose proof (shift_of_pos n). rewrite shift_of_S, Z.div_div by lia. done. Qed.

Lemma pre_index n va : (n <= 3)%nat → pre n va = pre (S n) va * 512 + index_of n va.
Proof. intros Hn. rewrite index_of_pre, pre_S by done. zlia. Qed.

Lemma index_of_range n va : 0 <= index_of n va < 512.
Proof.
  unfold index_of. change 511 with (Z.ones 9). rewrite Z.land_ones by lia.
  apply Z.mod_pos_bound. lia.
Qed.

Lemma pre_top va : pre 4 va = 0.
Proof. unfold pre, lin. change (shift_of 4) with 48. apply Z.div_small, Z.mod_pos_bound. lia. Qed.

Lemma pre_eq_S n va va' : pre n va' = pre n va → pre (S n) va' = pre (S n) va.
Proof. intros H. by rewrite !pre_S, H. Qed.

(** ** Entries *)

Definition table_frame (t : Z) : Prop := t mod PAGE_SIZE = 0 ∧ 0 < t < 2 ^ 52.

Lemma entry_addr_inj t i t' i' : table_frame t → table_frame t' → 0 <= i < 512 → 0 <= i' < 512 →
  entry_addr t i = entry_addr t' i' → t = t' ∧ i = i'.
Proof.
  unfold table_frame, entry_addr, entry_ptr, PHYS_TO_VIRT, u64, ID_VIRT_REGION_START, PAGE_SIZE.
  intros [Ht Htr] [Ht' Htr'] Hi Hi' H.
  assert (t + 8 * i = t' + 8 * i') by zlia. zlia.
Qed.

(** A word inside the cleared block reads 0, any other word is unchanged. *)
Lemma zero_words_out n p m a : (∀ j, 0 <= j < Z.of_nat n → a ≠ u64 (p + 8 * j)) → ld (zero_words n p m) a = ld m a.
Proof.
  revert p m. induction n as [|n IH]; intros p m Ha; [done|]. cbn [zero_words]. rewrite IH.
  - rewrite ld_st_ne; [done|]. intros Hp. apply (Ha 0); [lia|]. rewrite <- Hp. f_equal. lia.
  - intros j Hj ->. apply (Ha (j + 1)); [lia|]. f_equal. lia.
Qed.

Lemma zero_words_keep0 n p m a : ld m a = 0 → ld (zero_words n p m) a = 0.
Proof.
  revert p m. induction n as [|n IH]; intros p m Ha; [done|]. cbn [zero_words]. apply IH.
  rewrite ld_st. by case_decide.
Qed.

Lemma zero_words_in n p m j : 0 <= j < Z.of_nat n → ld (zero_words n p m) (u64 (p + 8 * j)) = 0.
Proof.
  revert p m j. induction n as [|n IH]; intros p m j Hj; [lia|]. cbn [zero_words].
  destruct (decide (j = 0)) as [->|].
  - apply zero_words_keep0. rewrite Z.add_0_r. apply ld_st_eq.
  - replace (p + 8 * j) with (p + 8 + 8 * (j - 1)) by lia. apply IH. lia.
Qed.

Lemma zero_table_in f m i : 0 <= i < 512 → ld (zero_words 512 (PHYS_TO_VIRT f) m) (entry_addr f i) = 0.
Proof. intros. by apply zero_words_in. Qed.

Lemma zero_table_out f m t i : table_frame f → table_frame t → f ≠ t → 0 <= i < 512 →
  ld (zero_words 512 (PHYS_TO_VIRT f) m) (entry_addr t i) = ld m (entry_addr t i).
Proof.
  intros Hf Ht Hne Hi. apply zero_words_out. intros j Hj Heq.
  by apply (entry_addr_inj t i f j) in Heq as [? ?].
Qed.

Lemma present_bit e : present e = Z.testbit e 0.
Proof. unfold present, _PAGE_PRESENT. rewrite land_bit_0 by lia. apply negb_involutive. Qed.
Lemma huge_bit e : huge e = Z.testbit e 7.
Proof. unfold huge, _PAGE_PS. rewrite land_bit_0 by lia. apply negb_involutive. Qed.

(** Page-aligned addresses have no bits in common with the flags. *)
Lemma aligned_bit p b : p mod PAGE_SIZE = 0 → 0 <= b < 12 → Z.testbit p b = false.
Proof.
  intros Hp Hb. unfold PAGE_SIZE in Hp. replace p with (p / 4096 * 2 ^ 12) by zlia.
  apply Z.mul_pow2_bits_low. lia.
Qed.

Lemma mask_frame p : p mod PAGE_SIZE = 0 → 0 <= p < 2 ^ 52 → Z.land p ENTRY_PADDR_MASK = p.
Proof.
  intros Hp Hr. change ENTRY_PADDR_MASK with (Z.lnot (2 ^ 12 - 1) mod 2 ^ 52).
  rewrite land_high_mask by lia. change (2 ^ 12) with PAGE_SIZE. lia.
Qed.

(** The permission bits of a [pgprot] stay clear of the address and of PS. *)
Definition prot_ok (opts : pgprot) : Prop :=
  0 <= prot_flags opts < 2 ^ 64 ∧ Z.land (prot_flags opts) ENTRY_PADDR_MASK = 0 ∧ Z.testbit (prot_flags opts) 7 = false.

(** The flags of an entry, address and PS bit removed. *)
Definition entry_flags (e : Z) : Z := Z.ldiff (Z.ldiff e ENTRY_PADDR_MASK) _PAGE_PS.

Section leaf_entry.
Context (p : Z) (opts : pgprot) (ps : Z).
Context (Hp : p mod PAGE_SIZE = 0) (Hpr : 0 <= p < 2 ^ 52) (Hopts : prot_ok opts) (Hps : ps = 0 ∨ ps = _PAGE_PS).
Let e := Z.lor (Z.lor (Z.lor p _PAGE_PRESENT) (prot_flags opts)) ps.

Lemma leaf_entry_present : present e = true.
Proof. rewrite present_bit. unfold e. rewrite !Z.lor_spec. by rewrite orb_true_r. Qed.

Lemma leaf_entry_huge : huge e = negb (ps =? 0).
Proof.
  rewrite huge_bit. unfold e. rewrite !Z.lor_spec, aligned_bit by (done || lia).
  destruct Hopts as (_ & _ & ->). by destruct Hps as [-> | ->].
Qed.

Lemma leaf_entry_addr : Z.land e ENTRY_PADDR_MASK = p.
Proof.
  unfold e. rewrite !Z.land_lor_distr_l, mask_frame by done. destruct Hopts as (_ & -> & _).
  change (Z.land _PAGE_PRESENT ENTRY_PADDR_MASK) with 0.
  assert (Z.land ps ENTRY_PADDR_MASK = 0) as -> by by destruct Hps as [-> | ->].
  by rewrite !Z.lor_0_r.
Qed.

Lemma leaf_entry_flags : entry_flags e = Z.lor _PAGE_PRESENT (prot_flags opts).
Proof.
  apply Z.bits_inj'. intros b Hb. unfold entry_flags, e. rewrite !Z.ldiff_spec, !Z.lor_spec.
  destruct Hopts as (_ & Hm & H7).
  assert (Z.testbit p b && negb (Z.testbit ENTRY_PADDR_MASK b) = false) as Hpb.
  { rewrite <- (mask_frame p) at 1 by done. rewrite Z.land_spec. by destruct (Z.testbit p b), (Z.testbit ENTRY_PADDR_MASK b). }
  assert (Z.testbit (prot_flags opts) b && Z.testbit ENTRY_PADDR_MASK b = false) as Hfb
    by by rewrite <- Z.land_spec, Hm, Z.bits_0.
  assert (Z.testbit ps b = true → Z.testbit _PAGE_PS b = true) as Hpsb.
  { destruct Hps as [-> | ->]; [by rewrite Z.bits_0|done]. }
  assert (Z.testbit _PAGE_PRESENT b = true → Z.testbit ENTRY_PADDR_MASK b = false ∧ Z.testbit _PAGE_PS b = false) as Hpr0.
  { intros Hbit. destruct (decide (b = 0)) as [->|]; [by split|]. by rewrite (Z.pow2_bits_false 0) in Hbit. }
  assert (Z.testbit _PAGE_PS b = true → Z.testbit (prot_flags opts) b = false) as Hps7.
  { intros Hbit. destruct (decide (b = 7)) as [->|]; [done|]. by rewrite (Z.pow2_bits_false 7) in Hbit. }
  destruct (Z.testbit p b), (Z.testbit ENTRY_PADDR_MASK b), (Z.testbit _PAGE_PS b), (Z.testbit _PAGE_PRESENT b),
    (Z.testbit (prot_flags opts) b), (Z.testbit ps b);
    first [discriminate | reflexivity | discriminate (proj1 (Hpr0 eq_refl)) | discriminate (proj2 (Hpr0 eq_refl))
      | discriminate (Hpsb eq_refl) | discriminate (Hps7 eq_refl)].
Qed.

Lemma leaf_entry_base n : p mod 2 ^ shift_of n = 0 → leaf_base n e = p.
Proof. intros Hn. unfold leaf_base. rewrite leaf_entry_addr, Hn. lia. Qed.
End leaf_entry.

(** ** The invariant

    The ghost map [T] records every page-table frame with its height and its
    number at that height.  Each present non-leaf entry points to the table of
    [T] that covers the same addresses, so the tables form a tree and no table
    is shared between two paths. *)

Definition pt_wf (m : gmap Z Z) (root : Z) (T : gmap Z (nat * Z)) : Prop :=
  T !! root = Some (3%nat, 0) ∧
  (∀ t n k, T !! t = Some (n, k) → table_frame t ∧ (n <= 3)%nat) ∧
  (∀ t n k i, T !! t = Some (n, k) → 0 <= i < 512 →
     present (ld m (entry_addr t i)) = true → is_leaf n (ld m (entry_addr t i)) = false →
     ∃ n', n = S n' ∧ T !! Z.land (ld m (entry_addr t i)) ENTRY_PADDR_MASK = Some (n', k * 512 + i)).

(** Walks only read entries of tables in [T], one per height. *)
Lemma hw_walk_agree m m' root T n t va : pt_wf m root T → T !! t = Some (n, pre (S n) va) →
  (∀ t' n', T !! t' = Some (n', pre (S n') va) →
     ld m' (entry_addr t' (index_of n' va)) = ld m (entry_addr t' (index_of n' va))) →
  hw_walk n m' t va = hw_walk n m t va.
Proof.
  intros (_ & Hfr & Hent) Ht Hag. revert t Ht. induction n as [|n IH]; intros t Ht; cbn [hw_walk].
  - by rewrite (Hag t 0%nat).
  - rewrite (Hag t (S n)) by done. set (e := ld m _).
    destruct (present e) eqn:Hp; [|done]. simpl negb. cbv iota.
    destruct (is_leaf (S n) e) eqn:Hl; [done|].
    destruct (Hent _ _ _ _ Ht (index_of_range (S n) va) Hp Hl) as (n' & [= <-] & Hnext).
    apply IH. rewrite <- pre_index in Hnext; [done|]. destruct (Hfr _ _ _ Ht). done.
Qed.

(** [path m root va n t]: the processor's walk of [va] reads the height-[n]
    table [t]. *)
Inductive path (m : gmap Z Z) (root va : Z) : nat → Z → Prop :=
| path_root : path m root va 3 root
| path_down n t :
    path m root va (S n) t →
    present (ld m (entry_addr t (index_of (S n) va))) = true →
    is_leaf (S n) (ld m (entry_addr t (index_of (S n) va))) = false →
    path m root va n (Z.land (ld m (entry_addr t (index_of (S n) va))) ENTRY_PADDR_MASK).

Lemma path_table m root T va n t : pt_wf m root T → path m root va n t → T !! t = Some (n, pre (S n) va).
Proof.
  intros (Hr & Hfr & Hent) Hpath. induction Hpath as [|n t _ IH Hp Hl]; [by rewrite pre_top|].
  destruct (Hent _ _ _ _ IH (index_of_range (S n) va) Hp Hl) as (n' & [= <-] & Hnext).
  destruct (Hfr _ _ _ IH). by rewrite <- pre_index in Hnext.
Qed.

Lemma path_height m root va n t : path m root va n t → (n <= 3)%nat.
Proof. induction 1; lia. Qed.

(** Addresses below the same entry share the path, and the whole translation
    is what the walk from there gives. *)
Lemma path_same m root va va' n t : path m root va n t → pre (S n) va' = pre (S n) va → path m root va' n t.
Proof.
  induction 1 as [|n t Hpath IH Hp Hl]; intros Hpre; [constructor|].
  apply path_height in Hpath as Hn.
  assert (index_of (S n) va' = index_of (S n) va) as Hi by by rewrite !index_of_pre, Hpre by done.
  rewrite <- Hi in *. apply path_down; [by apply IH, pre_eq_S|done..].
Qed.

Lemma path_translate m root va n t : path m root va n t → translate m root va = hw_walk n m t va.
Proof.
  induction 1 as [|n t Hpath IH Hp Hl]; [done|]. rewrite IH. cbn [hw_walk]. by rewrite Hp, Hl.
Qed.

(** The path to height [n] only depends on the tables above it. *)
Lemma path_agree m m' root T va n t : pt_wf m root T → path m root va n t →
  (∀ t' n', (n < n')%nat → T !! t' = Some (n', pre (S n') va) →
     ld m' (entry_addr t' (index_of n' va)) = ld m (entry_addr t' (index_of n' va))) →
  path m' root va n t.
Proof.
  intros Hwf. induction 1 as [|n t Hpath IH Hp Hl]; intros Hag; [constructor|].
  rewrite <- (Hag t (S n)) in * by (lia || by eapply path_table).
  apply path_down; [|done..]. apply IH. intros t' n' Hn'. apply Hag. lia.
Qed.

(** Storing into the height-[n] entry of [va] affects exactly the addresses
    that entry covers. *)
Lemma translate_st m root T n va t v : pt_wf m root T → path m root va n t →
  let m' := st m (entry_addr t (index_of n va)) v in
  path m' root va n t ∧
  ∀ va', translate m' root va' =
    if decide (pre n va' = pre n va) then hw_walk n m' t va' else translate m root va'.
Proof.
  intros Hwf Hpath m'. pose proof Hwf as (Hr & Hfr & _).
  pose proof (path_table _ _ _ _ _ _ Hwf Hpath) as Ht. destruct (Hfr _ _ _ Ht) as [Htf Hn].
  assert (∀ va' t' n', T !! t' = Some (n', pre (S n') va') → ((t' = t ∧ n' = n) → pre n va' ≠ pre n va) →
     ld m' (entry_addr t' (index_of n' va')) = ld m (entry_addr t' (index_of n' va'))) as Hother.
  { intros va' t' n' Ht' Hcase. apply ld_st_ne. intros Heq. destruct (Hfr _ _ _ Ht') as [Htf' Hn'].
    apply entry_addr_inj in Heq as [<- Hi]; try done; [|apply index_of_range..].
    rewrite Ht in Ht'. injection Ht' as <- Hpre. apply Hcase; [done|]. rewrite !(pre_index n) by done. lia. }
  assert (path m' root va n t) as Hpath'.
  { eapply path_agree; [done..|]. intros t' n' Hlt Ht'. apply Hother; [done|]. lia. }
  split; [done|]. intros va'. case_decide as Hpre.
  - apply path_translate. eapply path_same; [done|]. by apply pre_eq_S.
  - apply (hw_walk_agree _ _ root T); [done|by rewrite pre_top|]. intros t' n' Ht'. by apply Hother.
Qed.

(** The entry [mmu_alloc_table] writes points to the new frame, is present
    and is not a leaf. *)
Lemma table_entry f : table_frame f →
  let v := Z.lor (Z.lor (Z.lor f _PAGE_PRESENT) _PAGE_RW) _PAGE_USER in
  present v = true ∧ huge v = false ∧ Z.land v ENTRY_PADDR_MASK = f.
Proof.
  intros [Hf Hr] v. set (o := PgProt (Z.lor _PAGE_RW _PAGE_USER) false).
  assert (v = Z.lor (Z.lor (Z.lor f _PAGE_PRESENT) (prot_flags o)) 0) as ->
    by (unfold v, o; by rewrite Z.lor_0_r, <- !Z.lor_assoc).
  assert (prot_ok o) by by vm_compute.
  split_and!; [apply leaf_entry_present|rewrite leaf_entry_huge by (done || by left); done
    |apply leaf_entry_addr; [done|lia|done|by left]].
Qed.

(** A word that belongs to some table. *)
Definition table_word (T : gmap Z (nat * Z)) (a : Z) : Prop :=
  ∃ t i, is_Some (T !! t) ∧ 0 <= i < 512 ∧ a = entry_addr t i.

Lemma table_word_mono T T' a : T ⊆ T' → table_word T a → table_word T' a.
Proof. intros HT (t & i & [x Hx] & Hi & ->). exists t, i. split; [|done]. exists x. by eapply lookup_weaken. Qed.

Section paging_spec.
Context {F : Type} `{FrameAllocator F}.
Context (root : Z).
Implicit Types (s : mmu F) (T : gmap Z (nat * Z)).

(** The state invariant: a well-formed tree, a sound allocator, and no table
    among the frames the allocator can still hand out. *)
Definition mmu_wf (s : mmu F) (T : gmap Z (nat * Z)) : Prop :=
  pt_wf (mem s) root T ∧ fa_inv (frames s) ∧ ∀ f, fa_avail (frames s) f → T !! f = None.

(** [grows s T s' T']: tables were added from available frames, every
    translation is unchanged, and no word outside the tables was written. *)
Definition grows (s : mmu F) (T : gmap Z (nat * Z)) (s' : mmu F) (T' : gmap Z (nat * Z)) : Prop :=
  mmu_wf s' T' ∧ T ⊆ T' ∧ flushed s' = flushed s ∧
  (∀ va, translate (mem s') root va = translate (mem s) root va) ∧
  (∀ f, fa_avail (frames s') f → fa_avail (frames s) f) ∧
  (∀ t, is_Some (T' !! t) → T !! t = None → fa_avail (frames s) t) ∧
  (∀ a, ¬ table_word T' a → ld (mem s') a = ld (mem s) a).

Lemma grows_refl s T : mmu_wf s T → grows s T s T.
Proof. intros Hwf. split_and!; try done. intros t [x ->]. done. Qed.

Lemma grows_trans s T s1 T1 s2 T2 : grows s T s1 T1 → grows s1 T1 s2 T2 → grows s T s2 T2.
Proof.
  intros (Hwf1 & HT1 & Hfl1 & Htr1 & Hav1 & Hnew1 & Hmem1) (Hwf2 & HT2 & Hfl2 & Htr2 & Hav2 & Hnew2 & Hmem2).
  split_and!; try done; [by etrans|congruence|intros va; congruence|by intros f ?%Hav2%Hav1|..].
  - intros t Ht Hn. destruct (T1 !! t) as [x|] eqn:E; [apply Hnew1; [by exists x|done]|]. by apply Hav1, Hnew2.
  - intros a Ha. rewrite Hmem2, Hmem1; [done| |done]. intros Hw. apply Ha. by eapply table_word_mono.
Qed.

(** Clearing a frame that is not a table changes no walk. *)
Lemma zero_frame_walks m T f : pt_wf m root T → table_frame f → T !! f = None →
  let m1 := zero_words 512 (PHYS_TO_VIRT f) m in
  (∀ t i, is_Some (T !! t) → 0 <= i < 512 → ld m1 (entry_addr t i) = ld m (entry_addr t i)) ∧
  pt_wf m1 root T ∧ (∀ va, translate m1 root va = translate m root va) ∧
  (∀ va n t, path m root va n t → path m1 root va n t).
Proof.
  intros Hwf Hf HTf m1. pose proof Hwf as (Hr & Hfr & Hent).
  assert (∀ t i, is_Some (T !! t) → 0 <= i < 512 → ld m1 (entry_addr t i) = ld m (entry_addr t i)) as Hsame.
  { intros t i [[n k] Ht] Hi. destruct (Hfr _ _ _ Ht). apply zero_table_out; [done..|congruence|done]. }
  split; [done|]. split_and!.
  - split_and!; [done..|]. intros t n k i Ht Hi. rewrite Hsame by (done || by eexists). by apply Hent.
  - intros va. apply (hw_walk_agree _ _ root T); [done|by rewrite pre_top|]. intros t' n' Ht'.
    apply Hsame; [by eexists|apply index_of_range].
  - intros va n t Hp. eapply path_agree; [done..|]. intros t' n' _ Ht'. apply Hsame; [by eexists|apply index_of_range].
Qed.

(** Linking a cleared frame below a missing entry keeps the tree well formed
    and changes no translation. *)
Lemma link_table m T va n t f : pt_wf m root T → path m root va (S n) t → table_frame f → T !! f = None →
  (∀ i, 0 <= i < 512 → ld m (entry_addr f i) = 0) →
  let ep := entry_addr t (index_of (S n) va) in
  let v := Z.lor (Z.lor (Z.lor f _PAGE_PRESENT) _PAGE_RW) _PAGE_USER in
  present (ld m ep) = false →
  pt_wf (st m ep v) root (<[f := (n, pre (S n) va)]> T) ∧
  (∀ va', translate (st m ep v) root va' = translate m root va') ∧
  path (st m ep v) root va (S n) t.
Proof.
  intros Hwf Hpath Hf HTf Hz ep v Habs. pose proof Hwf as (Hr & Hfr & Hent).
  destruct (table_entry f Hf) as (Hvp & Hvh & Hva). fold v in Hvp, Hvh, Hva.
  pose proof (path_table _ _ _ _ _ _ Hwf Hpath) as Ht. destruct (Hfr _ _ _ Ht) as [Htf Hn].
  destruct (translate_st _ _ _ _ _ _ v Hwf Hpath) as [Hpath' Htr]. fold ep in Hpath', Htr.
  assert (∀ i, 0 <= i < 512 → ld (st m ep v) (entry_addr f i) = 0) as Hz'.
  { intros i Hi. rewrite ld_st_ne; [by apply Hz|].
    intros [<- _]%entry_addr_inj; [congruence|done..|apply index_of_range|done]. }
  assert (is_leaf (S n) v = false) as Hleaf by (destruct n as [|[|n]]; done).
  split_and!; [| |done].
  - split_and!.
    + rewrite lookup_insert_ne by congruence. done.
    + intros t' n' k' [[<- [= <- <-]]|[_ Ht']]%lookup_insert_Some; [split; [done|lia]|by eapply Hfr].
    + intros t' n' k' i [[<- [= <- <-]]|[Hne Ht']]%lookup_insert_Some Hi.
      { by rewrite Hz' by done. }
      rewrite ld_st. case_decide as Heq.
      * apply entry_addr_inj in Heq as [<- <-]; [|done|by eapply Hfr|apply index_of_range|done].
        rewrite Hva. rewrite Ht in Ht'. injection Ht' as <- <-. intros _ _. exists n. split; [done|].
        rewrite lookup_insert_eq. by rewrite <- pre_index by done.
      * intros Hp Hl. destruct (Hent _ _ _ _ Ht' Hi Hp Hl) as (n'' & -> & Hnx). exists n''. split; [done|].
        rewrite lookup_insert_ne by congruence. done.
  - intros va'. rewrite Htr. case_decide as Hpre; [|done].
    assert (index_of (S n) va' = index_of (S n) va) as Hi by by rewrite !index_of_pre, Hpre by done.
    rewrite (path_translate m root va' (S n) t) by (eapply path_same; [done|by apply pre_eq_S]).
    cbn [hw_walk]. rewrite Hi. fold ep. rewrite Habs, ld_st_eq, Hvp, Hleaf, Hva. cbn.
    destruct n; cbn [hw_walk]; by rewrite Hz' by apply index_of_range.
Qed.

Lemma mmu_alloc_table_spec s T va n t : mmu_wf s T → path (mem s) root va (S n) t →
  let ep := entry_addr t (index_of (S n) va) in
  present (ld (mem s) ep) = false →
  runs (mmu_alloc_table ep s) (λ s', ∃ T', grows s T s' T' ∧ path (mem s') root va (S n) t ∧
    present (ld (mem s') ep) = true ∧ is_leaf (S n) (ld (mem s') ep) = false) (λ msg, msg = no_frames_msg).
Proof.
  intros (Hwf & Hinv & Hdisj) Hpath ep Habs. unfold mmu_alloc_table.
  pose proof (fa_alloc_spec (frames s) Hinv) as Halloc.
  destruct (fa_alloc (frames s)) as [[f fr]| | |]; try done. cbn [mbind res_bind].
  destruct Halloc as (Hinv' & Hcase). destruct (Z.eqb_spec f NULL) as [->|Hne]; [done|].
  destruct Hcase as [(-> & _)|(Hav & Hav' & Hsub)]; [done|].
  pose proof (fa_avail_frame _ _ Hinv Hav) as Hf. pose proof (Hdisj _ Hav) as HTf.
  destruct (zero_frame_walks _ _ _ Hwf Hf HTf) as (Hsame & Hwf1 & Htr1 & Hpath1).
  pose proof (path_table _ _ _ _ _ _ Hwf Hpath) as Ht.
  destruct (link_table _ _ _ _ _ f Hwf1 (Hpath1 _ _ _ Hpath) Hf HTf) as (Hwf2 & Htr2 & Hpath2).
  { intros i Hi. by apply zero_table_in. }
  { rewrite Hsame; [done|by eexists|apply index_of_range]. }
  exists (<[f := (n, pre (S n) va)]> T). destruct (table_entry f Hf) as (Hvp & Hvh & Hva).
  cbn [mem frames flushed]. split; [|split; [done|]].
  2:{ rewrite ld_st_eq. split; [done|]. destruct n as [|[|n]]; done. }
  split_and!; cbn [mem frames flushed]; try done.
  - split_and!; [done..|]. intros g Hg. rewrite lookup_insert_ne; [by apply Hdisj, Hsub|]. intros ->. done.
  - by apply insert_subseteq.
  - intros va'. by rewrite Htr2, Htr1.
  - intros t' [x [[<- _]|[_ Hx]]%lookup_insert_Some]; [done|]. congruence.
  - intros a Ha. rewrite ld_st_ne.
    + apply zero_words_out. intros j Hj ->. apply Ha. exists f, j.
      split; [rewrite lookup_insert_eq; by eexists|]. split; [exact Hj|reflexivity].
    + intros <-. apply Ha. exists t, (index_of (S n) va). split; [|split; [apply index_of_range|done]].
      rewrite lookup_insert_ne by congruence. by eexists.
Qed.

(** One level of [mmu_walk]: the next table is there or is created. *)
Lemma descend_spec s T va n t : mmu_wf s T → path (mem s) root va (S n) t →
  let ep := entry_addr t (index_of (S n) va) in
  (present (ld (mem s) ep) = true → is_leaf (S n) (ld (mem s) ep) = false) →
  runs (if present (ld (mem s) ep) then Ok s else mmu_alloc_table ep s)
    (λ s', ∃ T', grows s T s' T' ∧ path (mem s') root va n (Z.land (ld (mem s') ep) ENTRY_PADDR_MASK))
    (λ msg, msg = no_frames_msg).
Proof.
  intros Hwf Hpath ep Hleaf. destruct (present (ld (mem s) ep)) eqn:Hp.
  - exists T. split; [by apply grows_refl|]. apply path_down; auto.
  - eapply runs_mono; [by eapply mmu_alloc_table_spec| |done].
    intros s' (T' & Hg & Hpath' & Hp' & Hl'). exists T'. split; [done|]. by apply path_down.
Qed.

Definition height_of (level : mmu_level) : nat :=
  match level with LVL_PGD => 3 | LVL_PUD => 2 | LVL_PMD => 1 | LVL_PTE => 0 end.

(** [mmu_walk] ends at the entry of the requested level on the path of
    [vaddr], or reports that a larger page already covers [vaddr]. *)
Definition walk_post (vaddr : Z) (level : mmu_level) (s : mmu F) (T : gmap Z (nat * Z))
    (ret : Z * bool * mmu F) : Prop :=
  let '(entry, hit_huge, s') := ret in
  ∃ T', grows s T s' T' ∧
    if (hit_huge : bool) then ∃ pa e, translate (mem s) root vaddr = Some (pa, e) ∧ huge e = true
    else ∃ t, path (mem s') root vaddr (height_of level) t ∧ entry = entry_addr t (index_of (height_of level) vaddr).

Lemma walk_post_trans vaddr level s T s1 T1 ret :
  grows s T s1 T1 → walk_post vaddr level s1 T1 ret → walk_post vaddr level s T ret.
Proof.
  destruct ret as [[entry hit] s']. intros Hg (T' & Hg' & Hc). exists T'. split; [by eapply grows_trans|].
  destruct hit; [|done]. destruct Hg as (_ & _ & _ & <- & _). done.
Qed.

(** The walk stops at a huge page. *)
Lemma walk_huge s va n t : path (mem s) root va (S n) t → (n < 2)%nat →
  present (ld (mem s) (entry_addr t (index_of (S n) va))) = true →
  huge (ld (mem s) (entry_addr t (index_of (S n) va))) = true →
  ∃ pa e, translate (mem s) root va = Some (pa, e) ∧ huge e = true.
Proof.
  intros Hpath Hn Hp Hh. rewrite (path_translate _ _ _ _ _ Hpath). cbn [hw_walk]. rewrite Hp.
  destruct n as [|[|n]]; [..|lia]; cbn [is_leaf negb]; rewrite Hh; by eexists _, _.
Qed.

Lemma mmu_walk_spec s T vaddr level : mmu_wf s T → table_frame root →
  runs (mmu_walk (PHYS_TO_VIRT root) vaddr level s) (walk_post vaddr level s T) (λ msg, msg = no_frames_msg).
Proof.
  intros Hwf Hroot. unfold mmu_walk.
  change (entry_ptr (PHYS_TO_VIRT root) (PGD_INDEX vaddr)) with (entry_addr root (index_of 3 vaddr)).
  case_decide as Hl; [subst|].
  { exists T. split; [by apply grows_refl|]. exists root. split; [constructor|done]. }
  eapply runs_bind; [by apply (descend_spec s T vaddr 2 root Hwf (path_root _ _ _))|].
  intros s1 (T1 & Hg1 & Hp1). pose proof Hg1 as (Hwf1 & _).
  set (t1 := Z.land (ld (mem s1) (entry_addr root (index_of 3 vaddr))) ENTRY_PADDR_MASK) in *.
  change (entry_ptr (pgd_to_pud _) (PUD_INDEX vaddr)) with (entry_addr t1 (index_of 2 vaddr)).
  cbv zeta. apply runs_mono with (Q := walk_post vaddr level s1 T1) (E := λ msg, msg = no_frames_msg);
    [|by intros ret; apply walk_post_trans|done].
  case_decide as Hl1; [subst|].
  { exists T1. split; [by apply grows_refl|]. by exists t1. }
  destruct (present _ && huge _) eqn:Hh1.
  { apply andb_true_iff in Hh1 as [? ?]. exists T1. split; [by apply grows_refl|]. 
    apply (walk_huge _ _ 1 t1); [done|lia|done|done]. }
  eapply runs_bind.
  { apply (descend_spec s1 T1 vaddr 1 t1); [done..|]. intros Hp. by rewrite Hp in Hh1. }
  intros s2 (T2 & Hg2 & Hp2). pose proof Hg2 as (Hwf2 & _).
  set (t2 := Z.land (ld (mem s2) (entry_addr t1 (index_of 2 vaddr))) ENTRY_PADDR_MASK) in *.
  change (entry_ptr (pud_to_pmd _) (PMD_INDEX vaddr)) with (entry_addr t2 (index_of 1 vaddr)).
  cbv zeta. apply runs_mono with (Q := walk_post vaddr level s2 T2) (E := λ msg, msg = no_frames_msg);
    [|by intros ret; apply walk_post_trans|done].
  case_decide as Hl2; [subst|].
  { exists T2. split; [by apply grows_refl|]. by exists t2. }
  set (e2 := ld (mem s2) (entry_addr t2 (index_of 1 vaddr))) in *.
  destruct (present e2 && huge e2) eqn:Hh2.
  { apply andb_true_iff in Hh2 as [? ?]. exists T2. split; [by apply grows_refl|].
    apply (walk_huge _ _ 0 t2); [done|lia|done|done]. }
  eapply runs_bind.
  { apply (descend_spec s2 T2 vaddr 0 t2); [done..|]. fold e2. intros Hp. by rewrite Hp in Hh2. }
  intros s3 (T3 & Hg3 & Hp3). cbn [runs walk_post]. exists T3. split; [done|].
  destruct level; try done. by exists (Z.land (ld (mem s3) (entry_addr t2 (index_of 1 vaddr))) ENTRY_PADDR_MASK).
Qed.

Definition height_of_size (size : page_size) : nat :=
  match size with PAGE_1G => 2 | PAGE_2M => 1 | PAGE_4K => 0 end.
Definition bytes_of_size (size : page_size) : Z := 2 ^ shift_of (height_of_size size).

Ltac size_cases size :=
  destruct size; change (bytes_of_size PAGE_4K) with 4096 in *; change (bytes_of_size PAGE_2M) with 2097152 in *;
  change (bytes_of_size PAGE_1G) with 1073741824 in *.

(** [r] is a translation to [pa] with exactly the requested permissions. *)
Definition mapped_as (opts : pgprot) (pa : Z) (r : option (Z * Z)) : Prop :=
  ∃ e, r = Some (pa, e) ∧ present e = true ∧ entry_flags e = Z.lor _PAGE_PRESENT (prot_flags opts).

(** [maps vaddr paddr C opts s T s' T']: the linear addresses at an offset [o]
    from [vaddr] with [C o] now translate to [paddr + o]; every other address
    translates as before; new tables come from available frames; no word
    outside the tables changed. *)
Definition maps (vaddr paddr : Z) (C : Z → bool) (opts : pgprot) (s : mmu F) (T : gmap Z (nat * Z))
    (s' : mmu F) (T' : gmap Z (nat * Z)) : Prop :=
  mmu_wf s' T' ∧ T ⊆ T' ∧
  (∀ va, let o := lin va - lin vaddr in
         if C o then mapped_as opts (paddr + o) (translate (mem s') root va)
         else translate (mem s') root va = translate (mem s) root va) ∧
  (∀ f, fa_avail (frames s') f → fa_avail (frames s) f) ∧
  (∀ t, is_Some (T' !! t) → T !! t = None → fa_avail (frames s) t) ∧
  (∀ a, ¬ table_word T' a → ld (mem s') a = ld (mem s) a).

(** Offsets of the first [len] bytes. *)
Definition upto (len o : Z) : bool := (0 <=? o) && (o <? len).

Lemma upto_true len o : upto len o = true ↔ 0 <= o < len.
Proof. unfold upto. rewrite andb_true_iff, Z.leb_le, Z.ltb_lt. done. Qed.
Lemma upto_false len o : upto len o = false ↔ o < 0 ∨ len <= o.
Proof. rewrite <- not_true_iff_false, upto_true. lia. Qed.

(** The panics the mapping functions can end in. *)
Definition map_panic (opts : pgprot) (msg : string) : Prop :=
  msg = no_frames_msg ∨ msg = huge_msg ∨ (msg = mapped_msg ∧ allow_overwrite opts = false).

(** One page, in linear addresses. *)
Lemma page_range size vaddr va : vaddr mod bytes_of_size size = 0 →
  (pre (height_of_size size) va = pre (height_of_size size) vaddr ↔
    lin vaddr <= lin va < lin vaddr + bytes_of_size size) ∧
  (lin vaddr <= lin va < lin vaddr + bytes_of_size size →
    va mod bytes_of_size size = lin va - lin vaddr).
Proof.
  unfold pre, bytes_of_size, lin. intros Ha.
  destruct size; cbn [height_of_size] in *;
    [change (2 ^ shift_of 0) with 4096 in *|change (2 ^ shift_of 1) with 2097152 in *
    |change (2 ^ shift_of 2) with 1073741824 in *]; split; zlia.
Qed.

(** Storing a leaf keeps the tree well formed. *)
Lemma pt_wf_leaf m T t n k i v : pt_wf m root T → T !! t = Some (n, k) → 0 <= i < 512 → is_leaf n v = true →
  pt_wf (st m (entry_addr t i) v) root T.
Proof.
  intros (Hr & Hfr & Hent) Ht Hi Hl. split_and!; [done..|]. intros t' n' k' i' Ht' Hi'.
  rewrite ld_st. case_decide as Heq; [|by apply Hent].
  apply entry_addr_inj in Heq as [<- <-]; [|by eapply Hfr|by eapply Hfr|done..].
  rewrite Ht in Ht'. injection Ht' as <- <-. by rewrite Hl.
Qed.

Lemma mmu_map_one_spec s T vaddr paddr size opts : mmu_wf s T → table_frame root → prot_ok opts →
  vaddr mod bytes_of_size size = 0 → paddr mod bytes_of_size size = 0 → 0 <= paddr < 2 ^ 52 →
  runs (mmu_map_one (PHYS_TO_VIRT root) vaddr paddr size opts s)
    (λ s', ∃ T', maps vaddr paddr (upto (bytes_of_size size)) opts s T s' T') (map_panic opts).
Proof.
  intros Hwf Hroot Hopts Hva Hpa Hpr. unfold mmu_map_one.
  set (level := match size with PAGE_1G => _ | _ => _ end).
  assert (height_of level = height_of_size size) as Hlev by by destruct size.
  eapply runs_bind.
  { eapply runs_mono; [by apply mmu_walk_spec|done|]. by intros msg ->; left. }
  intros [[entry hit] s1] (T1 & Hg & Hcase). rewrite Hlev in Hcase.
  destruct hit; [by right; left|]. destruct Hcase as (t & Hpath & ->). set (n := height_of_size size) in *.
  destruct (present _ && negb _) eqn:Hov.
  { apply andb_true_iff in Hov as [_ Hov]. right; right. split; [done|]. by destruct (allow_overwrite opts). }
  cbv zeta. set (ps := if decide _ then _ else _).
  destruct Hg as ((Hpt & Hinv & Hdisj) & HT & _ & Htr & Hav & Hnew & Hmem).
  assert (ps = 0 ∨ ps = _PAGE_PS) as Hps by (unfold ps; case_decide; auto).
  assert (paddr mod PAGE_SIZE = 0) as Hpage.
  { clear -Hpa. size_cases size; unfold PAGE_SIZE; zlia. }
  set (v := Z.lor (Z.lor (Z.lor paddr _PAGE_PRESENT) (prot_flags opts)) ps).
  assert (is_leaf n v = true) as Hleaf.
  { assert (huge v = negb (ps =? 0)) as Hh by by apply leaf_entry_huge.
    unfold n, ps in *. destruct size; cbn [height_of_size is_leaf]; [done|by rewrite Hh..]. }
  pose proof (path_table _ _ _ _ _ _ Hpt Hpath) as Ht.
  destruct (translate_st _ _ _ _ _ _ v Hpt Hpath) as [_ Htr'].
  exists T1. cbn [mem frames]. split_and!; cbn [mem frames flushed]; try done.
  - split_and!; [|done..]. eapply pt_wf_leaf; [done..|apply index_of_range|done].
  - intros va. rewrite Htr'. destruct (page_range size vaddr va Hva) as [Hr Hoff]. fold n in Hr.
    destruct (upto (bytes_of_size size) (lin va - lin vaddr)) eqn:Hup; unfold upto in Hup; bdec.
    2:{ rewrite decide_False by (rewrite Hr; lia). apply Htr. }
    assert (lin vaddr <= lin va < lin vaddr + bytes_of_size size) as Hin by lia.
    rewrite decide_True by by apply Hr. exists v.
    assert (index_of n va = index_of n vaddr) as Hi
      by (rewrite !index_of_pre by (eapply path_height; done); by rewrite (proj2 Hr Hin)).
    assert (present v = true) as Hpres by apply leaf_entry_present.
    split; [|split; [done|by apply leaf_entry_flags]].
    assert (hw_walk n (st (mem s1) (entry_addr t (index_of n vaddr)) v) t va
            = Some (leaf_base n v + va mod 2 ^ shift_of n, v)) as ->.
    { destruct n; cbn [hw_walk]; by rewrite Hi, ld_st_eq, Hpres, Hleaf. }
    rewrite <- (Hoff Hin). do 3 f_equal. by apply leaf_entry_base.
  - intros a Ha. rewrite ld_st_ne; [by apply Hmem|]. intros <-. apply Ha.
    exists t, (index_of n vaddr). split; [by eexists|]. split; [apply index_of_range|reflexivity].
Qed.

Lemma lin_u64 x : lin (u64 x) = lin x.
Proof. unfold lin, u64. zlia. Qed.

Lemma lin_add va c : 0 <= c → lin va + c < 2 ^ 48 → lin (va + c) = lin va + c.
Proof. unfold lin. zlia. Qed.

Lemma lin_add_top va c : lin va + c = 2 ^ 48 → lin (va + c) = 0.
Proof. unfold lin. zlia. Qed.

(** Mapping a page and then the rest of the range. *)
Lemma maps_ext vaddr paddr C C' opts s T s' T' : (∀ o, C o = C' o) →
  maps vaddr paddr C opts s T s' T' → maps vaddr paddr C' opts s T s' T'.
Proof.
  intros HC (? & ? & Htr & ? & ? & ?). split_and!; try assumption. intros va o. rewrite <- HC. apply Htr.
Qed.

Lemma maps_nil vaddr paddr opts s T : mmu_wf s T → maps vaddr paddr (λ _, false) opts s T s T.
Proof. intros Hwf. split_and!; try done. by intros t [x ->]. Qed.

Lemma maps_app vaddr paddr b c len (C : Z → bool) opts s T s1 T1 s2 T2 :
  0 < b <= c → c <= len → lin vaddr + len <= 2 ^ 48 → (∀ o, C o = true → 0 <= o < len - c) →
  maps vaddr paddr (upto b) opts s T s1 T1 →
  maps (u64 (vaddr + c)) (paddr + c) C opts s1 T1 s2 T2 →
  maps vaddr paddr (λ o, upto b o || C (o - c)) opts s T s2 T2.
Proof.
  intros Hb Hc Hlen HC (Hwf1 & HT1 & Htr1 & Hav1 & Hnew1 & Hmem1) (Hwf2 & HT2 & Htr2 & Hav2 & Hnew2 & Hmem2).
  assert (c < len → lin (u64 (vaddr + c)) = lin vaddr + c) as Hlin by (intros; rewrite lin_u64; apply lin_add; lia).
  split_and!; try done; [by etrans| |by intros f ?%Hav2%Hav1|..].
  - intros va o. specialize (Htr1 va). specialize (Htr2 va). cbv zeta in *. fold o in Htr1.
    destruct (decide (c < len)) as [Hlt|Hge].
    + rewrite Hlin in Htr2 by done. replace (lin va - (lin vaddr + c)) with (o - c) in Htr2 by (unfold o; lia).
      destruct (C (o - c)) eqn:E.
      * rewrite orb_true_r. by replace (paddr + c + (o - c)) with (paddr + o) in Htr2 by lia.
      * rewrite orb_false_r, Htr2. done.
    + assert (∀ o, C o = false) as HCf by (intros o'; destruct (C o') eqn:E; [apply HC in E; lia|done]).
      rewrite HCf in Htr2 |- *. rewrite orb_false_r, Htr2. done.
  - intros t Ht Hn. destruct (T1 !! t) as [x|] eqn:E; [apply Hnew1; [by exists x|done]|]. by apply Hav1, Hnew2.
  - intros a Ha. rewrite Hmem2, Hmem1; [done| |done]. intros Hw. apply Ha. by eapply table_word_mono.
Qed.

Lemma is_page_aligned_pow2 a k : 0 <= k → is_page_aligned a (2 ^ k) = (a mod 2 ^ k =? 0).
Proof.
  intros Hk. unfold is_page_aligned. replace (2 ^ k - 1) with (Z.ones k) by (rewrite Z.ones_equiv; lia).
  by rewrite Z.land_ones.
Qed.

Context (cpu_has_1g_pages : bool).

(** How far [mmu_map_range] advances after a page of each size. *)
Definition stride (size : page_size) : Z :=
  match size with PAGE_4K => PAGE_SIZE | PAGE_2M => PAGE_SIZE_2M | PAGE_1G => PAGE_SIZE_1G end.

Ltac stride_cases size :=
  size_cases size; change (stride PAGE_4K) with 4096 in *; change (stride PAGE_2M) with 8388608 in *;
  change (stride PAGE_1G) with 1073741824 in *.

(** The page size [mmu_map_range] picks fits the addresses and the length. *)
Lemma chunk_of_spec vaddr paddr len : vaddr mod PAGE_SIZE = 0 → paddr mod PAGE_SIZE = 0 → PAGE_SIZE <= len →
  let '(size, chunk) := chunk_of cpu_has_1g_pages vaddr paddr len in
  chunk = stride size ∧ vaddr mod chunk = 0 ∧ paddr mod chunk = 0 ∧ chunk <= len.
Proof.
  intros Hv Hp Hl. unfold chunk_of. change PAGE_SIZE_1G with (2 ^ 30). change PAGE_SIZE_2M with (2 ^ 23).
  rewrite !is_page_aligned_pow2 by lia.
  destruct (cpu_has_1g_pages && _ && _ && _) eqn:E1; [bdec; split_and!; done|].
  destruct ((vaddr mod 2 ^ 23 =? 0) && _ && _) eqn:E2; [bdec; split_and!; done|]. done.
Qed.

(** The offsets of the range that some page of the loop covers. *)
Fixpoint coverage (fuel : nat) (vaddr paddr len o : Z) : bool :=
  match fuel with
  | O => false
  | S fuel' =>
      if 0 <? len then
        let '(size, chunk) := chunk_of cpu_has_1g_pages vaddr paddr len in
        upto (bytes_of_size size) o ||
        coverage fuel' (u64 (vaddr + chunk)) (u64 (paddr + chunk)) (u64 (len - chunk)) (o - chunk)
      else false
  end.

(** What the loop needs of its arguments, and that each iteration keeps it. *)
Definition range_ok (vaddr paddr len : Z) : Prop :=
  vaddr mod PAGE_SIZE = 0 ∧ paddr mod PAGE_SIZE = 0 ∧ len mod PAGE_SIZE = 0 ∧
  0 <= paddr ∧ 0 <= len ∧ paddr + len <= 2 ^ 52 ∧ lin vaddr + len <= 2 ^ 48.

Lemma range_ok_step vaddr paddr len : range_ok vaddr paddr len → 0 < len →
  let '(size, chunk) := chunk_of cpu_has_1g_pages vaddr paddr len in
  chunk = stride size ∧ vaddr mod bytes_of_size size = 0 ∧ paddr mod bytes_of_size size = 0 ∧
  0 < bytes_of_size size <= chunk ∧ 4096 <= chunk <= len ∧
  u64 (paddr + chunk) = paddr + chunk ∧ u64 (len - chunk) = len - chunk ∧
  range_ok (u64 (vaddr + chunk)) (paddr + chunk) (len - chunk) ∧
  len / PAGE_SIZE = (len - chunk) / PAGE_SIZE + chunk / PAGE_SIZE.
Proof.
  intros (Hv & Hp & Hl & Hp0 & Hl0 & Hpl & Hvl) Hpos.
  pose proof (chunk_of_spec vaddr paddr len Hv Hp ltac:(unfold PAGE_SIZE in *; zlia)) as Hchunk.
  destruct (chunk_of cpu_has_1g_pages vaddr paddr len) as [size chunk]. destruct Hchunk as (-> & Hcv & Hcp & Hcl).
  assert (vaddr mod bytes_of_size size = 0 ∧ paddr mod bytes_of_size size = 0 ∧ 0 < bytes_of_size size <= stride size
    ∧ 4096 <= stride size ∧ stride size mod 4096 = 0) as (? & ? & ? & ? & Hm)
    by (clear -Hcv Hcp; stride_cases size; zlia).
  split; [done|]. split_and!; try (done || lia).
  - apply u64_small. lia.
  - apply u64_small. lia.
  - assert (lin (u64 (vaddr + stride size)) + (len - stride size) <= 2 ^ 48).
    { rewrite lin_u64. destruct (decide (lin vaddr + stride size < 2 ^ 48)); [rewrite lin_add|rewrite lin_add_top]; lia. }
    unfold range_ok, u64, PAGE_SIZE in *. split_and!; try lia; zlia.
  - unfold PAGE_SIZE in *. zlia.
Qed.

Lemma coverage_range fuel vaddr paddr len o : range_ok vaddr paddr len →
  coverage fuel vaddr paddr len o = true → 0 <= o < len.
Proof.
  revert vaddr paddr len o. induction fuel as [|fuel IH]; intros vaddr paddr len o Hok; cbn [coverage]; [done|].
  destruct (Z.ltb_spec 0 len) as [Hpos|]; [|done].
  pose proof (range_ok_step _ _ _ Hok Hpos) as Hstep.
  destruct (chunk_of cpu_has_1g_pages vaddr paddr len) as [size chunk].
  destruct Hstep as (_ & _ & _ & Hb & Hc & -> & -> & Hok' & _).
  intros [Hup|Hrest]%orb_true_iff; [unfold upto in Hup; bdec; lia|]. apply IH in Hrest; [lia|done].
Qed.

Lemma map_range_loop_spec fuel opts : table_frame root → prot_ok opts → ∀ s T vaddr paddr len,
  mmu_wf s T → range_ok vaddr paddr len → len / PAGE_SIZE < Z.of_nat fuel →
  runs (map_range_loop cpu_has_1g_pages fuel (PHYS_TO_VIRT root) vaddr paddr len opts s)
    (λ s', ∃ T', maps vaddr paddr (coverage fuel vaddr paddr len) opts s T s' T') (map_panic opts).
Proof.
  intros Hroot Hopts. induction fuel as [|fuel IH]; intros s T vaddr paddr len Hwf Hok Hfuel.
  { destruct Hok as (_ & _ & _ & _ & ? & _). unfold PAGE_SIZE in *. zlia. }
  cbn [map_range_loop]. destruct (Z.ltb_spec 0 len) as [Hpos|].
  2:{ exists T. eapply maps_ext; [|by apply maps_nil]. intros o. cbn [coverage]. by rewrite (proj2 (Z.ltb_ge 0 len)). }
  pose proof (range_ok_step _ _ _ Hok Hpos) as Hstep. pose proof Hok as (_ & _ & _ & Hp0 & _ & Hpl & Hvl).
  pose proof (λ o, coverage_range (S fuel) vaddr paddr len o Hok) as Hcov. cbn [coverage] in Hcov |- *.
  rewrite (proj2 (Z.ltb_lt 0 len) Hpos) in Hcov |- *.
  destruct (chunk_of cpu_has_1g_pages vaddr paddr len) as [size chunk].
  destruct Hstep as (_ & Hcv & Hcp & Hb & Hc & -> & -> & Hok' & Hdiv).
  eapply runs_bind; [apply (mmu_map_one_spec s T); (done || lia)|].
  intros s1 (T1 & Hm1).
  eapply runs_mono; [apply (IH s1 T1); [apply Hm1|done|]| |done].
  - assert (1 <= chunk / PAGE_SIZE) by (clear -Hc; unfold PAGE_SIZE; zlia). lia.
  - intros s2 (T2 & Hm2). exists T2. eapply maps_app; [done| |done| |done|done]; [lia|].
    intros o Ho. by apply coverage_range in Ho.
Qed.

Lemma mmu_map_range_spec s T vaddr paddr len opts : mmu_wf s T → table_frame root → prot_ok opts →
  range_ok vaddr paddr len →
  runs (mmu_map_range cpu_has_1g_pages (PHYS_TO_VIRT root) vaddr paddr len opts s)
    (λ s', ∃ T', maps vaddr paddr (coverage (map_range_fuel len) vaddr paddr len) opts s T s' T') (map_panic opts).
Proof.
  intros Hwf Hroot Hopts Hok. pose proof Hok as (Hv & Hp & Hl & _ & Hl0 & _). unfold mmu_map_range.
  change PAGE_SIZE with (2 ^ 12) in Hv, Hp, Hl |- *. rewrite !is_page_aligned_pow2, Hv, Hp, Hl by lia. cbn [Z.eqb negb orb].
  apply map_range_loop_spec; [done..|]. unfold map_range_fuel, PAGE_SIZE. zlia.
Qed.

(** Ranges for which every iteration advances by the size of the page it
    maps: no iteration takes the PAGE_2M branch. *)
Definition no_2m_pages (vaddr paddr len : Z) : Prop :=
  len < PAGE_SIZE_2M ∨ (vaddr - paddr) mod PAGE_SIZE_2M ≠ 0 ∨
  (cpu_has_1g_pages = true ∧ vaddr mod PAGE_SIZE_1G = 0 ∧ paddr mod PAGE_SIZE_1G = 0 ∧ len mod PAGE_SIZE_1G = 0).

Lemma no_2m_step vaddr paddr len : range_ok vaddr paddr len → no_2m_pages vaddr paddr len → 0 < len →
  let '(size, chunk) := chunk_of cpu_has_1g_pages vaddr paddr len in
  chunk = bytes_of_size size ∧ no_2m_pages (u64 (vaddr + chunk)) (paddr + chunk) (len - chunk).
Proof.
  intros (_ & _ & _ & _ & _ & _ & _) Hno Hpos. unfold chunk_of. change PAGE_SIZE_1G with (2 ^ 30).
  change PAGE_SIZE_2M with (2 ^ 23). rewrite !is_page_aligned_pow2 by lia.
  unfold no_2m_pages in *. change PAGE_SIZE_1G with (2 ^ 30) in *. change PAGE_SIZE_2M with (2 ^ 23) in *.
  destruct (cpu_has_1g_pages && _ && _ && _) eqn:E1; [|destruct ((vaddr mod 2 ^ 23 =? 0) && _ && _) eqn:E2]; bdec.
  - split; [done|]. destruct Hno as [Hno|[Hno|(Hc & Hv & Hp & Hl)]]; [zlia|zlia|right; right].
    unfold u64. clear -Hc Hv Hp Hl. split_and!; [done|zlia..].
  - destruct Hno as [Hno|[Hno|(-> & Hv & Hp & Hl)]]; [zlia|zlia|].
    rewrite Hv, Hp in E1. cbn in E1. destruct E1 as [|E1]; [done|]. bdec. zlia.
  - split; [done|]. unfold PAGE_SIZE, u64.
    destruct Hno as [Hno|[Hno|(-> & Hv & Hp & Hl)]]; [left; lia|right; left; zlia|].
    rewrite Hv, Hp in E1. cbn in E1. destruct E1 as [|E1]; [done|]. bdec. zlia.
Qed.

Lemma coverage_full fuel vaddr paddr len o : range_ok vaddr paddr len → no_2m_pages vaddr paddr len →
  len / PAGE_SIZE < Z.of_nat fuel → coverage fuel vaddr paddr len o = upto len o.
Proof.
  revert vaddr paddr len o. induction fuel as [|fuel IH]; intros vaddr paddr len o Hok Hno Hfuel.
  { destruct Hok as (_ & _ & _ & _ & ? & _). unfold PAGE_SIZE in *. zlia. }
  cbn [coverage]. destruct (Z.ltb_spec 0 len) as [Hpos|].
  2:{ symmetry. apply not_true_iff_false. unfold upto. intros Hup. bdec. lia. }
  pose proof (range_ok_step _ _ _ Hok Hpos) as Hstep. pose proof (no_2m_step _ _ _ Hok Hno Hpos) as Hstep'.
  destruct (chunk_of cpu_has_1g_pages vaddr paddr len) as [size chunk].
  destruct Hstep as (_ & _ & _ & Hb & Hc & -> & -> & Hok' & Hdiv). destruct Hstep' as (-> & Hno').
  assert (1 <= bytes_of_size size / PAGE_SIZE) by (clear -Hc; unfold PAGE_SIZE; zlia).
  rewrite IH by (done || lia). unfold upto. lia.
Qed.

(** The offsets a range of 8 MiB-aligned chunks covers without 1 GiB pages. *)
Lemma coverage_2m fuel vaddr paddr len o : cpu_has_1g_pages = false → range_ok vaddr paddr len →
  vaddr mod PAGE_SIZE_2M = 0 → paddr mod PAGE_SIZE_2M = 0 → len mod PAGE_SIZE_2M = 0 →
  len / PAGE_SIZE < Z.of_nat fuel →
  coverage fuel vaddr paddr len o = upto len o && (o mod 0x800000 <? 0x200000).
Proof.
  intros H1g. revert vaddr paddr len o. induction fuel as [|fuel IH]; intros vaddr paddr len o Hok Hv Hp Hl Hfuel.
  { destruct Hok as (_ & _ & _ & _ & ? & _). unfold PAGE_SIZE in *. zlia. }
  cbn [coverage]. destruct (Z.ltb_spec 0 len) as [Hpos|].
  2:{ symmetry. apply not_true_iff_false. unfold upto. intros Hup. bdec. lia. }
  pose proof (range_ok_step _ _ _ Hok Hpos) as Hstep.
  assert (chunk_of cpu_has_1g_pages vaddr paddr len = (PAGE_2M, PAGE_SIZE_2M)) as Hch.
  { unfold chunk_of. rewrite H1g. cbn [andb]. change PAGE_SIZE_2M with (2 ^ 23) in *.
    rewrite !is_page_aligned_pow2, Hv, Hp by lia. cbn [Z.eqb andb].
    rewrite (proj2 (Z.leb_le (2 ^ 23) len)) by zlia. done. }
  rewrite Hch in Hstep |- *.
  destruct Hstep as (_ & _ & _ & Hb & Hc & -> & -> & Hok' & Hdiv).
  change (bytes_of_size PAGE_2M) with 0x200000. change PAGE_SIZE_2M with 0x800000 in *.
  change (0x800000 / PAGE_SIZE) with 2048 in Hdiv.
  rewrite IH; [|done|unfold u64; clear -Hv; zlia|clear -Hp; zlia|clear -Hl; zlia|lia].
  unfold upto. clear -Hc. destruct (Z.ltb_spec o 0x800000); zlia.
Qed.

End paging_spec.

(** ** Theorems *)

(** C19: walking to an entry.  On a well-formed tree, [mmu_walk] returns the
    entry of the requested level on the path the processor takes for [vaddr],
    creating the missing tables on the way from available frames; or it
    reports a huge page, and then one does cover [vaddr].  No translation and
    no word outside the tables changes, and the only panic is exhaustion of
    frames. *)
Theorem mmu_walk_correct {F} `{FrameAllocator F} root (s : mmu F) T vaddr level : mmu_wf root s T →
  runs (mmu_walk (PHYS_TO_VIRT root) vaddr level s) (walk_post root vaddr level s T) (λ msg, msg = no_frames_msg).
Proof. intros Hwf. apply mmu_walk_spec; [done|]. by eapply Hwf, Hwf. Qed.


(** The holes of 2 MiB mappings.  PAGE_SIZE_2M is 4096 * 1024 * 2, which
    is 8 MiB, while a PMD entry maps 2 MiB.  Without 1 GiB pages, mapping a
    range of aligned 8 MiB blocks maps exactly the first 2 MiB of each block;
    the other 6 MiB keep whatever translation they had. *)
Theorem mmu_map_range_2m_holes {F} `{FrameAllocator F} root (s : mmu F) T vaddr paddr len opts :
  mmu_wf root s T → prot_ok opts → range_ok vaddr paddr len →
  vaddr mod PAGE_SIZE_2M = 0 → paddr mod PAGE_SIZE_2M = 0 → len mod PAGE_SIZE_2M = 0 →
  runs (mmu_map_range false (PHYS_TO_VIRT root) vaddr paddr len opts s)
    (λ s', ∃ T', maps root vaddr paddr (λ o, upto len o && (o mod 0x800000 <? 0x200000)) opts s T s' T')
    (map_panic opts).
Proof.
  intros Hwf Hopts Hok Hv Hp Hl. assert (table_frame root) as Hroot by by eapply Hwf, Hwf.
  eapply runs_mono; [by apply (mmu_map_range_spec root false s T)| |done]. intros s' (T' & Hm). exists T'.
  eapply maps_ext; [|done]. intros o. apply coverage_2m; [done..|].
  destruct Hok as (_ & _ & _ & _ & Hl0 & _). unfold map_range_fuel, PAGE_SIZE. zlia.
Qed.

(** An empty address space: the root table in frame 1, the bitmap allocator
    with frames 13 to 23 free. *)
Definition demo_mmu : mmu pmm := Mmu ∅ demo_pmm [].
Definition demo_tables : gmap Z (nat * Z) := {[ 0x1000 := (3%nat, 0) ]}.

Lemma demo_mmu_wf : mmu_wf 0x1000 demo_mmu demo_tables.
Proof.
  unfold demo_tables. split; [|split].
  - split_and!.
    + apply lookup_singleton_eq.
    + intros t n k [<- [= <- <-]]%lookup_singleton_Some. split; [split; [done|lia]|lia].
    + intros t n k i _ _. unfold demo_mmu, ld. simpl mem. rewrite lookup_empty. done.
  - split; [apply demo_pmm_ok|done].
  - intros f Hf. apply lookup_singleton_None. intros <-. destruct Hf as (_ & _ & Hf). vm_compute in Hf. done.
Qed.

Definition demo_prot : pgprot := PgProt (Z.lor _PAGE_RW _PAGE_USER) false.

Lemma mmu_walk_correct_witness :
  runs (mmu_walk (PHYS_TO_VIRT 0x1000) 0x400000 LVL_PTE demo_mmu)
    (walk_post 0x1000 0x400000 LVL_PTE demo_mmu demo_tables) (λ msg, msg = no_frames_msg).
Proof. apply mmu_walk_correct. apply demo_mmu_wf. Defined.


Lemma mmu_map_range_2m_holes_witness :
  ok (mmu_map_range false (PHYS_TO_VIRT 0x1000) 0x800000 0x1000000 0x1000000 demo_prot demo_mmu) = true ∧
  runs (mmu_map_range false (PHYS_TO_VIRT 0x1000) 0x800000 0x1000000 0x1000000 demo_prot demo_mmu)
    (λ s', ∃ T', maps 0x1000 0x800000 0x1000000
       (λ o, upto 0x1000000 o && (o mod 0x800000 <? 0x200000)) demo_prot demo_mmu demo_tables s' T')
    (map_panic demo_prot).
Proof.
  split; [vm_compute; reflexivity|].
  apply mmu_map_range_2m_holes; [apply demo_mmu_wf|by vm_compute..].
Defined.

(** The hole seen on this address space: 3 MiB into the range nothing is mapped. *)
Example hole_demo :
  (s' ← mmu_map_range false (PHYS_TO_VIRT 0x1000) 0x800000 0x1000000 0x1000000 demo_prot demo_mmu;
   Ok (translate (mem s') 0x1000 (0x800000 + 0x100000), translate (mem s') 0x1000 (0x800000 + 0x300000)))
  = Ok (Some (0x1100000, 0x1000087), None).
Proof. vm_compute. reflexivity. Qed.
