(* ===== verification/Vmm.v ===== *)
(** * Virtual memory of the kernel (mm/vmm.c)

    The functions that build the kernel's address space on top of
    [mmu_map_range]: the boot-time direct map and kernel image, [ioremap],
    single pages and ranges backed by fresh frames, and the copy of the kernel
    page table a new process starts from. *)

From S2P Require Import Prelude Types FrameAlloc EarlyPmm Pmm Paging.

Definition PAGE_RW : Z := _PAGE_RW.
Definition PAGE_USER : Z := _PAGE_USER.
Definition PAGE_WRITE_THROUGH : Z := _PAGE_WRITE_THROUGH.
Definition PAGE_CACHE_DISABLE : Z := _PAGE_CACHE_DISABLE.
Definition PAGE_NO_EXECUTE : Z := _PAGE_NO_EXECUTE.

(** [memcpy(dst, src, 8 * n)] on word memory. *)
Fixpoint copy_words (n : nat) (dst src : Z) (m : gmap Z Z) : gmap Z Z :=
  match n with
  | O => m
  | S n' => copy_words n' (dst + 8) (src + 8) (st m (u64 dst) (ld m (u64 src)))
  end.

Definition unaligned_pair_msg : string := "vmm_map_page: vaddr or/and paddr are not page algined".
Definition unaligned_vaddr_msg : string := "vmm_alloc_page: vaddr is not page algined".

Section vmm.
Context {F : Type} `{FrameAllocator F}.
Context (cpu_has_1g_pages : bool).

(** [kernel_pgd] and the CR3 register beside the paging state. *)
Record vmm := Vmm { vm : mmu F; kernel_pgd : Z; cr3 : Z }.

Definition direct_prot : pgprot := PgProt (Z.lor PAGE_RW PAGE_NO_EXECUTE) false.
Definition kernel_prot : pgprot := PgProt PAGE_RW true.

(** The loop of [vmm_init] over the sanitised regions. *)
Fixpoint map_usable (regions : list phys_region) (pgd : Z) (s : mmu F) : res (mmu F) :=
  match regions with
  | [] => Ok s
  | r :: rest =>
      if bool_decide (pr_type r ≠ PHYS_REGION_USABLE) then map_usable rest pgd s else
      let phys_start := PAGE_ALIGN_DOWN (pr_start r) in
      let phys_end := PAGE_ALIGN_UP (pr_end r) in
      let virt_start := PHYS_TO_VIRT phys_start in
      s ← mmu_map_range cpu_has_1g_pages pgd virt_start phys_start (u64 (phys_end - phys_start)) direct_prot s;
      map_usable rest pgd s
  end.

Definition kernel_size (kernel_end : Z) : Z := PAGE_ALIGN_UP (u64 (kernel_end - KERNEL_START_VIRT_ADDR)).

Definition vmm_init (clean : list phys_region) (kernel_end : Z) (v : vmm) : res (Z * vmm) :=
  let s := vm v in
  '(pgd_raw, fr) ← fa_alloc (frames s);
  if pgd_raw =? NULL then Ok (- ENOMEM, Vmm (Mmu (mem s) fr (flushed s)) (kernel_pgd v) (cr3 v)) else
  let kpgd := PHYS_TO_VIRT pgd_raw in
  let s := Mmu (zero_words 512 kpgd (mem s)) fr (flushed s) in
  s ← map_usable clean kpgd s;
  s ← mmu_map_range cpu_has_1g_pages kpgd KERNEL_START_VIRT_ADDR KERNEL_START_PHYS_ADDR (kernel_size kernel_end)
        kernel_prot s;
  Ok (0, Vmm s kpgd pgd_raw).

Definition io_prot : pgprot := PgProt (Z.lor (Z.lor PAGE_RW PAGE_CACHE_DISABLE) PAGE_WRITE_THROUGH) true.

Definition ioremap (kpgd paddr size : Z) (s : mmu F) : res (Z * mmu F) :=
  let paligned := PAGE_ALIGN_DOWN paddr in
  let offset := u64 (paddr - paligned) in
  let size_aligned := PAGE_ALIGN_UP (u64 (size + offset)) in
  s ← mmu_map_range cpu_has_1g_pages kpgd (PHYS_TO_VIRT paligned) paligned size_aligned io_prot s;
  Ok (PHYS_TO_VIRT paddr, s).

Definition vmm_map_page (pgd vaddr paddr : Z) (prot : pgprot) (s : mmu F) : res (mmu F) :=
  if (IS_PAGE_ALIGNED vaddr =? 0) || (IS_PAGE_ALIGNED paddr =? 0) then Panic unaligned_pair_msg
  else mmu_map_range cpu_has_1g_pages pgd vaddr paddr PAGE_SIZE prot s.

Definition vmm_alloc_page (pgd vaddr : Z) (prot : pgprot) (s : mmu F) : res (Z * mmu F) :=
  if IS_PAGE_ALIGNED vaddr =? 0 then Panic unaligned_vaddr_msg else
  '(frame, fr) ← fa_alloc (frames s);
  let s := Mmu (mem s) fr (flushed s) in
  if frame =? NULL then Ok (- ENOMEM, s) else
  s ← vmm_map_page pgd vaddr frame prot s;
  Ok (0, s).

Fixpoint alloc_range_loop (fuel : nat) (pgd vaddr size count : Z) (prot : pgprot) (s : mmu F) : res (Z * mmu F) :=
  match fuel with
  | O => OutOfFuel
  | S fuel' =>
      if size =? 0 then Ok (count, s) else
      '(r, s) ← vmm_alloc_page pgd vaddr prot s;
      if r <? 0 then Ok (r, s) else
      alloc_range_loop fuel' pgd (u64 (vaddr + PAGE_SIZE)) (u64 (size - PAGE_SIZE)) (count + 1) prot s
  end.

Definition vmm_alloc_range (pgd vaddr size : Z) (prot : pgprot) (s : mmu F) : res (Z * mmu F) :=
  if IS_PAGE_ALIGNED vaddr =? 0 then Panic unaligned_vaddr_msg else
  let size := PAGE_ALIGN_UP size in
  alloc_range_loop (S (Z.to_nat (size / PAGE_SIZE))) pgd vaddr size 0 prot s.

Definition vmm_get_kpgd (v : vmm) : Z := kernel_pgd v.
End vmm.
Arguments vmm : clear implicits.

(** [alloc_page] of mm/kmalloc.c always takes the frame from the bitmap
    allocator. *)
Definition alloc_page (s : pmm) : res (Z * pmm) :=
  '(frame, s) ← pmm_alloc_frame s;
  if frame =? NULL then Ok (NULL, s) else Ok (PHYS_TO_VIRT frame, s).

Definition vmm_copy_kpgtbl (kpgd : Z) (s : mmu pmm) : res (Z * mmu pmm) :=
  '(pgd, fr) ← alloc_page (frames s);
  let s := Mmu (mem s) fr (flushed s) in
  if pgd =? NULL then Ok (ERR_PTR (- ENOMEM), s) else
  Ok (pgd, Mmu (copy_words 512 pgd kpgd (mem s)) fr (flushed s)).

Lemma direct_prot_ok : prot_ok direct_prot. Proof. by vm_compute. Qed.
Lemma kernel_prot_ok : prot_ok kernel_prot. Proof. by vm_compute. Qed.
Lemma io_prot_ok : prot_ok io_prot. Proof. by vm_compute. Qed.
#[export] Hint Resolve direct_prot_ok kernel_prot_ok io_prot_ok : machine.

(** ** Ranges backed by fresh frames *)

Section vmm_spec.
Context {F : Type} `{FrameAllocator F}.
Context (root : Z) (cpu_has_1g_pages : bool).
Implicit Types (s : mmu F) (T : gmap Z (nat * Z)).

(** [backed vaddr prot fs s T s' T']: the pages from [vaddr] on are backed, in
    order, by the frames [fs]: distinct frames, taken from the allocator,
    none of them a page table; all other translations are unchanged. *)
Definition backed (vaddr : Z) (prot : pgprot) (fs : list Z) (s : mmu F) (T : gmap Z (nat * Z))
    (s' : mmu F) (T' : gmap Z (nat * Z)) : Prop :=
  mmu_wf root s' T' ∧ T ⊆ T' ∧ NoDup fs ∧
  Forall (λ f, fa_avail (frames s) f ∧ ¬ fa_avail (frames s') f ∧ T' !! f = None) fs ∧
  (∀ va, let o := lin va - lin vaddr in
     if upto (PAGE_SIZE * Z.of_nat (length fs)) o
     then mapped_as prot (znth 0 fs (o / PAGE_SIZE) + o mod PAGE_SIZE) (translate (mem s') root va)
     else translate (mem s') root va = translate (mem s) root va) ∧
  (∀ f, fa_avail (frames s') f → fa_avail (frames s) f) ∧
  (∀ t, is_Some (T' !! t) → T !! t = None → fa_avail (frames s) t) ∧
  (∀ a, ¬ table_word T' a → ld (mem s') a = ld (mem s) a).

Lemma backed_nil vaddr prot s T : mmu_wf root s T → backed vaddr prot [] s T s T.
Proof.
  intros Hwf. split_and!; try done; [by apply NoDup_nil| |by intros t [x ->]].
  intros va o. destruct (upto _ o) eqn:E; [|done]. unfold upto in E. bdec. simpl in *. lia.
Qed.

(** The same, for one address at offset [o]: [r0], [r1] and [r2] are its
    translations before, after the first page, and after the rest. *)
Lemma backed_cons_at prot f fs o (r0 r1 r2 : option (Z * Z)) :
  (if upto PAGE_SIZE o then mapped_as prot (f + o) r1 else r1 = r0) →
  (if upto (PAGE_SIZE * Z.of_nat (length fs)) (o - PAGE_SIZE)
   then mapped_as prot (znth 0 fs ((o - PAGE_SIZE) / PAGE_SIZE) + (o - PAGE_SIZE) mod PAGE_SIZE) r2 else r2 = r1) →
  if upto (PAGE_SIZE * Z.of_nat (length (f :: fs))) o
  then mapped_as prot (znth 0 (f :: fs) (o / PAGE_SIZE) + o mod PAGE_SIZE) r2 else r2 = r0.
Proof.
  cbn [length]. unfold PAGE_SIZE. intros H1 H2. destruct (upto (4096 * Z.of_nat (S _)) o) eqn:E.
  - apply upto_true in E. destruct (decide (o < 4096)) as [Hlt|Hge].
    + rewrite (proj2 (upto_true _ _)) in H1 by lia. rewrite (proj2 (upto_false _ _)) in H2 by lia. subst r2.
      rewrite Z.div_small, Z.mod_small by lia. done.
    + rewrite (proj2 (upto_true _ _)) in H2 by lia. replace (o mod 4096) with ((o - 4096) mod 4096) by zlia.
      assert (znth 0 (f :: fs) (o / 4096) = znth 0 fs ((o - 4096) / 4096)) as ->; [|done].
      unfold znth. replace (Z.to_nat (o / 4096)) with (S (Z.to_nat ((o - 4096) / 4096))) by zlia. done.
  - apply upto_false in E. rewrite (proj2 (upto_false _ _)) in H1 by lia.
    rewrite (proj2 (upto_false _ _)) in H2 by lia. congruence.
Qed.

Lemma backed_cons vaddr prot f fs s T s1 T1 s2 T2 :
  lin vaddr + PAGE_SIZE * (1 + Z.of_nat (length fs)) <= 2 ^ 48 →
  fa_avail (frames s) f → ¬ fa_avail (frames s1) f → T1 !! f = None →
  maps root vaddr f (upto PAGE_SIZE) prot s T s1 T1 →
  backed (u64 (vaddr + PAGE_SIZE)) prot fs s1 T1 s2 T2 →
  backed vaddr prot (f :: fs) s T s2 T2.
Proof.
  intros Hlen Hf Hf1 HTf (Hwf1 & HT1 & Htr1 & Hav1 & Hnew1 & Hmem1)
    (Hwf2 & HT2 & Hnd & Hfs & Htr2 & Hav2 & Hnew2 & Hmem2).
  split_and!; try done; [by etrans| | | |by intros g ?%Hav2%Hav1|..].
  - apply NoDup_cons. split; [|done]. intros Hin. rewrite Forall_forall in Hfs. by destruct (Hfs _ Hin).
  - apply Forall_cons. split.
    + split_and!; [done|by intros ?%Hav2|]. destruct (T2 !! f) eqn:E; [|done].
      destruct Hf1. apply Hnew2; [by eexists|done].
    + eapply Forall_impl; [done|]. intros g (Hg & ? & ?). split_and!; auto.
  - intros va o. specialize (Htr1 va). specialize (Htr2 va). cbv zeta in *. fold o in Htr1.
    assert (fs = [] ∨ lin (u64 (vaddr + PAGE_SIZE)) = lin vaddr + PAGE_SIZE) as [-> | Hlin].
    { destruct fs; [by left|right]. rewrite lin_u64. unfold PAGE_SIZE in *. cbn [length] in Hlen. apply lin_add; lia. }
    { cbn [length] in *. change (PAGE_SIZE * Z.of_nat 0) with 0 in Htr2. change (PAGE_SIZE * Z.of_nat 1) with PAGE_SIZE.
      rewrite (proj2 (upto_false 0 _)) in Htr2 by lia. rewrite Htr2.
      destruct (upto PAGE_SIZE o) eqn:E; [|done]. apply upto_true in E. unfold PAGE_SIZE in *.
      rewrite Z.div_small, Z.mod_small by lia. done. }
    rewrite Hlin in Htr2. replace (lin va - (lin vaddr + PAGE_SIZE)) with (o - PAGE_SIZE) in Htr2 by (unfold o; lia).
    clearbody o. by apply (backed_cons_at prot f fs o (translate (mem s) root va) (translate (mem s1) root va)).
  - intros t Ht Hn. destruct (T1 !! t) as [x|] eqn:E; [apply Hnew1; [by exists x|done]|]. by apply Hav1, Hnew2.
  - intros a Ha. rewrite Hmem2, Hmem1; [done| |done]. intros Hw. apply Ha. by eapply table_word_mono.
Qed.

(** A mapping step is unaffected by frames taken from the allocator first. *)
Lemma maps_frames vaddr paddr C prot s fr fl T s' T' :
  (∀ f, fa_avail fr f → fa_avail (frames s) f) →
  maps root vaddr paddr C prot (Mmu (mem s) fr fl) T s' T' → maps root vaddr paddr C prot s T s' T'.
Proof. intros Hsub (? & ? & ? & ? & ? & ?). split_and!; simpl in *; auto. Qed.

Lemma vmm_alloc_page_spec s T vaddr prot : mmu_wf root s T → prot_ok prot → vaddr mod PAGE_SIZE = 0 →
  lin vaddr + PAGE_SIZE <= 2 ^ 48 →
  runs (vmm_alloc_page cpu_has_1g_pages (PHYS_TO_VIRT root) vaddr prot s)
    (λ '(r, s'), (r = - ENOMEM ∧ mmu_wf root s' T ∧ mem s' = mem s ∧
                    (∀ f, ¬ fa_avail (frames s) f) ∧ (∀ f, ¬ fa_avail (frames s') f)) ∨
       (r = 0 ∧ ∃ f T', fa_avail (frames s) f ∧ ¬ fa_avail (frames s') f ∧ T' !! f = None ∧
          maps root vaddr f (upto PAGE_SIZE) prot s T s' T'))
    (map_panic prot).
Proof.
  intros (Hpt & Hinv & Hdisj) Hprot Hv Hlin. unfold vmm_alloc_page, vmm_map_page. rewrite IS_PAGE_ALIGNED_guard.
  pose proof (fa_alloc_spec (frames s) Hinv) as Halloc.
  destruct (fa_alloc (frames s)) as [[f fr]| | |]; try done. cbn [mbind res_bind].
  destruct Halloc as (Hinv' & Hcase). destruct (Z.eqb_spec f NULL) as [->|Hne].
  { destruct Hcase as [(_ & Hno & Hno')|(Hav & _)].
    - left. split_and!; try done. split_and!; [done..|]. intros g Hg. by destruct (Hno' g).
    - apply fa_avail_frame in Hav as [_ ?]; [unfold NULL in *; lia|done]. }
  destruct Hcase as [(-> & _)|(Hav & Hav' & Hsub)]; [done|].
  destruct (fa_avail_frame _ _ Hinv Hav) as [Hal Hr]. rewrite IS_PAGE_ALIGNED_guard. cbn [orb].
  eapply runs_bind.
  { apply (mmu_map_range_spec root _ _ T); [|by eapply Hpt, Hpt|done|].
    - split_and!; [done..|]. intros g Hg. by apply Hdisj, Hsub.
    - unfold range_ok, PAGE_SIZE in *. split_and!; try done; zlia. }
  intros s1 (T1 & Hm). right. split; [done|]. exists f, T1.
  pose proof Hm as (Hwf1 & _ & _ & Hsub1 & Hnew & _). cbn [frames] in *. split_and!; [done|naive_solver| |].
  - destruct (T1 !! f) eqn:E; [|done]. destruct Hav'. apply Hnew; [by eexists|by apply Hdisj].
  - eapply maps_frames; [done|]. eapply maps_ext; [|done].
    intros o. apply coverage_full; [unfold range_ok, PAGE_SIZE in *; split_and!; try done; zlia|by left|done].
Qed.

Definition alloc_range_post (vaddr n count : Z) (prot : pgprot) (s : mmu F) (T : gmap Z (nat * Z)) (ret : Z * mmu F) : Prop :=
  let '(r, s') := ret in
  ∃ T' fs, backed vaddr prot fs s T s' T' ∧
    ((r = count + n ∧ Z.of_nat (length fs) = n) ∨
     (r = - ENOMEM ∧ Z.of_nat (length fs) < n ∧ ∀ f, ¬ fa_avail (frames s') f)).

Lemma alloc_range_loop_spec fuel prot : prot_ok prot → ∀ s T vaddr n count,
  mmu_wf root s T → vaddr mod PAGE_SIZE = 0 → 0 <= n < Z.of_nat fuel → lin vaddr + PAGE_SIZE * n <= 2 ^ 48 →
  runs (alloc_range_loop cpu_has_1g_pages fuel (PHYS_TO_VIRT root) vaddr (PAGE_SIZE * n) count prot s)
    (alloc_range_post vaddr n count prot s T) (map_panic prot).
Proof.
  intros Hprot. induction fuel as [|fuel IH]; intros s T vaddr n count Hwf Hv Hn Hlin; [lia|].
  cbn [alloc_range_loop]. destruct (Z.eqb_spec (PAGE_SIZE * n) 0) as [Hz|Hnz].
  { exists T, []. split; [by apply backed_nil|]. left. unfold PAGE_SIZE in Hz. simpl. lia. }
  eapply runs_bind.
  { apply (vmm_alloc_page_spec s T); [done..|]. unfold PAGE_SIZE in *. lia. }
  intros [r s1] [(-> & Hwf1 & Hmem & Hno & Hno')|(-> & f & T1 & Hf & Hf' & HTf & Hm)].
  - cbn. exists T, []. split; [|right; simpl; unfold PAGE_SIZE in *; split_and!; [done|lia|done]].
    split_and!; try done; [by apply NoDup_nil|..]; rewrite ?Hmem; try done.
    + intros va o. destruct (upto _ o) eqn:E; [|done]. unfold upto in E. bdec. simpl in *. lia.
    + intros g Hg. by destruct (Hno' g).
    + by intros t [x ->].
  - cbn [Z.ltb]. change (0 <? 0) with false. cbv iota.
    rewrite (u64_small (PAGE_SIZE * n - PAGE_SIZE)) by (unfold lin, PAGE_SIZE in *; zlia).
    replace (PAGE_SIZE * n - PAGE_SIZE) with (PAGE_SIZE * (n - 1)) by lia.
    eapply runs_mono; [apply (IH s1 T1); [apply Hm| | |]| |done].
    + unfold u64, PAGE_SIZE in *. zlia.
    + unfold PAGE_SIZE in *. lia.
    + rewrite lin_u64. unfold PAGE_SIZE in *. destruct (decide (lin vaddr + 4096 < 2 ^ 48));
        [rewrite lin_add|rewrite lin_add_top]; lia.
    + intros [r s2] (T2 & fs & Hb & Hc). exists T2, (f :: fs).
      assert (Z.of_nat (length fs) <= n - 1) by lia.
      split; [|simpl length; lia || (destruct Hc as [?|?]; [left|right]; simpl; naive_solver lia)].
      eapply backed_cons; [|done..]. unfold PAGE_SIZE in *. lia.
Qed.

(** ** The direct map *)

Lemma lin_PHYS_TO_VIRT p : 0 <= p < 2 ^ 46 → lin (PHYS_TO_VIRT p) = p + 0x888000000000.
Proof. unfold lin, PHYS_TO_VIRT, u64, ID_VIRT_REGION_START. zlia. Qed.

Lemma PHYS_TO_VIRT_aligned p : p mod PAGE_SIZE = 0 → PHYS_TO_VIRT p mod PAGE_SIZE = 0.
Proof. unfold PHYS_TO_VIRT, u64, ID_VIRT_REGION_START, PAGE_SIZE. zlia. Qed.

Lemma direct_range_ok p len : p mod PAGE_SIZE = 0 → len mod PAGE_SIZE = 0 → 0 <= p → 0 <= len →
  p + len < 2 ^ 46 → range_ok (PHYS_TO_VIRT p) p len.
Proof.
  intros Hp Hl Hp0 Hl0 Hb. unfold range_ok. rewrite lin_PHYS_TO_VIRT by lia.
  split_and!; try (done || lia). by apply PHYS_TO_VIRT_aligned.
Qed.

(** The byte at physical address [p] is reached through the direct map. *)
Definition direct_mapped (m : gmap Z Z) (prot : pgprot) (p : Z) : Prop :=
  mapped_as prot p (translate m root (PHYS_TO_VIRT p)).

(** Extending the direct map keeps what it already had. *)
Lemma maps_direct p C prot s T s' T' q : 0 <= p < 2 ^ 46 → 0 <= q < 2 ^ 46 →
  maps root (PHYS_TO_VIRT p) p C prot s T s' T' →
  C (q - p) = true ∨ direct_mapped (mem s) prot q → direct_mapped (mem s') prot q.
Proof.
  intros Hp Hq (_ & _ & Htr & _). specialize (Htr (PHYS_TO_VIRT q)). cbv zeta in Htr.
  rewrite !lin_PHYS_TO_VIRT in Htr by lia. replace (q + _ - _) with (q - p) in Htr by lia.
  unfold direct_mapped. destruct (C (q - p)) eqn:E.
  - by replace (p + (q - p)) with q in Htr by lia.
  - intros [?|Hd]; [done|]. by rewrite Htr.
Qed.

(** The page-aligned extent of a region as [vmm_init] maps it. *)
Definition region_pages (r : phys_region) : Z * Z :=
  (PAGE_ALIGN_DOWN (pr_start r), u64 (PAGE_ALIGN_UP (pr_end r) - PAGE_ALIGN_DOWN (pr_start r))).

Lemma region_pages_spec r : 0 <= pr_start r < pr_end r → pr_end r <= 2 ^ 45 →
  let '(p, len) := region_pages r in
  p mod PAGE_SIZE = 0 ∧ len mod PAGE_SIZE = 0 ∧ 0 <= p <= pr_start r ∧ pr_end r <= p + len ∧ p + len < 2 ^ 46 ∧ 0 < len.
Proof.
  intros Hr He. unfold region_pages.
  destruct (PAGE_ALIGN_UP_bounds (pr_end r)) as [Hu Hum]; [lia|unfold PAGE_SIZE; lia|].
  destruct (PAGE_ALIGN_DOWN_bounds (pr_start r)) as (Hd & Hd0 & Hdm); [lia|].
  unfold PAGE_SIZE in *. rewrite u64_small by lia. split_and!; try lia; zlia.
Qed.

(** Usable regions in which no iteration takes the PAGE_2M branch are direct
    mapped byte for byte. *)
Definition fully_mapped_region (r : phys_region) : Prop :=
  pr_type r = PHYS_REGION_USABLE ∧
  no_2m_pages cpu_has_1g_pages (PHYS_TO_VIRT (region_pages r).1) (region_pages r).1 (region_pages r).2.

Lemma map_usable_spec regions s T :
  Forall (λ r, 0 <= pr_start r < pr_end r ∧ pr_end r <= 2 ^ 45) regions → mmu_wf root s T → table_frame root →
  runs (map_usable cpu_has_1g_pages regions (PHYS_TO_VIRT root) s)
    (λ s', ∃ T', mmu_wf root s' T' ∧
       (∀ q, 0 <= q < 2 ^ 46 → direct_mapped (mem s) direct_prot q → direct_mapped (mem s') direct_prot q) ∧
       (∀ r q, r ∈ regions → fully_mapped_region r → pr_start r <= q < pr_end r → direct_mapped (mem s') direct_prot q))
    (map_panic direct_prot).
Proof.
  revert s T. induction regions as [|r regions IH]; intros s T Hbd Hwf Hroot; cbn [map_usable].
  { exists T. split_and!; [done..|]. by intros r q ?%not_elem_of_nil. }
  apply Forall_cons in Hbd as [[Hr He] Hbd]. case_bool_decide as Hty.
  - eapply runs_mono; [by apply (IH s T)| |done]. intros s' (T' & Hwf' & Hkeep & Hall). exists T'. split_and!; [done..|].
    intros r' q [->|Hin]%elem_of_cons Hfull; [by destruct Hfull|]. by apply Hall.
  - pose proof (region_pages_spec r Hr He) as Hpg. destruct (region_pages r) as [p len] eqn:Epg.
    pose proof Epg as [= Ep El]. rewrite El, Ep.
    destruct Hpg as (Hpm & Hlm & Hp & Hend & Hb & Hlen).
    pose proof (direct_range_ok p len Hpm Hlm ltac:(lia) ltac:(lia) Hb) as Hok.
    eapply runs_bind; [apply (mmu_map_range_spec root _ s T); auto with machine|]. intros s1 (T1 & Hm1).
    eapply runs_mono; [apply (IH s1 T1); [done|apply Hm1|done]| |done].
    intros s' (T' & Hwf' & Hkeep & Hall). exists T'. split_and!; [done|..].
    + intros q Hq Hd. apply Hkeep; [done|]. eapply maps_direct; [|done|exact Hm1|by right]. lia.
    + intros r' q [->|Hin]%elem_of_cons Hfull Hq; [|by eapply Hall].
      destruct Hfull as [Hu Hno]. rewrite Epg in Hno. cbn [fst snd] in Hno. apply Hkeep; [lia|]. eapply maps_direct; [|lia|exact Hm1|left]; [lia|].
      rewrite coverage_full; [apply upto_true; lia|done..|]. unfold map_range_fuel, PAGE_SIZE. zlia.
Qed.

(** A table frame that was just cleared is an empty address space. *)
Lemma empty_space s f fr : table_frame root → f = root → fa_inv fr → ¬ fa_avail fr f →
  mmu_wf root (Mmu (zero_words 512 (PHYS_TO_VIRT f) (mem s)) fr (flushed s)) {[ f := (3%nat, 0) ]}.
Proof.
  intros Hf -> Hinv Hav. split; [split; [|split]|split]; cbn [mem frames].
  - apply lookup_singleton_eq.
  - intros t n k [<- [= <- <-]]%lookup_singleton_Some. split; [done|lia].
  - intros t n k i [<- [= <- <-]]%lookup_singleton_Some Hi. by rewrite zero_table_in.
  - done.
  - intros g Hg. apply lookup_singleton_None. by intros <-.
Qed.

Definition kernel_fits (kernel_end : Z) : Prop :=
  KERNEL_START_VIRT_ADDR < kernel_end ∧ kernel_end - KERNEL_START_VIRT_ADDR <= PAGE_SIZE_2M - PAGE_SIZE.

Lemma kernel_size_bounds kernel_end : kernel_fits kernel_end →
  kernel_end - KERNEL_START_VIRT_ADDR <= kernel_size kernel_end < PAGE_SIZE_2M ∧ kernel_size kernel_end mod PAGE_SIZE = 0.
Proof.
  unfold kernel_fits, kernel_size. change PAGE_SIZE_2M with 0x800000. unfold PAGE_SIZE at 1. intros [H1 H2].
  rewrite u64_small by lia.
  destruct (PAGE_ALIGN_UP_bounds (kernel_end - KERNEL_START_VIRT_ADDR)) as [Hu Hum]; [lia|unfold PAGE_SIZE; lia|].
  unfold PAGE_SIZE in *. split; [|done]. zlia.
Qed.

(** The kernel image lies above the direct map. *)
Lemma maps_kernel_direct len prot s T s' T' q dprot : len <= PAGE_SIZE_2M → 0 <= q < 2 ^ 46 →
  maps root KERNEL_START_VIRT_ADDR KERNEL_START_PHYS_ADDR (upto len) prot s T s' T' →
  direct_mapped (mem s) dprot q → direct_mapped (mem s') dprot q.
Proof.
  intros Hlen Hq (_ & _ & Htr & _). specialize (Htr (PHYS_TO_VIRT q)). cbv zeta in Htr.
  rewrite lin_PHYS_TO_VIRT in Htr by done. change (lin KERNEL_START_VIRT_ADDR) with 0xffff81000000 in Htr.
  rewrite (proj2 (upto_false _ _)) in Htr by lia. unfold direct_mapped. by rewrite Htr.
Qed.
End vmm_spec.


Definition demo_vmm : vmm pmm := Vmm demo_mmu 0 0.
Definition demo_regions : list phys_region :=
  [PhysRegion 0x100000 0x101800 PHYS_REGION_USABLE; PhysRegion 0x101800 0x200000 PHYS_REGION_RESERVED].


Lemma vmm_alloc_range_spec {F} `{FrameAllocator F} root cpu_has_1g_pages (s : mmu F) T vaddr size prot :
  mmu_wf root s T → prot_ok prot → vaddr mod PAGE_SIZE = 0 → 0 <= size → size + PAGE_SIZE <= 2 ^ 64 →
  lin vaddr + PAGE_ALIGN_UP size <= 2 ^ 48 →
  runs (vmm_alloc_range cpu_has_1g_pages (PHYS_TO_VIRT root) vaddr size prot s)
    (alloc_range_post root vaddr (PAGE_ALIGN_UP size / PAGE_SIZE) 0 prot s T) (map_panic prot).
Proof.
  intros Hwf Hprot Hv Hs0 Hs Hlin. unfold vmm_alloc_range. rewrite IS_PAGE_ALIGNED_guard.
  destruct (PAGE_ALIGN_UP_bounds size) as [Hu Hum]; [done..|]. cbv zeta.
  set (n := PAGE_ALIGN_UP size / PAGE_SIZE). assert (PAGE_ALIGN_UP size = PAGE_SIZE * n) as ->.
  { unfold n, PAGE_SIZE in *. zlia. }
  assert (0 <= n) by (unfold n, PAGE_SIZE in *; zlia).
  apply alloc_range_loop_spec; try done; [lia|]. unfold n, PAGE_SIZE in *. zlia.
Qed.

(** C22: allocating and mapping a range.  [vmm_alloc_range] either maps every
    page of the rounded-up range to its own fresh frame (distinct frames the
    allocator will not hand out again, none of them a page table) with the
    requested permissions and returns the number of pages, or runs out of
    frames and returns -ENOMEM with a proper prefix of the range mapped; no
    other translation and no word outside the page tables changes. *)
Theorem vmm_alloc_range_correct {F} `{FrameAllocator F} root cpu_has_1g_pages (s : mmu F) T vaddr size prot :
  mmu_wf root s T → prot_ok prot → vaddr mod PAGE_SIZE = 0 → 0 <= size → size + PAGE_SIZE <= 2 ^ 64 →
  lin vaddr + PAGE_ALIGN_UP size <= 2 ^ 48 →
  runs (vmm_alloc_range cpu_has_1g_pages (PHYS_TO_VIRT root) vaddr size prot s)
    (alloc_range_post root vaddr (PAGE_ALIGN_UP size / PAGE_SIZE) 0 prot s T) (map_panic prot).
Proof. apply vmm_alloc_range_spec. Qed.

Lemma vmm_alloc_range_correct_witness :
  ok (vmm_alloc_range false (PHYS_TO_VIRT 0x1000) 0x400000 0x1801 demo_prot demo_mmu) = true ∧
  runs (vmm_alloc_range false (PHYS_TO_VIRT 0x1000) 0x400000 0x1801 demo_prot demo_mmu)
    (alloc_range_post 0x1000 0x400000 (PAGE_ALIGN_UP 0x1801 / PAGE_SIZE) 0 demo_prot demo_mmu demo_tables)
    (map_panic demo_prot).
Proof.
  split; [vm_compute; reflexivity|].
  apply vmm_alloc_range_correct; [apply demo_mmu_wf|by vm_compute..].
Defined.

Lemma ioremap_spec {F} `{FrameAllocator F} root cpu_has_1g_pages (s : mmu F) T paddr size :
  mmu_wf root s T → 0 <= paddr → 0 <= size → paddr + size <= 2 ^ 45 →
  paddr mod PAGE_SIZE + size <= PAGE_SIZE_2M - PAGE_SIZE →
  runs (ioremap cpu_has_1g_pages (PHYS_TO_VIRT root) paddr size s)
    (λ '(ptr, s'), ptr = PHYS_TO_VIRT paddr ∧ ∃ T',
       maps root (PHYS_TO_VIRT (PAGE_ALIGN_DOWN paddr)) (PAGE_ALIGN_DOWN paddr)
         (upto (PAGE_ALIGN_UP (paddr mod PAGE_SIZE + size))) io_prot s T s' T' ∧
       ∀ i, 0 <= i < size → mapped_as io_prot (paddr + i) (translate (mem s') root (u64 (ptr + i))))
    (λ msg, msg = no_frames_msg ∨ msg = huge_msg).
Proof.
  intros Hwf Hp Hs Hb Hfit. unfold ioremap.
  destruct (PAGE_ALIGN_DOWN_bounds paddr) as (Hd & Hd0 & Hdm); [lia|].
  pose proof (PAGE_ALIGN_DOWN_spec paddr ltac:(lia)) as Hds. set (p := PAGE_ALIGN_DOWN paddr) in *.
  change PAGE_SIZE_2M with 0x800000 in Hfit.
  assert (u64 (size + u64 (paddr - p)) = paddr mod PAGE_SIZE + size) as ->.
  { unfold PAGE_SIZE in *. rewrite (u64_small (paddr - p)), u64_small by lia. lia. }
  assert (0 <= paddr mod PAGE_SIZE) by (unfold PAGE_SIZE; zlia).
  destruct (PAGE_ALIGN_UP_bounds (paddr mod PAGE_SIZE + size)) as [Hu Hum]; [lia|unfold PAGE_SIZE in *; lia|].
  set (len := PAGE_ALIGN_UP (paddr mod PAGE_SIZE + size)) in *.
  assert (range_ok (PHYS_TO_VIRT p) p len) as Hok by (apply direct_range_ok; unfold PAGE_SIZE in *; lia).
  assert (table_frame root) as Hroot by by eapply Hwf, Hwf.
  eapply runs_bind.
  { eapply runs_mono; [apply (mmu_map_range_spec root _ s T); auto with machine|intros x Hx; exact Hx|].
    intros msg [->|[->|[_ ?]]]; [by left|by right|done]. }
  intros s' (T' & Hm). split; [done|]. exists T'.
  apply maps_ext with (C' := upto len) in Hm.
  2:{ intros o. apply coverage_full; [done|left; change PAGE_SIZE_2M with 0x800000; unfold PAGE_SIZE in *; lia|].
      unfold map_range_fuel, PAGE_SIZE in *. zlia. }
  split; [done|]. intros i Hi.
  assert (u64 (PHYS_TO_VIRT paddr + i) = PHYS_TO_VIRT (paddr + i)) as ->.
  { rewrite !PHYS_TO_VIRT_small by lia. unfold ID_VIRT_REGION_START. rewrite u64_small; lia. }
  eapply (maps_direct root p); [lia|lia|exact Hm|left]. apply upto_true. unfold PAGE_SIZE in *. lia.
Qed.

(** Device mappings.  For a device below 2^45 spanning less than
    PAGE_SIZE_2M with page rounding, [ioremap] returns the direct-map address
    of [paddr], and through it every byte of the device is reachable with
    caching disabled; addresses outside the rounded range translate as
    before. *)
Theorem ioremap_correct {F} `{FrameAllocator F} root cpu_has_1g_pages (s : mmu F) T paddr size :
  mmu_wf root s T → 0 <= paddr → 0 <= size → paddr + size <= 2 ^ 45 →
  paddr mod PAGE_SIZE + size <= PAGE_SIZE_2M - PAGE_SIZE →
  runs (ioremap cpu_has_1g_pages (PHYS_TO_VIRT root) paddr size s)
    (λ '(ptr, s'), ptr = PHYS_TO_VIRT paddr ∧ ∃ T',
       maps root (PHYS_TO_VIRT (PAGE_ALIGN_DOWN paddr)) (PAGE_ALIGN_DOWN paddr)
         (upto (PAGE_ALIGN_UP (paddr mod PAGE_SIZE + size))) io_prot s T s' T' ∧
       ∀ i, 0 <= i < size → mapped_as io_prot (paddr + i) (translate (mem s') root (u64 (ptr + i))))
    (λ msg, msg = no_frames_msg ∨ msg = huge_msg).
Proof. apply ioremap_spec. Qed.

Lemma ioremap_correct_witness :
  ok (ioremap false (PHYS_TO_VIRT 0x1000) 0xfee00300 0x400 demo_mmu) = true ∧
  runs (ioremap false (PHYS_TO_VIRT 0x1000) 0xfee00300 0x400 demo_mmu)
    (λ '(ptr, s'), ptr = PHYS_TO_VIRT 0xfee00300 ∧ ∃ T',
       maps 0x1000 (PHYS_TO_VIRT (PAGE_ALIGN_DOWN 0xfee00300)) (PAGE_ALIGN_DOWN 0xfee00300)
         (upto (PAGE_ALIGN_UP (0xfee00300 mod PAGE_SIZE + 0x400))) io_prot demo_mmu demo_tables s' T' ∧
       ∀ i, 0 <= i < 0x400 → mapped_as io_prot (0xfee00300 + i) (translate (mem s') 0x1000 (u64 (ptr + i))))
    (λ msg, msg = no_frames_msg ∨ msg = huge_msg).
Proof.
  split; [vm_compute; reflexivity|].
  apply ioremap_correct; [apply demo_mmu_wf|by vm_compute..].
Defined.

(** ** Copying the kernel page table *)

Lemma copy_words_out n dst src m a : (∀ j, 0 <= j < Z.of_nat n → a ≠ u64 (dst + 8 * j)) →
  ld (copy_words n dst src m) a = ld m a.
Proof.
  revert dst src m. induction n as [|n IH]; intros dst src m Ha; [done|]. cbn [copy_words]. rewrite IH.
  - apply ld_st_ne. intros Hd. apply (Ha 0); [lia|]. rewrite <- Hd. f_equal. lia.
  - intros j Hj ->. apply (Ha (j + 1)); [lia|]. f_equal. lia.
Qed.

Lemma copy_words_in n dst src m j : 0 <= j < Z.of_nat n →
  (∀ i k, 0 <= i < Z.of_nat n → 0 <= k < Z.of_nat n → u64 (src + 8 * i) ≠ u64 (dst + 8 * k)) →
  (∀ i k, 0 <= i < Z.of_nat n → 0 <= k < Z.of_nat n → u64 (dst + 8 * i) = u64 (dst + 8 * k) → i = k) →
  ld (copy_words n dst src m) (u64 (dst + 8 * j)) = ld m (u64 (src + 8 * j)).
Proof.
  revert dst src m j. induction n as [|n IH]; intros dst src m j Hj Hdis Hinj; [lia|]. cbn [copy_words].
  destruct (decide (j = 0)) as [->|Hj0].
  - rewrite copy_words_out.
    + rewrite !Z.add_0_r. apply ld_st_eq.
    + intros k Hk Heq. assert (0 = k + 1); [|lia]. apply Hinj; [lia..|]. rewrite Heq. f_equal. lia.
  - replace (dst + 8 * j) with (dst + 8 + 8 * (j - 1)) by lia. rewrite IH; [|lia|..].
    + rewrite ld_st_ne; [f_equal; f_equal; lia|].
      intros Heq. apply (Hdis j 0); [lia..|]. rewrite Z.mul_0_r, Z.add_0_r, Heq. f_equal. lia.
    + intros i k Hi Hk Heq. apply (Hdis (i + 1) (k + 1)); [lia..|].
      etrans; [|etrans; [apply Heq|]]; f_equal; lia.
    + intros i k Hi Hk Heq. assert (i + 1 = k + 1); [|lia]. apply Hinj; [lia..|].
      etrans; [|etrans; [apply Heq|]]; f_equal; lia.
Qed.

Lemma copy_table f t m : table_frame f → table_frame t → f ≠ t →
  let m' := copy_words 512 (PHYS_TO_VIRT f) (PHYS_TO_VIRT t) m in
  (∀ i, 0 <= i < 512 → ld m' (entry_addr f i) = ld m (entry_addr t i)) ∧
  (∀ t' i, table_frame t' → t' ≠ f → 0 <= i < 512 → ld m' (entry_addr t' i) = ld m (entry_addr t' i)).
Proof.
  intros Hf Ht Hne m'. split.
  - intros i Hi. apply copy_words_in; [exact Hi|..].
    + intros a b Ha Hb Heq. by apply (entry_addr_inj t a f b) in Heq as [<- _].
    + intros a b Ha Hb Heq. by apply (entry_addr_inj f a f b) in Heq as [_ <-].
  - intros t' i Ht' Hne' Hi. apply copy_words_out. intros j Hj Heq. by apply (entry_addr_inj t' i f j) in Heq as [-> _].
Qed.

Lemma IS_ERR_page p : p mod PAGE_SIZE = 0 → IS_ERR (PHYS_TO_VIRT p) = false.
Proof.
  intros Hp%PHYS_TO_VIRT_aligned. apply Z.leb_gt. pose proof (u64_range (p + ID_VIRT_REGION_START)).
  change (u64 (- MAX_ERRNO)) with (2 ^ 64 - 4095). unfold PHYS_TO_VIRT, PAGE_SIZE in *. rewrite (u64_small (u64 _)) by done. zlia.
Qed.

Lemma hw_walk_S n m t va : hw_walk (S n) m t va =
  let e := ld m (entry_addr t (index_of (S n) va)) in
  if negb (present e) then None
  else if is_leaf (S n) e then Some (leaf_base (S n) e + va mod 2 ^ shift_of (S n), e)
  else hw_walk n m (Z.land e ENTRY_PADDR_MASK) va.
Proof. reflexivity. Qed.

(** C40: a new process's page table.  With physical memory inside the direct
    map's 64 TiB, [vmm_copy_kpgtbl] returns either -ENOMEM as an error
    pointer, with memory unchanged, or a fresh page-table root, not an error
    pointer, under which every address translates exactly as under the
    kernel's; the kernel's own translations are unchanged. *)
Theorem vmm_copy_kpgtbl_correct kroot (s : mmu pmm) T : mmu_wf kroot s T →
  (∀ f, fa_avail (frames s) f → f < 2 ^ 46) →
  returns (vmm_copy_kpgtbl (PHYS_TO_VIRT kroot) s) (λ '(p, s'),
    (PTR_ERR p = - ENOMEM ∧ IS_ERR p = true ∧ mem s' = mem s) ∨
    (IS_ERR p = false ∧ ∃ f, p = PHYS_TO_VIRT f ∧ fa_avail (frames s) f ∧ ¬ fa_avail (frames s') f ∧
       ∀ va, translate (mem s') f va = translate (mem s) kroot va ∧
             translate (mem s') kroot va = translate (mem s) kroot va)).
Proof.
  intros (Hpt & Hinv & Hdisj) Hsmall. pose proof Hpt as (Hr & Hfr & Hent).
  unfold vmm_copy_kpgtbl, alloc_page. pose proof (fa_alloc_spec (frames s) Hinv) as Halloc.
  change (fa_alloc (frames s)) with (pmm_alloc_frame (frames s)) in Halloc.
  destruct (pmm_alloc_frame (frames s)) as [[f fr]| | |]; try done. cbn [mbind res_bind].
  destruct Halloc as (_ & Hcase). destruct (Z.eqb_spec f NULL) as [->|Hne]; cbn [mbind res_bind].
  { left. split_and!; by vm_compute. }
  destruct Hcase as [(-> & _)|(Hav & Hav' & _)]; [done|]. pose proof (fa_avail_frame _ _ Hinv Hav) as Hf.
  assert (table_frame kroot) as Hkr by by eapply Hfr.
  assert (f ≠ kroot) as Hfk by (intros ->; by rewrite Hdisj in Hr).
  specialize (Hsmall _ Hav). assert (PHYS_TO_VIRT f =? NULL = false) as ->.
  { apply Z.eqb_neq. rewrite PHYS_TO_VIRT_small by (destruct Hf; lia). unfold ID_VIRT_REGION_START, NULL. destruct Hf. lia. }
  right. split; [by apply IS_ERR_page, Hf|]. exists f. split_and!; try done.
  destruct (copy_table f kroot (mem s) Hf Hkr Hfk) as [Hcopy Hsame]. cbn [mem].
  set (m' := copy_words 512 (PHYS_TO_VIRT f) (PHYS_TO_VIRT kroot) (mem s)) in *.
  assert (∀ t n va, T !! t = Some (n, pre (S n) va) → hw_walk n m' t va = hw_walk n (mem s) t va) as Hagree.
  { intros t n va Ht. eapply hw_walk_agree; [done..|]. intros t' n' Ht'.
    apply Hsame; [by eapply Hfr|intros ->; by rewrite Hdisj in Ht'|apply index_of_range]. }
  intros va. split; [|by apply Hagree; rewrite pre_top].
  unfold translate. rewrite !hw_walk_S. cbv zeta. rewrite Hcopy by apply index_of_range.
  destruct (present _) eqn:Hp; [|done]. cbn [negb is_leaf]. apply Hagree.
  destruct (Hent _ _ _ _ Hr (index_of_range 3 va) Hp eq_refl) as (n' & [= <-] & Hnext).
  rewrite Hnext. do 2 f_equal. by rewrite pre_index, pre_top by lia.
Qed.

Lemma vmm_copy_kpgtbl_correct_witness :
  ok (vmm_copy_kpgtbl (PHYS_TO_VIRT 0x1000) demo_mmu) = true ∧
  returns (vmm_copy_kpgtbl (PHYS_TO_VIRT 0x1000) demo_mmu) (λ '(p, s'),
    (PTR_ERR p = - ENOMEM ∧ IS_ERR p = true ∧ mem s' = mem demo_mmu) ∨
    (IS_ERR p = false ∧ ∃ f, p = PHYS_TO_VIRT f ∧ fa_avail (frames demo_mmu) f ∧ ¬ fa_avail (frames s') f ∧
       ∀ va, translate (mem s') f va = translate (mem demo_mmu) 0x1000 va ∧
             translate (mem s') 0x1000 va = translate (mem demo_mmu) 0x1000 va)).
Proof.
  split; [vm_compute; reflexivity|].
  apply (vmm_copy_kpgtbl_correct _ _ demo_tables); [apply demo_mmu_wf|].
  intros f (_ & Hf & Ht). destruct (decide (f / PAGE_SIZE < 24)); [unfold PAGE_SIZE in *; zlia|].
  rewrite taken_beyond in Ht by (simpl; lia). done.
Defined.
