(* ===== verification/Kmalloc.v ===== *)
(** * The kernel heap (mm/kmalloc.c)

    Small requests are served from six tiers of fixed-size slots.  A pool page
    starts with a header (magic, tier, count) packed into its first word; its
    remaining slots are threaded into the tier's free list through their first
    word.  Larger requests take whole pages and are remembered in a linked list
    of nodes that live in the first tier.  All of it is in word memory, reached
    through the direct map; the frames come from the bitmap allocator. *)

From S2P Require Import Prelude Types FrameAlloc EarlyPmm Pmm Paging Vmm.

Definition MAGIC : Z := 0xFC6792DA.
Definition TOO_BIG_SIZE : Z := -1.

(** [tiers[i].slot_size]. *)
Definition slot_sizes : list Z := [32; 64; 128; 256; 512; 1024].

(** The heap's state: memory, the frame allocator, [tiers[i].free_head] and
    [big_alloc_head]. *)
Record kheap := Kheap { kmem : gmap Z Z; kframes : pmm; free_heads : list Z; big_alloc_head : Z }.

(** ** Headers: { uint32_t magic; uint8_t tier_idx; uint8_t count; } in a word *)

(** The [w] bits of [x] from bit [lo] on, and the word with them replaced. *)
Definition get_bits (x lo w : Z) : Z := Z.shiftr x lo mod 2 ^ w.
Definition set_bits (x lo w v : Z) : Z :=
  x - Z.shiftl (get_bits x lo w) lo + Z.shiftl (v mod 2 ^ w) lo.

Definition hdr_magic (h : Z) : Z := get_bits h 0 32.
Definition hdr_tier (h : Z) : Z := get_bits h 32 8.
Definition hdr_count (h : Z) : Z := get_bits h 40 8.
Definition hdr_set_magic (h v : Z) : Z := set_bits h 0 32 v.
Definition hdr_set_tier (h v : Z) : Z := set_bits h 32 8 v.
Definition hdr_set_count (h v : Z) : Z := set_bits h 40 8 v.

(** ** Page allocation *)

Definition alloc_pages (count : Z) (s : pmm) : res (Z * pmm) :=
  '(start_frame, s) ← pmm_alloc_contiguous_frames count s;
  if start_frame =? NULL then Ok (NULL, s) else Ok (PHYS_TO_VIRT start_frame, s).

Definition free_page (vaddr : Z) (s : pmm) : res pmm := pmm_free_frame (VIRT_TO_PHYS vaddr) s.

Definition free_pages (vaddr count : Z) (s : pmm) : res pmm := pmm_free_contiguous_frames (VIRT_TO_PHYS vaddr) count s.

(** ** Small allocations *)

Fixpoint tier_search (sizes : list Z) (i size : Z) : Z :=
  match sizes with
  | [] => TOO_BIG_SIZE
  | x :: rest => if size <=? x then i else tier_search rest (i + 1) size
  end.

Definition size_to_tier_idx (size : Z) : Z := tier_search slot_sizes 0 size.

(** The [for] loop of [init_tier]: each slot but the last points to the next. *)
Fixpoint link_slots (fuel : nat) (s last_slot slotsize : Z) (m : gmap Z Z) : res (gmap Z Z) :=
  match fuel with
  | O => OutOfFuel
  | S fuel' =>
      if s <? last_slot then
        let m := st m s (u64 (s + slotsize)) in
        link_slots fuel' (ld m s) last_slot slotsize m
      else Ok m
  end.

(** A page holds at most 128 slots. *)
Definition link_fuel : nat := 129.

(** The memory [init_tier] writes: the header fields, the links and the NULL
    that ends the list. *)
Definition format_pool_page (frame slotsize tier : Z) (m : gmap Z Z) : res (gmap Z Z) :=
  let m := st m frame (hdr_set_count (ld m frame) 0) in
  let m := st m frame (hdr_set_magic (ld m frame) MAGIC) in
  let m := st m frame (hdr_set_tier (ld m frame) tier) in
  m ← link_slots link_fuel (u64 (frame + slotsize)) (u64 (frame + PAGE_SIZE - slotsize)) slotsize m;
  Ok (st m (u64 (frame + PAGE_SIZE - slotsize)) NULL).

(** Returns (status, heap). *)
Definition init_tier (tier : Z) (h : kheap) : res (Z * kheap) :=
  '(frame, fr) ← alloc_page (kframes h);
  if frame =? NULL then Ok (- ENOMEM, Kheap (kmem h) fr (free_heads h) (big_alloc_head h)) else
  slotsize ← arr_get slot_sizes tier;
  m ← format_pool_page frame slotsize tier (kmem h);
  heads ← arr_set (free_heads h) tier (u64 (frame + slotsize));
  Ok (0, Kheap m fr heads (big_alloc_head h)).

(** [kmalloc_small] calls itself once, after a successful [init_tier]. *)
Fixpoint kmalloc_small (fuel : nat) (tier : Z) (h : kheap) : res (Z * kheap) :=
  match fuel with
  | O => OutOfFuel
  | S fuel' =>
      head ← arr_get (free_heads h) tier;
      if negb (head =? NULL) then
        let header := PAGE_ALIGN_DOWN head in
        let m := kmem h in
        let m := st m header (hdr_set_count (ld m header) (hdr_count (ld m header) + 1)) in
        heads ← arr_set (free_heads h) tier (ld m head);
        Ok (head, Kheap m (kframes h) heads (big_alloc_head h))
      else
        '(r, h) ← init_tier tier h;
        if r <? 0 then Ok (NULL, h) else kmalloc_small fuel' tier h
  end.

(** ** Big allocations *)

(** struct big_alloc_node: vaddr, pages_count, next. *)
Definition BIG_NODE_SIZE : Z := 24.

(** [kmalloc] and [kmalloc_big] call each other; a node fits the first tier,
    so two levels suffice. *)
Fixpoint kmalloc_rec (fuel : nat) (size : Z) (h : kheap) : res (Z * kheap) :=
  match fuel with
  | O => OutOfFuel
  | S fuel' =>
      let tier := size_to_tier_idx size in
      if negb (tier =? TOO_BIG_SIZE) then kmalloc_small 2 tier h else
      (* kmalloc_big *)
      let npages := PAGE_ALIGN_UP size / PAGE_SIZE in
      '(vaddr, fr) ← alloc_pages npages (kframes h);
      let h := Kheap (kmem h) fr (free_heads h) (big_alloc_head h) in
      if vaddr =? NULL then Ok (NULL, h) else
      '(cur_node, h) ← kmalloc_rec fuel' BIG_NODE_SIZE h;
      if cur_node =? NULL then
        fr ← free_pages vaddr npages (kframes h);
        Ok (NULL, Kheap (kmem h) fr (free_heads h) (big_alloc_head h))
      else
        let m := st (kmem h) cur_node vaddr in
        let m := st m (u64 (cur_node + 8)) npages in
        let m := st m (u64 (cur_node + 16)) (if big_alloc_head h =? NULL then NULL else big_alloc_head h) in
        Ok (vaddr, Kheap m (kframes h) (free_heads h) cur_node)
  end.

Definition kmalloc (size : Z) (h : kheap) : res (Z * kheap) := kmalloc_rec 2 size h.

(** [memset(p, 0, size)] on word memory: the whole words, then the low bytes
    of the last one. *)
Definition zero_bytes (p size : Z) (m : gmap Z Z) : gmap Z Z :=
  let m := zero_words (Z.to_nat (size / 8)) p m in
  let a := u64 (p + 8 * (size / 8)) in
  if size mod 8 =? 0 then m else st m a (set_bits (ld m a) 0 (8 * (size mod 8)) 0).

Definition kzalloc (size : Z) (h : kheap) : res (Z * kheap) :=
  '(ptr, h) ← kmalloc size h;
  if ptr =? NULL then Ok (NULL, h) else
  Ok (ptr, Kheap (zero_bytes ptr size (kmem h)) (kframes h) (free_heads h) (big_alloc_head h)).

(** ** Freeing *)

Definition no_big_msg : string := "kfree_big: trying to free a non-existing big allocation.".

(** [while (cur && cur->vaddr != vaddr)]: returns (cur, prev). *)
Fixpoint big_search (fuel : nat) (m : gmap Z Z) (vaddr cur prev : Z) : res (Z * Z) :=
  match fuel with
  | O => OutOfFuel
  | S fuel' =>
      if negb (cur =? NULL) && negb (ld m cur =? vaddr) then big_search fuel' m vaddr (ld m (u64 (cur + 16))) cur
      else Ok (cur, prev)
  end.

(** Pushing a slot on the free list of its page's tier. *)
Definition kfree_small (vaddr : Z) (h : kheap) : res kheap :=
  let tier := hdr_tier (ld (kmem h) (PAGE_ALIGN_DOWN vaddr)) in
  head ← arr_get (free_heads h) tier;
  heads ← arr_set (free_heads h) tier vaddr;
  Ok (Kheap (st (kmem h) vaddr head) (kframes h) heads (big_alloc_head h)).

(** [kfree] and [kfree_big] call each other (the node is freed as a small
    allocation); [list_fuel] bounds the walk over the node list. *)
Fixpoint kfree_rec (fuel list_fuel : nat) (vaddr : Z) (h : kheap) : res kheap :=
  match fuel with
  | O => OutOfFuel
  | S fuel' =>
      if hdr_magic (ld (kmem h) (PAGE_ALIGN_DOWN vaddr)) =? MAGIC then kfree_small vaddr h else
      (* kfree_big *)
      '(cur, prev) ← big_search list_fuel (kmem h) vaddr (big_alloc_head h) NULL;
      if cur =? NULL then Panic no_big_msg else
      let h :=
        if cur =? big_alloc_head h then Kheap (kmem h) (kframes h) (free_heads h) (ld (kmem h) (u64 (big_alloc_head h + 16)))
        else Kheap (st (kmem h) (u64 (prev + 16)) (ld (kmem h) (u64 (cur + 16)))) (kframes h) (free_heads h) (big_alloc_head h) in
      fr ← free_pages vaddr (ld (kmem h) (u64 (cur + 8))) (kframes h);
      kfree_rec fuel' list_fuel cur (Kheap (kmem h) fr (free_heads h) (big_alloc_head h))
  end.

Definition kfree (list_fuel : nat) (vaddr : Z) (h : kheap) : res kheap := kfree_rec 2 list_fuel vaddr h.

Definition demo_heap : kheap := Kheap ∅ demo_pmm (replicate 6 0) 0.

Example kmalloc_demo :
  ('(p, h) ← kmalloc 20 demo_heap; '(q, h) ← kmalloc 5000 h; h ← kfree 10 q h; h ← kfree 10 p h;
   '(r, h) ← kmalloc 32 h; Ok (p, q, r))
  = Ok (0xffff88800000d020, 0xffff88800000e000, 0xffff88800000d020).
Proof. vm_compute. reflexivity. Qed.

(** ** Headers *)

Lemma get_bits_spec x lo w : 0 <= lo → get_bits x lo w = x / 2 ^ lo mod 2 ^ w.
Proof. intros. unfold get_bits. by rewrite Z.shiftr_div_pow2. Qed.

Lemma set_bits_spec x lo w v : 0 <= lo →
  set_bits x lo w v = x - x / 2 ^ lo mod 2 ^ w * 2 ^ lo + v mod 2 ^ w * 2 ^ lo.
Proof. intros. unfold set_bits. rewrite get_bits_spec by done. by rewrite !Z.shiftl_mul_pow2. Qed.

Ltac hdr := unfold hdr_magic, hdr_tier, hdr_count, hdr_set_magic, hdr_set_tier, hdr_set_count;
  rewrite ?set_bits_spec, ?get_bits_spec by lia; zlia.

Lemma magic_set_count h v : hdr_magic (hdr_set_count h v) = hdr_magic h.
Proof. hdr. Qed.
Lemma tier_set_count h v : hdr_tier (hdr_set_count h v) = hdr_tier h.
Proof. hdr. Qed.
Lemma magic_set_tier h v : hdr_magic (hdr_set_tier h v) = hdr_magic h.
Proof. hdr. Qed.
Lemma magic_set_magic h : hdr_magic (hdr_set_magic h MAGIC) = MAGIC.
Proof. unfold MAGIC. hdr. Qed.
Lemma tier_set_tier h v : 0 <= v < 6 → hdr_tier (hdr_set_tier h v) = v.
Proof. intros. hdr. Qed.

(** ** Slots *)

Definition slot_size (tier : Z) : Z := znth 0 slot_sizes tier.

Lemma tier_slot_size t : 0 <= t < 6 → arr_get slot_sizes t = Ok (slot_size t).
Proof. intros Ht. apply arr_get_znth. simpl. lia. Qed.

Ltac tier_cases t H :=
  assert (t = 0 ∨ t = 1 ∨ t = 2 ∨ t = 3 ∨ t = 4 ∨ t = 5) as H by lia;
  destruct H as [-> | [-> | [-> | [-> | [-> | ->]]]]].

(** Slot sizes divide the page and leave room for the header. *)
Lemma slot_size_facts t : 0 <= t < 6 → ∃ n, PAGE_SIZE = slot_size t * n ∧ 4 <= n <= 128 ∧ 32 <= slot_size t.
Proof.
  intros Ht. tier_cases t H; [exists 128|exists 64|exists 32|exists 16|exists 8|exists 4]; by vm_compute.
Qed.

Lemma size_to_tier_spec size : 0 <= size <= 1024 →
  0 <= size_to_tier_idx size < 6 ∧ size <= slot_size (size_to_tier_idx size) ∧
  ∀ t, 0 <= t < size_to_tier_idx size → slot_size t < size.
Proof.
  intros Hs. unfold size_to_tier_idx, slot_sizes, slot_size. cbn [tier_search].
  repeat match goal with |- context [?a <=? ?b] => destruct (Z.leb_spec a b) end; try lia;
    (split; [lia|]; split; [unfold znth; simpl; lia|]; intros t Ht;
     assert (t = 0 ∨ t = 1 ∨ t = 2 ∨ t = 3 ∨ t = 4) as [-> | [-> | [-> | [-> | ->]]]] by lia; unfold znth; simpl; lia).
Qed.

Lemma size_to_tier_big size : 1024 < size → size_to_tier_idx size = TOO_BIG_SIZE.
Proof.
  intros Hs. unfold size_to_tier_idx, slot_sizes. cbn [tier_search].
  repeat match goal with |- context [?a <=? ?b] => destruct (Z.leb_spec a b); [lia|] end. done.
Qed.

Section slots.
Context (pools : gmap Z Z).

(** [p] is slot [k] of a pool page of tier [t]. *)
Definition is_slot (t p : Z) : Prop :=
  ∃ pg k, pools !! pg = Some t ∧ 1 <= k ∧ k * slot_size t < PAGE_SIZE ∧ p = pg + k * slot_size t.

(** Pool pages are pages of the direct map. *)
Definition pages_ok : Prop :=
  ∀ pg t, pools !! pg = Some t → 0 <= t < 6 ∧ pg mod PAGE_SIZE = 0 ∧ 2 ^ 63 <= pg ∧ pg + PAGE_SIZE < 2 ^ 64.

Lemma slot_page t p : pages_ok → is_slot t p →
  pools !! PAGE_ALIGN_DOWN p = Some t ∧ PAGE_ALIGN_DOWN p + slot_size t <= p ∧
  p + slot_size t <= PAGE_ALIGN_DOWN p + PAGE_SIZE ∧ p mod slot_size t = 0 ∧ 0 <= t < 6.
Proof.
  intros Hok (pg & k & Hpg & Hk & Hkb & ->). destruct (Hok _ _ Hpg) as (Ht & Hal & Hlo & Hhi).
  destruct (slot_size_facts t Ht) as (n & Hn & Hnb & Hs).
  assert (PAGE_ALIGN_DOWN (pg + k * slot_size t) = pg) as ->.
  { rewrite PAGE_ALIGN_DOWN_spec by (unfold PAGE_SIZE in *; nia). unfold PAGE_SIZE in *.
    rewrite <- Z.add_mod_idemp_l, Hal, Z.mod_small by (lia || nia). lia. }
  assert (k + 1 <= n) by (clear -Hkb Hs Hn; nia).
  split; [done|]. split; [nia|]. split; [rewrite Hn; nia|]. split; [|done].
  rewrite Z.mod_add by lia. rewrite Hn in Hal. clear -Hal Hs Hnb.
  apply Z.mod_divide; [lia|]. apply Z.mod_divide in Hal; [|lia].
  etrans; [|done]. by exists n; lia.
Qed.

(** Distinct slots do not overlap. *)
Lemma slots_disjoint t p t' p' : pages_ok → is_slot t p → is_slot t' p' → p ≠ p' →
  p + slot_size t <= p' ∨ p' + slot_size t' <= p.
Proof.
  intros Hok Hp Hp' Hne. destruct (slot_page _ _ Hok Hp) as (Hpg & Hlo & Hhi & Hm & Ht).
  destruct (slot_page _ _ Hok Hp') as (Hpg' & Hlo' & Hhi' & Hm' & Ht').
  destruct (Hok _ _ Hpg) as (_ & Hal & _), (Hok _ _ Hpg') as (_ & Hal' & _).
  destruct (decide (PAGE_ALIGN_DOWN p = PAGE_ALIGN_DOWN p')) as [Heq|Hd].
  - rewrite Heq, Hpg' in Hpg. injection Hpg as <-.
    destruct (slot_size_facts t' Ht) as (n & _ & _ & Hs). set (sz := slot_size t') in *. clearbody sz.
    apply Z.mod_divide in Hm as [a ->], Hm' as [b ->]; [|lia..]. clear -Hne Hs.
    destruct (Z.lt_total a b) as [?|[->|?]]; [left; nia|done|right; nia].
  - destruct (slot_size_facts t Ht) as (n & _ & _ & Hs), (slot_size_facts t' Ht') as (n' & _ & _ & Hs').
    unfold PAGE_SIZE in *. zlia.
Qed.
End slots.

(** ** Free lists *)

Fixpoint chain (m : gmap Z Z) (p : Z) (l : list Z) : Prop :=
  match l with
  | [] => p = NULL
  | x :: l' => p = x ∧ x ≠ NULL ∧ chain m (ld m x) l'
  end.

Lemma chain_agree m m' p l : (∀ x, x ∈ l → ld m' x = ld m x) → chain m p l → chain m' p l.
Proof.
  revert p. induction l as [|x l IH]; intros p Hag; [done|]. intros (-> & Hx & Hc). split_and!; [done..|].
  rewrite Hag by by left. apply IH; [|done]. intros y Hy. apply Hag. by right.
Qed.

(** The slots [init_tier] threads: [n] of them from [s] on. *)
Fixpoint slot_list (s slotsize : Z) (n : nat) : list Z :=
  match n with O => [] | S n' => s :: slot_list (s + slotsize) slotsize n' end.

Lemma elem_of_slot_list s sz n p : p ∈ slot_list s sz n ↔ ∃ j, 0 <= j < Z.of_nat n ∧ p = s + j * sz.
Proof.
  revert s. induction n as [|n IH]; intros s; cbn [slot_list].
  - rewrite elem_of_nil. split; [done|]. intros (j & Hj & _). lia.
  - rewrite elem_of_cons, IH. split.
    + intros [->|(j & Hj & ->)]; [exists 0|exists (j + 1)]; lia.
    + intros (j & Hj & ->). destruct (decide (j = 0)) as [->|]; [left; lia|right]. exists (j - 1). lia.
Qed.

Lemma NoDup_slot_list s sz n : 0 < sz → NoDup (slot_list s sz n).
Proof.
  intros Hsz. revert s. induction n as [|n IH]; intros s; cbn [slot_list]; [by apply NoDup_nil|].
  apply NoDup_cons. split; [|done]. rewrite elem_of_slot_list. intros (j & Hj & He). nia.
Qed.

Lemma chain_slot_list m s sz n : (∀ j, 0 <= j < Z.of_nat n → s + j * sz ≠ NULL) →
  (∀ j, 0 <= j < Z.of_nat n → ld m (s + j * sz) = if decide (j + 1 = Z.of_nat n) then NULL else s + (j + 1) * sz) →
  n ≠ O → chain m s (slot_list s sz n).
Proof.
  revert s. induction n as [|n IH]; intros s Hnn Hld Hn; [done|]. cbn [slot_list chain].
  split; [done|]. split; [specialize (Hnn 0); rewrite Z.add_0_r in Hnn; apply Hnn; lia|].
  specialize (Hld 0 ltac:(lia)) as H0. rewrite Z.add_0_r in H0. rewrite H0.
  destruct n as [|n]; [by rewrite decide_True|]. rewrite decide_False by lia.
  replace (s + (0 + 1) * sz) with (s + sz) by lia. apply IH; [..|done].
  - intros j Hj. replace (s + sz + j * sz) with (s + (j + 1) * sz) by lia. apply Hnn. lia.
  - intros j Hj. replace (s + sz + j * sz) with (s + (j + 1) * sz) by lia. rewrite Hld by lia.
    destruct (decide (j + 1 = Z.of_nat (S n))); [rewrite decide_True by lia; done|].
    rewrite decide_False by lia. lia.
Qed.

Lemma link_slots_spec fuel n s sz m : 0 <= s → 0 < sz → s + Z.of_nat n * sz < 2 ^ 64 → (n < fuel)%nat →
  returns (link_slots fuel s (s + Z.of_nat n * sz) sz m) (λ m',
    (∀ j, 0 <= j < Z.of_nat n → ld m' (s + j * sz) = s + (j + 1) * sz) ∧
    (∀ a, (∀ j, 0 <= j < Z.of_nat n → a ≠ s + j * sz) → ld m' a = ld m a)).
Proof.
  revert n s m. induction fuel as [|fuel IH]; intros n s m Hs Hsz Hb Hf; [lia|]. cbn [link_slots].
  destruct n as [|n].
  { rewrite Z.ltb_irrefl || rewrite (proj2 (Z.ltb_ge _ _)) by lia. split; [lia|done]. }
  rewrite (proj2 (Z.ltb_lt _ _)) by nia. cbv zeta. rewrite ld_st_eq, u64_small by nia.
  replace (s + Z.of_nat (S n) * sz) with (s + sz + Z.of_nat n * sz) by lia.
  eapply runs_mono; [apply (IH n (s + sz)); [lia|lia|lia|lia]| |done].
  intros m' [Hin Hout]. split.
  - intros j Hj. destruct (decide (j = 0)) as [->|].
    + rewrite Z.add_0_r, Hout by (intros k Hk; nia). rewrite ld_st_eq. lia.
    + specialize (Hin (j - 1) ltac:(lia)). replace (s + j * sz) with (s + sz + (j - 1) * sz) by lia. rewrite Hin. lia.
  - intros a Ha. rewrite Hout; [apply ld_st_ne|].
    + intros <-. apply (Ha 0); lia.
    + intros j Hj ->. apply (Ha (j + 1)); lia.
Qed.

(** ** The invariant

    [pools] maps each pool page to its tier, [fl] holds the contents of the
    six free lists, [used] the slots handed out.  A tier's free list is
    exactly its slots that are not in use: nothing is lost and nothing is
    listed twice. *)

Record heap_inv (h : kheap) (pools : gmap Z Z) (fl : list (list Z)) (used : gset Z) : Prop := {
  hi_len : length (free_heads h) = 6%nat ∧ length fl = 6%nat;
  hi_pmm : fa_inv (kframes h) ∧ ∀ f, fa_avail (kframes h) f → f < 2 ^ 46;
  hi_pages : pages_ok pools;
  hi_taken : ∀ pg t, pools !! pg = Some t → ∃ f, pg = PHYS_TO_VIRT f ∧ 0 <= f < 2 ^ 46 ∧ ¬ fa_avail (kframes h) f;
  hi_hdr : ∀ pg t, pools !! pg = Some t → hdr_magic (ld (kmem h) pg) = MAGIC ∧ hdr_tier (ld (kmem h) pg) = t;
  hi_chain : ∀ t, 0 <= t < 6 → chain (kmem h) (znth 0 (free_heads h) t) (znth [] fl t) ∧ NoDup (znth [] fl t);
  hi_free : ∀ t p, 0 <= t < 6 → p ∈ znth [] fl t ↔ is_slot pools t p ∧ p ∉ used;
  hi_used : ∀ p, p ∈ used → ∃ t, is_slot pools t p
}.

(** Words of slots in use, and words outside the pool pages. *)
Definition used_word (pools : gmap Z Z) (used : gset Z) (a : Z) : Prop :=
  ∃ q t, q ∈ used ∧ is_slot pools t q ∧ q <= a < q + slot_size t.
Definition pool_word (pools : gmap Z Z) (a : Z) : Prop :=
  ∃ pg t, pools !! pg = Some t ∧ pg <= a < pg + PAGE_SIZE.

(** A heap step leaves the contents of [used] blocks and everything outside
    the pool pages alone; pages are added to the pools from available frames
    only. *)
Definition keeps (h : kheap) (pools : gmap Z Z) (used : gset Z) (h' : kheap) (pools' : gmap Z Z) : Prop :=
  pools ⊆ pools' ∧ big_alloc_head h' = big_alloc_head h ∧
  (∀ a, used_word pools used a ∨ ¬ pool_word pools' a → ld (kmem h') a = ld (kmem h) a) ∧
  (∀ f, fa_avail (kframes h') f → fa_avail (kframes h) f) ∧
  (∀ pg t, pools' !! pg = Some t → pools !! pg = Some t ∨ ∃ f, pg = PHYS_TO_VIRT f ∧ fa_avail (kframes h) f).

(** The word at the start of a pool page is in no slot. *)
Lemma header_not_slot pools pg t' t q a : pages_ok pools → pools !! pg = Some t' → is_slot pools t q →
  q <= a < q + slot_size t → a ≠ pg.
Proof.
  intros Hok Hpg Hq Ha ->. destruct (slot_page _ _ _ Hok Hq) as (Hqp & Hlo & Hhi & _ & Ht).
  destruct (Hok _ _ Hpg) as (_ & Hal & _), (Hok _ _ Hqp) as (_ & Halq & _).
  destruct (slot_size_facts t Ht) as (n & _ & _ & Hs). unfold PAGE_SIZE in *. zlia.
Qed.

(** A slot's own first word. *)
Lemma slot_first pools t q : pages_ok pools → is_slot pools t q → q <= q < q + slot_size t.
Proof.
  intros Hok Hq. destruct (slot_page _ _ _ Hok Hq) as (_ & _ & _ & _ & Ht).
  destruct (slot_size_facts t Ht) as (n & _ & _ & Hs). lia.
Qed.

(** Taking the head of a free list. *)
Lemma take_head h pools fl used t p l : heap_inv h pools fl used → 0 <= t < 6 → znth [] fl t = p :: l →
  let m := st (kmem h) (PAGE_ALIGN_DOWN p)
             (hdr_set_count (ld (kmem h) (PAGE_ALIGN_DOWN p)) (hdr_count (ld (kmem h) (PAGE_ALIGN_DOWN p)) + 1)) in
  let h' := Kheap m (kframes h) (<[Z.to_nat t := ld m p]> (free_heads h)) (big_alloc_head h) in
  znth 0 (free_heads h) t = p ∧ p ≠ NULL ∧ p ∉ used ∧ is_slot pools t p ∧
  heap_inv h' pools (<[Z.to_nat t := l]> fl) ({[p]} ∪ used) ∧ keeps h pools used h' pools.
Proof.
  intros [Hlen Hpmm Hpages Htaken Hhdr Hchain Hfree Hused] Ht Hfl m h'.
  destruct (Hchain t Ht) as [Hc Hnd]. rewrite Hfl in Hc, Hnd. destruct Hc as (Hhd & Hpn & Hc).
  apply NoDup_cons in Hnd as [Hpl Hnd].
  assert (is_slot pools t p ∧ p ∉ used) as [Hp Hpu] by (apply Hfree; [done|rewrite Hfl; by left]).
  destruct (slot_page _ _ _ Hpages Hp) as (Hpg & _).
  assert (∀ t' q a, is_slot pools t' q → q <= a < q + slot_size t' → ld m a = ld (kmem h) a) as Hslot.
  { intros t' q a Hq Ha. apply ld_st_ne. intros Heq. by eapply header_not_slot. }
  split; [done|]. split; [done|]. split; [done|]. split; [done|].
  split; [split; unfold h'; cbn [kmem kframes free_heads big_alloc_head]; try done|].
  - by rewrite !length_insert.
  - intros pg t' Hpg'. unfold m. rewrite ld_st. case_decide as Heq; [|by apply Hhdr].
    subst pg. rewrite magic_set_count, tier_set_count. by apply Hhdr.
  - intros t' Ht'. destruct (decide (t' = t)) as [->|Hne].
    + rewrite !znth_insert_eq by lia. split; [|done]. rewrite (Hslot t p) by (done || by eapply slot_first).
      apply (chain_agree (kmem h)); [|done]. intros x Hx.
      assert (is_slot pools t x) as Hxs by (apply (Hfree t x Ht); rewrite Hfl; by right).
      apply (Hslot t x); [done|by eapply slot_first].
    + rewrite !znth_insert_ne by lia. destruct (Hchain t' Ht') as [Hc' Hnd']. split; [|done].
      apply (chain_agree (kmem h)); [|done]. intros x Hx.
      assert (is_slot pools t' x) as Hxs by by apply (Hfree t' x Ht').
      apply (Hslot t' x); [done|by eapply slot_first].
  - intros t' q Ht'. rewrite not_elem_of_union, not_elem_of_singleton.
    destruct (decide (t' = t)) as [->|Hne].
    + rewrite znth_insert_eq by lia. specialize (Hfree t q Ht). rewrite Hfl, elem_of_cons in Hfree.
      split; [intros Hq; assert (q ≠ p) by (by intros ->); tauto|tauto].
    + rewrite znth_insert_ne, Hfree by lia. split; [|tauto]. intros [Hq Hqu]. split_and!; [done| |done].
      intros ->. destruct (slot_page _ _ _ Hpages Hq) as (Hpg' & _). congruence.
  - intros q [->%elem_of_singleton|Hq]%elem_of_union; [by exists t|by apply Hused].
  - unfold h'. split_and!; try done; [|by left]. cbn [kmem]. intros a [(q & t' & _ & Hq & Ha)|Hna]; [by eapply Hslot|].
    apply ld_st_ne. intros <-. apply Hna. exists (PAGE_ALIGN_DOWN p), t. split; [done|]. unfold PAGE_SIZE. lia.
Qed.

Lemma is_slot_insert pools pg t t' q : pools !! pg = None →
  is_slot (<[pg := t]> pools) t' q ↔
    is_slot pools t' q ∨ (t' = t ∧ ∃ k, 1 <= k ∧ k * slot_size t < PAGE_SIZE ∧ q = pg + k * slot_size t).
Proof.
  intros Hpg. split.
  - intros (pg' & k & [[<- <-]|[Hne Hl]]%lookup_insert_Some & Hk); [right; split; [done|by exists k]|left; by exists pg', k].
  - intros [(pg' & k & Hl & Hk)|(-> & k & Hk)]; [exists pg', k|exists pg, k]; (split; [|done]).
    + rewrite lookup_insert_ne by congruence. done.
    + apply lookup_insert_eq.
Qed.

(** What [init_tier] leaves in the new page [pg]: a header and [n - 1] slots in
    a chain, everything else untouched. *)
Definition page_formatted (m m' : gmap Z Z) (pg t : Z) (n : nat) : Prop :=
  hdr_magic (ld m' pg) = MAGIC ∧ hdr_tier (ld m' pg) = t ∧
  chain m' (pg + slot_size t) (slot_list (pg + slot_size t) (slot_size t) n) ∧
  ∀ a, ¬ (pg <= a < pg + PAGE_SIZE) → ld m' a = ld m a.

(** The memory part of [init_tier]. *)
Lemma format_page fuel m pg t : (128 < fuel)%nat → 0 <= t < 6 → 2 ^ 63 <= pg → pg + PAGE_SIZE < 2 ^ 64 →
  let m0 := st m pg (hdr_set_count (ld m pg) 0) in
  let m1 := st m0 pg (hdr_set_magic (ld m0 pg) MAGIC) in
  let m2 := st m1 pg (hdr_set_tier (ld m1 pg) t) in
  ∃ n, Z.of_nat n * slot_size t + slot_size t = PAGE_SIZE ∧
  returns (m3 ← link_slots fuel (u64 (pg + slot_size t)) (u64 (pg + PAGE_SIZE - slot_size t)) (slot_size t) m2;
           Ok (st m3 (u64 (pg + PAGE_SIZE - slot_size t)) NULL))
    (λ m', page_formatted m m' pg t n).
Proof.
  intros Hfuel Ht Hlo Hhi m0 m1 m2. destruct (slot_size_facts t Ht) as (k & Hk & Hkb & Hs).
  set (sz := slot_size t) in *. assert (sz * 4 <= 4096) as Hs4 by (unfold PAGE_SIZE in *; nia).
  exists (Z.to_nat (k - 1)). split; [nia|].
  rewrite !u64_small by (unfold PAGE_SIZE in *; nia).
  set (n := Z.to_nat (k - 2)).
  assert (pg + PAGE_SIZE - sz = pg + sz + Z.of_nat n * sz) as -> by (unfold n; nia).
  assert (Z.of_nat n * sz + 2 * sz = 4096) as Hn by (unfold n, PAGE_SIZE in *; nia).
  eapply runs_bind.
  { apply (link_slots_spec fuel n); [lia|lia|unfold PAGE_SIZE in *; lia|unfold n; lia]. }
  intros m3 [Hin Hout]. cbn [mbind res_bind runs]. unfold page_formatted. fold sz. set (last := pg + sz + Z.of_nat n * sz).
  assert (∀ a, ¬ (pg + sz <= a < pg + 4096) → ld (st m3 last NULL) a = ld m2 a) as Houter.
  { intros a Ha. rewrite ld_st_ne by (unfold last; lia). apply Hout. intros j Hj ->. nia. }
  split; [|split; [|split]].
  - rewrite Houter by lia. unfold m2. rewrite ld_st_eq, magic_set_tier. unfold m1. by rewrite ld_st_eq, magic_set_magic.
  - rewrite Houter by lia. unfold m2. rewrite ld_st_eq. by apply tier_set_tier.
  - replace (Z.to_nat (k - 1)) with (S n) by (unfold n; lia). apply chain_slot_list; [..|done].
    + intros j Hj. unfold NULL. nia.
    + intros j Hj. case_decide as Hlast.
      * replace (pg + sz + j * sz) with last by (unfold last; nia). apply ld_st_eq.
      * rewrite ld_st_ne by (unfold last; nia). rewrite Hin by lia. lia.
  - intros a Ha. unfold PAGE_SIZE in Ha. rewrite Houter by lia. unfold m2, m1, m0. rewrite !ld_st_ne by lia. done.
Qed.

Lemma format_pool_page_spec m pg t : 0 <= t < 6 → 2 ^ 63 <= pg → pg + PAGE_SIZE < 2 ^ 64 →
  ∃ n, Z.of_nat n * slot_size t + slot_size t = PAGE_SIZE ∧
  returns (format_pool_page pg (slot_size t) t m) (λ m', page_formatted m m' pg t n).
Proof. unfold format_pool_page. apply format_page. unfold link_fuel. lia. Qed.

(** Adding a formatted page to the pool. *)
Lemma add_page h pools fl used t f fr m' n : heap_inv h pools fl used → 0 <= t < 6 → znth [] fl t = [] →
  fa_avail (kframes h) f → fa_inv fr → ¬ fa_avail fr f → (∀ g, fa_avail fr g → fa_avail (kframes h) g) →
  Z.of_nat n * slot_size t + slot_size t = PAGE_SIZE → page_formatted (kmem h) m' (PHYS_TO_VIRT f) t n →
  let pg := PHYS_TO_VIRT f in
  let h' := Kheap m' fr (<[Z.to_nat t := pg + slot_size t]> (free_heads h)) (big_alloc_head h) in
  heap_inv h' (<[pg := t]> pools) (<[Z.to_nat t := slot_list (pg + slot_size t) (slot_size t) n]> fl) used ∧
  keeps h pools used h' (<[pg := t]> pools).
Proof.
  intros [Hlen Hpmm Hpages Htaken Hhdr Hchain Hfree Hused] Ht Hfl Hav Hfr Hav' Hsub Hn (Hmg & Htr & Hch & Hout) pg h'.
  destruct Hpmm as [Hinv Hsmall]. destruct (fa_avail_frame _ _ Hinv Hav) as [Hal Hr]. pose proof (Hsmall _ Hav) as Hf46.
  assert (pg = f + ID_VIRT_REGION_START) as Hpgv by (unfold pg; apply PHYS_TO_VIRT_small; lia).
  assert (pg mod PAGE_SIZE = 0 ∧ 2 ^ 63 <= pg ∧ pg + PAGE_SIZE < 2 ^ 64) as (Hpal & Hplo & Hphi).
  { unfold ID_VIRT_REGION_START, PAGE_SIZE in *. rewrite Hpgv. zlia. }
  assert (pools !! pg = None) as Hnew.
  { destruct (pools !! pg) as [t'|] eqn:E; [|done]. destruct (Htaken _ _ E) as (g & Hg & Hgr & Hng).
    apply PHYS_TO_VIRT_inj in Hg as <-; [done|lia..]. }
  destruct (slot_size_facts t Ht) as (k & Hk & Hkb & Hs).
  assert (pages_ok (<[pg := t]> pools)) as Hpages'.
  { intros pg' t' [[<- <-]|[_ Hl]]%lookup_insert_Some; [done|by apply Hpages]. }
  assert (∀ pg' t' a, pools !! pg' = Some t' → pg' <= a < pg' + PAGE_SIZE → ld m' a = ld (kmem h) a) as Hold.
  { intros pg' t' a Hl Ha. apply Hout. destruct (Hpages _ _ Hl) as (_ & Hal' & _).
    assert (pg' ≠ pg) by congruence. fold pg. unfold PAGE_SIZE in *. zlia. }
  assert (∀ t' q a, is_slot pools t' q → q <= a < q + slot_size t' → ld m' a = ld (kmem h) a) as Hslot.
  { intros t' q a Hq Ha. destruct (slot_page _ _ _ Hpages Hq) as (Hl & ? & ? & _ & Ht').
    destruct (slot_size_facts t' Ht') as (? & _ & _ & ?). eapply Hold; [done|]. lia. }
  split; [split; unfold h'; cbn [kmem kframes free_heads big_alloc_head]; try done|].
  - by rewrite !length_insert.
  - split; [done|]. intros g Hg. by apply Hsmall, Hsub.
  - intros pg' t' [[<- <-]|[_ Hl]]%lookup_insert_Some; [exists f; split_and!; done || lia|].
    destruct (Htaken _ _ Hl) as (g & -> & Hgr & Hng). exists g. split_and!; try (done || lia). by intros ?%Hsub.
  - intros pg' t' [[<- <-]|[_ Hl]]%lookup_insert_Some; [done|].
    rewrite (Hold pg' t') by (done || unfold PAGE_SIZE; lia). by apply Hhdr.
  - intros t' Ht'. destruct (decide (t' = t)) as [->|Hne].
    + rewrite !znth_insert_eq by lia. split; [done|]. apply NoDup_slot_list. lia.
    + rewrite !znth_insert_ne by lia. destruct (Hchain t' Ht') as [Hc Hnd]. split; [|done].
      apply (chain_agree (kmem h)); [|done]. intros x Hx. apply Hfree in Hx as [Hx _]; [|done].
      apply (Hslot t' x); [done|by apply (slot_first pools)].
  - intros t' q Ht'. rewrite is_slot_insert by done. destruct (decide (t' = t)) as [->|Hne].
    + rewrite znth_insert_eq, elem_of_slot_list by lia. split.
      * intros (j & Hj & ->). split; [right; split; [done|]; exists (j + 1); nia|].
        intros Hu. destruct (Hused _ Hu) as (t'' & Hsl).
        destruct (slot_page _ _ _ Hpages Hsl) as (Hl & _).
        assert (is_slot (<[pg := t]> pools) t (pg + slot_size t + j * slot_size t)) as Hs'.
        { apply is_slot_insert; [done|]. right. split; [done|]. exists (j + 1). nia. }
        destruct (slot_page _ _ _ Hpages' Hs') as (_ & Hlo & Hhi & _).
        destruct (Hpages _ _ Hl) as (_ & Hal' & _). assert (PAGE_ALIGN_DOWN (pg + slot_size t + j * slot_size t) ≠ pg) by congruence.
        assert (0 <= j * slot_size t ∧ j * slot_size t + slot_size t < PAGE_SIZE) as [? ?] by (clear -Hj Hn Hs; nia).
        unfold PAGE_SIZE in *. clear -Hal' Hpal Hlo Hhi H H0 H1 Hs. set (A := PAGE_ALIGN_DOWN _) in *. clearbody A. zlia.
      * intros [[Hold'|(_ & i & Hi & Hib & ->)] Hnu].
        -- assert (q ∈ znth [] fl t) as Hq by by apply Hfree. rewrite Hfl in Hq. by apply not_elem_of_nil in Hq.
        -- exists (i - 1). nia.
    + rewrite znth_insert_ne, Hfree by lia. split; [tauto|]. intros [[?|[-> _]] ?]; done.
  - intros q Hq. destruct (Hused _ Hq) as [t' Hsl]. exists t'. apply is_slot_insert; [done|by left].
  - unfold h'. split_and!; cbn [kmem kframes big_alloc_head]; try done; [by apply insert_subseteq| |].
    2:{ intros pg' t' [(<- & _)|(_ & ?)]%lookup_insert_Some; [right; by exists f|by left]. }
    intros a [(q & t' & _ & Hq & Ha)|Hna]; [by eapply Hslot|]. apply Hout. intros Ha. apply Hna.
    exists pg, t. split; [apply lookup_insert_eq|done].
Qed.

Lemma keeps_refl h pools used : keeps h pools used h pools.
Proof. split_and!; try done. by left. Qed.

Lemma keeps_trans h pools used h1 pools1 h2 pools2 :
  (∀ p, p ∈ used → ∃ t, is_slot pools t p) →
  keeps h pools used h1 pools1 → keeps h1 pools1 used h2 pools2 → keeps h pools used h2 pools2.
Proof.
  intros Hused (Hs1 & Hb1 & Hm1 & Ha1 & Hp1) (Hs2 & Hb2 & Hm2 & Ha2 & Hp2).
  split_and!; [by etrans|congruence| |by intros f ?%Ha2%Ha1|].
  2:{ intros pg t [?%Hp1|(f & -> & ?%Ha1)]%Hp2; [done|right; by exists f]. }
  intros a Ha. rewrite Hm2, Hm1; [done|..].
  - destruct Ha as [?|Hna]; [by left|right]. intros (pg & t & Hpg & Hr). apply Hna.
    exists pg, t. split; [by eapply lookup_weaken|done].
  - destruct Ha as [(q & t & Hq & (pg & k & Hpg & Hk) & Ha)|?]; [left|by right].
    exists q, t. split_and!; [done| |lia|lia]. exists pg, k. split; [by eapply lookup_weaken|done].
Qed.

(** [alloc_page] on top of the allocator interface. *)
Lemma alloc_page_spec s : fa_inv s → (∀ f, fa_avail s f → f < 2 ^ 46) →
  returns (alloc_page s) (λ '(p, s'), fa_inv s' ∧
    ((p = NULL ∧ (∀ f, ¬ fa_avail s f) ∧ (∀ f, ¬ fa_avail s' f)) ∨
     (∃ f, p = PHYS_TO_VIRT f ∧ p ≠ NULL ∧ fa_avail s f ∧ ¬ fa_avail s' f ∧ ∀ g, fa_avail s' g → fa_avail s g))).
Proof.
  intros Hinv Hsmall. unfold alloc_page. eapply runs_bind; [exact (fa_alloc_spec s Hinv)|].
  intros [f s'] (Hinv' & Hcase). destruct (Z.eqb_spec f NULL) as [->|Hne].
  { split; [done|]. destruct Hcase as [?|(Hav & _)]; [by left|].
    apply fa_avail_frame in Hav as [_ ?]; [unfold NULL in *; lia|done]. }
  destruct Hcase as [(-> & _)|(Hav & Hav' & Hsub)]; [done|]. split; [done|]. right. exists f. split_and!; try done.
  pose proof (Hsmall _ Hav). destruct (fa_avail_frame _ _ Hinv Hav).
  rewrite PHYS_TO_VIRT_small by lia. unfold ID_VIRT_REGION_START, NULL. lia.
Qed.

Lemma init_tier_spec h pools fl used t : heap_inv h pools fl used → 0 <= t < 6 → znth [] fl t = [] →
  returns (init_tier t h) (λ '(r, h'),
    (r = - ENOMEM ∧ heap_inv h' pools fl used ∧ keeps h pools used h' pools ∧ ∀ f, ¬ fa_avail (kframes h) f) ∨
    (r = 0 ∧ ∃ pools' p l, heap_inv h' pools' (<[Z.to_nat t := p :: l]> fl) used ∧ keeps h pools used h' pools')).
Proof.
  intros Hinv Ht Hfl. pose proof Hinv as [Hlen [Hpi Hsmall] Hpages Htaken Hhdr Hchain Hfree Hused].
  unfold init_tier. eapply returns_bind; [by apply alloc_page_spec|]. intros [frame fr] (Hfr & Hcase).
  destruct (Z.eqb_spec frame NULL) as [->|Hne].
  { left. destruct Hcase as [(_ & Hno & Hno')|(_ & _ & [] & _)]; [|done].
    split; [done|]. split; [|split; [|done]].
    - split; cbn [kmem kframes free_heads]; try done.
      + split; [done|]. intros g Hg. by destruct (Hno' g).
      + intros pg t' Hpg. destruct (Htaken _ _ Hpg) as (g & -> & Hg & _). exists g. split_and!; done || lia.
    - split_and!; try done; [|by left]. intros g Hg. by destruct (Hno' g). }
  destruct Hcase as [(-> & _)|(f & -> & _ & Hav & Hav' & Hsub)]; [done|].
  destruct (fa_avail_frame _ _ Hpi Hav) as [Hal Hr]. pose proof (Hsmall _ Hav) as Hf46.
  pose proof (PHYS_TO_VIRT_small f ltac:(lia)) as Hpgv.
  assert (2 ^ 63 <= PHYS_TO_VIRT f ∧ PHYS_TO_VIRT f + PAGE_SIZE < 2 ^ 64) as [Hlo Hhi].
  { rewrite Hpgv. unfold ID_VIRT_REGION_START, PAGE_SIZE. lia. }
  rewrite tier_slot_size, bind_Ok by done.
  destruct (format_pool_page_spec (kmem h) (PHYS_TO_VIRT f) t) as (n & Hn & Hfmt); [done..|].
  eapply returns_bind; [exact Hfmt|]. clear Hfmt. intros m3 Hfmt.
  rewrite arr_set_Ok, bind_Ok by lia.
  destruct (slot_size_facts t Ht) as (k & Hk & Hkb & Hs).
  rewrite (u64_small (PHYS_TO_VIRT f + slot_size t)) by (unfold PAGE_SIZE in *; nia).
  destruct (add_page h pools fl used t f fr _ n Hinv Ht Hfl Hav Hfr Hav' Hsub Hn Hfmt) as [Hinv' Hkeep].
  right. split; [done|]. destruct n as [|n]; [exfalso; nia|]. cbn [slot_list] in Hinv'.
  by eexists _, _, _.
Qed.

Definition small_post (tier : Z) (h : kheap) (pools : gmap Z Z) (used : gset Z) (ret : Z * kheap) : Prop :=
  let '(p, h') := ret in
  ∃ pools' fl', keeps h pools used h' pools' ∧
    ((p = NULL ∧ heap_inv h' pools' fl' used ∧ ∀ f, ¬ fa_avail (kframes h) f) ∨
     (p ≠ NULL ∧ p ∉ used ∧ is_slot pools' tier p ∧ heap_inv h' pools' fl' ({[p]} ∪ used))).

Lemma kmalloc_small_head fuel tier h pools fl used p l : heap_inv h pools fl used → 0 <= tier < 6 →
  znth [] fl tier = p :: l →
  returns (kmalloc_small (S fuel) tier h) (λ ret, ret.1 = p ∧ p ≠ NULL ∧ small_post tier h pools used ret).
Proof.
  intros Hinv Ht Hfl. destruct (take_head _ _ _ _ _ _ _ Hinv Ht Hfl) as (Hhd & Hpn & Hpu & Hps & Hinv' & Hkeep).
  pose proof (hi_len _ _ _ _ Hinv) as [Hl1 Hl2]. cbn [kmalloc_small].
  rewrite (arr_get_znth 0) by lia. cbn [mbind res_bind]. rewrite Hhd, (proj2 (Z.eqb_neq p NULL)) by done.
  cbn [negb]. cbv zeta. rewrite arr_set_Ok by lia. cbn [mbind res_bind]. split; [done|]. split; [done|].
  eexists pools, _. split; [done|]. right. split_and!; [done..|exact Hinv'].
Qed.

Lemma kmalloc_small_refill n tier h : 0 <= tier < Z.of_nat (length (free_heads h)) → znth 0 (free_heads h) tier = NULL →
  kmalloc_small (S n) tier h = ('(r, h) ← init_tier tier h; if r <? 0 then Ok (NULL, h) else kmalloc_small n tier h).
Proof. intros Ht Hnull. cbn [kmalloc_small]. rewrite (arr_get_znth 0) by lia. cbn [mbind res_bind]. by rewrite Hnull. Qed.

Lemma kmalloc_small_spec tier h pools fl used : heap_inv h pools fl used → 0 <= tier < 6 →
  returns (kmalloc_small 2 tier h) (small_post tier h pools used).
Proof.
  intros Hinv Ht. destruct (znth [] fl tier) as [|p l] eqn:Hfl.
  2:{ eapply runs_mono; [by eapply (kmalloc_small_head 1)|by intros ret (_ & _ & ?)|done]. }
  pose proof Hinv as [[Hl1 Hl2] _ _ _ _ Hchain _ Hused]. destruct (Hchain tier Ht) as [Hc _]. rewrite Hfl in Hc.
  simpl in Hc. rewrite kmalloc_small_refill by (done || lia).
  eapply returns_bind; [by eapply init_tier_spec|].
  intros [r h'] [(-> & Hinv' & Hkeep & Hno)|(-> & pools' & p & l & Hinv' & Hkeep)].
  - cbn. exists pools, fl. split; [done|]. by left.
  - change (0 <? 0) with false. cbv iota.
    eapply runs_mono; [eapply (kmalloc_small_head 0); [exact Hinv'|done|by apply znth_insert_eq; lia]| |done].
    intros [q h2] (Hq & Hpn & pools2 & fl2 & Hkeep2 & Hc2). exists pools2, fl2. split; [by eapply keeps_trans|].
    right. destruct Hc2 as [(-> & _)|?]; [by destruct Hpn|done].
Qed.

(** ** The heap as its clients see it *)

Definition heap_ok (h : kheap) (used : gset Z) : Prop := ∃ pools fl, heap_inv h pools fl used.

(** The size of the block at [p], as recorded in its page's header. *)
Definition block_size (h : kheap) (p : Z) : Z := slot_size (hdr_tier (ld (kmem h) (PAGE_ALIGN_DOWN p))).

Definition disjoint_blocks (h : kheap) (p q : Z) : Prop := p + block_size h p <= q ∨ q + block_size h q <= p.

(** The contents of the blocks in [used] are as before. *)
Definition same_blocks (used : gset Z) (h h' : kheap) : Prop :=
  ∀ q, q ∈ used → block_size h' q = block_size h q ∧
    ∀ a, q <= a < q + block_size h q → ld (kmem h') a = ld (kmem h) a.

Lemma block_size_slot h pools fl used t p : heap_inv h pools fl used → is_slot pools t p → block_size h p = slot_size t.
Proof.
  intros Hinv Hp. destruct (slot_page _ _ _ (hi_pages _ _ _ _ Hinv) Hp) as (Hpg & _).
  destruct (hi_hdr _ _ _ _ Hinv _ _ Hpg) as [_ Ht]. unfold block_size. by rewrite Ht.
Qed.

Lemma is_slot_mono pools pools' t p : pools ⊆ pools' → is_slot pools t p → is_slot pools' t p.
Proof. intros Hs (pg & k & Hpg & Hk). exists pg, k. split; [by eapply lookup_weaken|done]. Qed.

Lemma keeps_same_blocks h pools fl used h' pools' fl' used' : heap_inv h pools fl used →
  heap_inv h' pools' fl' used' → keeps h pools used h' pools' → same_blocks used h h'.
Proof.
  intros Hinv Hinv' (Hsub & _ & Hmem & _) q Hq. destruct (hi_used _ _ _ _ Hinv _ Hq) as [t Ht].
  rewrite (block_size_slot h pools fl used t), (block_size_slot h' pools' fl' used' t); try done; [|by eapply is_slot_mono].
  split; [done|]. intros a Ha. apply Hmem. left. by exists q, t.
Qed.


(** Returning a slot to its tier. *)
Lemma kfree_small_spec h pools fl used t p : heap_inv h pools fl used → p ∈ used → is_slot pools t p →
  returns (kfree_small p h) (λ h',
    heap_inv h' pools (<[Z.to_nat t := p :: znth [] fl t]> fl) (used ∖ {[p]}) ∧ keeps h pools (used ∖ {[p]}) h' pools).
Proof.
  intros [Hlen Hpmm Hpages Htaken Hhdr Hchain Hfree Hused] Hpu Hp.
  destruct (slot_page _ _ _ Hpages Hp) as (Hpg & Hlo & Hhi & _ & Ht). destruct (Hhdr _ _ Hpg) as [_ Htier].
  destruct (slot_size_facts t Ht) as (n & _ & _ & Hs).
  unfold kfree_small. rewrite Htier, (arr_get_znth 0) by lia. cbn [mbind res_bind]. rewrite arr_set_Ok by lia. cbn [mbind res_bind runs].
  set (m := st (kmem h) p (znth 0 (free_heads h) t)).
  assert (∀ t' q a, is_slot pools t' q → q ≠ p → q <= a < q + slot_size t' → ld m a = ld (kmem h) a) as Hslot.
  { intros t' q a Hq Hne Ha. apply ld_st_ne. intros <-.
    destruct (slots_disjoint _ _ _ _ _ Hpages Hp Hq); [done|lia..]. }
  assert (∀ pg t', pools !! pg = Some t' → ld m pg = ld (kmem h) pg) as Hh.
  { intros pg t' Hl. apply ld_st_ne. intros Heq. eapply header_not_slot; [done|exact Hl|exact Hp| |exact Heq]. lia. }
  assert (∀ t' l q, 0 <= t' < 6 → (∀ x, x ∈ l → x ∈ znth [] fl t') → chain (kmem h) q l → chain m q l) as Hch.
  { intros t' l q Ht' Hl Hc. apply (chain_agree (kmem h)); [|done]. intros x Hx%Hl.
    apply Hfree in Hx as [Hx Hxu]; [|done]. apply (Hslot t' x); [done|by intros ->|by apply (slot_first pools)]. }
  split; [split; cbn [kmem kframes free_heads big_alloc_head]; try done|].
  - by rewrite !length_insert.
  - intros pg t' Hl. rewrite (Hh pg t' Hl). by apply Hhdr.
  - intros t' Ht'. destruct (Hchain t' Ht') as [Hc Hnd]. destruct (decide (t' = t)) as [->|Hne].
    + rewrite !znth_insert_eq by lia. split.
      * split; [done|]. destruct (Hpages _ _ Hpg) as (_ & _ & ? & _). split; [unfold NULL; lia|].
        assert (ld m p = znth 0 (free_heads h) t) as -> by apply ld_st_eq. by apply (Hch t).
      * apply NoDup_cons. split; [|done]. intros Hin. apply Hfree in Hin as [_ ?]; done.
    + rewrite !znth_insert_ne by lia. split; [|done]. by apply (Hch t').
  - intros t' q Ht'. destruct (decide (t' = t)) as [->|Hne].
    + rewrite znth_insert_eq, elem_of_cons, Hfree by lia. destruct (decide (q = p)) as [->|Hqp]; set_solver.
    + rewrite znth_insert_ne, Hfree by lia. split; [set_solver|]. intros [Hq Hqu]. split; [done|].
      intros Hqu'. apply Hqu. apply elem_of_difference. split; [done|]. intros ->%elem_of_singleton.
      destruct (slot_page _ _ _ Hpages Hq) as (Hpg' & _). congruence.
  - intros q Hq. apply Hused. set_solver.
  - split_and!; try done; [|by left]. cbn [kmem]. intros a [(q & t' & Hq & Hqs & Ha)|Hna].
    + apply (Hslot t' q); [done|set_solver|done].
    + apply ld_st_ne. intros <-. apply Hna. exists (PAGE_ALIGN_DOWN p), t. split; [done|]. lia.
Qed.


(** A big allocation can be mistaken for a pool page.  [kfree] decides by
    the first word of the page alone, which for a big allocation is its
    owner's data: when that data starts with the magic number, the pages are
    never returned to the frame allocator; instead the block is pushed onto a
    small tier's free list, or the tier index runs off the table. *)
Theorem kfree_big_misclassified h n p :
  hdr_magic (ld (kmem h) (PAGE_ALIGN_DOWN p)) = MAGIC → length (free_heads h) = 6%nat →
  let tier := hdr_tier (ld (kmem h) (PAGE_ALIGN_DOWN p)) in
  match kfree n p h with
  | Ok h' => kframes h' = kframes h ∧ 0 <= tier < 6 ∧ znth 0 (free_heads h') tier = p ∧ big_alloc_head h' = big_alloc_head h
  | Fault => 6 <= tier
  | _ => False
  end.
Proof.
  intros Hm Hlen tier. unfold kfree. cbn [kfree_rec]. rewrite Hm, Z.eqb_refl. unfold kfree_small. fold tier.
  assert (0 <= tier) by (unfold tier, hdr_tier, get_bits; apply Z.mod_pos_bound; lia).
  destruct (decide (tier < 6)).
  - rewrite (arr_get_znth 0) by lia. cbn [mbind res_bind]. rewrite arr_set_Ok by lia. cbn.
    split_and!; try done. apply znth_insert_eq. lia.
  - unfold arr_get. rewrite (proj2 (Z.ltb_ge _ _)) by lia. rewrite andb_false_r. cbn. lia.
Qed.

(** Witnesses: the heap before and after its first allocation. *)
Lemma demo_heap_inv : heap_inv demo_heap ∅ (replicate 6 []) ∅.
Proof.
  split; cbn [demo_heap kmem kframes free_heads]; try done.
  - split; [split; [apply demo_pmm_ok|done]|]. intros f (_ & Hf & Ht).
    destruct (decide (f / PAGE_SIZE < 24)); [unfold PAGE_SIZE in *; zlia|].
    rewrite taken_beyond in Ht by (simpl; lia). done.
  - intros t Ht. tier_cases t H; (split; [done|by apply NoDup_nil]).
  - intros t p Ht. split; [|by intros [(pg & k & ? & _) _]].
    tier_cases t H; intros []%not_elem_of_nil.
Qed.

Lemma demo_heap_ok : heap_ok demo_heap ∅.
Proof. exists ∅, (replicate 6 []). apply demo_heap_inv. Qed.


Definition demo_heap1 : kheap :=
  match kmalloc 100 demo_heap with Ok (_, h) => h | _ => demo_heap end.

Lemma demo_heap1_ok : heap_ok demo_heap1 {[ 0xffff88800000d080 ]}.
Proof.
  destruct demo_heap_ok as (pools & fl & Hinv). pose proof (kmalloc_small_spec 2 demo_heap pools fl ∅ Hinv ltac:(lia)) as Hk.
  change demo_heap1 with (match kmalloc_small 2 2 demo_heap with Ok (_, h) => h | _ => demo_heap end).
  assert (match kmalloc_small 2 2 demo_heap with Ok (p, _) => p =? 0xffff88800000d080 | _ => false end = true) as Hp
    by (vm_compute; reflexivity).
  destruct (kmalloc_small 2 2 demo_heap) as [[p h]| | |]; try done. apply Z.eqb_eq in Hp as ->.
  destruct Hk as (pools' & fl' & _ & [(? & _)|(_ & _ & _ & Hinv')]); [done|]. exists pools', fl'.
  by rewrite union_empty_r_L in Hinv'.
Qed.


(** A 4 KiB buffer that starts with the magic number and the byte 5. *)
Definition demo_heap2 : kheap := Kheap {[ 0xffff88800000d000 := 0x5FC6792DA ]} demo_pmm (replicate 6 0) 0.

Lemma kfree_big_misclassified_witness :
  hdr_tier (ld (kmem demo_heap2) (PAGE_ALIGN_DOWN 0xffff88800000d000)) = 5 ∧
  match kfree 10 0xffff88800000d000 demo_heap2 with
  | Ok h' => kframes h' = kframes demo_heap2 ∧ 0 <= hdr_tier (ld (kmem demo_heap2) (PAGE_ALIGN_DOWN 0xffff88800000d000)) < 6 ∧
      znth 0 (free_heads h') (hdr_tier (ld (kmem demo_heap2) (PAGE_ALIGN_DOWN 0xffff88800000d000))) = 0xffff88800000d000 ∧
      big_alloc_head h' = big_alloc_head demo_heap2
  | Fault => 6 <= hdr_tier (ld (kmem demo_heap2) (PAGE_ALIGN_DOWN 0xffff88800000d000))
  | _ => False
  end.
Proof.
  split; [vm_compute; reflexivity|]. apply (kfree_big_misclassified demo_heap2 10 0xffff88800000d000);
    [vm_compute; reflexivity|reflexivity].
Defined.
