(* ===== verification/Mm.v ===== *)
(** * Address-space descriptors (mm/mm.c)

    An [mm_struct] owns a page table and a singly linked list of the ranges
    mapped for the process.  Both structures live in heap memory: an
    [mm_struct] is the words pgd, user_stack, allocs_head, ref_count; an
    [mm_allocation] the words addr, page_count, next. *)

From S2P Require Import Prelude Types FrameAlloc EarlyPmm Pmm Paging Vmm Kmalloc.

Definition TASK_USER_STACK_PAGE_COUNT : Z := 4.
Definition TASK_USER_STACK_SIZE : Z := TASK_USER_STACK_PAGE_COUNT * PAGE_SIZE.
Definition TASK_USER_STACK_TOP_ADDR : Z := 0x7FFFFFFFF000.

Definition MM_STRUCT_SIZE : Z := 32.
Definition MM_ALLOCATION_SIZE : Z := 24.

Definition mm_pgd (mm : Z) : Z := mm.
Definition mm_allocs_head (mm : Z) : Z := u64 (mm + 16).
Definition mm_ref_count (mm : Z) : Z := u64 (mm + 24).
Definition alloc_addr (a : Z) : Z := a.
Definition alloc_page_count (a : Z) : Z := u64 (a + 8).
Definition alloc_next (a : Z) : Z := u64 (a + 16).

(** The paging code and the heap work on the same memory and frames. *)
Definition as_mmu (h : kheap) : mmu pmm := Mmu (kmem h) (kframes h) [].
Definition with_mmu (s : mmu pmm) (h : kheap) : kheap := Kheap (mem s) (frames s) (free_heads h) (big_alloc_head h).
Definition with_mem (m : gmap Z Z) (h : kheap) : kheap := Kheap m (kframes h) (free_heads h) (big_alloc_head h).

Section mm.
Context (cpu_has_1g_pages : bool) (list_fuel : nat).

Definition mm_create (kpgd : Z) (h : kheap) : res (Z * kheap) :=
  '(mm, h) ← kzalloc MM_STRUCT_SIZE h;
  if mm =? NULL then Ok (ERR_PTR (- ENOMEM), h) else
  '(pgd, s) ← vmm_copy_kpgtbl kpgd (as_mmu h);
  let h := with_mmu s h in
  if IS_ERR pgd then h ← kfree list_fuel mm h; Ok (pgd, h) else
  let m := st (kmem h) (mm_pgd mm) pgd in
  let m := st m (mm_allocs_head mm) NULL in
  let m := st m (mm_ref_count mm) (set_bits (ld m (mm_ref_count mm)) 0 32 1) in
  Ok (mm, with_mem m h).

Definition mm_create_alloc (addr page_count : Z) (h : kheap) : res (Z * kheap) :=
  '(alloc, h) ← kmalloc MM_ALLOCATION_SIZE h;
  if alloc =? NULL then Ok (ERR_PTR (- ENOMEM), h) else
  let m := st (kmem h) (alloc_addr alloc) addr in
  let m := st m (alloc_page_count alloc) page_count in
  let m := st m (alloc_next alloc) NULL in
  Ok (alloc, with_mem m h).

(** [while (cur)] of [mm_add_alloc].  [prev] is not advanced by the loop. *)
Fixpoint insert_loop (fuel : nat) (prev cur alloc addr : Z) (m : gmap Z Z) : res (gmap Z Z) :=
  match fuel with
  | O => OutOfFuel
  | S fuel' =>
      if cur =? NULL then Ok (st m (alloc_next prev) alloc) else
      if addr <=? ld m (alloc_addr cur) then
        let m := st m (alloc_next prev) alloc in
        if IS_ERR alloc then Fault else Ok (st m (alloc_next alloc) cur)
      else insert_loop fuel' prev (ld m (alloc_next cur)) alloc addr m
  end.

(** The list part of [mm_add_alloc], for the pointer [mm_create_alloc]
    returned; writing through an error pointer faults. *)
Definition mm_insert (mm alloc addr : Z) (m : gmap Z Z) : res (gmap Z Z) :=
  let head := ld m (mm_allocs_head mm) in
  if head =? NULL then Ok (st m (mm_allocs_head mm) alloc) else
  if addr <=? ld m (alloc_addr head) then
    if IS_ERR alloc then Fault else
    let m := st m (alloc_next alloc) head in
    Ok (st m (mm_allocs_head mm) alloc)
  else insert_loop list_fuel head (ld m (alloc_next head)) alloc addr m.

Definition mm_add_alloc (mm addr page_count : Z) (h : kheap) : res (Z * kheap) :=
  '(alloc, h) ← mm_create_alloc addr page_count h;
  if alloc =? NULL then Ok (- ENOMEM, h) else
  m ← mm_insert mm alloc addr (kmem h);
  Ok (0, with_mem m h).

Definition stack_prot : pgprot := PgProt (Z.lor (Z.lor PAGE_NO_EXECUTE PAGE_RW) PAGE_USER) false.

Definition mm_alloc_main_stack (mm : Z) (h : kheap) : res (Z * kheap) :=
  let bottom := TASK_USER_STACK_TOP_ADDR - TASK_USER_STACK_SIZE in
  '(r, s) ← vmm_alloc_range cpu_has_1g_pages (ld (kmem h) (mm_pgd mm)) bottom TASK_USER_STACK_SIZE stack_prot (as_mmu h);
  let h := with_mmu s h in
  if r <? 0 then Ok (- ENOMEM, h) else
  '(r, h) ← mm_add_alloc mm bottom TASK_USER_STACK_PAGE_COUNT h;
  if r <? 0 then Ok (r, h) else Ok (0, h).

(** [while (cur)] of [mm_put]. *)
Fixpoint put_loop (fuel : nat) (cur : Z) (h : kheap) : res kheap :=
  match fuel with
  | O => OutOfFuel
  | S fuel' =>
      if cur =? NULL then Ok h else
      fr ← free_pages (ld (kmem h) (alloc_addr cur)) (ld (kmem h) (alloc_page_count cur)) (kframes h);
      let h := Kheap (kmem h) fr (free_heads h) (big_alloc_head h) in
      let next := ld (kmem h) (alloc_next cur) in
      h ← kfree list_fuel cur h;
      put_loop fuel' next h
  end.

Definition mm_put (mm : Z) (h : kheap) : res kheap :=
  let count := u32 (get_bits (ld (kmem h) (mm_ref_count mm)) 0 32 - 1) in
  let h := with_mem (st (kmem h) (mm_ref_count mm) (set_bits (ld (kmem h) (mm_ref_count mm)) 0 32 count)) h in
  if count =? 0 then put_loop list_fuel (ld (kmem h) (mm_allocs_head mm)) h else Ok h.
End mm.

(** ** The allocation list *)

(** [ranges m p l]: the list at [p] holds the (node, address) pairs [l]. *)
Fixpoint ranges (m : gmap Z Z) (p : Z) (l : list (Z * Z)) : Prop :=
  match l with
  | [] => p = NULL
  | (a, addr) :: l' => p = a ∧ a ≠ NULL ∧ ld m (alloc_addr a) = addr ∧ ranges m (ld m (alloc_next a)) l'
  end.

(** What [mm_add_alloc] computes: past the head, every node whose address is
    below the new one is dropped. *)
Fixpoint skip_below (addr : Z) (l : list (Z * Z)) : list (Z * Z) :=
  match l with
  | [] => []
  | (a, x) :: l' => if addr <=? x then l else skip_below addr l'
  end.

Definition add_range (x : Z * Z) (l : list (Z * Z)) : list (Z * Z) :=
  match l with
  | [] => [x]
  | h :: t => if x.2 <=? h.2 then x :: l else h :: x :: skip_below x.2 t
  end.

(** The words of the list head and of the nodes are pairwise distinct. *)
Definition words_apart (mm : Z) (l : list (Z * Z)) : Prop :=
  NoDup (mm_allocs_head mm :: (l.*1 ≫= λ a, [alloc_addr a; alloc_next a])).

Lemma ranges_agree m m' p l : ranges m p l →
  (∀ a, a ∈ l.*1 → ld m' (alloc_addr a) = ld m (alloc_addr a) ∧ ld m' (alloc_next a) = ld m (alloc_next a)) →
  ranges m' p l.
Proof.
  revert p. induction l as [|[a x] l IH]; intros p; [done|]. cbn [ranges fmap list_fmap].
  intros (-> & Hn & Hx & Hr) Hag. destruct (Hag a) as [Ha1 Ha2]; [by left|]. cbn [fst] in *.
  split_and!; [done|done|by rewrite Ha1|]. rewrite Ha2. apply IH; [done|]. intros b Hb. apply Hag. by right.
Qed.

Lemma insert_loop_spec fuel m prev alloc addr l cur : ranges m cur l → (length l < fuel)%nat → IS_ERR alloc = false →
  insert_loop fuel prev cur alloc addr m =
    Ok (let m1 := st m (alloc_next prev) alloc in
        match skip_below addr l with [] => m1 | (b, _) :: _ => st m1 (alloc_next alloc) b end).
Proof.
  intros Hr Hf He. revert cur l Hr Hf. induction fuel as [|fuel IH]; intros cur l Hr Hf; [lia|].
  cbn [insert_loop]. destruct l as [|[b x] l]; cbn [ranges skip_below length] in *.
  - by subst.
  - destruct Hr as (-> & Hn & Hx & Hr). rewrite (proj2 (Z.eqb_neq b NULL)) by done. rewrite Hx.
    destruct (Z.leb_spec addr x); [by rewrite He|]. apply IH; [done|lia].
Qed.

Lemma skip_below_sublist addr l : skip_below addr l `sublist_of` l.
Proof.
  induction l as [|[a x] l IH]; [done|]. cbn [skip_below]. case_match; [done|]. by apply sublist_cons.
Qed.

(** The tail the loop stops at is a well-formed list of its own. *)
Lemma ranges_skip m addr cur l : ranges m cur l →
  ∃ p, ranges m p (skip_below addr l) ∧ match skip_below addr l with [] => p = NULL | (b, _) :: _ => p = b end.
Proof.
  revert cur. induction l as [|[a x] l IH]; intros cur; cbn [skip_below ranges].
  - intros ->. by exists NULL.
  - intros (-> & Hn & Hx & Hr). destruct (addr <=? x); [|by eapply IH].
    exists a. cbn [ranges]. by split_and!.
Qed.

Section insert.
Context (list_fuel : nat) (m : gmap Z Z) (mm alloc addr : Z) (l : list (Z * Z)).
Context (Hl : ranges m (ld m (mm_allocs_head mm)) l) (Hap : words_apart mm ((alloc, addr) :: l)).
Context (Ha : alloc ≠ NULL) (Herr : IS_ERR alloc = false).
Context (Haddr : ld m (alloc_addr alloc) = addr) (Hnext : ld m (alloc_next alloc) = NULL).

(** Words of the new node and of the old nodes are apart from the others. *)
Lemma insert_apart :
  (∀ b, b = alloc ∨ b ∈ l.*1 → alloc_addr b ≠ mm_allocs_head mm ∧ alloc_next b ≠ mm_allocs_head mm) ∧
  (∀ b, b ∈ l.*1 → alloc_addr b ≠ alloc_next alloc ∧ alloc_next b ≠ alloc_next alloc) ∧
  alloc_addr alloc ≠ alloc_next alloc.
Proof.
  unfold words_apart in Hap. rewrite fmap_cons, bind_cons in Hap. cbn [app fst] in Hap. apply NoDup_cons in Hap as [H1 Hap1].
  apply NoDup_cons in Hap1 as [H2 Hap2]. apply NoDup_cons in Hap2 as [H3 _].
  split_and!; [intros b Hb; split|intros b Hb; split|]; intros Heq.
  - apply H1. rewrite <- Heq. destruct Hb as [->|Hb]; [by left|]. do 2 right. apply list_elem_of_bind.
    exists b. split; [by left|done].
  - apply H1. rewrite <- Heq. destruct Hb as [->|Hb]; [right; by left|]. do 2 right. apply list_elem_of_bind.
    exists b. split; [right; by left|done].
  - apply H3. rewrite <- Heq. apply list_elem_of_bind. exists b. split; [by left|done].
  - apply H3. rewrite <- Heq. apply list_elem_of_bind. exists b. split; [right; by left|done].
  - apply H2. rewrite Heq. by left.
Qed.

(** Words of the head node are apart from those of the rest. *)
Lemma insert_head_apart h0 x0 l0 : l = (h0, x0) :: l0 →
  alloc_addr h0 ≠ alloc_next h0 ∧ (∀ b, b ∈ l0.*1 → alloc_addr b ≠ alloc_next h0 ∧ alloc_next b ≠ alloc_next h0) ∧
  alloc_addr alloc ≠ alloc_next h0.
Proof.
  intros El. unfold words_apart in Hap. rewrite El in Hap. rewrite !fmap_cons, !bind_cons in Hap. cbn [app fst] in Hap.
  apply NoDup_cons in Hap as [_ Hap1]. apply NoDup_cons in Hap1 as [H2 Hap2].
  apply NoDup_cons in Hap2 as [_ Hap3]. apply NoDup_cons in Hap3 as [H4 Hap4]. apply NoDup_cons in Hap4 as [H5 _].
  split_and!.
  - intros Heq. apply H4. rewrite Heq. by left.
  - intros b Hb. split; intros Heq; apply H5; rewrite <- Heq; apply list_elem_of_bind; exists b;
      (split; [|done]); [by left|right; by left].
  - intros Heq. apply H2. rewrite Heq. right. right. by left.
Qed.

Lemma mm_insert_spec : (length l < list_fuel)%nat →
  ∃ m', mm_insert list_fuel mm alloc addr m = Ok m' ∧
    ranges m' (ld m' (mm_allocs_head mm)) (add_range (alloc, addr) l).
Proof.
  intros Hf. destruct insert_apart as (Hmm & Hal & Haa). pose proof insert_head_apart as Hhd. unfold mm_insert.
  destruct l as [|[h0 x0] l0] eqn:El; cbn [ranges add_range snd] in *.
  - rewrite Hl. eexists. split; [done|]. rewrite ld_st_eq. cbn [ranges].
    rewrite !ld_st_ne by (apply not_eq_sym, Hmm; by left). done.
  - destruct Hl as (Hh & Hn0 & Hx0 & Hr0). rewrite Hh, (proj2 (Z.eqb_neq h0 NULL)), Hx0 by done.
    destruct (Z.leb_spec addr x0).
    { rewrite Herr. eexists. split; [done|]. rewrite ld_st_eq. cbn [ranges].
      rewrite !(ld_st_ne _ (mm_allocs_head mm)) by (apply not_eq_sym, Hmm; by left).
      split; [done|]. split; [done|]. split; [rewrite ld_st_ne by done; done|]. rewrite ld_st_eq.
      apply (ranges_agree m _ h0 ((h0, x0) :: l0)); [done|]. intros b Hb.
      rewrite !ld_st_ne; [done|apply not_eq_sym; (apply Hal || apply Hmm); auto..]. }
    destruct (Hhd _ _ _ eq_refl) as (Hhh & Hh0 & Hah).
    erewrite insert_loop_spec; [|done|cbn [length] in Hf; lia|done]. eexists. split; [done|]. cbv zeta.
    destruct (ranges_skip m addr _ _ Hr0) as (p & Hp & Hpm).
    set (sk := skip_below addr l0) in *.
    set (m1 := st m (alloc_next h0) alloc).
    set (m2 := match sk with [] => m1 | (b, _) :: _ => st m1 (alloc_next alloc) b end).
    assert (∀ a, a ≠ alloc_next h0 → a ≠ alloc_next alloc → ld m2 a = ld m a) as Hm2.
    { intros a H1 H2. unfold m2, m1. destruct sk as [|[b ?] ?]; by rewrite !ld_st_ne. }
    assert (h0 ∈ ((h0, x0) :: l0).*1) as Hin by by left.
    assert (ld m2 (alloc_next h0) = alloc) as Hnh.
    { unfold m2, m1. destruct sk as [|[b ?] ?]; [apply ld_st_eq|].
      rewrite ld_st_ne; [apply ld_st_eq|]. apply not_eq_sym, Hal, Hin. }
    assert (ld m2 (alloc_next alloc) = p) as Hna.
    { unfold m2, m1. destruct sk as [|[b ?] ?]; [|by rewrite ld_st_eq].
      rewrite ld_st_ne by (apply Hal, Hin). by rewrite Hnext. }
    rewrite Hm2 by (apply not_eq_sym, Hmm; auto). rewrite Hh. cbn [ranges].
    split; [done|]. split; [done|]. split; [rewrite Hm2; [done|done|apply Hal, Hin]|]. rewrite Hnh.
    split; [done|]. split; [done|]. split; [rewrite Hm2; done|]. rewrite Hna. eapply ranges_agree; [done|].
    intros b Hb. assert (b ∈ l0.*1) as Hb0.
    { apply list_elem_of_fmap in Hb as (y & -> & Hy). apply list_elem_of_fmap. exists y. split; [done|].
      eapply elem_of_submseteq; [done|]. apply sublist_submseteq, skip_below_sublist. }
    assert (b ∈ ((h0, x0) :: l0).*1) as Hbl by by right.
    rewrite !Hm2; [done|apply Hh0; done|apply Hal; done|apply Hh0; done|apply Hal; done].
Qed.
End insert.

(** The allocation list of a process.  Linking a fresh node with
    [mm_insert], the list part of [mm_add_alloc], yields exactly [add_range]:
    insertion before the first node or right after it.  When the second node
    lies below the new address it is no longer in the list afterwards, because
    the loop never advances [prev]; with at most one node nothing is lost. *)
Theorem mm_insert_list list_fuel m mm alloc addr l :
  ranges m (ld m (mm_allocs_head mm)) l → words_apart mm ((alloc, addr) :: l) →
  alloc ≠ NULL → IS_ERR alloc = false → ld m (alloc_addr alloc) = addr → ld m (alloc_next alloc) = NULL →
  (length l < list_fuel)%nat →
  ∃ m', mm_insert list_fuel mm alloc addr m = Ok m' ∧
    ranges m' (ld m' (mm_allocs_head mm)) (add_range (alloc, addr) l) ∧
    ((length l <= 1)%nat → add_range (alloc, addr) l ≡ₚ (alloc, addr) :: l) ∧
    (∀ h y t, l = h :: y :: t → h.2 < addr → y.2 < addr → y ∉ add_range (alloc, addr) l).
Proof.
  intros Hl Hap Ha He Haddr Hnext Hf.
  destruct (mm_insert_spec list_fuel m mm alloc addr l Hl Hap Ha He Haddr Hnext Hf) as (m' & Hm' & Hr').
  exists m'. split_and!; [done..|  |].
  - intros Hlen. destruct l as [|h [|y t]]; [done| |simpl in Hlen; lia]. cbn. case_match; [done|]. apply Permutation_swap.
  - intros h y t -> Hh Hy. cbn [add_range snd]. rewrite (proj2 (Z.leb_gt _ _)) by done.
    assert (NoDup ((alloc, addr) :: h :: y :: t).*1) as Hnd.
    { clear -Hap. unfold words_apart in Hap. apply NoDup_cons in Hap as [_ Hap]. revert Hap.
      generalize (((alloc, addr) :: h :: y :: t).*1). intros k. induction k as [|a k IH]; [intros; by apply NoDup_nil|].
      rewrite bind_cons. cbn [app]. intros [H1 [_ H2]%NoDup_cons]%NoDup_cons. apply NoDup_cons. split; [|by apply IH].
      intros Hin. apply H1. right. apply list_elem_of_bind. exists a. split; [by left|done]. }
    rewrite !fmap_cons in Hnd. cbn [fst] in Hnd. apply NoDup_cons in Hnd as [H1 Hnd].
    apply NoDup_cons in Hnd as [H2 Hnd]. apply NoDup_cons in Hnd as [H3 _].
    assert (∀ z, z ∈ skip_below addr t → z ∈ t) as Hsub.
    { intros z Hz. eapply elem_of_submseteq; [done|]. apply sublist_submseteq, skip_below_sublist. }
    intros [->|[->|Hin]%elem_of_cons]%elem_of_cons.
    + apply H2. by left.
    + apply H1. cbn. right. by left.
    + cbn [skip_below] in Hin. destruct y as [b x]. cbn [snd] in Hy. rewrite (proj2 (Z.leb_gt _ _)) in Hin by done.
      apply H3. cbn [fst]. apply list_elem_of_fmap. exists (b, x). split; [done|]. by apply Hsub.
Qed.

(** A descriptor with two allocations and a third node above both. *)
Definition demo_mm_mem : gmap Z Z :=
  {[ 0x10 := 0x100;
     0x100 := 0x1000; 0x110 := 0x200;
     0x200 := 0x2000; 0x210 := 0;
     0x300 := 0x3000; 0x310 := 0 ]}.

Lemma mm_insert_list_witness :
  ∃ m', mm_insert 5 0 0x300 0x3000 demo_mm_mem = Ok m' ∧
    ranges m' (ld m' (mm_allocs_head 0)) [(0x100, 0x1000); (0x300, 0x3000)].
Proof.
  destruct (mm_insert_list 5 demo_mm_mem 0 0x300 0x3000 [(0x100, 0x1000); (0x200, 0x2000)]) as (m' & Hm & Hr & _).
  - by vm_compute.
  - unfold words_apart. vm_compute. repeat (apply NoDup_cons; split; [by set_unfold; naive_solver|]). by apply NoDup_nil.
  - done.
  - by vm_compute.
  - by vm_compute.
  - by vm_compute.
  - simpl. lia.
  - exists m'. split; [exact Hm|exact Hr].
Defined.

(** [mm_put] releases the wrong frames.  The list holds user virtual
    addresses, but [free_pages] subtracts the direct-map offset: for a process
    whose last reference is dropped while its first range lies in the lower
    half, with the frame bitmap covering at most 64 TiB, the frame number is
    far outside the bitmap and the bitmap access faults. *)
Theorem mm_put_faults list_fuel mm h a :
  (list_fuel ≠ O) → get_bits (ld (kmem h) (mm_ref_count mm)) 0 32 = 1 →
  ld (kmem h) (mm_allocs_head mm) = a → a ≠ NULL → mm_ref_count mm ≠ mm_allocs_head mm →
  mm_ref_count mm ≠ alloc_addr a → mm_ref_count mm ≠ alloc_page_count a →
  0 <= ld (kmem h) (alloc_addr a) < 2 ^ 47 → 0 < ld (kmem h) (alloc_page_count a) →
  pmm_size (kframes h) * 8 * PAGE_SIZE <= 2 ^ 46 →
  mm_put list_fuel mm h = Fault.
Proof.
  intros Hf Href Hhead Ha H1 H2 H3 Haddr Hcnt Hsz. unfold mm_put. rewrite Href. change (u32 (1 - 1)) with 0.
  cbn [Z.eqb]. destruct list_fuel as [|fuel]; [done|]. cbn [put_loop kmem with_mem kframes].
  rewrite (ld_st_ne _ (mm_ref_count mm)), Hhead, (proj2 (Z.eqb_neq a NULL)) by done.
  rewrite (ld_st_ne _ _ (alloc_addr a)), (ld_st_ne _ _ (alloc_page_count a)) by done. unfold free_pages, pmm_free_contiguous_frames. rewrite IS_PAGE_ALIGNED_guard.
  set (p := ld (kmem h) (alloc_addr a)) in *. set (n := ld (kmem h) (alloc_page_count a)) in *.
  assert (VIRT_TO_PHYS p = p + 0x778000000000) as ->.
  { unfold VIRT_TO_PHYS, u64, ID_VIRT_REGION_START. zlia. }
  destruct (Z.to_nat n) as [|k] eqn:En; [lia|]. cbn [for_range].
  assert (clear_bit ((p + 0x778000000000) / PAGE_SIZE) (bitmap (kframes h)) = Fault) as ->; [|done].
  unfold clear_bit, arr_get. rewrite (proj2 (Z.ltb_ge _ _)); [by rewrite andb_false_r|].
  unfold pmm_size, PAGE_SIZE in *. rewrite Z.div_div by lia. zlia.
Qed.

Definition demo_mm_heap : kheap :=
  Kheap {[ 0x10 := 0x100; 0x18 := 1; 0x100 := 0x7FFFFFFFB000; 0x108 := 4; 0x110 := 0 ]} demo_pmm (replicate 6 0) 0.

Lemma mm_put_faults_witness : mm_put 5 0 demo_mm_heap = Fault.
Proof. apply (mm_put_faults 5 0 demo_mm_heap 0x100); try (by vm_compute). Defined.
