(* ===== verification/KString.v ===== *)
(** * The kernel's string functions (klibc/string.c, usr/libc/src/string.c)

    The two files are the same code.  Bytes live in a memory [gmap Z Z] whose
    domain is what may be accessed: reading or writing any other address is a
    [Fault], so a theorem that a call returns also says it stays in bounds.
    Loops that run to a terminator take fuel; the theorems hold for every fuel
    above the length of the string. *)

From S2P Require Import Prelude Types.

Definition bload (m : gmap Z Z) (a : Z) : res Z := match m !! a with Some x => Ok x | None => Fault end.
Definition bstore (m : gmap Z Z) (a v : Z) : res (gmap Z Z) :=
  match m !! a with Some _ => Ok (<[a := v]> m) | None => Fault end.

(** ** Operations *)

Definition memset (s c n : Z) (m : gmap Z Z) : res (Z * gmap Z Z) :=
  m ← for_range (Z.to_nat n) 0 (λ i m, bstore m (s + i) (u8 c)) m;
  Ok (s, m).

Definition memcpy (dest src count : Z) (m : gmap Z Z) : res (Z * gmap Z Z) :=
  m ← for_range (Z.to_nat count) 0 (λ i m, x ← bload m (src + i); bstore m (dest + i) x) m;
  Ok (dest, m).

Fixpoint memcmp (n : nat) (s1 s2 : Z) (m : gmap Z Z) : res Z :=
  match n with
  | O => Ok 0
  | S n' =>
      x ← bload m s1;
      y ← bload m s2;
      if negb (x =? y) then Ok (x - y) else memcmp n' (s1 + 1) (s2 + 1) m
  end.

Fixpoint strlen_loop (fuel : nat) (p s : Z) (m : gmap Z Z) : res Z :=
  match fuel with
  | O => OutOfFuel
  | S fuel' => x ← bload m p; if x =? 0 then Ok (p - s) else strlen_loop fuel' (p + 1) s m
  end.
Definition strlen (fuel : nat) (s : Z) (m : gmap Z Z) : res Z := strlen_loop fuel s s m.

Fixpoint strcpy (fuel : nat) (dest src : Z) (m : gmap Z Z) : res (gmap Z Z) :=
  match fuel with
  | O => OutOfFuel
  | S fuel' =>
      x ← bload m src;
      m ← bstore m dest x;
      if x =? 0 then Ok m else strcpy fuel' (dest + 1) (src + 1) m
  end.

(** The padding loop and the copying loop of [strncpy]. *)
Fixpoint strncpy_pad (n : nat) (dest : Z) (m : gmap Z Z) : res (gmap Z Z) :=
  match n with O => Ok m | S n' => m ← bstore m dest 0; strncpy_pad n' (dest + 1) m end.
Fixpoint strncpy (n : nat) (dest src : Z) (m : gmap Z Z) : res (gmap Z Z) :=
  match n with
  | O => Ok m
  | S n' =>
      x ← bload m src;
      if x =? 0 then strncpy_pad n dest m else
      m ← bstore m dest x;
      strncpy n' (dest + 1) (src + 1) m
  end.

Fixpoint strcmp (fuel : nat) (s1 s2 : Z) (m : gmap Z Z) : res Z :=
  match fuel with
  | O => OutOfFuel
  | S fuel' =>
      x ← bload m s1;
      if x =? 0 then y ← bload m s2; Ok (x - y) else
      y ← bload m s2;
      if x =? y then strcmp fuel' (s1 + 1) (s2 + 1) m else Ok (x - y)
  end.

Fixpoint strncmp (n : nat) (s1 s2 : Z) (m : gmap Z Z) : res Z :=
  match n with
  | O => Ok 0
  | S n' =>
      x ← bload m s1;
      y ← bload m s2;
      if negb (x =? y) then Ok (x - y) else
      if x =? 0 then Ok 0 else strncmp n' (s1 + 1) (s2 + 1) m
  end.

(** The copying loop of [strncat], at the terminator of [dest]. *)
Fixpoint strncat_copy (n : nat) (dest src : Z) (m : gmap Z Z) : res (gmap Z Z) :=
  match n with
  | O => bstore m dest 0
  | S n' =>
      x ← bload m src;
      if x =? 0 then bstore m dest 0 else
      m ← bstore m dest x;
      strncat_copy n' (dest + 1) (src + 1) m
  end.
Definition strncat (fuel : nat) (dest src : Z) (n : nat) (m : gmap Z Z) : res (gmap Z Z) :=
  len ← strlen fuel dest m;
  strncat_copy n (dest + len) src m.

(** ** Strings in memory *)

(** The bytes [l] are at [p]. *)
Fixpoint bytes_at (m : gmap Z Z) (p : Z) (l : list Z) : Prop :=
  match l with [] => True | x :: l' => m !! p = Some x ∧ bytes_at m (p + 1) l' end.

(** A C string with contents [s]. *)
Definition cstr (m : gmap Z Z) (p : Z) (s : list Z) : Prop := bytes_at m p (s ++ [0]) ∧ Forall (λ x, 0 < x < 256) s.

(** [n] writable bytes at [p]. *)
Definition buffer (m : gmap Z Z) (p : Z) (n : nat) : Prop := ∃ l, length l = n ∧ bytes_at m p l.

(** [m'] differs from [m] at most in the [n] bytes at [p]. *)
Definition only_changes (p : Z) (n : nat) (m m' : gmap Z Z) : Prop :=
  ∀ a, ¬ (p <= a < p + Z.of_nat n) → m' !! a = m !! a.

Lemma bload_Some m a x : m !! a = Some x → bload m a = Ok x.
Proof. unfold bload. by intros ->. Qed.
Lemma bstore_Some m a x v : m !! a = Some x → bstore m a v = Ok (<[a := v]> m).
Proof. unfold bstore. by intros ->. Qed.

Lemma cstr_nil m p : cstr m p [] ↔ m !! p = Some 0.
Proof. unfold cstr. cbn. naive_solver. Qed.
Lemma cstr_cons m p x s : cstr m p (x :: s) ↔ 0 < x < 256 ∧ m !! p = Some x ∧ cstr m (p + 1) s.
Proof. unfold cstr. cbn. rewrite Forall_cons. naive_solver. Qed.

Lemma bytes_at_agree m m' p l : bytes_at m p l →
  (∀ a, p <= a < p + Z.of_nat (length l) → m' !! a = m !! a) → bytes_at m' p l.
Proof.
  revert p. induction l as [|x l IH]; intros p; [done|]. cbn. intros [Hx Hl] Hag. split; [rewrite Hag; [done|lia]|].
  apply IH; [done|]. intros a Ha. apply Hag. lia.
Qed.

Lemma cstr_agree m m' p s : cstr m p s → (∀ a, p <= a <= p + Z.of_nat (length s) → m' !! a = m !! a) → cstr m' p s.
Proof.
  intros [Hb Hf] Hag. split; [|done]. eapply bytes_at_agree; [done|]. intros a. rewrite length_app. cbn. intros.
  apply Hag. lia.
Qed.

Lemma buffer_S m p n : buffer m p (S n) ↔ is_Some (m !! p) ∧ buffer m (p + 1) n.
Proof.
  split.
  - intros ([|x l] & [= Hl] & Hb). cbn in Hb. destruct Hb as [Hx Hb]. split; [by exists x|by exists l].
  - intros [[x Hx] (l & Hl & Hb)]. exists (x :: l). cbn. by rewrite Hl.
Qed.

Lemma buffer_insert m p n a v : buffer m p n → buffer (<[a := v]> m) p n.
Proof.
  revert p. induction n as [|n IH]; intros p Hb; [by exists []|]. apply buffer_S in Hb as [[x Hx] Hb].
  apply buffer_S. split; [|by apply IH]. rewrite lookup_insert. case_decide; by eexists.
Qed.

(** ** Length and comparison *)

Lemma strlen_loop_spec fuel m p s0 s : cstr m p s → (length s < fuel)%nat →
  strlen_loop fuel p s0 m = Ok (p - s0 + Z.of_nat (length s)).
Proof.
  revert p s. induction fuel as [|fuel IH]; intros p s Hs Hf; [lia|]. cbn [strlen_loop]. destruct s as [|x s].
  - apply cstr_nil in Hs. rewrite (bload_Some _ _ _ Hs). cbn. f_equal. lia.
  - apply cstr_cons in Hs as (Hx & Hp & Hs). rewrite (bload_Some _ _ _ Hp). cbn [mbind res_bind].
    rewrite (proj2 (Z.eqb_neq x 0)) by lia. cbn [length] in *. rewrite (IH (p + 1) s) by (done || lia). f_equal. lia.
Qed.

Lemma strlen_spec fuel m p s : cstr m p s → (length s < fuel)%nat → strlen fuel p m = Ok (Z.of_nat (length s)).
Proof. intros. unfold strlen. rewrite (strlen_loop_spec _ _ _ _ s) by done. f_equal. lia. Qed.

(** The difference at the first position where two strings differ; the end of
    a string counts as the byte 0. *)
Fixpoint first_diff (s1 s2 : list Z) : Z :=
  match s1, s2 with
  | [], [] => 0
  | [], y :: _ => - y
  | x :: _, [] => x
  | x :: s1', y :: s2' => if x =? y then first_diff s1' s2' else x - y
  end.

Lemma first_diff_0 s1 s2 : Forall (λ x, 0 < x < 256) s1 → Forall (λ x, 0 < x < 256) s2 →
  first_diff s1 s2 = 0 ↔ s1 = s2.
Proof.
  revert s2. induction s1 as [|x s1 IH]; intros [|y s2] H1 H2; cbn.
  - done.
  - apply Forall_cons in H2 as [Hy _]. split; [lia|done].
  - apply Forall_cons in H1 as [Hx _]. split; [lia|done].
  - apply Forall_cons in H1 as [Hx H1], H2 as [Hy H2]. destruct (Z.eqb_spec x y) as [->|]; [rewrite IH by done; naive_solver|]. split; [lia|congruence].
Qed.

Lemma strcmp_spec fuel m p q s1 s2 : cstr m p s1 → cstr m q s2 → (length s1 < fuel)%nat →
  strcmp fuel p q m = Ok (first_diff s1 s2).
Proof.
  revert p q s1 s2. induction fuel as [|fuel IH]; intros p q s1 s2 H1 H2 Hf; [lia|]. cbn [strcmp].
  destruct s1 as [|x s1], s2 as [|y s2]; rewrite ?cstr_nil, ?cstr_cons in H1; rewrite ?cstr_nil, ?cstr_cons in H2; cbn [length first_diff] in *.
  - by rewrite (bload_Some _ _ _ H1), (bload_Some _ _ _ H2).
  - destruct H2 as (Hy & Hq & _). rewrite (bload_Some _ _ _ H1). cbn. by rewrite (bload_Some _ _ _ Hq).
  - destruct H1 as (Hx & Hp & _). rewrite (bload_Some _ _ _ Hp), (bload_Some _ _ _ H2). cbn [mbind res_bind].
    rewrite (proj2 (Z.eqb_neq x 0)) by lia. f_equal. lia.
  - destruct H1 as (Hx & Hp & H1), H2 as (Hy & Hq & H2).
    rewrite (bload_Some _ _ _ Hp), (bload_Some _ _ _ Hq). cbn [mbind res_bind].
    rewrite (proj2 (Z.eqb_neq x 0)) by lia. destruct (Z.eqb_spec x y); [|done]. apply IH; [done..|lia].
Qed.

Lemma strncmp_spec n m p q s1 s2 : cstr m p s1 → cstr m q s2 →
  strncmp n p q m = Ok (first_diff (take n s1) (take n s2)).
Proof.
  revert p q s1 s2. induction n as [|n IH]; intros p q s1 s2 H1 H2; [by destruct s1, s2|]. cbn [strncmp].
  destruct s1 as [|x s1], s2 as [|y s2]; rewrite ?cstr_nil, ?cstr_cons in H1; rewrite ?cstr_nil, ?cstr_cons in H2; cbn [take first_diff] in *.
  - by rewrite (bload_Some _ _ _ H1), (bload_Some _ _ _ H2).
  - destruct H2 as (Hy & Hq & _). rewrite (bload_Some _ _ _ H1), (bload_Some _ _ _ Hq). cbn [mbind res_bind].
    rewrite (proj2 (Z.eqb_neq 0 y)) by lia. done.
  - destruct H1 as (Hx & Hp & _). rewrite (bload_Some _ _ _ Hp), (bload_Some _ _ _ H2). cbn [mbind res_bind].
    rewrite (proj2 (Z.eqb_neq x 0)) by lia. cbn. by rewrite Z.sub_0_r.
  - destruct H1 as (Hx & Hp & H1), H2 as (Hy & Hq & H2).
    rewrite (bload_Some _ _ _ Hp), (bload_Some _ _ _ Hq). cbn [mbind res_bind].
    destruct (Z.eqb_spec x y); [|done]. cbn [negb]. rewrite (proj2 (Z.eqb_neq x 0)) by lia. by apply IH.
Qed.

(** String comparison.  On terminated strings, [strcmp] and [strncmp]
    stay within the strings and return the difference of the first bytes that
    differ (within the first [n] for [strncmp]); the result is 0 exactly when
    the compared strings are equal. *)
Theorem string_compare_correct fuel n m p q s1 s2 : cstr m p s1 → cstr m q s2 → (length s1 < fuel)%nat →
  strcmp fuel p q m = Ok (first_diff s1 s2) ∧ (first_diff s1 s2 = 0 ↔ s1 = s2) ∧
  strncmp n p q m = Ok (first_diff (take n s1) (take n s2)) ∧
  (first_diff (take n s1) (take n s2) = 0 ↔ take n s1 = take n s2).
Proof.
  intros H1 H2 Hf. split_and!.
  - by apply strcmp_spec.
  - apply first_diff_0; [apply H1|apply H2].
  - by apply strncmp_spec.
  - apply first_diff_0; apply Forall_take; [apply H1|apply H2].
Qed.

(** "ab" at 100 and "ac" at 200, and a buffer of 6 bytes at 300. *)
Definition demo_bytes : gmap Z Z :=
  {[ 100 := 97; 101 := 98; 102 := 0; 200 := 97; 201 := 99; 202 := 0;
     300 := 1; 301 := 1; 302 := 1; 303 := 1; 304 := 1; 305 := 1 ]}.

Lemma demo_cstr : cstr demo_bytes 100 [97; 98] ∧ cstr demo_bytes 200 [97; 99].
Proof. repeat split; repeat constructor; lia. Qed.

Lemma string_compare_correct_witness :
  strcmp 10 100 200 demo_bytes = Ok (-1) ∧ strncmp 1 100 200 demo_bytes = Ok 0.
Proof.
  destruct (string_compare_correct 10 1 demo_bytes 100 200 [97; 98] [97; 99]) as (H1 & _ & H2 & _);
    [apply demo_cstr..|simpl; lia|]. split; [exact H1|exact H2].
Defined.

(** ** Copying *)

Lemma strncpy_pad_spec n dest m : buffer m dest n →
  returns (strncpy_pad n dest m) (λ m', bytes_at m' dest (replicate n 0) ∧ only_changes dest n m m').
Proof.
  revert dest m. induction n as [|n IH]; intros dest m Hb; cbn [strncpy_pad]; [done|].
  apply buffer_S in Hb as [[x Hx] Hb]. rewrite (bstore_Some _ _ _ _ Hx), bind_Ok.
  eapply returns_mono; [by apply IH, buffer_insert|]. intros m' [Hz Ho]. split.
  - cbn. split; [|done]. rewrite Ho by lia. apply lookup_insert_eq.
  - intros a Ha. rewrite Ho by lia. rewrite lookup_insert_ne by lia. done.
Qed.

Lemma strncpy_spec n dest src m s : buffer m dest n → cstr m src s →
  (∀ a, dest <= a < dest + Z.of_nat n → ¬ (src <= a <= src + Z.of_nat (length s))) →
  returns (strncpy n dest src m) (λ m',
    bytes_at m' dest (take n s ++ replicate (n - length s) 0) ∧ only_changes dest n m m').
Proof.
  revert dest src m s. induction n as [|n IH]; intros dest src m s Hb Hs Hd.
  { cbn. rewrite take_0. done. }
  destruct s as [|x s].
  - cbn [strncpy]. apply cstr_nil in Hs. rewrite (bload_Some _ _ _ Hs), bind_Ok.
    cbn [Z.eqb take length app]. rewrite Nat.sub_0_r. by apply strncpy_pad_spec.
  - apply cstr_cons in Hs as (Hx & Hp & Hs). cbn [strncpy]. rewrite (bload_Some _ _ _ Hp), bind_Ok.
    rewrite (proj2 (Z.eqb_neq x 0)) by lia. apply buffer_S in Hb as [[y Hy] Hb].
    rewrite (bstore_Some _ _ _ _ Hy), bind_Ok. cbn [length] in Hd.
    eapply returns_mono; [apply (IH _ _ _ s)|].
    + by apply buffer_insert.
    + eapply cstr_agree; [done|]. intros a Ha. apply lookup_insert_ne. intros ->. apply (Hd a); lia.
    + intros a Ha Ha'. apply (Hd a); lia.
    + intros m' [Hby Ho]. split.
      * cbn. split; [|done]. rewrite Ho by lia. apply lookup_insert_eq.
      * intros a Ha. rewrite Ho by lia. rewrite lookup_insert_ne by lia. done.
Qed.

Lemma strncat_copy_spec n dest src m s : buffer m dest (S (n `min` length s)) → cstr m src s →
  (∀ a, dest <= a <= dest + Z.of_nat (n `min` length s) → ¬ (src <= a <= src + Z.of_nat (length s))) →
  returns (strncat_copy n dest src m) (λ m',
    cstr m' dest (take n s) ∧ only_changes dest (S (n `min` length s)) m m').
Proof.
  revert dest src m s. induction n as [|n IH]; intros dest src m s Hb Hs Hd.
  { cbn [strncat_copy Nat.min] in *. apply buffer_S in Hb as [[y Hy] _]. rewrite (bstore_Some _ _ _ _ Hy).
    rewrite take_0. split; [apply cstr_nil, lookup_insert_eq|].
    intros a Ha. apply lookup_insert_ne. lia. }
  destruct s as [|x s].
  - cbn [strncat_copy]. apply cstr_nil in Hs. rewrite (bload_Some _ _ _ Hs), bind_Ok. cbn [Z.eqb].
    apply buffer_S in Hb as [[y Hy] _]. rewrite (bstore_Some _ _ _ _ Hy). cbn [take].
    split; [apply cstr_nil, lookup_insert_eq|]. intros a Ha. apply lookup_insert_ne. cbn in Ha. lia.
  - apply cstr_cons in Hs as (Hx & Hp & Hs). cbn [strncat_copy length Nat.min] in *.
    rewrite (bload_Some _ _ _ Hp), bind_Ok, (proj2 (Z.eqb_neq x 0)) by lia. apply buffer_S in Hb as [[y Hy] Hb].
    rewrite (bstore_Some _ _ _ _ Hy), bind_Ok.
    eapply returns_mono; [apply (IH _ _ _ s)|].
    + by apply buffer_insert.
    + eapply cstr_agree; [done|]. intros a Ha. apply lookup_insert_ne. intros ->. apply (Hd a); lia.
    + intros a Ha Ha'. apply (Hd a); lia.
    + intros m' [Hc Ho]. split.
      * cbn [take]. apply cstr_cons. split_and!; [lia..| |done]. rewrite Ho by lia. apply lookup_insert_eq.
      * intros a Ha. rewrite Ho by lia. rewrite lookup_insert_ne by lia. done.
Qed.

(** [strncat] appends at most [n] bytes and terminates the result, given
    room for it after the destination string; nothing else is written. *)
Theorem strncat_correct fuel n dest src m d s : cstr m dest d → cstr m src s → (length d < fuel)%nat →
  buffer m (dest + Z.of_nat (length d)) (S (n `min` length s)) →
  (∀ a, dest + Z.of_nat (length d) <= a <= dest + Z.of_nat (length d) + Z.of_nat (n `min` length s) →
     ¬ (src <= a <= src + Z.of_nat (length s))) →
  returns (strncat fuel dest src n m) (λ m',
    cstr m' dest (d ++ take n s) ∧
    only_changes (dest + Z.of_nat (length d)) (S (n `min` length s)) m m').
Proof.
  intros Hd Hs Hf Hb Hdis. unfold strncat. rewrite (strlen_spec fuel m dest d), bind_Ok by done.
  eapply returns_mono; [by apply (strncat_copy_spec n _ _ _ s)|]. intros m' [Hc Ho]. split; [|done].
  destruct Hd as [Hb0 Hd0], Hc as [Hb1 Hd1]. split; [|by apply Forall_app].
  clear -Hb0 Hb1 Ho. revert dest Hb0 Hb1 Ho. induction d as [|x d IH]; intros dest Hb0 Hb1 Ho.
  - cbn [app length] in *. by rewrite Z.add_0_r in Hb1.
  - cbn [app length bytes_at] in *. destruct Hb0 as [Hx Hb0]. split; [rewrite Ho; [done|lia]|].
    apply IH; [done| |].
    + by replace (dest + 1 + Z.of_nat (length d)) with (dest + Z.of_nat (S (length d))) by lia.
    + by replace (dest + 1 + Z.of_nat (length d)) with (dest + Z.of_nat (S (length d))) by lia.
Qed.

(** "ab" with room at 300, to which the string at 200 is appended. *)
Definition demo_cat : gmap Z Z := <[302 := 0]> (<[301 := 98]> (<[300 := 97]> demo_bytes)).

Lemma strncat_correct_witness :
  returns (strncat 10 300 200 5 demo_cat) (λ m',
    cstr m' 300 ([97; 98] ++ take 5 [97; 99]) ∧ only_changes (300 + 2) 3 demo_cat m').
Proof.
  apply (strncat_correct 10 5 300 200 demo_cat [97; 98] [97; 99]).
  - repeat split; repeat constructor; lia.
  - repeat split; repeat constructor; lia.
  - simpl. lia.
  - by exists [0; 1; 1].
  - intros a Ha. simpl in *. lia.
Defined.
