(* ===== verification/ListHead.v ===== *)
(** * Intrusive circular lists (include/list.h)

    A [list_head] is two words, [next] at its address and [prev] 8 bytes above.
    The operations work on word memory exactly as the macros and inline
    functions do; [dll m h l] says that the circular list anchored at [h] holds
    the nodes [l] in order, and each operation is shown to implement the
    corresponding operation on [l]. *)

From S2P Require Import Prelude Types.

Definition nx (n : Z) : Z := n.
Definition pv (n : Z) : Z := u64 (n + 8).

Definition INIT_LIST_HEAD (l : Z) (m : gmap Z Z) : gmap Z Z :=
  let m := st m (nx l) l in
  st m (pv l) l.

Definition list_add (new head : Z) (m : gmap Z Z) : gmap Z Z :=
  let m := st m (pv new) head in
  let m := st m (nx new) (ld m (nx head)) in
  let m := st m (pv (ld m (nx head))) new in
  st m (nx head) new.

Definition list_add_tail (new head : Z) (m : gmap Z Z) : gmap Z Z :=
  let m := st m (nx new) head in
  let m := st m (pv new) (ld m (pv head)) in
  let m := st m (nx (ld m (pv head))) new in
  st m (pv head) new.

Definition list_del (entry : Z) (m : gmap Z Z) : gmap Z Z :=
  let m := st m (nx (ld m (pv entry))) (ld m (nx entry)) in
  st m (pv (ld m (nx entry))) (ld m (pv entry)).

Definition list_empty (head : Z) (m : gmap Z Z) : bool := ld m (nx head) =? head.

(** ** The representation *)

(** From [a], following [next], the nodes [l] and then [b]; every [prev]
    points back. *)
Fixpoint seg (m : gmap Z Z) (a : Z) (l : list Z) (b : Z) : Prop :=
  match l with
  | [] => ld m (nx a) = b ∧ ld m (pv b) = a
  | x :: l' => ld m (nx a) = x ∧ ld m (pv x) = a ∧ seg m x l' b
  end.

(** The nodes [l] are distinct and so are their words. *)
Definition nodes_ok (l : list Z) : Prop :=
  NoDup l ∧ ∀ a b, a ∈ l → b ∈ l → nx a ≠ pv b ∧ (pv a = pv b → a = b).

Definition dll (m : gmap Z Z) (h : Z) (l : list Z) : Prop := seg m h l h ∧ nodes_ok (h :: l).

Lemma seg_app m a l1 x l2 b : seg m a (l1 ++ x :: l2) b ↔ seg m a l1 x ∧ seg m x l2 b.
Proof. revert a. induction l1 as [|y l1 IH]; intros a; cbn [app seg]; [|rewrite IH]; tauto. Qed.

Lemma seg_agree m m' a l b : seg m a l b →
  (∀ n, n = a ∨ n ∈ l → ld m' (nx n) = ld m (nx n)) → (∀ n, n ∈ l ∨ n = b → ld m' (pv n) = ld m (pv n)) → seg m' a l b.
Proof.
  revert a. induction l as [|x l IH]; intros a; cbn [seg].
  - intros [Hn Hp] Hnx Hpv. rewrite Hnx, Hpv by auto. done.
  - intros (Hn & Hp & Hs) Hnx Hpv. rewrite Hnx by auto. rewrite Hpv by (left; by left). split_and!; [done..|].
    apply IH; [done|intros n [->|Hn']; apply Hnx; right; [by left|by right]|].
    intros n [Hn'| ->]; apply Hpv; [left; by right|by right].
Qed.

(** The first and the last node of a segment. *)
Lemma seg_prev m a l b : seg m a l b → ld m (pv b) = default a (last l).
Proof.
  revert a. induction l as [|x l IH]; intros a; cbn [seg]; [by intros [_ ?]|].
  intros (_ & _ & Hs). rewrite (IH _ Hs), last_cons. by destruct (last l).
Qed.

Lemma last_in (h : Z) l : default h (last l) ∈ h :: l.
Proof.
  destruct (last l) as [x|] eqn:E; cbn; [|by left]. right. by apply last_Some_elem_of.
Qed.

Lemma nodes_ok_sublist l l' : l `sublist_of` l' → nodes_ok l' → nodes_ok l.
Proof.
  intros Hsub [Hnd Hw]. split; [by eapply sublist_NoDup|].
  assert (∀ a, a ∈ l → a ∈ l') as Hin by (intros a Ha; by eapply elem_of_submseteq, sublist_submseteq).
  intros a b Ha Hb. apply Hw; auto.
Qed.

Lemma nodes_ok_perm l l' : l ≡ₚ l' → nodes_ok l → nodes_ok l'.
Proof. intros Hp [Hnd Hw]. split; [by rewrite <- Hp|]. intros a b. rewrite <- Hp. apply Hw. Qed.

Lemma nodes_ok_Forall l : nodes_ok l ↔
  NoDup l ∧ Forall (λ a, Forall (λ b, nx a ≠ pv b ∧ (pv a = pv b → a = b)) l) l.
Proof.
  unfold nodes_ok. rewrite Forall_forall. setoid_rewrite Forall_forall.
  split; intros [Hnd Hw]; (split; [done|]); intros a; [intros Ha b|intros b Ha]; by apply Hw.
Qed.

#[export] Instance nodes_ok_dec l : Decision (nodes_ok l).
Proof.
  refine (cast_if (decide (NoDup l ∧ Forall (λ a, Forall (λ b, nx a ≠ pv b ∧ (pv a = pv b → a = b)) l) l)));
    by rewrite nodes_ok_Forall.
Defined.

Lemma dll_init m h : nx h ≠ pv h → dll (INIT_LIST_HEAD h m) h [].
Proof.
  intros Hne. unfold INIT_LIST_HEAD. split.
  - cbn [seg]. rewrite ld_st_eq, ld_st_ne, ld_st_eq by done. done.
  - split; [apply NoDup_singleton|]. by intros a b ->%list_elem_of_singleton ->%list_elem_of_singleton.
Qed.

Lemma dll_empty m h l : dll m h l → list_empty h m = bool_decide (l = []).
Proof.
  intros [Hs [Hnd _]]. unfold list_empty. destruct l as [|x l]; cbn [seg] in Hs.
  - destruct Hs as [-> _]. by rewrite Z.eqb_refl.
  - destruct Hs as (-> & _). rewrite bool_decide_eq_false_2 by done. apply Z.eqb_neq. intros ->.
    apply NoDup_cons in Hnd as [Hnd _]. apply Hnd. by left.
Qed.

(** ** The operations *)

(** [ldst] evaluates a read of updated memory, case by case. *)
Ltac ldst := repeat match goal with
  | |- context [ld (st ?m ?a ?v) ?a] => rewrite (ld_st_eq m a v)
  | |- context [ld (st ?m ?a ?v) ?b] => rewrite (ld_st m a b v); destruct (decide (a = b))
  end.

(** What [list_add_tail] leaves in the words of the old nodes and of the new
    one. *)
Lemma list_add_tail_reads m h L new : h ∈ L → nodes_ok (new :: L) → ld m (pv h) ∈ L →
  let p := ld m (pv h) in let m' := list_add_tail new h m in
  ld m' (nx new) = h ∧ ld m' (pv new) = p ∧
  (∀ n, n ∈ L → ld m' (nx n) = if decide (n = p) then new else ld m (nx n)) ∧
  (∀ n, n ∈ L → ld m' (pv n) = if decide (n = h) then new else ld m (pv n)).
Proof.
  intros Hh [[Hnew _]%NoDup_cons Hw] Hp p m'.
  assert (∀ n, n ∈ L → n ∈ new :: L) as Hin by (intros; by right).
  assert (new ∈ new :: L) as Hnn by by left.
  assert (∀ n, n ∈ L → n ≠ new) as Hne by (by intros n ? ->).
  assert (m' = st (st (st (st m (nx new) h) (pv new) p) (nx p) new) (pv h) new) as ->.
  { unfold m', list_add_tail. cbv zeta. rewrite (ld_st_ne _ (nx new) (pv h)) by (apply Hw; auto). fold p.
    rewrite (ld_st_ne _ (pv new) (pv h)), (ld_st_ne _ (nx new) (pv h)); [done|apply Hw; auto|].
    intros Heq. apply Hw in Heq; auto. by apply (Hne h). }
  split_and!.
  - rewrite (ld_st_ne _ (pv h)), (ld_st_ne _ (nx p)), (ld_st_ne _ (pv new)), ld_st_eq;
      [done|apply not_eq_sym, Hw; auto|by apply Hne|apply not_eq_sym, Hw; auto].
  - rewrite (ld_st_ne _ (pv h)), (ld_st_ne _ (nx p)), ld_st_eq; [done|apply Hw; auto|].
    intros Heq. apply Hw in Heq; auto. by apply (Hne h).
  - intros n Hn. rewrite (ld_st_ne _ (pv h)) by (apply not_eq_sym, Hw; auto). rewrite ld_st.
    case_decide as Hpn; [by rewrite decide_True|]. rewrite decide_False by congruence.
    rewrite !ld_st_ne; [done|by apply not_eq_sym, Hne|apply not_eq_sym, Hw; auto].
  - intros n Hn. rewrite ld_st. case_decide as Hhn.
    { apply Hw in Hhn; auto. by rewrite decide_True. }
    rewrite decide_False by congruence. rewrite !ld_st_ne; [done|apply Hw; auto| |apply Hw; auto].
    intros Heq. apply Hw in Heq; auto. by apply (Hne n).
Qed.

Lemma list_add_tail_spec m h l new : dll m h l → nodes_ok (new :: h :: l) → dll (list_add_tail new h m) h (l ++ [new]).
Proof.
  intros [Hs Hok] Hok'. pose proof (seg_prev _ _ _ _ Hs) as Hpv.
  destruct (list_add_tail_reads m h (h :: l) new) as (H1 & H2 & H3 & H4); [by left|done|rewrite Hpv; apply last_in|].
  set (m' := list_add_tail new h m) in *. split.
  2:{ eapply nodes_ok_perm; [|done]. apply (Permutation_cons_append (h :: l)). }
  apply seg_app. rewrite Hpv in *. split.
  - destruct l as [|x l _] using rev_ind; cbn [seg].
    + cbn in *. rewrite H3, decide_True by (done || by left). done.
    + rewrite last_snoc in *. change (default h (Some x)) with x in *. apply seg_app. apply seg_app in Hs as [Hs1 [Hs2 _]].
      destruct Hok as [[Hh Hnd]%NoDup_cons _]. apply NoDup_app in Hnd as (_ & Hx & _).
      split; [|cbn [seg]; rewrite H3, decide_True; [done|done|right; apply elem_of_app; right; by left]].
      eapply seg_agree; [done|..].
      * intros n Hn. rewrite H3, decide_False; [done| |].
        -- intros ->. destruct Hn as [->|Hn]; [apply Hh, elem_of_app; right; by left|].
           apply (Hx x); [done|by left].
        -- destruct Hn as [->|Hn]; [by left|right]. apply elem_of_app. by left.
      * intros n Hn. assert (n ∈ l ++ [x]) as Hnl.
        { apply elem_of_app. destruct Hn as [Hn| ->]; [by left|right; by left]. }
        rewrite H4, decide_False; [done| |by right]. by intros ->.
  - cbn [seg]. split; [done|]. rewrite H4, decide_True by (done || by left). done.
Qed.

Lemma last_seg m a l b : seg m a l b → ld m (nx (default a (last l))) = b.
Proof.
  revert a. induction l as [|x l IH]; intros a; cbn [seg]; [by intros [? _]|].
  intros (_ & _ & Hs). rewrite last_cons. specialize (IH _ Hs). by destruct (last l).
Qed.

Lemma head_seg m a l b : seg m a l b → ld m (nx a) = default b (head l) ∧ ld m (pv (default b (head l))) = a.
Proof. destruct l; cbn; tauto. Qed.

Lemma head_in (h : Z) l : default h (head l) ∈ h :: l.
Proof. destruct l; cbn; [by left|right; by left]. Qed.

(** What [list_del] leaves: exactly the two neighbours' words change; the
    node's own words keep their stale values. *)
Lemma list_del_reads m h l1 x l2 : dll m h (l1 ++ x :: l2) →
  let p := default h (last l1) in let q := default h (head l2) in let m' := list_del x m in
  nodes_ok (h :: l1 ++ l2) ∧
  (∀ n, n ∈ h :: l1 ++ l2 → ld m' (nx n) = if decide (n = p) then q else ld m (nx n)) ∧
  (∀ n, n ∈ h :: l1 ++ l2 → ld m' (pv n) = if decide (n = q) then p else ld m (pv n)).
Proof.
  intros [Hs Hok] p q. apply seg_app in Hs as [Hs1 Hs2].
  assert (ld m (pv x) = p) as Hpx by by apply seg_prev.
  assert (ld m (nx x) = q) as Hqx by by apply head_seg in Hs2 as [? _].
  assert (nodes_ok (h :: l1 ++ l2)) as Hok2.
  { eapply nodes_ok_sublist; [|done]. apply sublist_skip, sublist_app; [done|]. by apply sublist_cons. }
  destruct Hok as [Hnd Hw].
  assert (∀ n, n ∈ h :: l1 ++ l2 → n ≠ x ∧ n ∈ h :: l1 ++ x :: l2) as Hin.
  { apply NoDup_cons in Hnd as [Hhn Hnd]. apply NoDup_app in Hnd as (_ & Hd & [Hx _]%NoDup_cons).
    intros n [->|[Hn|Hn]%elem_of_app]%elem_of_cons.
    - split; [intros ->; apply Hhn, elem_of_app; right; by left|by left].
    - split; [intros ->; apply (Hd x); [done|by left]|right; apply elem_of_app; by left].
    - split; [by intros ->|right; apply elem_of_app; right; by right]. }
  assert (x ∈ h :: l1 ++ x :: l2) as Hxin by (right; apply elem_of_app; right; by left).
  assert (p ∈ h :: l1 ++ l2 ∧ q ∈ h :: l1 ++ l2) as [Hp Hq].
  { pose proof (last_in h l1) as Hp. pose proof (head_in h l2) as Hq. fold p in Hp. fold q in Hq.
    rewrite elem_of_cons in Hp, Hq. rewrite !elem_of_cons, !elem_of_app. tauto. }
  assert (list_del x m = st (st m (nx p) q) (pv q) p) as ->.
  { unfold list_del. cbv zeta. rewrite Hpx, Hqx.
    assert (ld (st m (nx p) q) (nx x) = q) as -> by (rewrite ld_st_ne; [done|by apply Hin]).
    assert (ld (st m (nx p) q) (pv x) = p) as -> by (rewrite ld_st_ne; [done|apply Hw; [by apply Hin|done]]). done. }
  intros m'. split_and!; [done|intros n Hn; unfold m'..].
  - rewrite ld_st_ne by (apply not_eq_sym, Hw; by apply Hin).
    rewrite ld_st. unfold nx at 1 2. do 2 case_decide; congruence.
  - rewrite ld_st. case_decide as Hqn.
    + apply Hw in Hqn; [|by apply Hin..]. by rewrite decide_True.
    + rewrite decide_False by congruence. apply ld_st_ne, Hw; by apply Hin.
Qed.

(** The two halves around a removed node, read in the new memory. *)
Section join.
Context (m m' : gmap Z Z) (h : Z) (l1 l2 : list Z).
Let p := default h (last l1).
Let q := default h (head l2).
Context (Hnd : NoDup (h :: l1 ++ l2)).
Context (Hnx : ∀ n, n ∈ h :: l1 ++ l2 → ld m' (nx n) = if decide (n = p) then q else ld m (nx n)).
Context (Hpv : ∀ n, n ∈ h :: l1 ++ l2 → ld m' (pv n) = if decide (n = q) then p else ld m (pv n)).

Lemma join_left x : seg m h l1 x → seg m' h l1 q.
Proof.
  intros Hs1. destruct l1 as [|z k _] eqn:El using rev_ind.
  { cbn [seg]. rewrite Hnx, decide_True, Hpv, decide_True; try done; [apply head_in|by left]. }
  unfold p in *. rewrite last_snoc in *. change (default h (Some z)) with z in *.
  apply seg_app in Hs1 as [Hs1 _]. apply seg_app. rewrite <- app_assoc in *. cbn [app] in *.
  assert (z ∈ h :: k ++ z :: l2) as Hz by (right; apply elem_of_app; right; by left).
  assert (q ∈ h :: k ++ z :: l2) as Hq.
  { pose proof (head_in h l2) as Hq. fold q in Hq. rewrite elem_of_cons in Hq.
    rewrite !elem_of_cons, !elem_of_app, !elem_of_cons. tauto. }
  split; [|cbn [seg]; rewrite Hnx, decide_True, Hpv, decide_True by done; done].
  apply NoDup_cons in Hnd as [Hh Hnd']. apply NoDup_app in Hnd' as (_ & Hd & [Hz2 _]%NoDup_cons).
  eapply seg_agree; [done|..].
  - intros n Hn. rewrite Hnx, decide_False; [done| |].
    + intros ->. destruct Hn as [->|Hn]; [apply Hh, elem_of_app; right; by left|]. apply (Hd z); [done|by left].
    + destruct Hn as [->|Hn]; [by left|]. right. apply elem_of_app. by left.
  - intros n Hn. assert (n ∈ k ++ z :: l2) as Hnl.
    { apply elem_of_app. destruct Hn as [Hn| ->]; [by left|right; by left]. }
    rewrite Hpv, decide_False; [done| |by right]. intros ->.
    pose proof (head_in h l2) as [Hq0|Hq0]%elem_of_cons; fold q in Hq0.
    + by rewrite Hq0 in Hnl.
    + destruct Hn as [Hn|Hn]; [apply (Hd q); [done|by right]|congruence].
Qed.

Lemma join_right y t : l2 = y :: t → seg m y t h → seg m' y t h.
Proof.
  intros El Hs2. unfold q in *. rewrite El in *. cbn in Hpv.
  apply NoDup_cons in Hnd as [Hh Hnd']. apply NoDup_app in Hnd' as (_ & Hd & [Hy _]%NoDup_cons).
  eapply seg_agree; [done|..].
  - intros n Hn. assert (n ∈ y :: t) as Hnt by (destruct Hn as [->|Hn]; [by left|by right]).
    rewrite Hnx, decide_False; [done| |right; apply elem_of_app; by right]. intros ->.
    pose proof (last_in h l1) as [Hp0|Hp0]%elem_of_cons; fold p in Hp0.
    + rewrite Hp0 in Hnt. apply Hh, elem_of_app. by right.
    + by apply (Hd p).
  - intros n Hn. rewrite Hpv, decide_False; [done| |].
    + intros ->. destruct Hn as [Hn|Hn]; [done|]. apply Hh. rewrite <- Hn. apply elem_of_app. right. by left.
    + destruct Hn as [Hn| ->]; [right; apply elem_of_app; right; by right|by left].
Qed.
End join.

(** Unlinking a node removes exactly that node from the list. *)
Lemma list_del_spec m h l1 x l2 : dll m h (l1 ++ x :: l2) → dll (list_del x m) h (l1 ++ l2).
Proof.
  intros Hd. destruct (list_del_reads _ _ _ _ _ Hd) as ([Hnd Hw] & Hnx & Hpv).
  destruct Hd as [[Hs1 Hs2]%seg_app _]. split; [|done].
  pose proof (join_left _ _ _ _ _ Hnd Hnx Hpv _ Hs1) as Hl.
  destruct l2 as [|y t]; [by rewrite app_nil_r|]. apply seg_app. split; [done|].
  eapply join_right; [done..|]. by destruct Hs2 as (_ & _ & ?).
Qed.

(** Insertion at the front. *)
Lemma list_add_spec m h l new : dll m h l → nodes_ok (new :: h :: l) → dll (list_add new h m) h (new :: l).
Proof.
  intros [Hs [Hnd Hw]] Hok'. pose proof Hok' as [[Hnew _]%NoDup_cons Hw'].
  destruct (head_seg _ _ _ _ Hs) as [Hhd _]. set (q := default h (head l)) in *.
  assert (q ∈ h :: l) as Hq by apply head_in.
  assert (∀ n, n ∈ h :: l → n ∈ new :: h :: l ∧ n ≠ new) as Hin by (intros n Hn; split; [by right|by intros ->]).
  assert (new ∈ new :: h :: l) as Hnn by by left. assert (h ∈ h :: l) as Hh by by left.
  assert (list_add new h m = st (st (st (st m (pv new) h) (nx new) q) (pv q) new) (nx h) new) as ->.
  { unfold list_add. cbv zeta. rewrite (ld_st_ne _ (pv new) (nx h)) by (apply not_eq_sym, Hw'; [by apply Hin|done]).
    rewrite Hhd. rewrite (ld_st_ne _ (nx new) (nx h)) by (apply not_eq_sym; by apply Hin).
    rewrite (ld_st_ne _ (pv new) (nx h)) by (apply not_eq_sym, Hw'; [by apply Hin|done]). by rewrite Hhd. }
  set (m' := st (st (st (st m (pv new) h) (nx new) q) (pv q) new) (nx h) new).
  assert (∀ n, n ∈ h :: l → ld m' (nx n) = if decide (n = h) then new else ld m (nx n)) as Hnx.
  { intros n Hn. destruct (Hin n Hn) as [Hn1 Hn2]. unfold m'. rewrite ld_st.
    case_decide as Hhn; [by rewrite decide_True|]. rewrite decide_False by congruence.
    rewrite !ld_st_ne; [done|apply not_eq_sym, Hw'; done|by apply not_eq_sym|apply not_eq_sym, Hw'; [done|by apply Hin]]. }
  assert (∀ n, n ∈ h :: l → ld m' (pv n) = if decide (n = q) then new else ld m (pv n)) as Hpv.
  { intros n Hn. destruct (Hin n Hn) as [Hn1 Hn2]. unfold m'. rewrite ld_st_ne by (apply Hw; done). rewrite ld_st.
    case_decide as Hqn; [apply Hw in Hqn; [|done..]; by rewrite decide_True|]. rewrite decide_False by congruence.
    rewrite !ld_st_ne; [done|intros Heq; apply Hw' in Heq; auto|by apply Hw']. }
  assert (ld m' (nx new) = q ∧ ld m' (pv new) = h) as [Hn1 Hn2].
  { unfold m'. split.
    - rewrite (ld_st_ne _ (nx h)), (ld_st_ne _ (pv q)), ld_st_eq; [done|apply not_eq_sym, Hw'; [done|by apply Hin]|by apply Hin].
    - rewrite (ld_st_ne _ (nx h)), (ld_st_ne _ (pv q)), (ld_st_ne _ (nx new)), ld_st_eq; [done|by apply Hw'| |].
      + intros Heq. apply Hw' in Heq; [by apply (Hin q)|by apply Hin|done].
      + apply Hw'; [by apply Hin|done]. }
  split; [|eapply nodes_ok_perm; [apply Permutation_swap|done]]. cbn [seg].
  split; [by rewrite Hnx, decide_True|]. split; [done|].
  apply NoDup_cons in Hnd as [Hhl Hnd]. destruct l as [|y t]; cbn [seg].
  - split; [done|]. cbn in q. by rewrite Hpv, decide_True.
  - cbn in q. cbn [seg] in Hs. destruct Hs as (_ & _ & Hs). apply NoDup_cons in Hnd as [Hyt _].
    split; [done|]. split; [rewrite Hpv, decide_True; [done|done|right; by left]|].
    eapply seg_agree; [done|..].
    + intros n Hn. assert (n ∈ y :: t) as Hnt by (destruct Hn as [->|Hn]; [by left|by right]).
      rewrite Hnx, decide_False; [done|by intros ->|by right].
    + intros n Hn. rewrite Hpv, decide_False; [done| |destruct Hn as [Hn| ->]; [right; by right|by left]].
      intros ->. destruct Hn as [Hn|Hn]; [done|]. apply Hhl. rewrite <- Hn. by left.
Qed.

(** Words outside the nodes involved are untouched. *)
Definition not_node_word (a : Z) (l : list Z) : Prop := ∀ n, n ∈ l → a ≠ nx n ∧ a ≠ pv n.

Lemma list_add_tail_frame m h l new a : dll m h l → not_node_word a (new :: h :: l) → nx new ≠ pv h →
  ld (list_add_tail new h m) a = ld m a.
Proof.
  intros [Hs _] Ha Hne. pose proof (seg_prev _ _ _ _ Hs) as Hp. pose proof (last_in h l) as Hl.
  unfold list_add_tail. cbv zeta.
  destruct (Ha new) as [Hn1 Hn2]; [by left|]. destruct (Ha h) as [Hh1 Hh2]; [right; by left|].
  rewrite (ld_st_ne _ (nx new) (pv h)) by done. rewrite Hp. destruct (Ha (default h (last l))) as [Hp1 _]; [by right|].
  rewrite (ld_st_ne _ (pv h)) by done. rewrite ld_st_ne.
  - rewrite !ld_st_ne by done. done.
  - rewrite ld_st. destruct (decide (pv new = pv h)); [done|]. rewrite ld_st_ne by done. by rewrite Hp.
Qed.

Lemma list_del_frame m h l1 x l2 a : dll m h (l1 ++ x :: l2) → not_node_word a (h :: l1 ++ x :: l2) →
  ld (list_del x m) a = ld m a.
Proof.
  intros [[Hs1 Hs2]%seg_app [Hnd Hw]] Ha. unfold list_del. cbv zeta.
  pose proof (seg_prev _ _ _ _ Hs1) as Hp. destruct (head_seg _ _ _ _ Hs2) as [Hq _].
  pose proof (last_in h l1) as Hl. pose proof (head_in h l2) as Hr. rewrite Hp, Hq in *.
  set (p := default h (last l1)) in *. set (q := default h (head l2)) in *.
  assert (p ∈ h :: l1 ++ x :: l2) as Hpi by (rewrite elem_of_cons in *; rewrite elem_of_app; tauto).
  assert (q ∈ h :: l1 ++ x :: l2) as Hqi by (rewrite elem_of_cons in *; rewrite elem_of_app, elem_of_cons; tauto).
  assert (x ∈ h :: l1 ++ x :: l2) as Hxi by (right; apply elem_of_app; right; by left).
  assert (ld (st m (nx p) q) (nx x) = q) as ->.
  { rewrite ld_st. case_decide; [done|]. done. }
  rewrite ld_st_ne by (apply not_eq_sym; by apply Ha). apply ld_st_ne. apply not_eq_sym. by apply Ha.
Qed.

(** C35: the circular lists implement sequences.  For a list anchored at [h]
    with nodes [l]: [list_empty] tells whether [l] is empty; for a new node
    whose words are apart from the others, [list_add_tail] yields [l] with the
    node at the end and [list_add] with the node in front; [list_del] on a
    member removes exactly that member, wherever it is. *)
Theorem list_ops_correct m h l new : dll m h l → nodes_ok (new :: h :: l) →
  list_empty h m = bool_decide (l = []) ∧
  dll (list_add_tail new h m) h (l ++ [new]) ∧
  dll (list_add new h m) h (new :: l) ∧
  ∀ l1 x l2, l = l1 ++ x :: l2 → dll (list_del x m) h (l1 ++ l2).
Proof.
  intros Hd Hok. split_and!.
  - by apply dll_empty.
  - by apply list_add_tail_spec.
  - by apply list_add_spec.
  - intros l1 x l2 ->. by apply list_del_spec.
Qed.

(** The list at 0 with the nodes 16 and 32, and a free node at 48. *)
Definition demo_list : gmap Z Z := {[ 0 := 16; 16 := 32; 32 := 0; 8 := 32; 24 := 0; 40 := 16 ]}.

Lemma demo_nodes_ok : nodes_ok [48; 0; 16; 32].
Proof. apply (bool_decide_unpack _). vm_compute. exact I. Qed.

Lemma demo_dll : dll demo_list 0 [16; 32].
Proof.
  split; [by vm_compute|]. eapply nodes_ok_sublist; [|apply demo_nodes_ok]. apply sublist_cons. done.
Qed.

Lemma list_ops_correct_witness :
  dll (list_add_tail 48 0 demo_list) 0 [16; 32; 48] ∧ dll (list_del 16 demo_list) 0 [32].
Proof.
  destruct (list_ops_correct demo_list 0 [16; 32] 48 demo_dll demo_nodes_ok) as (_ & H1 & _ & H2).
  split; [exact H1|]. apply (H2 [] 16 [32]). reflexivity.
Defined.
