(* ===== verification/Sched.v ===== *)
(** * Tasks and the scheduler (kernel/task.c, kernel/sched.c, process.c)

    A [task_struct] is a block of heap memory: pid and state share its first
    word, then kernel_stack, mm, ctx.rsp, the file table, and the run-queue
    node at offset 160.  The run queue is a [list_head] at a static address.
    Each function below runs with interrupts off in the kernel
    ([local_irq_save]), so it is one atomic step of the state.  This file has
    the C code; the assembly that exchanges stacks ([__arch_switch_to]) is in
    Machine.v, and what the two do together in Switch.v. *)

From S2P Require Import Prelude Types FrameAlloc EarlyPmm Pmm Paging Vmm Kmalloc ListHead.

Definition TASK_RUNNING : Z := 0.
Definition TASK_INTERRUPTIBLE : Z := 1.
Definition TASK_KERNEL_STACK_PAGE_COUNT : Z := 4.
Definition TASK_KERNEL_STACK_SIZE : Z := TASK_KERNEL_STACK_PAGE_COUNT * PAGE_SIZE.
Definition OPEN_FILE_TABLE_COUNT : Z := 16.

(** sizeof(struct task_struct) and the offset of run_node. *)
Definition TASK_STRUCT_SIZE : Z := 176.
Definition RUN_NODE_OFFSET : Z := 160.

Definition t_pid (m : gmap Z Z) (t : Z) : Z := get_bits (ld m t) 0 32.
Definition t_state (m : gmap Z Z) (t : Z) : Z := get_bits (ld m t) 32 32.
Definition t_kernel_stack (m : gmap Z Z) (t : Z) : Z := ld m (u64 (t + 8)).
Definition t_mm (m : gmap Z Z) (t : Z) : Z := ld m (u64 (t + 16)).
Definition run_node (t : Z) : Z := u64 (t + RUN_NODE_OFFSET).

(** [list_entry(node, struct task_struct, run_node)]. *)
Definition task_of_node (n : Z) : Z := u64 (n - RUN_NODE_OFFSET).

(** The scheduler's variables, [cpu0_data], and the registers the switch sets. *)
Record sched := Sched {
  heap : kheap;
  current_task : Z;
  idle_task : Z;
  pid_counter : Z;
  cpu_current : Z;
  cpu_kernel_stack : Z;
  tss_rsp0 : Z;
  sched_cr3 : Z
}.

Definition smem (s : sched) : gmap Z Z := kmem (heap s).
Definition set_heap (h : kheap) (s : sched) : sched :=
  Sched h (current_task s) (idle_task s) (pid_counter s) (cpu_current s) (cpu_kernel_stack s) (tss_rsp0 s) (sched_cr3 s).
Definition set_smem (m : gmap Z Z) (s : sched) : sched :=
  set_heap (Kheap m (kframes (heap s)) (free_heads (heap s)) (big_alloc_head (heap s))) s.

Section sched.
Context (run_queue : Z) (list_fuel : nat).

(** ** kernel/task.c *)

Definition task_set_state (t state : Z) (s : sched) : sched :=
  set_smem (st (smem s) t (set_bits (ld (smem s) t) 32 32 state)) s.

Definition get_next_pid (s : sched) : Z * sched :=
  (pid_counter s,
   Sched (heap s) (current_task s) (idle_task s) (u32 (pid_counter s + 1)) (cpu_current s) (cpu_kernel_stack s)
     (tss_rsp0 s) (sched_cr3 s)).

Definition task_alloc (s : sched) : res (Z * sched) :=
  '(t, h) ← kzalloc TASK_STRUCT_SIZE (heap s);
  let s := set_heap h s in
  if t =? NULL then Ok (ERR_PTR (- ENOMEM), s) else
  '(stack, fr) ← alloc_pages TASK_KERNEL_STACK_PAGE_COUNT (kframes h);
  let s := set_heap (Kheap (st (kmem h) (u64 (t + 8)) stack) fr (free_heads h) (big_alloc_head h)) s in
  if stack =? NULL then
    h ← kfree list_fuel t (heap s);
    Ok (ERR_PTR (- ENOMEM), set_heap h s)
  else
    let '(pid, s) := get_next_pid s in
    let s := set_smem (st (smem s) t (set_bits (ld (smem s) t) 0 32 pid)) s in
    let s := set_smem (st (smem s) (u64 (t + 16)) NULL) s in
    Ok (t, set_smem (INIT_LIST_HEAD (run_node t) (smem s)) s).

(** ** arch/x86_64/kernel/process.c *)

(** struct interrupt_frame and struct switch_frame. *)
Definition INTERRUPT_FRAME_SIZE : Z := 168.
Definition SWITCH_FRAME_SIZE : Z := 64.

(** [kthread_exit] and [ret_from_fork] are the addresses of those functions. *)
Definition arch_init_kthread_context (kthread_exit ret_from_fork t fn arg : Z) (s : sched) : sched :=
  let stack := t_kernel_stack (smem s) t in
  let stack_top := u64 (stack + TASK_KERNEL_STACK_SIZE) in
  let iret := u64 (stack_top - INTERRUPT_FRAME_SIZE) in
  let m := zero_words 21 iret (smem s) in
  let m := st m (u64 (iret + 128)) kthread_exit in
  let m := st m (u64 (iret + 136)) 0x08 in
  let m := st m (u64 (iret + 160)) 0x10 in
  let m := st m (u64 (iret + 144)) 0x202 in
  let m := st m (u64 (iret + 152)) (u64 (ld m (u64 (t + 8)) + TASK_KERNEL_STACK_SIZE)) in
  let sw := u64 (iret - SWITCH_FRAME_SIZE) in
  let m := zero_words 8 sw m in
  let m := st m (u64 (sw + 56)) ret_from_fork in
  let m := st m (u64 (sw + 48)) 0x202 in
  let m := st m (u64 (sw + 24)) fn in
  let m := st m (u64 (sw + 16)) arg in
  set_smem (st m (u64 (t + 24)) sw) s.

Definition kthread_create (kthread_exit ret_from_fork fn arg : Z) (s : sched) : res (Z * sched) :=
  '(t, s) ← task_alloc s;
  if IS_ERR t then Ok (t, s) else
  let s := set_smem (st (smem s) (u64 (t + 16)) NULL) s in
  Ok (t, arch_init_kthread_context kthread_exit ret_from_fork t fn arg s).

Definition arch_switch_to (prev next : Z) (s : sched) : sched :=
  let m := smem s in
  let rsp0 := if t_kernel_stack m next =? NULL then tss_rsp0 s
              else u64 (t_kernel_stack m next + TASK_KERNEL_STACK_SIZE) in
  let c := if negb (t_mm m next =? NULL) && negb (t_mm m next =? t_mm m prev)
           then VIRT_TO_PHYS (ld m (t_mm m next)) else sched_cr3 s in
  Sched (heap s) (current_task s) (idle_task s) (pid_counter s) (cpu_current s) (cpu_kernel_stack s) rsp0 c.

Definition arch_activate_mm (mm : Z) (s : sched) : sched :=
  Sched (heap s) (current_task s) (idle_task s) (pid_counter s) (cpu_current s) (cpu_kernel_stack s) (tss_rsp0 s)
    (VIRT_TO_PHYS (ld (smem s) mm)).

(** ** kernel/sched.c *)

Definition create_idle_task (s : sched) : res sched :=
  '(t, h) ← kzalloc TASK_STRUCT_SIZE (heap s);
  if t =? NULL then Panic "create_idle_task: couldn't create the idle task." else
  let m := st (kmem h) t (set_bits (ld (kmem h) t) 0 32 0) in
  let m := st m t (set_bits (ld m t) 32 32 TASK_RUNNING) in
  Ok (Sched (Kheap m (kframes h) (free_heads h) (big_alloc_head h)) t t (pid_counter s) t (cpu_kernel_stack s)
        (tss_rsp0 s) (sched_cr3 s)).

Definition sched_enqueue (t : Z) (s : sched) : sched := set_smem (list_add_tail (run_node t) run_queue (smem s)) s.

Definition sched_dequeue (t : Z) (s : sched) : sched := set_smem (list_del (run_node t) (smem s)) s.

Definition kthread_run (kthread_exit ret_from_fork fn arg : Z) (s : sched) : res (Z * sched) :=
  '(t, s) ← kthread_create kthread_exit ret_from_fork fn arg s;
  if IS_ERR t then Ok (PTR_ERR t, s) else Ok (0, sched_enqueue t s).

Definition sched_next (s : sched) : Z * sched :=
  if list_empty run_queue (smem s) then (idle_task s, s) else
  let node := ld (smem s) (nx run_queue) in
  let m := list_del node (smem s) in
  let m := list_add_tail node run_queue m in
  (task_of_node (ld m (nx run_queue)), set_smem m s).

Definition __schedule (preempt : bool) (s : sched) : sched :=
  let current := current_task s in
  let s := if negb preempt && negb (t_state (smem s) current =? TASK_RUNNING) then sched_dequeue current s else s in
  let '(next, s) := sched_next s in
  if next =? current then s else
  let s := Sched (heap s) next (idle_task s) (pid_counter s) next (t_kernel_stack (smem s) next) (tss_rsp0 s) (sched_cr3 s) in
  arch_switch_to current next s.

Definition schedule (s : sched) : sched := __schedule false s.

Definition wake_up_task (t : Z) (s : sched) : bool * sched :=
  if t_state (smem s) t =? TASK_RUNNING then (false, s)
  else (true, sched_enqueue t (task_set_state t TASK_RUNNING s)).

Definition set_current_state (state : Z) (s : sched) : sched := task_set_state (current_task s) state s.

Definition timer_irq_handler (s : sched) : res sched :=
  if negb (cpu_current s =? current_task s) then Panic "
cur != sched_current()
" else Ok (__schedule true s).
End sched.

(** ** The run queue as a sequence of tasks *)

Lemma task_of_run_node t : 0 <= t < 2 ^ 64 → task_of_node (run_node t) = t.
Proof. unfold task_of_node, run_node, u64, RUN_NODE_OFFSET. intros. zlia. Qed.

Section queue.
Context (run_queue : Z).
Implicit Types (s : sched) (l : list Z).

(** The queue holds the tasks [l], in order. *)
Definition queue_is (s : sched) (l : list Z) : Prop :=
  dll (smem s) run_queue (run_node <$> l) ∧ Forall (λ t, 0 <= t < 2 ^ 64) l.

(** A word of task data: not a word of a queue node. *)
Definition data_word (l : list Z) (a : Z) : Prop := not_node_word a (run_queue :: (run_node <$> l)).

(** A step that keeps all data words. *)
Definition keeps_data (l : list Z) (s s' : sched) : Prop :=
  ∀ a, data_word l a → ld (smem s') a = ld (smem s) a.

Lemma smem_set_smem m s : smem (set_smem m s) = m.
Proof. done. Qed.

Lemma data_word_perm l l' a : l ≡ₚ l' → data_word l a → data_word l' a.
Proof.
  intros Hp Hd n Hn. apply Hd. rewrite elem_of_cons in *. destruct Hn as [->|Hn]; [by left|]. right. by rewrite Hp.
Qed.

Lemma sched_enqueue_spec s l t : queue_is s l → 0 <= t < 2 ^ 64 → nodes_ok (run_node t :: run_queue :: (run_node <$> l)) →
  queue_is (sched_enqueue run_queue t s) (l ++ [t]) ∧ keeps_data (l ++ [t]) s (sched_enqueue run_queue t s).
Proof.
  intros [Hd Hl] Ht Hok. unfold sched_enqueue. split; [split|].
  - rewrite smem_set_smem, fmap_app. by apply list_add_tail_spec.
  - apply Forall_app. by split; [|apply Forall_singleton].
  - intros a Ha. rewrite smem_set_smem. eapply list_add_tail_frame; [done| |].
    + intros n Hn. apply Ha. rewrite fmap_app. clear -Hn. set_solver.
    + apply Hok; [by left|right; by left].
Qed.

Lemma sched_dequeue_spec s l1 t l2 : queue_is s (l1 ++ t :: l2) →
  queue_is (sched_dequeue t s) (l1 ++ l2) ∧ keeps_data (l1 ++ t :: l2) s (sched_dequeue t s).
Proof.
  intros [Hd Hl]. rewrite fmap_app, fmap_cons in Hd. unfold sched_dequeue. split; [split|].
  - rewrite smem_set_smem, fmap_app. by apply list_del_spec.
  - apply Forall_app in Hl as [H1 H2]. apply Forall_cons in H2 as [_ H2]. by apply Forall_app.
  - intros a Ha. rewrite smem_set_smem. eapply list_del_frame; [done|]. unfold data_word in Ha.
    by rewrite fmap_app, fmap_cons in Ha.
Qed.

(** The head of the queue moves to the tail, and the new head is chosen. *)
Lemma sched_next_spec s l : queue_is s l →
  match l with
  | [] => sched_next run_queue s = (idle_task s, s)
  | x :: l' =>
      let '(next, s') := sched_next run_queue s in
      head (l' ++ [x]) = Some next ∧ queue_is s' (l' ++ [x]) ∧ keeps_data l s s' ∧
      current_task s' = current_task s ∧ cpu_current s' = cpu_current s ∧ idle_task s' = idle_task s
  end.
Proof.
  intros Hq. pose proof Hq as [Hd Hl]. unfold sched_next. rewrite (dll_empty _ _ _ Hd).
  destruct l as [|x l']; [done|]. rewrite bool_decide_eq_false_2 by done.
  rewrite fmap_cons in Hd. assert (ld (smem s) (nx run_queue) = run_node x) as -> by (destruct Hd as [(Hnx & _) _]; exact Hnx).
  pose proof (list_del_spec _ _ [] _ _ Hd) as Hdel. cbn [app] in Hdel.
  assert (nodes_ok (run_node x :: run_queue :: (run_node <$> l'))) as Hok.
  { eapply nodes_ok_perm; [apply Permutation_swap|]. apply Hd. }
  pose proof (list_add_tail_spec _ _ _ _ Hdel Hok) as Hadd.
  set (m := list_add_tail (run_node x) run_queue (list_del (run_node x) (smem s))) in *.
  assert (queue_is (set_smem m s) (l' ++ [x])) as Hq'.
  { split; [by rewrite smem_set_smem, fmap_app|]. apply Forall_cons in Hl as [Hx Hl].
    apply Forall_app. by split; [|apply Forall_singleton]. }
  split_and!; [|done| |done..].
  - assert (head (run_node <$> (l' ++ [x])) = Some (ld m (nx run_queue))) as Hh.
    { destruct Hq' as [[Hs _] _]. rewrite smem_set_smem in Hs. destruct (l' ++ [x]) as [|y k] eqn:E; [by destruct l'|].
      cbn in Hs |- *. destruct Hs as [-> _]. done. }
    destruct (l' ++ [x]) as [|y k] eqn:E; [by destruct l'|]. cbn in Hh |- *. injection Hh as <-.
    rewrite task_of_run_node; [done|]. destruct Hq' as [_ Hf]. by apply Forall_cons in Hf as [? _].
  - intros a Ha. rewrite smem_set_smem. unfold m. unfold data_word in Ha. rewrite fmap_cons in Ha.
    rewrite (list_add_tail_frame _ _ _ _ _ Hdel).
    + apply (list_del_frame _ run_queue [] _ (run_node <$> l')); done.
    + intros n Hn. apply Ha. rewrite !elem_of_cons in *. tauto.
    + apply Hok; [by left|right; by left].
Qed.

(** One preemptive step. *)
Lemma preempt_spec s x l : queue_is s (x :: l) → cpu_current s = current_task s →
  let s' := __schedule run_queue true s in
  queue_is s' (l ++ [x]) ∧ head (l ++ [x]) = Some (current_task s') ∧ cpu_current s' = current_task s'.
Proof.
  intros Hq Hcpu. pose proof (sched_next_spec _ _ Hq) as Hn. unfold __schedule. cbn [andb negb].
  destruct (sched_next run_queue s) as [next s1]. destruct Hn as (Hh & Hq1 & _ & Hc & Hcc & _).
  destruct (Z.eqb_spec next (current_task s)) as [->|].
  - split_and!; [done|by rewrite Hc|congruence].
  - split_and!; [|done|done]. exact Hq1.
Qed.

(** [k] timer interrupts in a row. *)
Fixpoint ticks (k : nat) (s : sched) : res sched :=
  match k with O => Ok s | S k' => s ← ticks k' s; timer_irq_handler run_queue s end.

Definition rot1 (l : list Z) : list Z := match l with [] => [] | x :: l' => l' ++ [x] end.

Lemma length_rot1 l : length (rot1 l) = length l.
Proof. destruct l; [done|]. cbn. rewrite length_app. cbn. lia. Qed.

Lemma rot1_lookup l i : (i < length l)%nat → rot1 l !! i = l !! (S i mod length l)%nat.
Proof.
  destruct l as [|x l]; cbn [rot1 length]; [lia|]. intros Hi. destruct (decide (i = length l)) as [->|].
  - rewrite Nat.Div0.mod_same. rewrite lookup_app_r, Nat.sub_diag by lia. done.
  - rewrite Nat.mod_small by lia. cbn. rewrite lookup_app_l by lia. done.
Qed.

Lemma length_rot k l : length (Nat.iter k rot1 l) = length l.
Proof. induction k as [|k IH]; [done|]. cbn. by rewrite length_rot1. Qed.

Lemma rot_lookup k l i : (i < length l)%nat → Nat.iter k rot1 l !! i = l !! ((i + k) mod length l)%nat.
Proof.
  revert i. induction k as [|k IH]; intros i Hi.
  - rewrite Nat.add_0_r, Nat.mod_small by done. done.
  - change (Nat.iter (S k) rot1 l) with (rot1 (Nat.iter k rot1 l)).
    rewrite rot1_lookup, length_rot by by rewrite length_rot.
    rewrite IH by (apply Nat.mod_upper_bound; lia). f_equal. rewrite Nat.Div0.add_mod_idemp_l. f_equal. lia.
Qed.

Lemma ticks_spec k s l : queue_is s l → l ≠ [] → cpu_current s = current_task s →
  ∃ s', ticks k s = Ok s' ∧ queue_is s' (Nat.iter k rot1 l) ∧ cpu_current s' = current_task s' ∧
    (k ≠ O → head (Nat.iter k rot1 l) = Some (current_task s')).
Proof.
  intros Hq Hl Hcpu. induction k as [|k (s1 & Hs1 & Hq1 & Hc1 & _)]; [by exists s|].
  change (Nat.iter (S k) rot1 l) with (rot1 (Nat.iter k rot1 l)). cbn [ticks]. rewrite Hs1, bind_Ok. unfold timer_irq_handler. rewrite Hc1, Z.eqb_refl. cbn [negb].
  assert (length (Nat.iter k rot1 l) ≠ O) as Hne by (rewrite length_rot; by destruct l).
  destruct (Nat.iter k rot1 l) as [|x l'] eqn:E; [done|].
  destruct (preempt_spec _ _ _ Hq1 Hc1) as (Hq2 & Hh2 & Hc2). eexists. split; [done|]. split_and!; [done|done|]. by intros _.
Qed.
End queue.

(** C30: round robin.  With the tasks [l] runnable and no blocking, the timer
    interrupt never panics, and after [k] interrupts ([k > 0]) the running
    task is number [k mod (length l)] of the queue: every task runs exactly
    once in any [length l] consecutive ticks. *)
Theorem timer_round_robin run_queue s l k : queue_is run_queue s l → l ≠ [] → cpu_current s = current_task s → (0 < k)%nat →
  ∃ s', ticks run_queue k s = Ok s' ∧ l !! (k mod length l)%nat = Some (current_task s') ∧
    queue_is run_queue s' (Nat.iter k rot1 l).
Proof.
  intros Hq Hl Hc Hk. destruct (ticks_spec run_queue k s l Hq Hl Hc) as (s' & Hs & Hq' & _ & Hh).
  exists s'. split_and!; [done| |done]. rewrite <- Hh by lia. rewrite head_lookup, rot_lookup by (destruct l; [done|cbn; lia]). done.
Qed.

(** Blocking.  When the running task, at the head of the queue, has left
    TASK_RUNNING and calls [schedule], it is taken off the queue and the queue
    is rotated once more: the task right behind it is passed over and moved to
    the tail, the one after that runs; with nothing left the idle task runs. *)
Theorem schedule_blocks run_queue s x l : queue_is run_queue s (x :: l) → current_task s = x →
  t_state (smem s) x ≠ TASK_RUNNING → idle_task s ∉ x :: l →
  let s' := schedule run_queue s in
  queue_is run_queue s' (rot1 l) ∧ current_task s' = default (idle_task s) (head (rot1 l)) ∧
  cpu_current s' = current_task s'.
Proof.
  intros Hq Hx Hst Hidle. unfold schedule, __schedule. rewrite Hx.
  rewrite (proj2 (Z.eqb_neq (t_state (smem s) x) TASK_RUNNING)) by done. cbn [negb andb].
  destruct (sched_dequeue_spec run_queue s [] x l Hq) as [Hq1 _]. cbn [app] in Hq1.
  pose proof (sched_next_spec run_queue _ _ Hq1) as Hn. destruct l as [|y l'].
  - rewrite Hn. cbn [rot1 head default]. change (idle_task (sched_dequeue x s)) with (idle_task s).
    destruct (Z.eqb_spec (idle_task s) x) as [Heq|]; [exfalso; apply Hidle; rewrite Heq; by left|]. split_and!; [|done|done]. exact Hq1.
  - destruct (sched_next run_queue (sched_dequeue x s)) as [next s1]. destruct Hn as (Hh & Hq2 & _ & Hc & Hcc & _).
    cbn [rot1]. rewrite Hh. cbn [default]. destruct (Z.eqb_spec next x) as [->|].
    + exfalso. destruct Hq as [[_ [Hnd _]] _]. apply NoDup_cons in Hnd as [_ Hnd]. rewrite fmap_cons in Hnd.
      apply NoDup_cons in Hnd as [Hnd _]. apply Hnd. apply list_elem_of_fmap. exists x. split; [done|].
      destruct (l' ++ [y]) as [|z k] eqn:E; [by destruct l'|]. cbn in Hh. injection Hh as ->.
      assert (x ∈ l' ++ [y]) as Hin by (rewrite E; by left). rewrite elem_of_app, elem_of_cons in Hin.
      rewrite elem_of_cons. destruct Hin as [?|[?|Hin]]; [by right|by left|by apply not_elem_of_nil in Hin].
    + split_and!; [|done|done]. exact Hq2.
Qed.

Lemma wake_up_task_spec run_queue s l t : queue_is run_queue s l → 0 <= t < 2 ^ 64 →
  nodes_ok (run_node t :: run_queue :: (run_node <$> l)) → data_word run_queue (l ++ [t]) t →
  let '(woke, s') := wake_up_task run_queue t s in
  if t_state (smem s) t =? TASK_RUNNING then woke = false ∧ s' = s
  else woke = true ∧ queue_is run_queue s' (l ++ [t]) ∧ t_state (smem s') t = TASK_RUNNING ∧ t_pid (smem s') t = t_pid (smem s) t ∧
       ∀ a, a ≠ t → data_word run_queue (l ++ [t]) a → ld (smem s') a = ld (smem s) a.
Proof.
  intros [Hd Hl] Ht Hok Hdw. unfold wake_up_task. destruct (t_state (smem s) t =? TASK_RUNNING); [done|].
  set (s1 := task_set_state t TASK_RUNNING s).
  assert (∀ a, a ≠ t → ld (smem s1) a = ld (smem s) a) as Hs1 by (intros a Ha; apply ld_st_ne; congruence).
  assert (queue_is run_queue s1 l) as Hq1.
  { split; [|done]. destruct Hd as [Hs Hn]. split; [|done]. unfold data_word in Hdw. rewrite fmap_app in Hdw. cbn in Hdw.
    eapply seg_agree; [done|..]; intros n Hn'; apply Hs1; apply not_eq_sym, Hdw;
      rewrite elem_of_cons, elem_of_app; destruct Hn' as [->|?] || destruct Hn' as [?| ->]; auto. }
  destruct (sched_enqueue_spec run_queue s1 l t Hq1 Ht Hok) as [Hq2 Hk2].
  assert (ld (smem s1) t = set_bits (ld (smem s) t) 32 32 TASK_RUNNING) as Hw by apply ld_st_eq.
  split_and!; [done|done| | |].
  - unfold t_state. rewrite Hk2, Hw by done. rewrite get_bits_spec, set_bits_spec by lia. unfold TASK_RUNNING. zlia.
  - unfold t_pid. rewrite Hk2, Hw by done. rewrite !get_bits_spec, set_bits_spec by lia. unfold TASK_RUNNING. zlia.
  - intros a Ha Hda. rewrite Hk2 by done. by apply Hs1.
Qed.

(** A run queue at 0x500 with the tasks 0x1000, 0x2000, 0x4000; the first one
    is running and about to sleep; 0x3000 is the idle task, 0x6000 a sleeper. *)
Definition demo_sched : sched :=
  let m := st (st (INIT_LIST_HEAD 0x500 ∅) 0x1000 (Z.shiftl 1 32)) 0x6000 (Z.shiftl 1 32) in
  let s := Sched (Kheap m demo_pmm (replicate 6 0) 0) 0x1000 0x3000 4 0x1000 0 0 0 in
  sched_enqueue 0x500 0x4000 (sched_enqueue 0x500 0x2000 (sched_enqueue 0x500 0x1000 s)).

Lemma demo_queue : queue_is 0x500 demo_sched [0x1000; 0x2000; 0x4000].
Proof.
  split; [split; [vm_compute; done|apply (bool_decide_unpack _); vm_compute; exact I]|].
  repeat (apply Forall_cons; split; [lia|]). by apply Forall_nil.
Qed.

Lemma timer_round_robin_witness :
  ∃ s', ticks 0x500 5 demo_sched = Ok s' ∧ current_task s' = 0x4000.
Proof.
  destruct (timer_round_robin 0x500 demo_sched [0x1000; 0x2000; 0x4000] 5) as (s' & Hs & Hc & _);
    [exact demo_queue|done|done|lia|]. exists s'. split; [exact Hs|]. cbn in Hc. by injection Hc as <-.
Defined.

Lemma schedule_blocks_witness :
  queue_is 0x500 (schedule 0x500 demo_sched) [0x4000; 0x2000] ∧ current_task (schedule 0x500 demo_sched) = 0x4000.
Proof.
  destruct (schedule_blocks 0x500 demo_sched 0x1000 [0x2000; 0x4000] demo_queue eq_refl) as (H1 & H2 & _).
  - vm_compute. discriminate.
  - apply (bool_decide_unpack _). vm_compute. exact I.
  - split; [exact H1|exact H2].
Defined.

#[export] Instance not_node_word_dec a l : Decision (not_node_word a l).
Proof.
  refine (cast_if (decide (Forall (λ n, a ≠ nx n ∧ a ≠ pv n) l))); unfold not_node_word; by rewrite <- Forall_forall.
Defined.

(** ** Waking a task that has not left the run queue *)

(** Appending the last node again closes it on itself. *)
Lemma list_add_tail_again m h l x : dll m h (l ++ [x]) →
  let m' := list_add_tail x h m in ld m' (nx x) = x ∧ ∀ l', ¬ dll m' h l'.
Proof.
  intros [Hs [Hnd Hw]] m'. pose proof (seg_prev _ _ _ _ Hs) as Hp. rewrite last_snoc in Hp. change (default h (Some x)) with x in Hp.
  assert (x ∈ h :: l ++ [x]) as Hx by (right; apply elem_of_app; right; by left).
  assert (h ∈ h :: l ++ [x]) as Hh by by left.
  assert (h ≠ x) as Hne. { intros ->. apply NoDup_cons in Hnd as [Hnd _]. apply Hnd, elem_of_app. right. by left. }
  destruct (Hw x h Hx Hh) as [Hxh Hinj].
  assert (pv x ≠ pv h) as Hpp by (intros Heq; apply Hinj in Heq; congruence).
  assert (ld m' (nx x) = x ∧ ld m' (pv h) = x) as [Hnx Hpv].
  { unfold m', list_add_tail. cbv zeta. rewrite (ld_st_ne m (nx x) (pv h)) by done. rewrite Hp.
    rewrite (ld_st_ne _ (pv x) (pv h)) by done. rewrite (ld_st_ne m (nx x) (pv h)) by done. rewrite Hp.
    rewrite (ld_st_ne _ (pv h) (nx x)) by done. rewrite !ld_st_eq. done. }
  split; [done|]. intros l' [Hs' _]. pose proof (seg_prev _ _ _ _ Hs') as Hp'. pose proof (last_seg _ _ _ _ Hs') as Hl'.
  rewrite Hpv in Hp'. rewrite <- Hp', Hnx in Hl'. congruence.
Qed.

(** A wake-up between [prepare_to_wait] and [schedule] destroys the run
    queue.  A task that has announced its sleep but is still queued (it is the
    last of the queue) is enqueued a second time by [wake_up_task]: its node
    becomes its own successor, and the memory no longer represents any run
    queue. *)
Theorem wake_up_queued_corrupts run_queue s l t : queue_is run_queue s (l ++ [t]) → data_word run_queue (l ++ [t]) t →
  t_state (smem s) t ≠ TASK_RUNNING →
  let '(woke, s') := wake_up_task run_queue t s in
  woke = true ∧ ld (smem s') (nx (run_node t)) = run_node t ∧ ∀ l', ¬ queue_is run_queue s' l'.
Proof.
  intros [Hd Hl] Hdw Hst. unfold wake_up_task. rewrite (proj2 (Z.eqb_neq _ _) Hst).
  set (s1 := task_set_state t TASK_RUNNING s).
  assert (dll (smem s1) run_queue ((run_node <$> l) ++ [run_node t])) as Hd1.
  { rewrite fmap_app in Hd. destruct Hd as [Hs Hn]. split; [|done]. unfold data_word in Hdw. rewrite fmap_app in Hdw.
    eapply seg_agree; [done|..]; intros n Hn'; apply ld_st_ne, Hdw; rewrite elem_of_cons; cbn in *; tauto. }
  destruct (list_add_tail_again _ _ _ _ Hd1) as [H1 H2]. split; [done|]. split; [done|]. intros l' [Hq _]. by apply (H2 (run_node <$> l')).
Qed.

(** The only task of the run queue has just marked itself as sleeping. *)
Definition demo_race : sched :=
  let m := list_add_tail (run_node 0x1000) 0x500 (INIT_LIST_HEAD 0x500 (st ∅ 0x1000 0x100000005)) in
  Sched (Kheap m demo_pmm (replicate 6 0) 0) 0x1000 0x3000 4 0x1000 0 0 0.

Lemma wake_up_queued_corrupts_witness :
  queue_is 0x500 demo_race [0x1000] ∧ ∀ l', ¬ queue_is 0x500 (snd (wake_up_task 0x500 0x1000 demo_race)) l'.
Proof.
  assert (queue_is 0x500 demo_race [0x1000]) as Hq.
  { split; [split; [vm_compute; done|]|]; apply (bool_decide_unpack _); vm_compute; exact I. }
  split; [exact Hq|]. pose proof (wake_up_queued_corrupts 0x500 demo_race [] 0x1000 Hq) as H.
  destruct (wake_up_task 0x500 0x1000 demo_race) as [woke s']. apply H.
  - apply (bool_decide_unpack _). vm_compute. exact I.
  - vm_compute. discriminate.
Defined.
