(* ===== verification/Wait.v ===== *)
(** * Wait queues (include/wait.h, kernel/wait.c)

    A wait-queue head is a [list_head] (the spinlock is an empty struct); an
    entry is the words flags, private (the task), func, and the list node at
    offset 24.  The wake functions are told apart by their addresses. *)

From S2P Require Import Prelude Types FrameAlloc EarlyPmm Pmm Paging Vmm Kmalloc ListHead Sched.

Definition WQ_FLAG_EXCLUSIVE : Z := 0x01.

Definition wqe_flags (m : gmap Z Z) (e : Z) : Z := get_bits (ld m e) 0 32.
Definition wqe_private (m : gmap Z Z) (e : Z) : Z := ld m (u64 (e + 8)).
Definition wqe_func (m : gmap Z Z) (e : Z) : Z := ld m (u64 (e + 16)).
Definition wqe_entry (e : Z) : Z := u64 (e + 24).
Definition entry_of_node (n : Z) : Z := u64 (n - 24).

Section wait.
Context (run_queue : Z) (default_wake pid_filter_wake : Z).

Definition init_waitqueue_head (q : Z) (s : sched) : sched := set_smem (INIT_LIST_HEAD q (smem s)) s.

Definition init_waitqueue_entry (e t : Z) (s : sched) : sched :=
  let m := smem s in
  let m := st m e (set_bits (ld m e) 0 32 0) in
  let m := st m (u64 (e + 16)) default_wake in
  let m := st m (u64 (e + 8)) t in
  set_smem (INIT_LIST_HEAD (wqe_entry e) m) s.

Definition default_wake_function (e : Z) (s : sched) : res (bool * sched) :=
  Ok (wake_up_task run_queue (wqe_private (smem s) e) s).

(** [key] is dereferenced: NULL faults. *)
Definition pid_filter_wake_func (e key : Z) (s : sched) : res (bool * sched) :=
  if key =? NULL then Fault else
  let pid := get_bits (ld (smem s) key) 0 32 in
  let t := wqe_private (smem s) e in
  if t_pid (smem s) t =? pid then Ok (wake_up_task run_queue t s) else Ok (false, s).

(** The call through [cur->func]; any other address is not a function. *)
Definition call_wake_func (e key : Z) (s : sched) : res (bool * sched) :=
  if wqe_func (smem s) e =? default_wake then default_wake_function e s
  else if wqe_func (smem s) e =? pid_filter_wake then pid_filter_wake_func e key s
  else Fault.

Definition prepare_to_wait (wq e state : Z) (s : sched) : sched :=
  let s := if list_empty (wqe_entry e) (smem s) then set_smem (list_add_tail (wqe_entry e) wq (smem s)) s else s in
  task_set_state (wqe_private (smem s) e) state s.

Definition finish_wait (wq e : Z) (s : sched) : sched :=
  let s := task_set_state (wqe_private (smem s) e) TASK_RUNNING s in
  if list_empty (wqe_entry e) (smem s) then s
  else set_smem (INIT_LIST_HEAD (wqe_entry e) (list_del (wqe_entry e) (smem s))) s.

(** [list_for_each_entry] of [__wakeup]; [node] is [&cur->entry]. *)
Fixpoint wakeup_loop (fuel : nat) (wq mode nr_exclusive key node : Z) (s : sched) : res sched :=
  match fuel with
  | O => OutOfFuel
  | S fuel' =>
      if node =? wq then Ok s else
      let cur := entry_of_node node in
      if (mode =? 0) || negb (Z.land (wqe_flags (smem s) cur) mode =? 0) then
        '(woke, s) ← call_wake_func cur key s;
        if (woke : bool) && negb (Z.land (wqe_flags (smem s) cur) WQ_FLAG_EXCLUSIVE =? 0) then
          if nr_exclusive - 1 =? 0 then Ok s
          else wakeup_loop fuel' wq mode (nr_exclusive - 1) key (ld (smem s) (nx (wqe_entry cur))) s
        else wakeup_loop fuel' wq mode nr_exclusive key (ld (smem s) (nx (wqe_entry cur))) s
      else wakeup_loop fuel' wq mode nr_exclusive key (ld (smem s) (nx (wqe_entry cur))) s
  end.

Definition __wakeup (fuel : nat) (wq mode nr_exclusive key : Z) (s : sched) : res sched :=
  wakeup_loop fuel wq mode nr_exclusive key (ld (smem s) (nx wq)) s.

Definition wake_up (fuel : nat) (wq : Z) (s : sched) : res sched := __wakeup fuel wq 0 1 NULL s.
Definition wake_up_all (fuel : nat) (wq : Z) (s : sched) : res sched := __wakeup fuel wq 0 0 NULL s.
End wait.

(** ** Joining and leaving a wait queue *)

Lemma task_state_dll s h k v u : not_node_word u (h :: k) → dll (smem s) h k →
  dll (smem (task_set_state u v s)) h k.
Proof.
  intros Hu [Hs Hok]. split; [|done]. eapply seg_agree; [done|..]; intros n Hn; apply ld_st_ne; apply Hu;
    rewrite elem_of_cons; destruct Hn as [?|?]; auto.
Qed.

Lemma task_state_set s u v : 0 <= v < 2 ^ 32 → t_state (smem (task_set_state u v s)) u = v.
Proof.
  intros Hv. unfold t_state. change (smem (task_set_state u v s)) with (st (smem s) u (set_bits (ld (smem s) u) 32 32 v)).
  rewrite ld_st_eq, get_bits_spec, set_bits_spec by lia. zlia.
Qed.

Lemma task_state_other s u v a : a ≠ u → ld (smem (task_set_state u v s)) a = ld (smem s) a.
Proof. intros Ha. apply ld_st_ne. congruence. Qed.

(** The list anchored at a node that is the last of another list. *)
Lemma last_node_next m h l x : dll m h (l ++ [x]) → ld m (nx x) = h.
Proof. intros [Hs _]. by apply seg_app in Hs as [_ [? _]]. Qed.

(** What a waiting entry needs of memory: the words of the task and of the
    entry's private field are apart from the list nodes. *)
Definition entry_apart (wq e t : Z) (l : list Z) : Prop :=
  nodes_ok (wqe_entry e :: wq :: l) ∧ not_node_word t (wqe_entry e :: wq :: l) ∧
  not_node_word (u64 (e + 8)) (wqe_entry e :: wq :: l) ∧ t ≠ u64 (e + 8).

Lemma not_node_word_snoc a wq l x : not_node_word a (x :: wq :: l) → not_node_word a (wq :: l ++ [x]).
Proof. intros Ha n Hn. apply Ha. clear -Hn. set_solver. Qed.

Lemma prepare_to_wait_spec wq e l s state : let t := wqe_private (smem s) e in
  dll (smem s) wq l → list_empty (wqe_entry e) (smem s) = true → entry_apart wq e t l → 0 <= state < 2 ^ 32 →
  let s' := prepare_to_wait wq e state s in
  dll (smem s') wq (l ++ [wqe_entry e]) ∧ t_state (smem s') t = state ∧ wqe_private (smem s') e = t.
Proof.
  intros t Hd Hemp (Hok & Ht & Hp & Htp) Hst. unfold prepare_to_wait. rewrite Hemp. cbv zeta.
  set (s1 := set_smem (list_add_tail (wqe_entry e) wq (smem s)) s).
  assert (dll (smem s1) wq (l ++ [wqe_entry e])) as Hd1 by by apply list_add_tail_spec.
  assert (wqe_private (smem s1) e = t) as Hpr.
  { unfold wqe_private. eapply list_add_tail_frame; [done|done|]. apply Hok; [by left|right; by left]. }
  rewrite Hpr. split_and!.
  - apply task_state_dll; [|done]. by apply not_node_word_snoc.
  - by apply task_state_set.
  - unfold wqe_private. rewrite task_state_other by done. done.
Qed.

Lemma finish_wait_spec wq e l s : let t := wqe_private (smem s) e in
  dll (smem s) wq (l ++ [wqe_entry e]) → entry_apart wq e t l →
  let s' := finish_wait wq e s in
  dll (smem s') wq l ∧ list_empty (wqe_entry e) (smem s') = true ∧ t_state (smem s') t = TASK_RUNNING.
Proof.
  intros t Hd (Hok & Ht & Hp & Htp). unfold finish_wait. fold t. cbv zeta.
  set (s1 := task_set_state t TASK_RUNNING s).
  assert (dll (smem s1) wq (l ++ [wqe_entry e])) as Hd1 by (apply task_state_dll; [by apply not_node_word_snoc|done]).
  assert (wq ≠ wqe_entry e) as Hne.
  { destruct Hok as [Hnd _]. apply NoDup_cons in Hnd as [Hnd _]. intros Heq. apply Hnd. rewrite <- Heq. by left. }
  assert (list_empty (wqe_entry e) (smem s1) = false) as ->.
  { apply Z.eqb_neq. by rewrite (last_node_next _ _ _ _ Hd1). }
  set (x := wqe_entry e) in *. set (m2 := list_del x (smem s1)).
  assert (dll m2 wq l) as Hd2.
  { pose proof (list_del_spec _ _ _ _ _ Hd1) as Hd2. by rewrite app_nil_r in Hd2. }
  rewrite smem_set_smem. destruct Hok as [Hnd Hw]. apply NoDup_cons in Hnd as [Hx _].
  assert (∀ a, a ≠ nx x → a ≠ pv x → ld (INIT_LIST_HEAD x m2) a = ld m2 a) as Hin
    by (intros a H1 H2; unfold INIT_LIST_HEAD; rewrite !ld_st_ne; auto).
  split_and!.
  - destruct Hd2 as [Hs2 Hok2]. split; [|done]. eapply seg_agree; [done|..].
    + intros n Hn. assert (n ∈ wq :: l) as Hn' by (rewrite elem_of_cons; tauto). apply Hin.
      * intros Heq. unfold nx in Heq. by subst n.
      * apply Hw; [by right|by left].
    + intros n Hn. assert (n ∈ wq :: l) as Hn' by (rewrite elem_of_cons; tauto). apply Hin.
      * apply not_eq_sym, Hw; [by left|by right].
      * intros Heq. apply Hw in Heq; [by subst n|by right|by left].
  - unfold list_empty, INIT_LIST_HEAD. apply Z.eqb_eq. rewrite ld_st_ne by (apply not_eq_sym, Hw; by left). apply ld_st_eq.
  - assert (t_state (INIT_LIST_HEAD x m2) t = t_state (smem s1) t) as ->; [|by apply task_state_set].
    unfold t_state. f_equal. destruct (Ht x) as [Ht1 Ht2]; [by left|]. rewrite Hin by done.
    apply (list_del_frame _ wq l x []); [done|]. by apply not_node_word_snoc.
Qed.

(** ** An entry and its queue, whether it is enqueued or not *)

Record waiting (q : bool) (wq e t : Z) (l : list Z) (s : sched) : Prop := {
  waiting_dll : dll (smem s) wq (if q then l ++ [wqe_entry e] else l);
  waiting_free : q = false → list_empty (wqe_entry e) (smem s) = true;
  waiting_task : wqe_private (smem s) e = t
}.

(** What a step on one entry leaves alone. *)
Definition wait_frame (wq e t : Z) (l : list Z) (v : Z) (s s' : sched) : Prop :=
  ld (smem s') t = set_bits (ld (smem s) t) 32 32 v ∧
  (∀ a, not_node_word a (wqe_entry e :: wq :: l) → a ≠ t → ld (smem s') a = ld (smem s) a) ∧
  current_task s' = current_task s.

Lemma queued_not_empty wq e l m : dll m wq (l ++ [wqe_entry e]) → list_empty (wqe_entry e) m = false.
Proof.
  intros Hd. apply Z.eqb_neq. rewrite (last_node_next _ _ _ _ Hd). destruct Hd as [_ [Hnd _]].
  apply NoDup_cons in Hnd as [Hnd _]. intros Heq. apply Hnd. rewrite Heq. apply elem_of_app. right. by left.
Qed.

Lemma waiting_prepare q wq e t l s state : entry_apart wq e t l → waiting q wq e t l s → 0 <= state < 2 ^ 32 →
  waiting true wq e t l (prepare_to_wait wq e state s) ∧ wait_frame wq e t l state s (prepare_to_wait wq e state s).
Proof.
  intros Hap [Hd Hf Hp] Hst. pose proof Hap as (Hok & Ht & Hpw & Htp). destruct q.
  - unfold prepare_to_wait. rewrite (queued_not_empty wq e l) by done. rewrite Hp. split; [split|split_and!].
    + apply task_state_dll; [|done]. by apply not_node_word_snoc.
    + done.
    + unfold wqe_private. by rewrite task_state_other by done.
    + apply ld_st_eq.
    + intros a _ Ha. by apply task_state_other.
    + done.
  - subst t. specialize (Hf eq_refl). destruct (prepare_to_wait_spec wq e l s state) as (H1 & _ & H3); [done..|].
    split; [by split|]. unfold prepare_to_wait. rewrite Hf. cbv zeta.
    set (s1 := set_smem (list_add_tail (wqe_entry e) wq (smem s)) s).
    assert (∀ a, not_node_word a (wqe_entry e :: wq :: l) → ld (smem s1) a = ld (smem s) a) as Hs1.
    { intros a Ha. apply (list_add_tail_frame _ _ l); [done|done|]. apply Hok; [by left|right; by left]. }
    assert (wqe_private (smem s1) e = wqe_private (smem s) e) as -> by by apply Hs1.
    split_and!; [|intros a Ha Hne|done].
    + rewrite <- (Hs1 (wqe_private (smem s) e)) by done. apply ld_st_eq.
    + rewrite task_state_other by done. by apply Hs1.
Qed.

Lemma waiting_finish wq e t l s : entry_apart wq e t l → waiting true wq e t l s →
  waiting false wq e t l (finish_wait wq e s) ∧ wait_frame wq e t l TASK_RUNNING s (finish_wait wq e s).
Proof.
  intros Hap [Hd _ Hp]. pose proof Hap as (Hok & Ht & Hpw & Htp).
  destruct (finish_wait_spec wq e l s) as (H1 & H2 & _); [done|by rewrite Hp|].
  enough (wait_frame wq e t l TASK_RUNNING s (finish_wait wq e s)) as Hfr.
  { split; [|done]. split; [done|done|]. rewrite <- Hp. unfold wqe_private. by apply Hfr. }
  unfold finish_wait. rewrite Hp. cbv zeta. set (s1 := task_set_state t TASK_RUNNING s).
  assert (dll (smem s1) wq (l ++ [wqe_entry e])) as Hd1 by (apply task_state_dll; [by apply not_node_word_snoc|done]).
  rewrite (queued_not_empty wq e l) by done.
  assert (∀ a, not_node_word a (wqe_entry e :: wq :: l) →
    ld (INIT_LIST_HEAD (wqe_entry e) (list_del (wqe_entry e) (smem s1))) a = ld (smem s1) a) as Hin.
  { intros a Ha. destruct (Ha (wqe_entry e)) as [Ha1 Ha2]; [by left|]. unfold INIT_LIST_HEAD. rewrite !ld_st_ne by auto.
    apply (list_del_frame _ wq l _ []); [done|]. by apply not_node_word_snoc. }
  split_and!; [|intros a Ha Hne|done]; rewrite smem_set_smem, Hin by done; [apply ld_st_eq|by apply task_state_other].
Qed.

Lemma dll_agree m m' h l : dll m h l → (∀ n, n ∈ h :: l → ld m' (nx n) = ld m (nx n) ∧ ld m' (pv n) = ld m (pv n)) → dll m' h l.
Proof.
  intros [Hs Hok] Ha. split; [|done]. eapply seg_agree; [done|..]; intros n Hn; apply Ha; rewrite elem_of_cons; tauto.
Qed.

(** A step on another queue preserves an entry whose words it leaves alone. *)
Lemma waiting_agree q wq e t l s s' : waiting q wq e t l s →
  (∀ n, n ∈ wqe_entry e :: wq :: l → ld (smem s') (nx n) = ld (smem s) (nx n) ∧ ld (smem s') (pv n) = ld (smem s) (pv n)) →
  ld (smem s') (u64 (e + 8)) = ld (smem s) (u64 (e + 8)) → waiting q wq e t l s'.
Proof.
  intros [Hd Hf Hp] Hn Hpr. split.
  - eapply dll_agree; [done|]. intros n Hin. apply Hn. destruct q; [|by right]. clear -Hin. set_solver.
  - intros Hq. specialize (Hf Hq). unfold list_empty in *. destruct (Hn (wqe_entry e)) as [-> _]; [by left|done].
  - unfold wqe_private. by rewrite Hpr.
Qed.

(** The words of separate nodes are apart. *)
Lemma nodes_ok_apart l1 l2 n : nodes_ok (l1 ++ l2) → n ∈ l2 → not_node_word (nx n) l1 ∧ not_node_word (pv n) l1.
Proof.
  intros [Hnd Hw] Hn. apply NoDup_app in Hnd as (_ & Hd & _).
  split; intros a Ha; specialize (Hd a Ha).
  - assert (a ≠ n) as Hne by congruence. destruct (Hw n a) as [H1 _]; [set_solver..|]. split; [|done]. unfold nx. congruence.
  - destruct (Hw a n) as [H1 H2]; [set_solver..|]. split; [congruence|]. intros Heq. symmetry in Heq. apply H2 in Heq. congruence.
Qed.

(** Waiting and waking up again.  [prepare_to_wait] on an entry that is
    off the queue appends it and puts its task to sleep; calling it again
    leaves the queue as it is; [finish_wait] then restores the queue to what
    it was, leaves the entry ready for reuse, and marks the task running. *)
Theorem wait_roundtrip wq e l s state : let t := wqe_private (smem s) e in
  dll (smem s) wq l → list_empty (wqe_entry e) (smem s) = true → entry_apart wq e t l → 0 <= state < 2 ^ 32 →
  let s1 := prepare_to_wait wq e state s in
  dll (smem s1) wq (l ++ [wqe_entry e]) ∧ t_state (smem s1) t = state ∧
  dll (smem (prepare_to_wait wq e state s1)) wq (l ++ [wqe_entry e]) ∧
  let s2 := finish_wait wq e s1 in
  dll (smem s2) wq l ∧ list_empty (wqe_entry e) (smem s2) = true ∧ t_state (smem s2) t = TASK_RUNNING.
Proof.
  intros t Hd Hemp Hap Hst s1.
  destruct (prepare_to_wait_spec wq e l s state Hd Hemp Hap Hst) as (Hd1 & Hs1 & Hp1). fold t s1 in Hd1, Hs1, Hp1.
  split_and!; [done|done| |].
  - unfold prepare_to_wait. assert (list_empty (wqe_entry e) (smem s1) = false) as ->.
    { apply Z.eqb_neq. rewrite (last_node_next _ _ _ _ Hd1). destruct Hap as [[Hnd _] _].
      apply NoDup_cons in Hnd as [Hnd _]. intros Heq. apply Hnd. rewrite <- Heq. by left. }
    rewrite Hp1. apply task_state_dll; [|done]. apply not_node_word_snoc, Hap.
  - pose proof (finish_wait_spec wq e l s1) as Hf. cbv zeta in Hf. rewrite Hp1 in Hf. by apply Hf.
Qed.

(** A wait queue at 0x700 with one waiter and the entry 0x900 of task 0x1000. *)
Definition demo_wait : sched :=
  let m := list_add_tail 0x818 0x700 (INIT_LIST_HEAD 0x700 (INIT_LIST_HEAD 0x918 (st ∅ 0x908 0x1000))) in
  Sched (Kheap m demo_pmm (replicate 6 0) 0) 0x1000 0x3000 4 0x1000 0 0 0.

Lemma wait_roundtrip_witness :
  dll (smem (prepare_to_wait 0x700 0x900 TASK_INTERRUPTIBLE demo_wait)) 0x700 [0x818; 0x918] ∧
  dll (smem (finish_wait 0x700 0x900 (prepare_to_wait 0x700 0x900 TASK_INTERRUPTIBLE demo_wait))) 0x700 [0x818].
Proof.
  destruct (wait_roundtrip 0x700 0x900 [0x818] demo_wait TASK_INTERRUPTIBLE) as (H1 & _ & _ & H2 & _).
  - split; [vm_compute; done|]. apply (bool_decide_unpack _). vm_compute. exact I.
  - vm_compute. reflexivity.
  - split; [|split; [|split]]; [apply (bool_decide_unpack _); vm_compute; exact I..|vm_compute; discriminate].
  - unfold TASK_INTERRUPTIBLE. lia.
  - split; [exact H1|exact H2].
Defined.

(** Waking a queue whose first entry filters by pid dereferences the NULL key
    that [wake_up] passes. *)
Lemma wake_up_pid_filter_faults run_queue default_wake pid_filter_wake fuel wq e l s :
  dll (smem s) wq (wqe_entry e :: l) → 0 <= e < 2 ^ 64 → default_wake ≠ pid_filter_wake →
  wqe_func (smem s) e = pid_filter_wake →
  wake_up run_queue default_wake pid_filter_wake (S fuel) wq s = Fault.
Proof.
  intros [(Hn & _) [Hnd _]] He Hne Hf. unfold wake_up, __wakeup. rewrite Hn. cbn [wakeup_loop].
  apply NoDup_cons in Hnd as [Hnd _]. rewrite (proj2 (Z.eqb_neq (wqe_entry e) wq)) by (intros Heq; apply Hnd; rewrite <- Heq; by left).
  assert (entry_of_node (wqe_entry e) = e) as -> by (unfold entry_of_node, wqe_entry, u64; zlia).
  cbn [Z.eqb orb]. unfold call_wake_func. rewrite Hf.
  rewrite (proj2 (Z.eqb_neq pid_filter_wake default_wake)), (Z.eqb_refl pid_filter_wake) by congruence.
  unfold pid_filter_wake_func. by rewrite Z.eqb_refl.
Qed.

(** ** Waking a whole queue *)

Definition sleepers (s : sched) (ts : list Z) : list Z := filter (λ t, t_state (smem s) t ≠ TASK_RUNNING) ts.

(** An entry as [init_waitqueue_entry] leaves it, for the task [t]. *)
Definition default_entry (default_wake : Z) (s : sched) (e t : Z) : Prop :=
  0 <= e < 2 ^ 64 ∧ wqe_private (smem s) e = t ∧ wqe_func (smem s) e = default_wake ∧ wqe_flags (smem s) e = 0.

Definition entry_words (e : Z) : list Z := [e; u64 (e + 8); u64 (e + 16); nx (wqe_entry e); pv (wqe_entry e)].

Lemma data_word_sub rq l l' a : (∀ x, x ∈ l' → x ∈ l) → data_word rq l a → data_word rq l' a.
Proof.
  intros Hsub Ha n Hn. apply Ha. apply elem_of_cons in Hn as [->|(x & -> & Hx)%list_elem_of_fmap]; [by left|].
  right. apply list_elem_of_fmap_2, Hsub, Hx.
Qed.

Lemma sleepers_agree s s' ts : (∀ t, t ∈ ts → t_state (smem s') t = t_state (smem s) t) → sleepers s' ts = sleepers s ts.
Proof.
  unfold sleepers. induction ts as [|t ts IH]; intros Ht; [done|]. rewrite !filter_cons, Ht by by left.
  rewrite IH; [done|]. intros t' Ht'. apply Ht. by right.
Qed.

Lemma Forall2_impl_in {A B} (P Q : A → B → Prop) l k : Forall2 P l k → (∀ x y, x ∈ l → P x y → Q x y) → Forall2 Q l k.
Proof.
  induction 1 as [|x y l k Hxy _ IH]; intros Hpq; [by apply Forall2_nil|]. apply Forall2_cons. split; [apply Hpq; [by left|done]|].
  apply IH. intros x' y' Hx'. apply Hpq. by right.
Qed.

Lemma sleepers_cons s t ts : t_state (smem s) t ≠ TASK_RUNNING → sleepers s (t :: ts) = t :: sleepers s ts.
Proof. intros Ht. unfold sleepers. by rewrite filter_cons_True. Qed.

Section wake_all.
Context (run_queue default_wake pid_filter_wake wq : Z).

(** The words of the waiting tasks and of their entries are apart from each
    other and from the nodes of the run queue with the sleepers [q']. *)
Definition wake_apart (q' : list Z) (es ts : list Z) : Prop :=
  NoDup ts ∧ Forall (λ t, 0 <= t < 2 ^ 64 ∧ data_word run_queue q' t) ts ∧
  Forall (λ e, Forall (λ w, w ∉ ts ∧ data_word run_queue q' w) (entry_words e)) es ∧
  Forall (λ w, w ∉ ts ∧ data_word run_queue q' w) [nx wq; pv wq].

Lemma default_entry_agree s s' e t : default_entry default_wake s e t →
  Forall (λ w, ld (smem s') w = ld (smem s) w) (entry_words e) → default_entry default_wake s' e t.
Proof.
  unfold default_entry, wqe_private, wqe_func, wqe_flags, entry_words. rewrite !Forall_cons.
  intros (? & ? & ? & ?) (-> & -> & -> & _). done.
Qed.

Lemma wake_one s q t sl : queue_is run_queue s q → 0 <= t < 2 ^ 64 → t_state (smem s) t ≠ TASK_RUNNING →
  nodes_ok (run_queue :: (run_node <$> (q ++ t :: sl))) → data_word run_queue (q ++ t :: sl) t →
  ∃ s', wake_up_task run_queue t s = (true, s') ∧ queue_is run_queue s' (q ++ [t]) ∧ t_state (smem s') t = TASK_RUNNING ∧
    ∀ a, a ≠ t → data_word run_queue (q ++ t :: sl) a → ld (smem s') a = ld (smem s) a.
Proof.
  intros Hq Ht Hst Hok Hdw.
  assert (∀ a, data_word run_queue (q ++ t :: sl) a → data_word run_queue (q ++ [t]) a) as Hsub
    by (intros a; apply data_word_sub; intros x; rewrite !elem_of_app, !elem_of_cons, elem_of_nil; tauto).
  pose proof (wake_up_task_spec run_queue s q t Hq Ht) as Hw.
  destruct (wake_up_task run_queue t s) as [woke s']. rewrite (proj2 (Z.eqb_neq _ _) Hst) in Hw.
  destruct Hw as (-> & H1 & H2 & _ & H4); [|by apply Hsub|].
  - eapply nodes_ok_perm; [|eapply nodes_ok_sublist; [|exact Hok]];
      [|apply sublist_skip, fmap_sublist; by apply sublist_app; [|apply sublist_skip, sublist_nil_l]].
    rewrite fmap_app. cbn. by rewrite Permutation_app_comm, perm_swap.
  - exists s'. split_and!; [done..|]. intros a Ha Hda. apply H4; [done|by apply Hsub].
Qed.

(** What the walk over the entries [es] of the tasks [ts] from the node [a]
    needs, with [q] on the run queue. *)
Record wake_ready (s : sched) (a : Z) (es ts q : list Z) : Prop := {
  wr_seg : seg (smem s) a (wqe_entry <$> es) wq;
  wr_wq : wq ∉ wqe_entry <$> es;
  wr_es : Forall2 (default_entry default_wake s) es ts;
  wr_q : queue_is run_queue s q;
  wr_ok : nodes_ok (run_queue :: (run_node <$> (q ++ sleepers s ts)));
  wr_apart : wake_apart (q ++ sleepers s ts) es ts
}.

Lemma wake_apart_tail q' e es t ts : wake_apart q' (e :: es) (t :: ts) → wake_apart q' es ts.
Proof.
  intros (Hnd & Hts & Hes & Hw). apply NoDup_cons in Hnd as [_ Hnd]. apply Forall_cons in Hts as [_ Hts]. apply Forall_cons in Hes as [_ Hes].
  assert (∀ ws, Forall (λ w, w ∉ t :: ts ∧ data_word run_queue q' w) ws → Forall (λ w, w ∉ ts ∧ data_word run_queue q' w) ws) as Hsub.
  { intros ws Hws. eapply Forall_impl; [exact Hws|]. cbn beta. intros w [Hn Hd]. split; [|done]. intros Hin. apply Hn. by right. }
  split_and!; [done|done| |by apply Hsub]. eapply Forall_impl; [exact Hes|]. intros e' He'. by apply Hsub.
Qed.

Lemma wake_ready_running s a e es t ts q : wake_ready s a (e :: es) (t :: ts) q → t_state (smem s) t = TASK_RUNNING →
  sleepers s (t :: ts) = sleepers s ts ∧ wake_ready s (wqe_entry e) es ts q.
Proof.
  intros [Hseg Hwq Hes Hq Hok Hap] Hrun.
  assert (sleepers s (t :: ts) = sleepers s ts) as Hsl by (unfold sleepers; by rewrite filter_cons_False by tauto).
  rewrite Hsl in *. split; [done|]. split; [by destruct Hseg as (_ & _ & ?)| | |done|done|by eapply wake_apart_tail].
  - intros Hin. apply Hwq. by right.
  - by apply Forall2_cons in Hes as [_ ?].
Qed.

(** The words of the entries survive a step that only touches [t] and the run
    queue. *)
Lemma wake_ready_woken s s1 a e es t ts q : wake_ready s a (e :: es) (t :: ts) q → t_state (smem s) t ≠ TASK_RUNNING →
  queue_is run_queue s1 (q ++ [t]) →
  (∀ w, w ≠ t → data_word run_queue (q ++ sleepers s (t :: ts)) w → ld (smem s1) w = ld (smem s) w) →
  q ++ sleepers s (t :: ts) = (q ++ [t]) ++ sleepers s1 ts ∧ wqe_flags (smem s1) e = wqe_flags (smem s) e ∧
  wake_ready s1 (wqe_entry e) es ts (q ++ [t]).
Proof.
  intros [Hseg Hwq Hes Hq Hok Hap] Hrun Hq1 Hfr. pose proof Hap as (Hnd & Hts & Hae & Hw).
  apply NoDup_cons in Hnd as [Htn _]. apply Forall_cons in Hts as [_ Hts]. apply Forall_cons in Hae as [He Hae].
  assert (∀ ws, Forall (λ w, w ∉ t :: ts ∧ data_word run_queue (q ++ sleepers s (t :: ts)) w) ws →
    Forall (λ w, ld (smem s1) w = ld (smem s) w) ws) as Hsame.
  { intros ws Hws. eapply Forall_impl; [exact Hws|]. cbn beta. intros w [Hn Hd]. apply Hfr; [|done]. intros ->. apply Hn. by left. }
  assert (∀ e', e' ∈ e :: es → Forall (λ w, ld (smem s1) w = ld (smem s) w) (entry_words e')) as Hent.
  { intros e' [->|Hin]%elem_of_cons; [by apply Hsame|]. rewrite Forall_forall in Hae. apply Hsame, Hae, Hin. }
  assert (q ++ sleepers s (t :: ts) = (q ++ [t]) ++ sleepers s1 ts) as Hsl.
  { rewrite sleepers_cons, <- app_assoc by done. change ([t] ++ sleepers s1 ts) with (t :: sleepers s1 ts). do 2 f_equal.
    symmetry. apply sleepers_agree.
    intros t' Ht'. rewrite Forall_forall in Hts. destruct (Hts t' Ht') as [_ Hd]. unfold t_state. rewrite Hfr; [done| |done]. by intros ->. }
  split; [done|]. split.
  { unfold wqe_flags. f_equal. pose proof (Hent e) as Hx. rewrite Forall_forall in Hx. apply Hx; by left. }
  rewrite Hsl in *. split; [| | |done|done|by eapply wake_apart_tail].
  - destruct Hseg as (_ & _ & Hseg). eapply seg_agree; [done|..].
    + intros n Hn. assert (n ∈ wqe_entry <$> (e :: es)) as (e' & -> & He')%list_elem_of_fmap
        by (destruct Hn as [->|?]; [by left|by right]).
      eapply (proj1 (Forall_forall _ _) (Hent e' He')). unfold entry_words. set_solver.
    + intros n [(e' & -> & He')%list_elem_of_fmap| ->]; [|eapply (proj1 (Forall_forall _ _) (Hsame _ Hw)); set_solver].
      eapply (proj1 (Forall_forall _ _) (Hent e' (list_elem_of_further _ _ _ He'))). unfold entry_words. set_solver.
  - intros Hin. apply Hwq. by right.
  - apply Forall2_cons in Hes as [_ Hes]. eapply Forall2_impl_in; [exact Hes|]. intros e' t' He' Hd.
    eapply default_entry_agree; [done|]. apply Hent. by right.
Qed.

Lemma wakeup_loop_spec es : ∀ ts fuel q s a, (length es < fuel)%nat → wake_ready s a es ts q →
  returns (wakeup_loop run_queue default_wake pid_filter_wake fuel wq 0 1 NULL (ld (smem s) (nx a)) s) (λ s',
    queue_is run_queue s' (q ++ sleepers s ts) ∧ Forall (λ t, t_state (smem s') t = TASK_RUNNING) ts ∧
    ∀ w, w ∉ ts → data_word run_queue (q ++ sleepers s ts) w → ld (smem s') w = ld (smem s) w).
Proof.
  induction es as [|e es IH]; intros ts fuel q s a Hf Hr; (destruct fuel as [|fuel]; [cbn in Hf; lia|]).
  - destruct Hr as [[-> _] _ ->%Forall2_nil_inv_l Hq _ _]. cbn. rewrite Z.eqb_refl. cbn. rewrite app_nil_r.
    split_and!; [done|by apply Forall_nil|done].
  - destruct (Forall2_cons_inv_l _ _ _ _ (wr_es _ _ _ _ _ Hr)) as (t & ts' & (He & Hpr & Hfn & Hfl) & _ & ->).
    pose proof (wr_seg _ _ _ _ _ Hr) as (-> & _ & _). pose proof (wr_wq _ _ _ _ _ Hr) as Hwq.
    cbn [wakeup_loop]. rewrite (proj2 (Z.eqb_neq (wqe_entry e) wq)) by (intros Heq; apply Hwq; rewrite <- Heq; by left).
    assert (entry_of_node (wqe_entry e) = e) as -> by (unfold entry_of_node, wqe_entry, u64; zlia).
    cbn [Z.eqb orb]. unfold call_wake_func. rewrite Hfn, (Z.eqb_refl default_wake). unfold default_wake_function. rewrite Hpr, bind_Ok.
    pose proof (wr_apart _ _ _ _ _ Hr) as (Hnd & Hts & _ & _). apply Forall_cons in Hts as [[Ht Htd] _]. apply NoDup_cons in Hnd as [Htn _].
    assert (∀ w, w ∉ t :: ts' → w ∉ ts') as Hnot by (intros w Hw Hin; apply Hw; by right).
    destruct (decide (t_state (smem s) t = TASK_RUNNING)) as [Hrun|Hrun].
    + destruct (wake_ready_running _ _ _ _ _ _ _ Hr Hrun) as [Hsl Hr']. rewrite Hsl in *.
      unfold wake_up_task. rewrite (proj2 (Z.eqb_eq _ _) Hrun). cbn [andb].
      eapply returns_mono; [apply (IH ts' _ q); [cbn in Hf; lia|done]|].
      cbn beta. intros s' (H1 & H2 & H3). split_and!; [done| |].
      * apply Forall_cons. split; [|done]. unfold t_state. by rewrite H3.
      * intros w Hnw. apply H3. by apply Hnot.
    + destruct (wake_one s q t (sleepers s ts')) as (s1 & -> & Hq1 & Hst1 & Hfr1).
      1-5: rewrite <- ?sleepers_cons by done; by try apply Hr.
      destruct (wake_ready_woken s s1 a e es t ts' q Hr Hrun Hq1) as (Hsl & Hfl1 & Hr').
      { by rewrite sleepers_cons. }
      rewrite Hfl1, Hfl, Hsl in *. cbn [Z.land Z.eqb negb andb].
      eapply returns_mono; [apply (IH ts' _ (q ++ [t])); [cbn in Hf; lia|done]|].
      cbn beta. intros s' (H1 & H2 & H3). split_and!; [done| |].
      * apply Forall_cons. split; [|done]. unfold t_state. by rewrite H3.
      * intros w Hnw Hd. rewrite H3 by auto. apply Hfr1; [intros ->; apply Hnw; by left|].
        by rewrite <- Hsl, sleepers_cons in Hd.
Qed.
End wake_all.

(** C29: a wake-up loses no sleeper.  On a queue of entries with the default
    wake function, [wake_up] terminates; every sleeping task of the queue is
    appended to the run queue in the order of the wait queue, every waiting
    task is marked running, the wait queue itself is unchanged (each task
    leaves it in [finish_wait]) and so is every word outside the tasks and the
    run queue's nodes. *)
Theorem wake_up_wakes_all run_queue default_wake pid_filter_wake wq es ts q fuel s :
  (length es < fuel)%nat → dll (smem s) wq (wqe_entry <$> es) → Forall2 (default_entry default_wake s) es ts →
  queue_is run_queue s q → nodes_ok (run_queue :: (run_node <$> (q ++ sleepers s ts))) →
  wake_apart run_queue wq (q ++ sleepers s ts) es ts →
  returns (wake_up run_queue default_wake pid_filter_wake fuel wq s) (λ s',
    queue_is run_queue s' (q ++ sleepers s ts) ∧ Forall (λ t, t_state (smem s') t = TASK_RUNNING) ts ∧
    dll (smem s') wq (wqe_entry <$> es) ∧
    ∀ w, w ∉ ts → data_word run_queue (q ++ sleepers s ts) w → ld (smem s') w = ld (smem s) w).
Proof.
  intros Hf Hd Hes Hq Hok Hap. pose proof Hd as [Hseg [Hnd Hw]]. apply NoDup_cons in Hnd as [Hnd _].
  eapply returns_mono; [by apply (wakeup_loop_spec _ _ _ wq es ts fuel q s wq)|].
  cbn beta. intros s' (H1 & H2 & H3). split_and!; [done|done| |done].
  destruct Hap as (_ & _ & Hae & Haw). eapply dll_agree; [done|]. intros n Hn.
  assert (∀ ws, Forall (λ w, w ∉ ts ∧ data_word run_queue (q ++ sleepers s ts) w) ws → ∀ w, w ∈ ws → ld (smem s') w = ld (smem s) w) as Hsame.
  { intros ws Hws w Hin. rewrite Forall_forall in Hws. destruct (Hws w Hin). auto. }
  apply elem_of_cons in Hn as [->|(e & -> & He)%list_elem_of_fmap].
  - split; eapply (Hsame _ Haw); set_solver.
  - rewrite Forall_forall in Hae. split; eapply (Hsame _ (Hae e He)); unfold entry_words; set_solver.
Qed.

#[export] Instance default_entry_dec dw s e t : Decision (default_entry dw s e t).
Proof. unfold default_entry. apply _. Defined.
#[export] Instance data_word_dec rq q a : Decision (data_word rq q a).
Proof. unfold data_word. apply _. Defined.
#[export] Instance wake_apart_dec rq wq q' es ts : Decision (wake_apart rq wq q' es ts).
Proof. unfold wake_apart. apply _. Defined.

(** The task 0x1000 runs; 0x2000 and 0x4000 sleep on the queue at 0x700. *)
Definition demo_sleep : sched :=
  let m := st (st (st ∅ 0x1000 5) 0x2000 0x100000006) 0x4000 0x100000007 in
  let m := list_add_tail (run_node 0x1000) 0x500 (INIT_LIST_HEAD 0x500 m) in
  let m := list_add_tail 0x918 0x700 (list_add_tail 0x818 0x700 (INIT_LIST_HEAD 0x700 m)) in
  let m := st (st m 0x808 0x2000) 0x810 0xD0 in
  let m := st (st m 0x908 0x4000) 0x910 0xD0 in
  Sched (Kheap m demo_pmm (replicate 6 0) 0) 0x1000 0x3000 4 0x1000 0 0 0.

Lemma wake_up_wakes_all_witness :
  returns (wake_up 0x500 0xD0 0xD1 3 0x700 demo_sleep) (λ s', queue_is 0x500 s' [0x1000; 0x2000; 0x4000]).
Proof.
  eapply returns_mono; [apply (wake_up_wakes_all 0x500 0xD0 0xD1 0x700 [0x800; 0x900] [0x2000; 0x4000] [0x1000])|].
  - vm_compute. lia.
  - split; [vm_compute; done|]. apply (bool_decide_unpack _). vm_compute. exact I.
  - apply (bool_decide_unpack _). vm_compute. exact I.
  - split; [split; [vm_compute; done|apply (bool_decide_unpack _); vm_compute; exact I]|].
    apply (bool_decide_unpack _). vm_compute. exact I.
  - apply (bool_decide_unpack _). vm_compute. exact I.
  - apply (bool_decide_unpack _). vm_compute. exact I.
  - cbn beta. intros s' [H _]. exact H.
Defined.
