(* ===== verification/Vga.v ===== *)
(** * The text console (drivers/vga/vga.c)

    The 80x25 text buffer as a list of 2000 16-bit cells, and the cursor
    [(x, y)].  A cell outside the buffer is a [Fault]. *)

From S2P Require Import Prelude Types FrameAlloc EarlyPmm Pmm Paging Vmm.

Definition VGA_BUF_WIDTH : Z := 80.
Definition VGA_BUF_HEIGHT : Z := 25.
Definition VGA_CELLS : Z := VGA_BUF_WIDTH * VGA_BUF_HEIGHT.

(** [enum vga_color], by value. *)
Definition VGA_COLOR_BLACK : Z := 0.
Definition VGA_COLOR_GREEN : Z := 2.
Definition VGA_COLOR_RED : Z := 4.
Definition VGA_COLOR_WHITE : Z := 15.
Definition VGA_DEFAULT_TEXT_COLOR : Z := VGA_COLOR_WHITE.

Record vga := Vga { vga_buf : list Z; vga_x : Z; vga_y : Z }.

(** [writew_relaxed] to every cell; the mapping of the buffer goes through
    [ioremap], whose result the code ignores. *)
Fixpoint clear_cells (n : nat) (i : Z) (buf : list Z) : res (list Z) :=
  match n with
  | O => Ok buf
  | S n' => buf ← arr_set buf i 0x00; clear_cells n' (i + 1) buf
  end.

Definition vga_init {F} `{FrameAllocator F} (cpu_has_1g_pages : bool) (kpgd : Z) (s : mmu F) (v : vga) : res (mmu F * vga) :=
  '(_, s) ← ioremap cpu_has_1g_pages kpgd 0xB8000 (VGA_CELLS * 2) s;
  buf ← clear_cells (Z.to_nat VGA_CELLS) 0 (vga_buf v);
  Ok (s, Vga buf (vga_x v) (vga_y v)).

Definition isfull (v : vga) : bool :=
  if vga_y v <? VGA_BUF_HEIGHT then false else if VGA_BUF_WIDTH <=? vga_x v then false else true.

(** [color << 8 | c] in [int], stored as a [uint16_t]: [c] is a signed char. *)
Definition makechar (c color : Z) : Z := u16 (Z.lor (Z.shiftl color 8) (s8 c)).

Definition __vga_write (x y val : Z) (v : vga) : res vga :=
  let offset := u64 (u64 (y * VGA_BUF_WIDTH) + x) in
  buf ← arr_set (vga_buf v) offset val;
  Ok (Vga buf (vga_x v) (vga_y v)).

Definition newline : Z := 10.

Definition vga_putchar_color (c color : Z) (v : vga) : res vga :=
  if isfull v then Ok v else
  if c =? newline then Ok (Vga (vga_buf v) 0 (u64 (vga_y v + 1))) else
  v ← __vga_write (vga_x v) (vga_y v) (makechar c color) v;
  let x := u64 (vga_x v + 1) in
  if x mod VGA_BUF_WIDTH =? 0 then Ok (Vga (vga_buf v) 0 (u64 (vga_y v + 1)))
  else Ok (Vga (vga_buf v) x (vga_y v)).

Definition vga_putchar (c : Z) (v : vga) : res vga := vga_putchar_color c VGA_DEFAULT_TEXT_COLOR v.

(** The characters of the array [s] points to, up to its terminator. *)
Fixpoint vga_print_color (s : list Z) (color : Z) (v : vga) : res vga :=
  match s with
  | [] => Fault
  | c :: s' => if c =? 0 then Ok v else v ← vga_putchar_color c color v; vga_print_color s' color v
  end.

Definition vga_print (s : list Z) (v : vga) : res vga := vga_print_color s VGA_DEFAULT_TEXT_COLOR v.

Definition vga_del_last (v : vga) : res vga :=
  let v :=
    if vga_x v =? 0 then
      Vga (vga_buf v) (if vga_y v =? 0 then 0 else VGA_BUF_WIDTH - 1) (if vga_y v =? 0 then 0 else u64 (vga_y v - 1))
    else Vga (vga_buf v) (u64 (vga_x v - 1)) (vga_y v) in
  __vga_write (vga_x v) (vga_y v) 0x720 v.

(** ** The console as a tape

    The abstract console has one write position; a newline moves it to the
    start of the next line, and at the end of the screen output is dropped. *)

Record tape := Tape { cells : list Z; pos : Z }.

Definition tape_put (c color : Z) (t : tape) : tape :=
  if VGA_CELLS <=? pos t then t
  else if c =? newline then Tape (cells t) (VGA_BUF_WIDTH * (pos t / VGA_BUF_WIDTH + 1))
  else Tape (<[Z.to_nat (pos t) := makechar c color]> (cells t)) (pos t + 1).

Definition tape_del (t : tape) : tape :=
  let p := Z.max 0 (pos t - 1) in Tape (<[Z.to_nat p := 0x720]> (cells t)) p.

Definition vga_inv (v : vga) : Prop :=
  length (vga_buf v) = Z.to_nat VGA_CELLS ∧ 0 <= vga_x v < VGA_BUF_WIDTH ∧ 0 <= vga_y v ∧
  (vga_y v < VGA_BUF_HEIGHT ∨ vga_y v = VGA_BUF_HEIGHT ∧ vga_x v = 0).

Definition tape_of (v : vga) : tape := Tape (vga_buf v) (vga_y v * VGA_BUF_WIDTH + vga_x v).

#[export] Instance vga_inv_dec v : Decision (vga_inv v).
Proof. unfold vga_inv. apply _. Defined.

Ltac vga_unfold := unfold vga_inv, tape_of, tape_put, tape_del, isfull, VGA_CELLS, VGA_BUF_WIDTH, VGA_BUF_HEIGHT, newline in *.

Lemma vga_write_spec x y val v : length (vga_buf v) = Z.to_nat VGA_CELLS → 0 <= x < VGA_BUF_WIDTH → 0 <= y < VGA_BUF_HEIGHT →
  __vga_write x y val v = Ok (Vga (<[Z.to_nat (y * VGA_BUF_WIDTH + x) := val]> (vga_buf v)) (vga_x v) (vga_y v)).
Proof.
  vga_unfold. intros Hl Hx Hy. unfold __vga_write, VGA_BUF_WIDTH.
  assert (u64 (u64 (y * 80) + x) = y * 80 + x) as -> by (unfold u64; zlia).
  by rewrite arr_set_Ok by lia.
Qed.

Lemma vga_putchar_color_spec c color v : vga_inv v →
  returns (vga_putchar_color c color v) (λ v', vga_inv v' ∧ tape_of v' = tape_put c color (tape_of v)).
Proof.
  intros (Hl & Hx & Hy & Hxy). unfold vga_putchar_color.
  destruct (isfull v) eqn:Hf.
  { unfold returns, runs. vga_unfold. cbn [pos cells]. destruct (Z.ltb_spec (vga_y v) 25); [done|]. split; [lia|].
    by destruct (Z.leb_spec (80 * 25) (vga_y v * 80 + vga_x v)); [|lia]. }
  assert (vga_y v < VGA_BUF_HEIGHT) as Hy'.
  { vga_unfold. destruct (Z.ltb_spec (vga_y v) 25); [done|]. destruct (Z.leb_spec 80 (vga_x v)); [lia|done]. }
  assert (u64 (vga_y v + 1) = vga_y v + 1) as Hy1 by (vga_unfold; unfold u64; zlia).
  destruct (c =? newline) eqn:Hc.
  - unfold returns, runs. vga_unfold. cbn [pos cells vga_buf vga_x vga_y]. rewrite Hy1, Hc. split; [lia|].
    destruct (Z.leb_spec (80 * 25) (vga_y v * 80 + vga_x v)); [lia|]. f_equal. zlia.
  - rewrite vga_write_spec, bind_Ok by done. cbn [vga_buf vga_x vga_y].
    assert (u64 (vga_x v + 1) = vga_x v + 1) as -> by (vga_unfold; unfold u64; zlia).
    rewrite Hy1. vga_unfold. cbn [pos cells]. rewrite Hc.
    destruct (Z.leb_spec (80 * 25) (vga_y v * 80 + vga_x v)); [lia|].
    destruct (Z.eqb_spec ((vga_x v + 1) mod 80) 0); unfold returns, runs; cbn [vga_buf vga_x vga_y]; rewrite length_insert; (split; [zlia|f_equal; zlia]).
Qed.

Lemma vga_print_color_spec s color v : vga_inv v → 0 ∉ s →
  returns (vga_print_color (s ++ [0]) color v)
    (λ v', vga_inv v' ∧ tape_of v' = fold_left (λ t c, tape_put c color t) s (tape_of v)).
Proof.
  revert v. induction s as [|c s IH]; intros v Hv Hs; cbn; [done|].
  destruct (Z.eqb_spec c 0) as [->|]; [exfalso; apply Hs; left|].
  eapply returns_bind; [by apply vga_putchar_color_spec|]. intros v' [Hv' Ht].
  rewrite <- Ht. apply IH; [done|]. intros Hin. apply Hs. by right.
Qed.

Lemma vga_del_last_spec v : vga_inv v →
  returns (vga_del_last v) (λ v', vga_inv v' ∧ tape_of v' = tape_del (tape_of v)).
Proof.
  intros (Hl & Hx & Hy & Hxy). unfold vga_del_last.
  destruct (Z.eqb_spec (vga_x v) 0) as [Hx0|Hx0]; [destruct (Z.eqb_spec (vga_y v) 0) as [Hy0|Hy0]|];
    vga_unfold; cbn zeta.
  - rewrite vga_write_spec by (vga_unfold; cbn; lia). cbn. rewrite length_insert. split; [lia|].
    rewrite Hx0, Hy0. done.
  - assert (u64 (vga_y v - 1) = vga_y v - 1) as -> by (unfold u64; zlia).
    rewrite vga_write_spec by (vga_unfold; cbn; lia). cbn [vga_buf vga_x vga_y returns runs]. rewrite length_insert. split; [lia|].
    cbn [pos cells]. vga_unfold. replace (Z.max 0 _) with ((vga_y v - 1) * 80 + (80 - 1)) by lia. done.
  - assert (u64 (vga_x v - 1) = vga_x v - 1) as -> by (unfold u64; zlia).
    rewrite vga_write_spec by (vga_unfold; cbn; lia). cbn [vga_buf vga_x vga_y returns runs]. rewrite length_insert. split; [lia|].
    cbn [pos cells]. vga_unfold. replace (Z.max 0 _) with (vga_y v * 80 + (vga_x v - 1)) by lia. done.
Qed.

(** Plain text that fits lands in consecutive cells. *)
Lemma tape_put_text s color t : newline ∉ s → 0 <= pos t → pos t + Z.of_nat (length s) <= VGA_CELLS →
  length (cells t) = Z.to_nat VGA_CELLS →
  let t' := fold_left (λ t c, tape_put c color t) s t in
  pos t' = pos t + Z.of_nat (length s) ∧
  cells t' = take (Z.to_nat (pos t)) (cells t) ++ ((λ c, makechar c color) <$> s) ++
             drop (Z.to_nat (pos t) + length s) (cells t).
Proof.
  revert t. induction s as [|c s IH]; intros t Hs Hp Hfit Hl.
  { cbn. rewrite Nat.add_0_r, take_drop. split; [lia|done]. }
  cbn [length] in Hfit. cbv zeta. cbn [fold_left].
  assert (tape_put c color t = Tape (<[Z.to_nat (pos t) := makechar c color]> (cells t)) (pos t + 1)) as ->.
  { unfold tape_put. destruct (Z.leb_spec VGA_CELLS (pos t)); [lia|].
    destruct (Z.eqb_spec c newline) as [->|]; [|done]. exfalso. apply Hs. left. }
  destruct (IH (Tape (<[Z.to_nat (pos t) := makechar c color]> (cells t)) (pos t + 1))) as [H1 H2]; cbn.
  - intros Hin. apply Hs. by right.
  - lia.
  - lia.
  - by rewrite length_insert.
  - cbn in H1, H2. rewrite H1, H2. split; [lia|].
    replace (Z.to_nat (pos t + 1)) with (S (Z.to_nat (pos t))) by lia.
    assert (Z.to_nat (pos t) < length (cells t))%nat as Hlt by (unfold VGA_CELLS, VGA_BUF_WIDTH, VGA_BUF_HEIGHT in *; lia).
    rewrite (take_S_r _ _ (makechar c color)) by by apply list_lookup_insert_eq.
    rewrite take_insert_ge, drop_insert_lt by lia. rewrite <- app_assoc. cbn.
    replace (S (Z.to_nat (pos t) + length s)) with (Z.to_nat (pos t) + S (length s))%nat by lia. done.
Qed.

(** C36: the console driver refines the tape.  From a cursor on the screen,
    printing a string, putting a character and deleting the last one never
    touch a cell outside the 2000 of the text buffer; afterwards the cursor is
    again on the screen or just past its end, and the buffer and the cursor
    are those of the abstract console: characters go to consecutive cells, a
    newline skips to the next line, deletion blanks the previous cell, and
    once the last line is full everything printed is dropped. *)
Theorem vga_refines_tape s c color v : vga_inv v → 0 ∉ s →
  returns (vga_putchar_color c color v) (λ v', vga_inv v' ∧ tape_of v' = tape_put c color (tape_of v)) ∧
  returns (vga_del_last v) (λ v', vga_inv v' ∧ tape_of v' = tape_del (tape_of v)) ∧
  returns (vga_print_color (s ++ [0]) color v) (λ v', vga_inv v' ∧
    tape_of v' = fold_left (λ t c, tape_put c color t) s (tape_of v) ∧
    (newline ∉ s → pos (tape_of v) + Z.of_nat (length s) <= VGA_CELLS →
     vga_buf v' = take (Z.to_nat (pos (tape_of v))) (vga_buf v) ++ ((λ c, makechar c color) <$> s) ++
                  drop (Z.to_nat (pos (tape_of v)) + length s) (vga_buf v))).
Proof.
  intros Hv Hs. split; [by apply vga_putchar_color_spec|]. split; [by apply vga_del_last_spec|].
  eapply returns_mono; [by apply vga_print_color_spec|]. intros v' [Hv' Ht]. split; [done|]. split; [done|].
  intros Hn Hfit. destruct Hv as (Hl & ? & ? & ?).
  destruct (tape_put_text s color (tape_of v)) as [_ Hc]; [done|vga_unfold; cbn; lia|done|done|].
  rewrite <- Ht in Hc. exact Hc.
Qed.

(** The cursor two cells before the end of the screen. *)
Definition demo_vga : vga := Vga (replicate 2000 0) 78 24.

Lemma vga_refines_tape_witness : vga_inv demo_vga ∧
  ok (vga_print_color ([72; 105] ++ [0]) VGA_COLOR_WHITE demo_vga) = true ∧
  returns (vga_print_color ([72; 105] ++ [0]) VGA_COLOR_WHITE demo_vga) (λ v', vga_inv v' ∧
    drop 1998 (vga_buf v') = [0x0F48; 0x0F69]).
Proof.
  assert (vga_inv demo_vga) as Hv by (apply (bool_decide_unpack _); vm_compute; exact I).
  split; [exact Hv|]. split; [vm_compute; reflexivity|].
  destruct (vga_refines_tape [72; 105] 65 VGA_COLOR_WHITE demo_vga) as (_ & _ & H).
  - exact Hv.
  - apply (bool_decide_unpack _). vm_compute. exact I.
  - eapply returns_mono; [exact H|]. intros v' (Hv' & _ & Hb). split; [exact Hv'|].
    rewrite Hb; [vm_compute; reflexivity|apply (bool_decide_unpack _); vm_compute; exact I|vm_compute; discriminate].
Defined.

(** A character with the top bit set loses its colour: the sign extension of
    the [char] sets every attribute bit. *)
Lemma makechar_high c color : 128 <= c < 256 → 0 <= color < 16 → makechar c color = 0xFF00 + c.
Proof.
  intros Hc Hcol. unfold makechar. assert (s8 c = c - 256) as -> by (unfold s8, u8; destruct (Z.ltb_spec (c mod 2 ^ 8) (2 ^ 7)); zlia).
  assert (Z.lor (Z.shiftl color 8) (c - 256) = c - 256) as ->; [|unfold u16; zlia].
  apply Z.bits_inj'. intros n Hn. rewrite Z.lor_spec, Z.shiftl_spec by done.
  destruct (Z.ltb_spec n 8); [by rewrite Z.testbit_neg_r by lia|].
  assert (Z.testbit (c - 256) n = true) as ->; [|by rewrite orb_true_r].
  replace (c - 256) with (Z.lnot (255 - c)) by (unfold Z.lnot; lia).
  rewrite Z.lnot_spec by done. by rewrite (testbit_above 7) by lia.
Qed.
