(* ===== verification/Tty.v ===== *)
(** * The terminal (kernel/tty.c, arch/x86_64/uaccess.asm)

    [tty_struct] as a record around its 512-byte ring; its two wait-queue heads
    are addresses in the memory of the scheduler state.  The console state
    joins the terminal, the screen, the scheduler and the bytes of the user
    address space.  The spinlock only disables interrupts around a handler,
    which here runs to completion. *)

From S2P Require Import Prelude Types FrameAlloc EarlyPmm Pmm Paging Vmm Kmalloc ListHead Sched Wait Vga.

Definition TTY_BUF_SIZE : Z := 512.
Definition TTY_BOUNCE_BUF_SIZE : Z := 128.

Record tty_struct := Tty {
  tty_buffer : list Z;
  tty_head : Z;
  tty_tail : Z;
  canon_lines : Z;
  fg_pid : Z;
  leader_pid : Z
}.

Definition __tty_has_line (tty : tty_struct) : bool := 0 <? canon_lines tty.
Definition __tty_is_empty (tty : tty_struct) : bool := tty_head tty =? tty_tail tty.

(** ** Typing *)

Definition __handle_backspace (tty : tty_struct) (v : vga) : res (tty_struct * vga) :=
  if negb (__tty_is_empty tty) then
    let tail := if tty_tail tty =? 0 then TTY_BUF_SIZE - 1 else u64 (tty_tail tty - 1) in
    v ← vga_del_last v;
    Ok (Tty (tty_buffer tty) (tty_head tty) tail (canon_lines tty) (fg_pid tty) (leader_pid tty), v)
  else Ok (tty, v).

Definition backspace : Z := 8.

(** The locked part of [tty_push_char]. *)
Definition tty_push (input : Z) (tty : tty_struct) (v : vga) : res (bool * tty_struct * vga) :=
  if input =? backspace then '(tty, v) ← __handle_backspace tty v; Ok (false, tty, v) else
  let tail := u32 (u64 (tty_tail tty + 1) mod TTY_BUF_SIZE) in
  tty ← (if negb (tail =? tty_head tty) then
           buf ← arr_set (tty_buffer tty) (tty_tail tty) input;
           Ok (Tty buf (tty_head tty) tail (canon_lines tty) (fg_pid tty) (leader_pid tty))
         else Ok tty);
  let new_line := input =? newline in
  let tty := if new_line then
      Tty (tty_buffer tty) (tty_head tty) (tty_tail tty) (u64 (canon_lines tty + 1)) (fg_pid tty) (leader_pid tty)
    else tty in
  v ← vga_putchar input v;
  Ok (new_line, tty, v).

(** ** Reading *)

(** The copy loop of [__tty_read]: [n] iterations from index [i]. *)
Fixpoint tty_read_copy (n : nat) (i : Z) (tty : tty_struct) (buf : list Z) : res (Z * bool * list Z) :=
  match n with
  | O => Ok (i, false, buf)
  | S n' =>
      c ← arr_get (tty_buffer tty) (u64 (tty_head tty + i) mod TTY_BUF_SIZE);
      buf ← arr_set buf i c;
      if c =? newline then Ok (i + 1, true, buf) else tty_read_copy n' (i + 1) tty buf
  end.

Definition __tty_read (tty : tty_struct) (buf : list Z) (count : Z) : res (Z * tty_struct * list Z) :=
  if negb (__tty_has_line tty) then Ok (0, tty, buf) else
  let available := if tty_head tty <? tty_tail tty then tty_tail tty - tty_head tty
                   else TTY_BUF_SIZE - tty_head tty + tty_tail tty in
  let tocopy := size_min available count in
  '(i, line, buf) ← tty_read_copy (Z.to_nat tocopy) 0 tty buf;
  let canon := if line : bool then u64 (canon_lines tty - 1) else canon_lines tty in
  Ok (i, Tty (tty_buffer tty) (u64 (tty_head tty + i) mod TTY_BUF_SIZE) (tty_tail tty) canon (fg_pid tty) (leader_pid tty), buf).

(** ** The user address space

    [rep movsb] stores byte after byte; an address that is not mapped ends the
    copy at the fix-up, which returns the bytes that remain. *)

Fixpoint copy_to_user (dest : Z) (src : list Z) (um : gmap Z Z) : Z * gmap Z Z :=
  match src with
  | [] => (0, um)
  | c :: src' =>
      match um !! dest with
      | None => (Z.of_nat (length src), um)
      | Some _ => copy_to_user (u64 (dest + 1)) src' (<[dest := c]> um)
      end
  end.

(** [copy_from_user] zeroes the rest of the destination on a fault. *)
Fixpoint copy_from_user (src : Z) (n : nat) (um : gmap Z Z) : list Z * Z :=
  match n with
  | O => ([], 0)
  | S n' =>
      match um !! src with
      | None => (replicate n 0, Z.of_nat n)
      | Some c => let '(l, k) := copy_from_user (u64 (src + 1)) n' um in (c :: l, k)
      end
  end.

(** ** The console *)

Record console := Con { ctty : tty_struct; cvga : vga; csched : sched; cuser : gmap Z Z }.

Definition set_ctty t c := Con t (cvga c) (csched c) (cuser c).
Definition set_csched s c := Con (ctty c) (cvga c) s (cuser c).
Definition set_cuser u c := Con (ctty c) (cvga c) (csched c) u.

Section tty.
Context (run_queue default_wake pid_filter_wake : Z) (list_fuel : nat).
Context (read_wait fg_wait : Z).

Definition tty_push_char (input : Z) (c : console) : res console :=
  '(new_line, t, v) ← tty_push input (ctty c) (cvga c);
  let c := Con t v (csched c) (cuser c) in
  if new_line : bool then
    s ← wake_up run_queue default_wake pid_filter_wake list_fuel read_wait (csched c);
    Ok (set_csched s c)
  else Ok c.

Definition __is_fg (tty : tty_struct) (t : Z) (s : sched) : bool := fg_pid tty =? t_pid (smem s) t.

(** The locals of [tty_read] that live across iterations. *)
Record rd := Rd { rd_buf : Z; rd_ret : Z; rd_total : Z; rd_bounce : list Z }.

(** How an iteration ends: the call returns, the task calls [schedule] and
    continues once it runs again, or the loop goes on. *)
Inductive rd_next :=
| RdDone (ret : Z) (c : console)
| RdSleep (l : rd) (c : console)
| RdAgain (l : rd) (c : console).

Section call.
(** The addresses of the two wait-queue entries on the caller's stack. *)
Context (wait_fg wait_read : Z).

(** [init_waitqueue_entry] twice, and the wake function of [wait_fg]. *)
Definition tty_read_enter (s : sched) : sched :=
  let s := init_waitqueue_entry default_wake wait_fg (current_task s) s in
  let s := init_waitqueue_entry default_wake wait_read (current_task s) s in
  set_smem (st (smem s) (u64 (wait_fg + 16)) pid_filter_wake) s.

Definition tty_read_exit (total : Z) (c : console) : rd_next :=
  let s := finish_wait fg_wait wait_fg (csched c) in
  let s := finish_wait read_wait wait_read s in
  RdDone total (set_csched s c).

Definition tty_read_iter (count : Z) (l : rd) (c : console) : res rd_next :=
  if negb (rd_total l <? count) then Ok (tty_read_exit (rd_total l) c) else
  let s := prepare_to_wait fg_wait wait_fg TASK_INTERRUPTIBLE (csched c) in
  let s := prepare_to_wait read_wait wait_read TASK_INTERRUPTIBLE s in
  let c := set_csched s c in
  let lines_before := canon_lines (ctty c) in
  '(ret, tty, bounce) ←
    (if __is_fg (ctty c) (current_task s) s then
       let req_count := size_min (count - rd_total l) TTY_BOUNCE_BUF_SIZE in
       __tty_read (ctty c) (rd_bounce l) req_count
     else Ok (rd_ret l, ctty c, rd_bounce l));
  let c := set_ctty tty c in
  let lines_after := canon_lines (ctty c) in
  let l := Rd (rd_buf l) ret (rd_total l) bounce in
  if (rd_total l =? 0) && (ret =? 0) then
    Ok (RdSleep l (set_csched (schedule run_queue (csched c)) c))
  else if ret =? 0 then Ok (tty_read_exit (rd_total l) c) else
  let '(uncopied, um) := copy_to_user (rd_buf l) (take (Z.to_nat ret) bounce) (cuser c) in
  let c := set_cuser um c in
  let copied := u64 (ret - uncopied) in
  let total := u64 (rd_total l + copied) in
  let l := Rd (u64 (rd_buf l + copied)) ret total bounce in
  if total =? 0 then Ok (RdDone (- EFAULT) c)
  else if negb (uncopied =? 0) then Ok (tty_read_exit total c)
  else if negb (lines_after =? lines_before) then Ok (tty_read_exit total c)
  else Ok (RdAgain l c).

(** The loop up to its next call of [schedule] or its end. *)
Fixpoint tty_read_loop (fuel : nat) (count : Z) (l : rd) (c : console) : res rd_next :=
  match fuel with
  | O => OutOfFuel
  | S fuel' =>
      n ← tty_read_iter count l c;
      match n with
      | RdAgain l c => tty_read_loop fuel' count l c
      | n => Ok n
      end
  end.

(** [bounce] holds whatever the stack held. *)
Definition tty_read (fuel : nat) (buf count : Z) (bounce : list Z) (c : console) : res rd_next :=
  tty_read_loop fuel count (Rd buf 0 0 bounce) (set_csched (tty_read_enter (csched c)) c).

(** ** Writing *)

Fixpoint put_all (l : list Z) (v : vga) : res vga :=
  match l with
  | [] => Ok v
  | c :: l' => v ← vga_putchar c v; put_all l' v
  end.

(** The copy loop of [__tty_write]. *)
Fixpoint tty_write_loop (fuel : nat) (buf total count : Z) (c : console) : res (Z * console) :=
  match fuel with
  | O => OutOfFuel
  | S fuel' =>
      if negb (total <? count) then Ok (total, c) else
      let to_copy := size_min (count - total) TTY_BOUNCE_BUF_SIZE in
      let '(bounce, uncopied) := copy_from_user buf (Z.to_nat to_copy) (cuser c) in
      let copied := u64 (to_copy - uncopied) in
      v ← put_all (take (Z.to_nat copied) bounce) (cvga c);
      let c := Con (ctty c) v (csched c) (cuser c) in
      let total := u64 (total + copied) in
      if total =? 0 then Ok (- EFAULT, c)
      else if negb (uncopied =? 0) then Ok (total, c)
      else tty_write_loop fuel' (u64 (buf + copied)) total count c
  end.

(** [init_waitqueue_entry] and the wake function of the entry. *)
Definition tty_write_enter (s : sched) : sched :=
  let s := init_waitqueue_entry default_wake wait_fg (current_task s) s in
  set_smem (st (smem s) (u64 (wait_fg + 16)) pid_filter_wake) s.

(** One turn of the foreground wait: [None] when the task went to sleep. *)
Definition tty_write_wait (c : console) : bool * console :=
  let s := prepare_to_wait fg_wait wait_fg TASK_INTERRUPTIBLE (csched c) in
  if __is_fg (ctty c) (current_task s) s then (true, set_csched (finish_wait fg_wait wait_fg s) c)
  else (false, set_csched (schedule run_queue s) c).

(** [Some] the result, or [None] when the writer is asleep waiting for the
    foreground. *)
Definition __tty_write (fuel : nat) (buf count : Z) (c : console) : res (option Z * console) :=
  let c := set_csched (tty_write_enter (csched c)) c in
  let '(fg, c) := tty_write_wait c in
  if fg : bool then '(r, c) ← tty_write_loop fuel buf 0 count c; Ok (Some r, c) else Ok (None, c).
End call.
End tty.

(** ** The ring as a queue of characters *)

Definition tty_inv (t : tty_struct) : Prop :=
  length (tty_buffer t) = Z.to_nat TTY_BUF_SIZE ∧ 0 <= tty_head t < TTY_BUF_SIZE ∧ 0 <= tty_tail t < TTY_BUF_SIZE ∧
  0 <= canon_lines t < 2 ^ 64.

#[export] Instance tty_inv_dec t : Decision (tty_inv t).
Proof. unfold tty_inv. apply _. Defined.

Definition ring_len (t : tty_struct) : Z := (tty_tail t - tty_head t) mod TTY_BUF_SIZE.
Definition ring_at (t : tty_struct) (i : nat) : Z := znth 0 (tty_buffer t) ((tty_head t + Z.of_nat i) mod TTY_BUF_SIZE).
Definition ring (t : tty_struct) : list Z := ring_at t <$> seq 0 (Z.to_nat (ring_len t)).

(** The terminal's queue as the line discipline means it. *)
Definition queue_push (c : Z) (l : list Z) : list Z :=
  if bool_decide (Z.of_nat (length l) < TTY_BUF_SIZE - 1) then l ++ [c] else l.

Lemma ring_len_range t : 0 <= ring_len t < TTY_BUF_SIZE.
Proof. unfold ring_len, TTY_BUF_SIZE. zlia. Qed.

Lemma length_ring t : length (ring t) = Z.to_nat (ring_len t).
Proof. unfold ring. by rewrite length_fmap, length_seq. Qed.

Lemma ring_lookup t i : (i < Z.to_nat (ring_len t))%nat → ring t !! i = Some (ring_at t i).
Proof. intros Hi. unfold ring. rewrite list_lookup_fmap, lookup_seq_lt by done. done. Qed.

(** A list is the ring of a terminal when it has its length and elements. *)
Lemma ring_eq t l : length l = Z.to_nat (ring_len t) → (∀ i x, l !! i = Some x → ring_at t i = x) → ring t = l.
Proof.
  intros Hl Hx. apply list_eq_same_length with (n := length l); [done|by rewrite length_ring|].
  intros i x y Hi H1 H2. rewrite ring_lookup in H1 by lia. apply Hx in H2. congruence.
Qed.

Lemma ring_nil t : tty_inv t → ring t = [] ↔ tty_head t = tty_tail t.
Proof.
  intros (_ & Hh & Ht & _). unfold TTY_BUF_SIZE in *. split.
  - intros Hr. assert (length (ring t) = 0)%nat as Hl by by rewrite Hr. rewrite length_ring in Hl. unfold ring_len, TTY_BUF_SIZE in Hl. zlia.
  - intros Heq. apply nil_length_inv. rewrite length_ring. unfold ring_len. rewrite Heq, Z.sub_diag. done.
Qed.

(** Enqueueing: the cell at the tail is outside the live window. *)
Lemma ring_snoc t c buf' canon : tty_inv t → ring_len t < TTY_BUF_SIZE - 1 → buf' = <[Z.to_nat (tty_tail t) := c]> (tty_buffer t) →
  ring (Tty buf' (tty_head t) ((tty_tail t + 1) mod TTY_BUF_SIZE) canon (fg_pid t) (leader_pid t)) = ring t ++ [c].
Proof.
  intros (Hl & Hh & Ht & _) Hlen ->. pose proof (ring_len_range t) as Hr. unfold TTY_BUF_SIZE in *.
  assert (ring_len (Tty (<[Z.to_nat (tty_tail t) := c]> (tty_buffer t)) (tty_head t) ((tty_tail t + 1) mod 512) canon (fg_pid t) (leader_pid t))
    = ring_len t + 1) as Hn by (unfold ring_len, TTY_BUF_SIZE in *; cbn [tty_head tty_tail]; zlia).
  apply ring_eq; [rewrite length_app, length_ring, Hn; cbn; lia|].
  intros i x Hx. unfold ring_at, TTY_BUF_SIZE. cbn [tty_buffer tty_head].
  apply lookup_snoc_Some in Hx as [[Hi Hx]|[-> ->]]; rewrite length_ring in *.
  - rewrite ring_lookup in Hx by done. injection Hx as <-. unfold ring_at. rewrite znth_insert_ne; [done|lia|apply Z.mod_pos_bound; lia|].
    clear -Hi Hh Ht Hlen. unfold ring_len, TTY_BUF_SIZE in *. zlia.
  - rewrite Z2Nat.id by lia.
    assert ((tty_head t + ring_len t) mod 512 = tty_tail t) as -> by (unfold ring_len, TTY_BUF_SIZE; zlia).
    apply znth_insert_eq. lia.
Qed.

(** Moving the tail back drops the last character. *)
Lemma ring_unsnoc t tail : tty_inv t → tty_head t ≠ tty_tail t → tail = (tty_tail t - 1) mod TTY_BUF_SIZE →
  ring (Tty (tty_buffer t) (tty_head t) tail (canon_lines t) (fg_pid t) (leader_pid t)) = removelast (ring t).
Proof.
  intros (Hl & Hh & Ht & _) Hne ->. pose proof (ring_len_range t) as Hr. unfold TTY_BUF_SIZE in *.
  assert (ring_len (Tty (tty_buffer t) (tty_head t) ((tty_tail t - 1) mod 512) (canon_lines t) (fg_pid t) (leader_pid t))
    = ring_len t - 1) as Hn by (unfold ring_len, TTY_BUF_SIZE in *; cbn [tty_head tty_tail]; zlia).
  assert (0 < ring_len t) as Hpos by (unfold ring_len, TTY_BUF_SIZE; zlia).
  assert (removelast (ring t) = take (length (ring t) - 1) (ring t)) as ->.
  { rewrite removelast_firstn_len. f_equal. lia. }
  apply ring_eq; [rewrite length_take, length_ring, Hn; lia|].
  intros i x [Hx Hi]%lookup_take_Some. rewrite length_ring in Hi. rewrite ring_lookup in Hx by lia. by injection Hx as <-.
Qed.

(** Advancing the head drops a prefix. *)
Lemma ring_drop t k head canon : tty_inv t → 0 <= k <= ring_len t → head = (tty_head t + k) mod TTY_BUF_SIZE →
  ring (Tty (tty_buffer t) head (tty_tail t) canon (fg_pid t) (leader_pid t)) = drop (Z.to_nat k) (ring t).
Proof.
  intros (Hl & Hh & Ht & _) Hk ->. pose proof (ring_len_range t) as Hr. unfold TTY_BUF_SIZE in *.
  assert (ring_len (Tty (tty_buffer t) ((tty_head t + k) mod 512) (tty_tail t) canon (fg_pid t) (leader_pid t))
    = ring_len t - k) as Hn by (unfold ring_len, TTY_BUF_SIZE in *; cbn [tty_head tty_tail]; zlia).
  apply ring_eq; [rewrite length_drop, length_ring, Hn; lia|].
  intros i x Hx. rewrite lookup_drop in Hx. pose proof (lookup_lt_Some _ _ _ Hx) as Hi. rewrite length_ring in Hi.
  rewrite ring_lookup in Hx by lia. injection Hx as <-. unfold ring_at, TTY_BUF_SIZE. cbn [tty_buffer tty_head]. f_equal. zlia.
Qed.

(** The number of complete lines in a queue, which [canon_lines] is meant to
    hold. *)
Definition lines (l : list Z) : Z := Z.of_nat (length (filter (.= newline) l)).
Definition canon_ok (t : tty_struct) : Prop := canon_lines t = lines (ring t).

Lemma lines_snoc l c : lines (l ++ [c]) = lines l + (if c =? newline then 1 else 0).
Proof.
  unfold lines. rewrite filter_app, length_app. destruct (Z.eqb_spec c newline) as [->|Hc].
  - rewrite filter_cons_True by done. cbn. lia.
  - rewrite filter_cons_False by done. cbn. lia.
Qed.

Lemma lines_length l : 0 <= lines l <= Z.of_nat (length l).
Proof. unfold lines. pose proof (length_filter (.= newline) l). lia. Qed.

Lemma removelast_snoc {A} (l : list A) x : removelast (l ++ [x]) = l.
Proof. rewrite removelast_app by done. cbn. by rewrite app_nil_r. Qed.

(** What one typed character does to the queue, the line count and the
    screen. *)
Definition push_post (input : Z) (t : tty_struct) (v : vga) (t' : tty_struct) (v' : vga) : Prop :=
  tty_inv t' ∧ vga_inv v' ∧ fg_pid t' = fg_pid t ∧
  if input =? backspace then
    ring t' = removelast (ring t) ∧ canon_lines t' = canon_lines t ∧
    tape_of v' = if bool_decide (ring t = []) then tape_of v else tape_del (tape_of v)
  else
    ring t' = queue_push input (ring t) ∧
    canon_lines t' = u64 (canon_lines t + (if input =? newline then 1 else 0)) ∧
    tape_of v' = tape_put input VGA_DEFAULT_TEXT_COLOR (tape_of v).

Lemma tty_backspace_spec t v : tty_inv t → vga_inv v →
  returns (__handle_backspace t v) (λ '(t', v'), push_post backspace t v t' v').
Proof.
  intros Hinv Hv. pose proof (ring_nil t Hinv) as Hnil. unfold __handle_backspace, __tty_is_empty.
  destruct (Z.eqb_spec (tty_head t) (tty_tail t)) as [Heq|Hne]; cbn [negb].
  - unfold returns, runs, push_post. rewrite Z.eqb_refl. rewrite bool_decide_eq_true_2 by tauto.
    rewrite (proj2 Hnil Heq). done.
  - eapply returns_bind; [by apply vga_del_last_spec|]. intros v' [Hv' Ht]. unfold returns, runs, push_post. rewrite Z.eqb_refl.
    rewrite bool_decide_eq_false_2 by tauto. pose proof Hinv as (Hl & Hh & Htl & Hc).
    assert ((if tty_tail t =? 0 then TTY_BUF_SIZE - 1 else u64 (tty_tail t - 1)) = (tty_tail t - 1) mod TTY_BUF_SIZE) as ->.
    { unfold TTY_BUF_SIZE, u64 in *. destruct (Z.eqb_spec (tty_tail t) 0); zlia. }
    split; [|split; [done|split; [done|split; [|split; [done|done]]]]].
    + split; [done|]. split; [done|]. split; [|done]. unfold TTY_BUF_SIZE. cbn. apply Z.mod_pos_bound. lia.
    + by apply ring_unsnoc.
Qed.

Lemma tty_push_spec input t v : tty_inv t → vga_inv v →
  returns (tty_push input t v) (λ '(nl, t', v'), nl = (input =? newline) ∧ push_post input t v t' v').
Proof.
  intros Hinv Hv. unfold tty_push. destruct (Z.eqb_spec input backspace) as [->|Hb].
  { eapply returns_bind; [by apply tty_backspace_spec|]. intros [t' v'] Hp. done. }
  pose proof Hinv as (Hl & Hh & Htl & Hc). pose proof (ring_len_range t) as Hr.
  assert (u32 (u64 (tty_tail t + 1) mod TTY_BUF_SIZE) = (tty_tail t + 1) mod TTY_BUF_SIZE) as ->
    by (unfold u32, u64, TTY_BUF_SIZE in *; zlia).
  eapply (returns_bind _ _ (λ t1, tty_inv t1 ∧ ring t1 = queue_push input (ring t) ∧ canon_lines t1 = canon_lines t ∧ fg_pid t1 = fg_pid t)).
  - unfold queue_push. rewrite length_ring, Z2Nat.id by lia.
    destruct (Z.eqb_spec ((tty_tail t + 1) mod TTY_BUF_SIZE) (tty_head t)) as [Heq|Hne]; cbn [negb].
    + rewrite bool_decide_eq_false_2 by (unfold ring_len, TTY_BUF_SIZE in *; zlia). done.
    + assert (ring_len t < TTY_BUF_SIZE - 1) as Hlt by (unfold ring_len, TTY_BUF_SIZE in *; zlia).
      rewrite bool_decide_eq_true_2, arr_set_Ok, bind_Ok by (unfold TTY_BUF_SIZE in *; lia).
      split; [|split; [by apply ring_snoc|done]]. unfold tty_inv. cbn [tty_buffer tty_head tty_tail canon_lines].
      rewrite length_insert. split; [done|]. split; [done|]. split; [|done]. apply Z.mod_pos_bound. done.
  - intros t1 ((Hl1 & Hh1 & Ht1 & Hc1) & Hr1 & Hcan & Hfg). eapply returns_bind; [by apply vga_putchar_color_spec|].
    intros v' [Hv' Htape]. unfold returns, runs, push_post. rewrite (proj2 (Z.eqb_neq input backspace)) by done.
    split; [done|]. destruct (input =? newline); rewrite <- ?Hcan, ?Z.add_0_r; (split; [|split_and!; try done]).
    + unfold tty_inv. cbn [tty_buffer tty_head tty_tail canon_lines]. split; [done|]. split; [done|]. split; [done|]. apply u64_range.
    + done.
    + symmetry. by apply u64_small.
Qed.

(** C28: typing refines a bounded queue.  On every character [tty_push_char]
    stays inside the ring and the screen: a backspace drops the last queued
    character and blanks its cell (and does nothing on an empty queue), any
    other character is appended while fewer than 511 are queued, dropped
    otherwise, and echoed; a newline counts a line and wakes the readers,
    nothing else does.  The line count stays the number of newlines queued
    unless a newline is typed into a full queue or a newline is erased. *)
Theorem tty_push_char_correct run_queue default_wake pid_filter_wake fuel read_wait input c :
  tty_inv (ctty c) → vga_inv (cvga c) →
  (input = newline → ok (wake_up run_queue default_wake pid_filter_wake fuel read_wait (csched c)) = true) →
  returns (tty_push_char run_queue default_wake pid_filter_wake fuel read_wait input c) (λ c',
    push_post input (ctty c) (cvga c) (ctty c') (cvga c') ∧ cuser c' = cuser c ∧
    (if input =? newline
     then wake_up run_queue default_wake pid_filter_wake fuel read_wait (csched c) = Ok (csched c')
     else csched c' = csched c) ∧
    (canon_ok (ctty c) → (input = newline → Z.of_nat (length (ring (ctty c))) < TTY_BUF_SIZE - 1) →
     (input = backspace → last (ring (ctty c)) ≠ Some newline) → canon_ok (ctty c'))).
Proof.
  intros Ht Hv Hw. unfold tty_push_char. eapply returns_bind; [by apply tty_push_spec|].
  intros [[nl t'] v'] [-> Hp].
  assert (canon_ok (ctty c) → (input = newline → Z.of_nat (length (ring (ctty c))) < TTY_BUF_SIZE - 1) →
     (input = backspace → last (ring (ctty c)) ≠ Some newline) → canon_ok t') as Hcan.
  { destruct Hp as (_ & _ & _ & Hp). unfold canon_ok in *. intros Hok Hn Hb. destruct (Z.eqb_spec input backspace) as [->|Hne].
    - destruct Hp as (-> & -> & _). specialize (Hb eq_refl). rewrite Hok. destruct (ring (ctty c)) as [|x l _] using rev_ind; [done|].
      rewrite removelast_snoc, lines_snoc. rewrite last_snoc in Hb. destruct (Z.eqb_spec x newline) as [->|]; [done|]. lia.
    - destruct Hp as (-> & -> & _). rewrite Hok. unfold queue_push.
      pose proof (lines_length (ring (ctty c))) as Hll. rewrite length_ring in Hll. pose proof (ring_len_range (ctty c)) as Hrl.
      unfold TTY_BUF_SIZE in *. destruct (Z.eqb_spec input newline) as [->|Hnn].
      + rewrite bool_decide_eq_true_2 by auto. rewrite lines_snoc, Z.eqb_refl. apply u64_small. lia.
      + rewrite u64_small by lia. case_bool_decide; [|lia]. rewrite lines_snoc. by rewrite (proj2 (Z.eqb_neq input newline)). }
  cbv zeta. destruct (Z.eqb_spec input newline) as [->|Hne]; [|done].
  specialize (Hw eq_refl). cbn [csched]. destruct (wake_up _ _ _ _ _ _) as [s'| | |]; [|done..]. rewrite bind_Ok. done.
Qed.

Definition demo_tty : tty_struct := Tty (<[510%nat := 104]> (<[511%nat := 105]> (replicate 512 0))) 510 0 0 5 1.
Definition demo_console : console := Con demo_tty demo_vga demo_sleep ∅.

Lemma tty_push_char_correct_witness : ring demo_tty = [104; 105] ∧
  returns (tty_push_char 0x500 0xD0 0xD1 3 0x700 newline demo_console) (λ c', ring (ctty c') = [104; 105; newline] ∧ canon_ok (ctty c')).
Proof.
  split; [vm_compute; reflexivity|].
  eapply returns_mono; [apply (tty_push_char_correct 0x500 0xD0 0xD1 3 0x700 newline demo_console)|].
  - apply (bool_decide_unpack _). vm_compute. exact I.
  - apply (bool_decide_unpack _). vm_compute. exact I.
  - intros _. vm_compute. reflexivity.
  - cbn beta. intros c' ((_ & _ & _ & Hr & _) & _ & _ & Hc). split.
    + rewrite Hr. vm_compute. reflexivity.
    + apply Hc; [vm_compute; reflexivity|intros _; vm_compute; reflexivity|intros H; vm_compute in H; discriminate H].
Defined.

(** ** Reading a line *)

(** The first [n] characters, stopping after a newline. *)
Fixpoint take_line (n : nat) (l : list Z) : list Z :=
  match n, l with
  | S n', c :: l' => if c =? newline then [c] else c :: take_line n' l'
  | _, _ => []
  end.

Lemma take_line_length n l : (length (take_line n l) <= n `min` length l)%nat.
Proof.
  revert l. induction n as [|n IH]; intros [|c l]; cbn [take_line length]; try lia.
  destruct (c =? newline); cbn [length]; [lia|]. specialize (IH l). lia.
Qed.

(** Reading from a queue that starts with a complete line. *)
Lemma take_line_spec n l r k : newline ∉ l → (n <= length l + S (length r))%nat →
  k = (n `min` S (length l))%nat →
  take_line n (take n (l ++ newline :: r)) = take k (l ++ newline :: r) ∧
  bool_decide (newline ∈ take k (l ++ newline :: r)) = bool_decide (length l < n)%nat.
Proof.
  intros Hl. revert n k. induction l as [|c l IH]; intros [|n] k Hn ->; cbn [app take take_line Nat.min length].
  - rewrite bool_decide_eq_false_2 by (apply not_elem_of_nil). done.
  - rewrite Z.eqb_refl, Nat.min_0_r. rewrite !bool_decide_eq_true_2; [done|lia|by left].
  - rewrite bool_decide_eq_false_2 by (apply not_elem_of_nil). done.
  - apply not_elem_of_cons in Hl as [Hc Hl]. rewrite (proj2 (Z.eqb_neq c newline)) by done.
    destruct (IH Hl n (n `min` S (length l))%nat) as [H1 H2]; [cbn in Hn; lia|done|]. rewrite H1. split; [done|].
    apply bool_decide_ext. rewrite elem_of_cons.
    destruct (decide (length l < n)%nat) as [Hlt|Hge].
    + rewrite (bool_decide_eq_true_2 _ Hlt) in H2. apply bool_decide_eq_true in H2. split; [lia|by right].
    + rewrite (bool_decide_eq_false_2 _ Hge) in H2. apply bool_decide_eq_false in H2. split; [intros [?|?]; congruence || done|lia].
Qed.

Lemma tty_read_copy_spec t n i buf : tty_inv t → 0 <= i → i + Z.of_nat n < 2 ^ 32 → i + Z.of_nat n <= Z.of_nat (length buf) → Z.of_nat n <= TTY_BUF_SIZE →
  let got := take_line n (ring_at t <$> seq (Z.to_nat i) n) in
  returns (tty_read_copy n i t buf) (λ '(i', line, buf'),
    i' = i + Z.of_nat (length got) ∧ line = bool_decide (newline ∈ got) ∧ length buf' = length buf ∧
    take (Z.to_nat i') buf' = take (Z.to_nat i) buf ++ got).
Proof.
  intros Hinv. revert i buf. induction n as [|n IH]; intros i buf Hi Hi2 Hb Hn got.
  { cbn. rewrite Z.add_0_r, app_nil_r. done. }
  unfold got. clear got. cbn [tty_read_copy seq fmap list_fmap take_line].
  pose proof Hinv as (Hl & Hh & _). unfold TTY_BUF_SIZE in *.
  assert (u64 (tty_head t + i) mod 512 = (tty_head t + Z.of_nat (Z.to_nat i)) mod 512) as ->
    by (rewrite Z2Nat.id by lia; unfold u64; f_equal; zlia).
  rewrite (arr_get_znth 0), bind_Ok by (rewrite Hl; zlia). fold (ring_at t (Z.to_nat i)).
  change (znth 0 (tty_buffer t) ((tty_head t + Z.of_nat (Z.to_nat i)) mod 512)) with (ring_at t (Z.to_nat i)).
  rewrite arr_set_Ok, bind_Ok by lia. set (c := ring_at t (Z.to_nat i)). set (buf1 := <[Z.to_nat i := c]> buf).
  assert (take (Z.to_nat (i + 1)) buf1 = take (Z.to_nat i) buf ++ [c]) as Hbuf1.
  { replace (Z.to_nat (i + 1)) with (S (Z.to_nat i)) by lia. unfold buf1.
    rewrite (take_S_r _ _ c) by (apply list_lookup_insert_eq; lia). by rewrite take_insert_ge by lia. }
  destruct (Z.eqb_spec c newline) as [Hc|Hc].
  - unfold returns, runs. rewrite bool_decide_eq_true_2 by (rewrite Hc; by left). unfold buf1. rewrite length_insert.
    split; [cbn; lia|]. split; [done|]. split; [done|]. exact Hbuf1.
  - eapply returns_mono; [apply (IH (i + 1) buf1); unfold buf1; rewrite ?length_insert; lia|].
    intros [[i' line] buf'] (-> & -> & Hlen & Htk). replace (Z.to_nat (i + 1)) with (S (Z.to_nat i)) in * by lia.
    split; [cbn [length]; lia|]. split; [|split].
    + apply bool_decide_ext. rewrite elem_of_cons. split; [by right|intros [?|?]; [congruence|done]].
    + unfold buf1 in Hlen. by rewrite length_insert in Hlen.
    + cbn [length]. set (g := take_line n (ring_at t <$> seq (S (Z.to_nat i)) n)) in *.
      replace (i + Z.of_nat (S (length g))) with (i + 1 + Z.of_nat (length g)) by lia.
      rewrite Htk. rewrite Hbuf1. by rewrite <- app_assoc.
Qed.

(** What the code takes for the number of characters queued. *)
Definition available (t : tty_struct) : Z := if tty_head t =? tty_tail t then TTY_BUF_SIZE else ring_len t.

Lemma tty_read_spec t buf count : tty_inv t → 0 < canon_lines t → 0 <= count <= Z.of_nat (length buf) →
  let n := Z.to_nat (Z.min (available t) count) in
  let got := take_line n (ring_at t <$> seq 0 n) in
  returns (__tty_read t buf count) (λ '(k, t', buf'),
    k = Z.of_nat (length got) ∧ take (Z.to_nat k) buf' = got ∧ length buf' = length buf ∧
    t' = Tty (tty_buffer t) ((tty_head t + k) mod TTY_BUF_SIZE) (tty_tail t)
           (canon_lines t - if bool_decide (newline ∈ got) then 1 else 0) (fg_pid t) (leader_pid t)).
Proof.
  intros Hinv Hc Hcount n got. pose proof Hinv as (Hl & Hh & Ht & Hcl). unfold __tty_read, __tty_has_line.
  rewrite (proj2 (Z.ltb_lt _ _) Hc). cbn [negb].
  assert ((if tty_head t <? tty_tail t then tty_tail t - tty_head t else TTY_BUF_SIZE - tty_head t + tty_tail t) = available t) as ->.
  { unfold available, ring_len, TTY_BUF_SIZE in *. destruct (Z.ltb_spec (tty_head t) (tty_tail t)), (Z.eqb_spec (tty_head t) (tty_tail t)); zlia. }
  assert (0 <= available t <= TTY_BUF_SIZE) as Hav.
  { unfold available. pose proof (ring_len_range t). destruct (tty_head t =? tty_tail t); unfold TTY_BUF_SIZE in *; lia. }
  rewrite size_min_spec. unfold TTY_BUF_SIZE in *.
  eapply returns_bind; [apply (tty_read_copy_spec t n 0 buf); unfold TTY_BUF_SIZE; (done || lia)|].
  intros [[i line] buf'] (-> & -> & Hlen & Htk). change (Z.to_nat 0) with 0%nat in *. fold n got in Htk |- *. cbn [app take] in Htk.
  rewrite Z.add_0_l in *. assert (length got <= n)%nat as Hg.
  { unfold got. pose proof (take_line_length n (ring_at t <$> seq 0 n)). lia. }
  unfold returns, runs. split; [done|]. split; [done|]. split; [done|]. unfold TTY_BUF_SIZE. f_equal.
  - unfold u64. f_equal. zlia.
  - case_bool_decide; [|lia]. unfold u64. zlia.
Qed.

(** On a queue that holds a complete line, reading returns its beginning. *)
Lemma tty_read_line_spec t buf count l r : tty_inv t → 0 < canon_lines t → 0 <= count <= Z.of_nat (length buf) →
  ring t = l ++ newline :: r → newline ∉ l →
  let k := Z.min count (Z.of_nat (length l) + 1) in
  returns (__tty_read t buf count) (λ '(ret, t', buf'),
    ret = k ∧ take (Z.to_nat k) buf' = take (Z.to_nat k) (ring t) ∧ length buf' = length buf ∧ tty_inv t' ∧
    ring t' = drop (Z.to_nat k) (ring t) ∧ fg_pid t' = fg_pid t ∧
    canon_lines t' = canon_lines t - if bool_decide (Z.of_nat (length l) < count) then 1 else 0).
Proof.
  intros Hinv Hc Hcount Hr Hl k. eapply returns_mono; [by apply tty_read_spec|].
  intros [[ret t'] buf']. cbv zeta.
  assert (length (ring t) = length l + S (length r))%nat as Hlen by (rewrite Hr, length_app; done).
  pose proof Hlen as Hlen'. rewrite length_ring in Hlen'. pose proof (ring_len_range t) as Hrl.
  assert (available t = ring_len t) as ->.
  { unfold available. destruct (Z.eqb_spec (tty_head t) (tty_tail t)) as [Heq|]; [|done].
    apply ring_nil in Heq; [|done]. rewrite Hr in Heq. by apply app_eq_nil in Heq as []. }
  set (n := Z.to_nat (Z.min (ring_len t) count)).
  assert (ring_at t <$> seq 0 n = take n (ring t)) as ->.
  { unfold ring. rewrite <- fmap_take, take_seq. do 2 f_equal. lia. }
  rewrite Hr. destruct (take_line_spec n l r (Z.to_nat k)) as [-> Hnl]; [done|lia|lia|].
  intros (-> & Htk & Hbl & ->). rewrite Hnl. rewrite length_take, length_app in *. cbn [length] in *.
  rewrite <- Hr in *. assert (Z.of_nat (Z.to_nat k `min` (length l + S (length r))) = k) as Hk by lia. rewrite Hk in *.
  split; [done|]. split; [done|]. split; [done|]. split; [|split; [|split; [done|]]].
  - destruct Hinv as (? & ? & ? & ?). split; [done|]. cbn [tty_head tty_tail canon_lines].
    split; [apply Z.mod_pos_bound; done|]. split; [done|]. clear Hnl. case_bool_decide; lia.
  - apply ring_drop; [done|lia|done].
  - cbn [canon_lines]. f_equal. apply f_equal with (f := λ b : bool, if b then 1 else 0). apply bool_decide_ext. unfold n. lia.
Qed.

(** ** Erasing a newline *)

Lemma push_newline_empty t v : tty_inv t → vga_inv v → tty_head t = tty_tail t → canon_lines t = 0 →
  returns (tty_push newline t v) (λ '(_, t', v'), vga_inv v' ∧
    t' = Tty (<[Z.to_nat (tty_head t) := newline]> (tty_buffer t)) (tty_head t) ((tty_head t + 1) mod TTY_BUF_SIZE) 1
           (fg_pid t) (leader_pid t)).
Proof.
  intros (Hl & Hh & Ht & _) Hv Heq Hc. unfold tty_push. change (newline =? backspace) with false. cbv iota.
  rewrite <- Heq in *. assert (u32 (u64 (tty_head t + 1) mod TTY_BUF_SIZE) = (tty_head t + 1) mod TTY_BUF_SIZE) as ->
    by (unfold u32, u64, TTY_BUF_SIZE in *; zlia).
  rewrite (proj2 (Z.eqb_neq ((tty_head t + 1) mod TTY_BUF_SIZE) (tty_head t))) by (unfold TTY_BUF_SIZE in *; zlia).
  cbn [negb]. rewrite arr_set_Ok, !bind_Ok by (unfold TTY_BUF_SIZE in *; lia). rewrite Z.eqb_refl. cbn [tty_buffer tty_head tty_tail canon_lines fg_pid leader_pid].
  eapply returns_bind; [by apply vga_putchar_color_spec|]. intros v' [Hv' _]. rewrite Hc. done.
Qed.

Lemma erase_last t v h buf : t = Tty buf h ((h + 1) mod TTY_BUF_SIZE) 1 (fg_pid t) (leader_pid t) → 0 <= h < TTY_BUF_SIZE → vga_inv v →
  returns (tty_push backspace t v) (λ '(_, t', v'), t' = Tty buf h h 1 (fg_pid t) (leader_pid t)).
Proof.
  intros Ht Hh Hv. rewrite Ht. cbn [fg_pid leader_pid]. unfold tty_push. rewrite Z.eqb_refl.
  unfold __handle_backspace, __tty_is_empty. cbn [tty_head tty_tail tty_buffer canon_lines fg_pid leader_pid].
  rewrite (proj2 (Z.eqb_neq h ((h + 1) mod TTY_BUF_SIZE))) by (unfold TTY_BUF_SIZE in *; zlia). cbn [negb].
  assert ((if (h + 1) mod TTY_BUF_SIZE =? 0 then TTY_BUF_SIZE - 1 else u64 ((h + 1) mod TTY_BUF_SIZE - 1)) = h) as ->
    by (unfold TTY_BUF_SIZE, u64 in *; destruct (Z.eqb_spec ((h + 1) mod 512) 0); zlia).
  destruct (proj1 (returns_Ok _ _) (vga_del_last_spec v Hv)) as (v' & -> & _). done.
Qed.

(** Erasing a newline is not undone in the line count.  On an empty
    terminal, Enter followed by Backspace leaves the queue empty but the count
    at one line; the next read then treats the empty ring as a full one: it
    returns the erased newline and leaves 511 stale characters queued. *)
Theorem tty_erased_newline t v : tty_inv t → vga_inv v → ring t = [] → canon_lines t = 0 →
  returns ('(_, t1, v1) ← tty_push newline t v; '(_, t2, v2) ← tty_push backspace t1 v1; Ok t2) (λ t2,
    ring t2 = [] ∧ canon_lines t2 = 1 ∧
    ∀ buf count, 0 < count <= Z.of_nat (length buf) →
      returns (__tty_read t2 buf count) (λ '(k, t3, buf'),
        k = 1 ∧ take 1 buf' = [newline] ∧ Z.of_nat (length (ring t3)) = TTY_BUF_SIZE - 1)).
Proof.
  intros Hinv Hv Hr Hc. apply ring_nil in Hr; [|done]. pose proof Hinv as (Hl & Hh & _).
  eapply returns_bind; [by apply push_newline_empty|]. intros [[nl t1] v1] [Hv1 ->].
  eapply returns_bind; [by eapply (erase_last _ v1 (tty_head t))|]. intros [[nl' t2] v2] ->. cbn [fg_pid leader_pid].
  set (t2 := Tty (<[Z.to_nat (tty_head t) := newline]> (tty_buffer t)) (tty_head t) (tty_head t) 1 (fg_pid t) (leader_pid t)).
  assert (tty_inv t2) as Hinv2 by (split; [cbn; by rewrite length_insert|]; split; [done|]; split; [done|]; cbn; lia).
  unfold returns at 1, runs at 1. split; [by apply ring_nil|]. split; [done|]. intros buf count Hcount.
  eapply returns_mono; [apply (tty_read_spec t2 buf count Hinv2); [done|lia]|]. intros [[k t3] buf'].
  assert (available t2 = TTY_BUF_SIZE) as -> by (unfold available, t2; cbn [tty_head tty_tail]; by rewrite Z.eqb_refl).
  assert (∃ n, Z.to_nat (Z.min TTY_BUF_SIZE count) = S n) as [n ->] by (exists (pred (Z.to_nat (Z.min TTY_BUF_SIZE count))); unfold TTY_BUF_SIZE; lia).
  cbn [seq fmap list_fmap take_line].
  assert (ring_at t2 0 = newline) as ->.
  { unfold ring_at, t2. cbn [tty_buffer tty_head]. rewrite Z.add_0_r, Z.mod_small by done. apply znth_insert_eq. unfold TTY_BUF_SIZE in *. lia. }
  rewrite Z.eqb_refl. intros (-> & Htk & _ & ->). split; [done|]. split; [exact Htk|].
  rewrite length_ring. unfold ring_len, t2, TTY_BUF_SIZE in *. cbn [tty_head tty_tail length]. zlia.
Qed.

Lemma tty_erased_newline_witness :
  returns ('(_, t1, v1) ← tty_push newline (Tty (replicate 512 0) 7 7 0 5 1) demo_vga; '(_, t2, v2) ← tty_push backspace t1 v1; Ok t2)
    (λ t2, canon_lines t2 = 1).
Proof.
  eapply returns_mono; [apply (tty_erased_newline (Tty (replicate 512 0) 7 7 0 5 1) demo_vga)|].
  - apply (bool_decide_unpack _). vm_compute. exact I.
  - apply (bool_decide_unpack _). vm_compute. exact I.
  - vm_compute. reflexivity.
  - reflexivity.
  - cbn beta. intros t2 (_ & H & _). exact H.
Defined.

(** ** Copying to the user *)

Fixpoint umem_write (dest : Z) (l : list Z) (um : gmap Z Z) : gmap Z Z :=
  match l with
  | [] => um
  | c :: l' => umem_write (dest + 1) l' (<[dest := c]> um)
  end.

(** The bytes from [p] up to [q] are mapped. *)
Definition mapped (um : gmap Z Z) (p q : Z) : Prop := ∀ a, p <= a < q → is_Some (um !! a).

Lemma mapped_insert um p q a c : mapped um p q → mapped (<[a := c]> um) p q.
Proof. intros Hm b Hb. destruct (decide (a = b)) as [->|]; [by rewrite lookup_insert_eq|rewrite lookup_insert_ne by done; auto]. Qed.

Lemma copy_to_user_spec dest l um : 0 <= dest → dest + Z.of_nat (length l) < 2 ^ 64 → mapped um dest (dest + Z.of_nat (length l)) →
  copy_to_user dest l um = (0, umem_write dest l um).
Proof.
  revert dest um. induction l as [|c l IH]; intros dest um H0 Hd Hm; cbn [copy_to_user umem_write]; [done|]. cbn [length] in *.
  destruct (Hm dest) as [x Hx]; [lia|]. rewrite Hx. rewrite u64_small by lia. apply IH; [lia|lia|].
  apply mapped_insert. intros a Ha. apply Hm. lia.
Qed.

Lemma umem_write_app dest l1 l2 um : umem_write dest (l1 ++ l2) um = umem_write (dest + Z.of_nat (length l1)) l2 (umem_write dest l1 um).
Proof.
  revert dest um. induction l1 as [|c l1 IH]; intros dest um; cbn [app umem_write length]; [by rewrite Z.add_0_r|].
  rewrite IH. f_equal. lia.
Qed.

Lemma mapped_write um dest l p q : mapped um p q → mapped (umem_write dest l um) p q.
Proof. revert dest um. induction l as [|c l IH]; intros dest um Hm; cbn [umem_write]; [done|]. apply IH. by apply mapped_insert. Qed.

Lemma umem_write_lookup dest l um a : umem_write dest l um !! a =
  if bool_decide (dest <= a < dest + Z.of_nat (length l)) then l !! Z.to_nat (a - dest) else um !! a.
Proof.
  revert dest um. induction l as [|c l IH]; intros dest um; cbn [umem_write length].
  - by rewrite bool_decide_eq_false_2 by lia.
  - rewrite IH. destruct (decide (a = dest)) as [->|Hne].
    + rewrite bool_decide_eq_false_2, bool_decide_eq_true_2, lookup_insert_eq by lia. by rewrite Z.sub_diag.
    + rewrite lookup_insert_ne by done. rewrite (bool_decide_ext _ (dest <= a < dest + Z.of_nat (S (length l)))) by lia.
      case_bool_decide; [|done]. replace (Z.to_nat (a - dest)) with (S (Z.to_nat (a - (dest + 1)))) by lia. done.
Qed.

(** ** The two queues of a reader *)

Section reader.
Context (default_wake pid_filter_wake read_wait fg_wait wait_fg wait_read t pid : Z) (lf lr : list Z) (m0 : gmap Z Z).

Definition fg_nodes : list Z := wqe_entry wait_fg :: fg_wait :: lf.
Definition read_nodes : list Z := wqe_entry wait_read :: read_wait :: lr.
Definition entry_fields (e : Z) : list Z := [e; u64 (e + 8); u64 (e + 16)].

(** The stack entries, the queues' nodes and the task are apart. *)
Definition reader_apart : Prop :=
  nodes_ok (fg_nodes ++ read_nodes) ∧ not_node_word t (fg_nodes ++ read_nodes) ∧
  Forall (λ a, not_node_word a (fg_nodes ++ read_nodes) ∧ a ≠ t) (entry_fields wait_fg ++ entry_fields wait_read) ∧
  NoDup (entry_fields wait_fg ++ entry_fields wait_read).

#[export] Instance reader_apart_dec : Decision reader_apart.
Proof. unfold reader_apart. apply _. Defined.

(** The words that belong to none of them. *)
Definition kept (a : Z) : Prop :=
  a ∉ entry_fields wait_fg ++ entry_fields wait_read ∧ not_node_word a (fg_nodes ++ read_nodes) ∧ a ≠ t.

Record reader_inv (qf qr : bool) (s : sched) : Prop := {
  ri_fg : waiting qf fg_wait wait_fg t lf s;
  ri_read : waiting qr read_wait wait_read t lr s;
  ri_pid : t_pid (smem s) t = pid;
  ri_cur : current_task s = t;
  ri_keep : ∀ a, kept a → ld (smem s) a = ld m0 a
}.

Hypothesis Hap : reader_apart.

Lemma not_node_word_sub a l l' : (∀ n, n ∈ l' → n ∈ l) → not_node_word a l → not_node_word a l'.
Proof. intros Hsub Ha n Hn. apply Ha, Hsub, Hn. Qed.

Lemma nodes_split : (∀ a, not_node_word a (fg_nodes ++ read_nodes) → not_node_word a fg_nodes ∧ not_node_word a read_nodes).
Proof. intros a Ha. split; eapply not_node_word_sub; [|exact Ha| |exact Ha]; intros n Hn; apply elem_of_app; auto. Qed.

Lemma fields_apart a : a ∈ entry_fields wait_fg ++ entry_fields wait_read →
  not_node_word a fg_nodes ∧ not_node_word a read_nodes ∧ a ≠ t.
Proof.
  intros Ha. destruct Hap as (_ & _ & Hf & _). rewrite Forall_forall in Hf. destruct (Hf a Ha) as [Hn Ht].
  apply nodes_split in Hn as [? ?]. done.
Qed.

Lemma fg_entry_apart : entry_apart fg_wait wait_fg t lf.
Proof.
  destruct Hap as (Hok & Ht & _). destruct (fields_apart (u64 (wait_fg + 8))) as (H1 & _ & H3); [set_solver|].
  split; [|split; [by apply nodes_split in Ht as [? _]|split; [exact H1|congruence]]].
  eapply nodes_ok_sublist; [|exact Hok]. by apply sublist_inserts_r.
Qed.

Lemma read_entry_apart : entry_apart read_wait wait_read t lr.
Proof.
  destruct Hap as (Hok & Ht & _). destruct (fields_apart (u64 (wait_read + 8))) as (_ & H2 & H3); [set_solver|].
  split; [|split; [by apply nodes_split in Ht as [_ ?]|split; [exact H2|congruence]]].
  eapply nodes_ok_sublist; [|exact Hok]. by apply sublist_inserts_l.
Qed.

(** A step on the nodes [l1] and the task leaves an entry elsewhere alone. *)
Lemma waiting_other q w2 e2 l2 v s s' w1 e1 l1 : wait_frame w1 e1 t l1 v s s' →
  (∀ n, n ∈ wqe_entry e2 :: w2 :: l2 → not_node_word (nx n) (wqe_entry e1 :: w1 :: l1) ∧ not_node_word (pv n) (wqe_entry e1 :: w1 :: l1)) →
  not_node_word t (wqe_entry e2 :: w2 :: l2) →
  not_node_word (u64 (e2 + 8)) (wqe_entry e1 :: w1 :: l1) → u64 (e2 + 8) ≠ t →
  waiting q w2 e2 t l2 s → waiting q w2 e2 t l2 s'.
Proof.
  intros (_ & Hfr & _) Hn Ht Hp Hpt Hw. eapply waiting_agree; [done| |by apply Hfr].
  intros n Hin. destruct (Hn n Hin) as [H1 H2]. destruct (Ht n Hin) as [H3 H4]. split; apply Hfr; auto.
Qed.

Lemma frame_pid w e l v s s' : wait_frame w e t l v s s' → t_pid (smem s') t = t_pid (smem s) t.
Proof. intros (Hld & _). unfold t_pid. rewrite Hld, !get_bits_spec, set_bits_spec by lia. zlia. Qed.

Lemma frame_state w e l v s s' : wait_frame w e t l v s s' → 0 <= v < 2 ^ 32 → t_state (smem s') t = v.
Proof. intros (Hld & _) Hv. unfold t_state. rewrite Hld, get_bits_spec, set_bits_spec by lia. zlia. Qed.

Lemma read_step_fg q v s s' : wait_frame read_wait wait_read t lr v s s' → waiting q fg_wait wait_fg t lf s → waiting q fg_wait wait_fg t lf s'.
Proof.
  intros Hfr. destruct Hap as (Hok & Ht & _). destruct (fields_apart (u64 (wait_fg + 8))) as (_ & H2 & H3); [set_solver|].
  eapply waiting_other; [done| |by apply nodes_split in Ht as [? _]|exact H2|done].
  intros n Hn. eapply (nodes_ok_apart read_nodes fg_nodes); [|exact Hn]. eapply nodes_ok_perm; [|exact Hok]. apply Permutation_app_comm.
Qed.

Lemma fg_step_read q v s s' : wait_frame fg_wait wait_fg t lf v s s' → waiting q read_wait wait_read t lr s → waiting q read_wait wait_read t lr s'.
Proof.
  intros Hfr. destruct Hap as (Hok & Ht & _). destruct (fields_apart (u64 (wait_read + 8))) as (H1 & _ & H3); [set_solver|].
  eapply waiting_other; [done| |by apply nodes_split in Ht as [_ ?]|exact H1|done].
  intros n Hn. by eapply (nodes_ok_apart fg_nodes read_nodes).
Qed.

Lemma frames_keep v1 v2 s s1 s2 a : wait_frame fg_wait wait_fg t lf v1 s s1 → wait_frame read_wait wait_read t lr v2 s1 s2 → kept a → ld (smem s2) a = ld (smem s) a.
Proof. intros (_ & H1 & _) (_ & H2 & _) (_ & Hn & Ht). apply nodes_split in Hn as [Hf Hr]. by rewrite H2, H1. Qed.

Definition reader_prepare (s : sched) : sched :=
  prepare_to_wait read_wait wait_read TASK_INTERRUPTIBLE (prepare_to_wait fg_wait wait_fg TASK_INTERRUPTIBLE s).

Lemma reader_prepare_inv qf qr s : reader_inv qf qr s → reader_inv true true (reader_prepare s).
Proof.
  intros [Hf Hr Hp Hc Hk]. unfold reader_prepare.
  destruct (waiting_prepare qf fg_wait wait_fg t lf s TASK_INTERRUPTIBLE) as [Hf1 Hfr1]; [apply fg_entry_apart|done|done|].
  set (s1 := prepare_to_wait fg_wait wait_fg TASK_INTERRUPTIBLE s) in *.
  pose proof (fg_step_read _ _ _ _ Hfr1 Hr) as Hr1.
  destruct (waiting_prepare qr read_wait wait_read t lr s1 TASK_INTERRUPTIBLE) as [Hr2 Hfr2]; [apply read_entry_apart|done|done|].
  split; [by eapply read_step_fg|done|..].
  - by rewrite (frame_pid _ _ _ _ _ _ Hfr2), (frame_pid _ _ _ _ _ _ Hfr1).
  - destruct Hfr1 as (_ & _ & Hc1), Hfr2 as (_ & _ & Hc2). congruence.
  - intros a Ha. rewrite (frames_keep _ _ _ _ _ _ Hfr1 Hfr2 Ha). by apply Hk.
Qed.

Definition reader_finish (s : sched) : sched := finish_wait read_wait wait_read (finish_wait fg_wait wait_fg s).

Lemma reader_finish_inv s : reader_inv true true s →
  reader_inv false false (reader_finish s) ∧ t_state (smem (reader_finish s)) t = TASK_RUNNING.
Proof.
  intros [Hf Hr Hp Hc Hk]. unfold reader_finish.
  destruct (waiting_finish fg_wait wait_fg t lf s) as [Hf1 Hfr1]; [apply fg_entry_apart|done|].
  set (s1 := finish_wait fg_wait wait_fg s) in *. pose proof (fg_step_read _ _ _ _ Hfr1 Hr) as Hr1.
  destruct (waiting_finish read_wait wait_read t lr s1) as [Hr2 Hfr2]; [apply read_entry_apart|done|].
  split; [|by eapply frame_state]. split; [by eapply read_step_fg|done|..].
  - by rewrite (frame_pid _ _ _ _ _ _ Hfr2), (frame_pid _ _ _ _ _ _ Hfr1).
  - destruct Hfr1 as (_ & _ & Hc1), Hfr2 as (_ & _ & Hc2). congruence.
  - intros a Ha. rewrite (frames_keep _ _ _ _ _ _ Hfr1 Hfr2 Ha). by apply Hk.
Qed.

Lemma field8 e : u64 (e + 8) ∈ entry_fields e.
Proof. right. left. Qed.
Lemma field16 e : u64 (e + 16) ∈ entry_fields e.
Proof. right. right. left. Qed.
Lemma ne_field16 a e : a ∉ entry_fields e → a ≠ u64 (e + 16).
Proof. intros Ha ->. apply Ha, field16. Qed.

Lemma init_entry_spec e s : NoDup (entry_fields e) → Forall (λ a, not_node_word a [wqe_entry e]) (entry_fields e) →
  nodes_ok [wqe_entry e] →
  let s' := init_waitqueue_entry default_wake e t s in
  wqe_private (smem s') e = t ∧ list_empty (wqe_entry e) (smem s') = true ∧ current_task s' = current_task s ∧
  ∀ a, a ∉ entry_fields e → not_node_word a [wqe_entry e] → ld (smem s') a = ld (smem s) a.
Proof.
  intros Hnd Hfl [_ Hok] s'. destruct (Hok (wqe_entry e) (wqe_entry e)) as [Hnp _]; [by left..|].
  unfold entry_fields in Hfl. rewrite !Forall_cons in Hfl. destruct Hfl as (H0 & H8 & H16 & _).
  destruct (H8 (wqe_entry e)) as [H8a H8b]; [by left|].
  unfold s', init_waitqueue_entry. rewrite smem_set_smem. unfold INIT_LIST_HEAD. cbv zeta. split_and!.
  - unfold wqe_private. rewrite !(ld_st_ne _ _ (u64 (e + 8))) by auto. rewrite ld_st_eq. done.
  - unfold list_empty. rewrite ld_st_ne by auto. rewrite ld_st_eq. apply Z.eqb_refl.
  - done.
  - intros a Ha Hn. destruct (Hn (wqe_entry e)) as [Hn1 Hn2]; [by left|].
    unfold entry_fields in Ha. rewrite !not_elem_of_cons in Ha. destruct Ha as (Ha1 & Ha2 & Ha3 & _). rewrite !ld_st_ne by auto. done.
Qed.

Lemma reader_entry_facts e : e = wait_fg ∨ e = wait_read → NoDup (entry_fields e) ∧ Forall (λ a, not_node_word a [wqe_entry e]) (entry_fields e) ∧
  nodes_ok [wqe_entry e] ∧ ∀ a, a ∈ entry_fields e → not_node_word a fg_nodes ∧ not_node_word a read_nodes ∧ a ≠ t.
Proof.
  intros He. pose proof Hap as (Hok & _ & _ & Hnd). apply NoDup_app in Hnd as (Hnf & _ & Hnr).
  assert (∀ a, a ∈ entry_fields e → not_node_word a fg_nodes ∧ not_node_word a read_nodes ∧ a ≠ t) as Hf.
  { intros a Ha. apply fields_apart, elem_of_app. destruct He as [->| ->]; auto. }
  split; [by destruct He as [->| ->]|]. split; [|split; [|done]].
  - apply Forall_forall. intros a Ha. destruct (Hf a Ha) as (H1 & H2 & _).
    destruct He as [->| ->]; [eapply not_node_word_sub; [|exact H1]|eapply not_node_word_sub; [|exact H2]];
      intros n ->%list_elem_of_singleton; by left.
  - eapply nodes_ok_sublist; [|exact Hok]. destruct He as [->| ->].
    + apply sublist_skip, sublist_nil_l.
    + apply sublist_inserts_l, sublist_skip, sublist_nil_l.
Qed.

(** [tty_read_enter] prepares both entries and changes nothing else. *)
Lemma reader_enter_spec s : current_task s = t → let s' := tty_read_enter default_wake pid_filter_wake wait_fg wait_read s in
  (wqe_private (smem s') wait_fg = t ∧ list_empty (wqe_entry wait_fg) (smem s') = true) ∧
  (wqe_private (smem s') wait_read = t ∧ list_empty (wqe_entry wait_read) (smem s') = true) ∧ current_task s' = t ∧
  ∀ a, a ∉ entry_fields wait_fg ++ entry_fields wait_read → not_node_word a [wqe_entry wait_fg; wqe_entry wait_read] →
    ld (smem s') a = ld (smem s) a.
Proof.
  intros Hc s'. destruct (reader_entry_facts wait_fg) as (Hnf & Hff & Hokf & Hfa); [by left|].
  destruct (reader_entry_facts wait_read) as (Hnr & Hfr & Hokr & Hra); [by right|].
  pose proof Hap as (Hok & _ & _ & Hnd). apply NoDup_app in Hnd as (_ & Hdis & _).
  destruct (init_entry_spec wait_fg s Hnf Hff Hokf) as (Hp1 & He1 & Hc1 & Hk1).
  set (s1 := init_waitqueue_entry default_wake wait_fg t s) in *.
  destruct (init_entry_spec wait_read s1 Hnr Hfr Hokr) as (Hp2 & He2 & Hc2 & Hk2).
  set (s2 := init_waitqueue_entry default_wake wait_read t s1) in *.
  assert (s' = set_smem (st (smem s2) (u64 (wait_fg + 16)) pid_filter_wake) s2) as ->.
  { unfold s', tty_read_enter. rewrite Hc. fold s1. rewrite Hc1, Hc. done. }
  assert (∀ a, a ≠ u64 (wait_fg + 16) → ld (smem (set_smem (st (smem s2) (u64 (wait_fg + 16)) pid_filter_wake) s2)) a = ld (smem s2) a) as Hk3
    by (intros a Ha; rewrite smem_set_smem; apply ld_st_ne; congruence).
  assert (∀ a, a ∈ entry_fields wait_fg → ld (smem s2) a = ld (smem s1) a) as Hff2.
  { intros a Ha. apply Hk2; [by apply Hdis|]. destruct (Hfa a Ha) as (_ & H2 & _).
    eapply not_node_word_sub; [|exact H2]. intros n ->%list_elem_of_singleton. by left. }
  assert (∀ e, e = wait_fg ∨ e = wait_read → u64 (wait_fg + 16) ≠ nx (wqe_entry e)) as H16.
  { intros e He. destruct (Hfa (u64 (wait_fg + 16))) as (H1 & H2 & _); [apply field16|]. destruct He as [->| ->]; [apply H1|apply H2]; by left. }
  assert (nx (wqe_entry wait_fg) ∉ entry_fields wait_read ∧ not_node_word (nx (wqe_entry wait_fg)) [wqe_entry wait_read]) as [Hx1 Hx2].
  { split.
    - intros Hin. destruct (Hra _ Hin) as (H1 & _). destruct (H1 (wqe_entry wait_fg)) as [? _]; [by left|done].
    - destruct (nodes_ok_apart read_nodes fg_nodes (wqe_entry wait_fg)) as [H1 _]; [|by left|].
      + eapply nodes_ok_perm; [|exact Hok]. apply Permutation_app_comm.
      + eapply not_node_word_sub; [|exact H1]. intros n ->%list_elem_of_singleton. by left. }
  apply NoDup_cons in Hnf as [_ Hnf']. apply NoDup_cons in Hnf' as [Hn8 _].
  split; [split|split; [split|split; [by rewrite <- Hc, <- Hc1, <- Hc2|]]].
  - unfold wqe_private in *. rewrite Hk3 by (intros Heq; apply Hn8; rewrite Heq; by left). rewrite Hff2 by apply field8. done.
  - unfold list_empty in *. rewrite Hk3 by (apply not_eq_sym, H16; by left). by rewrite Hk2.
  - unfold wqe_private in *. rewrite Hk3; [done|]. intros Heq. apply (Hdis (u64 (wait_fg + 16))); [apply field16|]. rewrite <- Heq. apply field8.
  - unfold list_empty in *. by rewrite Hk3 by (apply not_eq_sym, H16; by right).
  - intros a Ha Hn. apply not_elem_of_app in Ha as [Ha1 Ha2].
    rewrite Hk3 by by apply ne_field16.
    rewrite Hk2, Hk1; [done|done| |done|]; eapply not_node_word_sub; [|exact Hn| |exact Hn];
      intros n ->%list_elem_of_singleton; [by left|right; by left].
Qed.

(** Entering the read with both queues well formed. *)
Lemma reader_enter_inv s : smem s = m0 → current_task s = t → t_pid (smem s) t = pid → dll (smem s) fg_wait lf → dll (smem s) read_wait lr →
  reader_inv false false (tty_read_enter default_wake pid_filter_wake wait_fg wait_read s).
Proof.
  intros Hm0 Hc Hp Hdf Hdr. destruct (reader_enter_spec s Hc) as ([Hp1 He1] & [Hp2 He2] & Hc' & Hk).
  set (s' := tty_read_enter default_wake pid_filter_wake wait_fg wait_read s) in *. pose proof Hap as (Hok & Ht & _ & _).
  assert (∀ n, n ∈ fg_wait :: lf ∨ n ∈ read_wait :: lr → ld (smem s') (nx n) = ld (smem s) (nx n) ∧ ld (smem s') (pv n) = ld (smem s) (pv n)) as Hn.
  { assert ((fg_wait :: lf ++ read_wait :: lr) ++ [wqe_entry wait_fg; wqe_entry wait_read] ≡ₚ fg_nodes ++ read_nodes) as Hperm.
    { unfold fg_nodes, read_nodes. solve_Permutation. }
    intros n Hn. destruct (nodes_ok_apart [wqe_entry wait_fg; wqe_entry wait_read] (fg_wait :: lf ++ read_wait :: lr) n) as [H1 H2].
    - eapply nodes_ok_perm; [|exact Hok]. rewrite <- Hperm. apply Permutation_app_comm.
    - set_solver.
    - assert (n ∈ fg_nodes ++ read_nodes) as Hin by (unfold fg_nodes, read_nodes; set_solver).
      split; (apply Hk; [|done]); intros Hf; destruct (fields_apart _ Hf) as (Hf1 & Hf2 & _);
        apply elem_of_app in Hin as [Hin|Hin]; [destruct (Hf1 n Hin)|destruct (Hf2 n Hin)|destruct (Hf1 n Hin)|destruct (Hf2 n Hin)]; done. }
  split; [split|split|..]; try done.
  - eapply dll_agree; [exact Hdf|]. intros n Hin. apply Hn. by left.
  - eapply dll_agree; [exact Hdr|]. intros n Hin. apply Hn. by right.
  - rewrite <- Hp. unfold t_pid. f_equal. apply Hk.
    + intros Hin. by destruct (fields_apart _ Hin) as (_ & _ & ?).
    + eapply not_node_word_sub; [|exact Ht]. unfold fg_nodes, read_nodes. set_solver.
  - intros a (Ha & Hna & _). rewrite <- Hm0. apply Hk; [done|]. eapply not_node_word_sub; [|exact Hna]. unfold fg_nodes, read_nodes. set_solver.
Qed.

(** ** The read loop *)

Section line.
Context (run_queue ubuf count canon0 : Z) (ln rest : list Z) (um0 : gmap Z Z) (v0 : vga).
Hypothesis Hnl : newline ∉ ln.
Hypothesis Hcount : 0 < count < 2 ^ 64.
Hypothesis Hubuf : 0 <= ubuf.

(** The bytes the read returns. *)
Definition take_count : Z := Z.min count (Z.of_nat (length ln) + 1).
Definition line_bytes (j : Z) : list Z := take (Z.to_nat j) (ln ++ [newline]).

Hypothesis Hroom : ubuf + take_count < 2 ^ 64.
Hypothesis Hmap : mapped um0 ubuf (ubuf + take_count).

(** The console after [j] bytes of the line have been delivered. *)
Record read_inv (j : Z) (qf qr : bool) (c : console) : Prop := {
  rv_tty : tty_inv (ctty c);
  rv_ring : ring (ctty c) = drop (Z.to_nat j) (ln ++ newline :: rest);
  rv_canon : canon_lines (ctty c) = canon0 - if bool_decide (j = Z.of_nat (length ln) + 1) then 1 else 0;
  rv_fg : fg_pid (ctty c) = pid;
  rv_user : cuser c = umem_write ubuf (line_bytes j) um0;
  rv_vga : cvga c = v0;
  rv_sched : reader_inv qf qr (csched c)
}.

Definition read_done (n : rd_next) : Prop := ∃ c, n = RdDone take_count c ∧ read_inv take_count false false c ∧
  t_state (smem (csched c)) t = TASK_RUNNING.

Lemma line_bytes_add j d : 0 <= j → 0 <= d → line_bytes (j + d) = line_bytes j ++ take (Z.to_nat d) (drop (Z.to_nat j) (ln ++ [newline])).
Proof.
  intros Hj Hd. unfold line_bytes. rewrite Z2Nat.inj_add by done. by rewrite <- take_take_drop.
Qed.

Lemma length_line_bytes j : 0 <= j <= Z.of_nat (length ln) + 1 → Z.of_nat (length (line_bytes j)) = j.
Proof. intros Hj. unfold line_bytes. rewrite length_take, length_app. cbn. lia. Qed.

Lemma read_exit_spec j c : j = take_count → read_inv j true true c →
  read_done (tty_read_exit read_wait fg_wait wait_fg wait_read j c).
Proof.
  intros -> [H1 H2 H3 H4 H5 H6 H7]. destruct (reader_finish_inv _ H7) as [H8 H9].
  eexists. split; [reflexivity|]. split; [|exact H9]. by split.
Qed.

(** The number of bytes one iteration moves. *)
Definition chunk (j : Z) : Z := Z.min (Z.min (count - j) TTY_BOUNCE_BUF_SIZE) (Z.of_nat (length ln) - j + 1).

Lemma chunk_pos j : 0 <= j < take_count → 0 < chunk j /\ j + chunk j <= take_count /\ chunk j <= 128.
Proof. unfold chunk, take_count, TTY_BOUNCE_BUF_SIZE. lia. Qed.

(** The read of one iteration from the ring. *)
Lemma read_chunk_spec j qf qr c bounce : 0 <= j < take_count → 0 < canon0 → length bounce = 128%nat → read_inv j qf qr c →
  let req := size_min (count - j) TTY_BOUNCE_BUF_SIZE in
  returns (__tty_read (ctty c) bounce req) (λ '(ret, t', bounce'),
    ret = chunk j ∧ length bounce' = 128%nat ∧
    take (Z.to_nat ret) bounce' = take (Z.to_nat (chunk j)) (drop (Z.to_nat j) (ln ++ [newline])) ∧
    tty_inv t' ∧ ring t' = drop (Z.to_nat (j + chunk j)) (ln ++ newline :: rest) ∧ fg_pid t' = pid ∧
    canon_lines t' = canon0 - if bool_decide (j + chunk j = Z.of_nat (length ln) + 1) then 1 else 0).
Proof.
  intros Hj Hc0 Hb [H1 H2 H3 H4 H5 H6 H7] req. pose proof (chunk_pos j Hj) as (Hd & Hjd & _).
  assert (Z.to_nat j <= length ln)%nat as Hjl by (unfold take_count in *; lia).
  rewrite bool_decide_eq_false_2 in H3 by (unfold take_count in *; lia).
  assert (ring (ctty c) = drop (Z.to_nat j) ln ++ newline :: rest) as Hring by (rewrite H2, drop_app_le by done; done).
  assert (drop (Z.to_nat j) (ln ++ [newline]) = drop (Z.to_nat j) ln ++ [newline]) as Hline by (by rewrite drop_app_le).
  assert (req = Z.min (count - j) 128) as Hreq by (unfold req; by rewrite size_min_spec).
  eapply returns_mono; [apply (tty_read_line_spec _ bounce req (drop (Z.to_nat j) ln) rest H1)|].
  - lia.
  - rewrite Hreq, Hb. unfold take_count in *. lia.
  - done.
  - intros Hin. apply Hnl. rewrite <- (take_drop (Z.to_nat j) ln). apply elem_of_app. by right.
  - intros [[ret t'] bounce'] (-> & Htk & Hbl & Hinv & Hr & Hfg & Hcan). rewrite length_drop in *.
    assert (Z.min req (Z.of_nat (length ln - Z.to_nat j) + 1) = chunk j) as Hch by (unfold chunk, TTY_BOUNCE_BUF_SIZE; lia).
    rewrite Hch in *. split; [done|]. split; [congruence|]. split.
    { rewrite Htk, Hring, Hline. rewrite !take_app. rewrite length_drop. f_equal.
      destruct (Z.to_nat (chunk j) - (length ln - Z.to_nat j))%nat as [|[|k]] eqn:E; [done|done|]. unfold chunk in *. lia. }
    split; [done|]. split; [rewrite Hr, H2, drop_drop; f_equal; lia|]. split; [by rewrite Hfg|].
    rewrite Hcan, H3, Z.sub_0_r. f_equal. apply f_equal with (f := λ b : bool, if b then 1 else 0).
    apply bool_decide_ext. unfold chunk, TTY_BOUNCE_BUF_SIZE in *. lia.
Qed.

Lemma read_iter_spec j qf qr c ret bounce : 0 <= j < take_count → 0 < canon0 < 2 ^ 64 → length bounce = 128%nat → read_inv j qf qr c →
  let j' := j + chunk j in
  returns (tty_read_iter run_queue read_wait fg_wait wait_fg wait_read count (Rd (ubuf + j) ret j bounce) c) (λ n,
    if bool_decide (j' = Z.of_nat (length ln) + 1) then read_done n
    else ∃ ret' bounce' c', n = RdAgain (Rd (ubuf + j') ret' j' bounce') c' ∧ length bounce' = 128%nat ∧ read_inv j' true true c').
Proof.
  intros Hj Hc0 Hb Hinv j'. pose proof (chunk_pos j Hj) as (Hd & Hjd & Hd2). unfold tty_read_iter. cbn [rd_total rd_buf rd_bounce].
  rewrite (proj2 (Z.ltb_lt j count)) by (unfold take_count in *; lia). cbn [negb].
  pose proof (reader_prepare_inv _ _ _ (rv_sched _ _ _ _ Hinv)) as Hs. unfold reader_prepare in Hs. cbv zeta.
  set (s1 := prepare_to_wait read_wait wait_read TASK_INTERRUPTIBLE (prepare_to_wait fg_wait wait_fg TASK_INTERRUPTIBLE (csched c))) in *.
  change (ctty (set_csched s1 c)) with (ctty c). unfold __is_fg.
  rewrite (ri_cur _ _ _ Hs), (ri_pid _ _ _ Hs), (rv_fg _ _ _ _ Hinv), Z.eqb_refl.
  eapply returns_bind; [apply (read_chunk_spec j qf qr c bounce); (done || lia)|].
  intros [[ret' t'] bounce'] (-> & Hbl & Htk & Ht' & Hr' & Hfg' & Hcan').
  rewrite (proj2 (Z.eqb_neq (chunk j) 0)), andb_false_r by lia.
  change (cuser (set_ctty t' (set_csched s1 c))) with (cuser c). rewrite (rv_user _ _ _ _ Hinv), Htk.
  set (bs := take (Z.to_nat (chunk j)) (drop (Z.to_nat j) (ln ++ [newline]))).
  assert (Z.of_nat (length bs) = chunk j) as Hbs.
  { unfold bs. rewrite length_take, length_drop, length_app. cbn. unfold chunk in *. lia. }
  rewrite copy_to_user_spec; [|lia|unfold take_count in *; lia|].
  2: { apply mapped_write. intros a Ha. apply Hmap. lia. }
  cbn [cvga ctty csched cuser set_cuser set_ctty set_csched].
  assert (u64 (chunk j - 0) = chunk j) as -> by (rewrite Z.sub_0_r; apply u64_small; lia).
  assert (u64 (j + chunk j) = j') as -> by (apply u64_small; unfold take_count in *; lia).
  assert (u64 (ubuf + j + chunk j) = ubuf + j') as -> by (unfold j'; rewrite u64_small by lia; lia).
  rewrite (proj2 (Z.eqb_neq j' 0)) by lia. cbn [Z.eqb negb].
  assert (read_inv j' true true (Con t' (cvga c) s1 (umem_write (ubuf + j) bs (umem_write ubuf (line_bytes j) um0)))) as Hinv'.
  { split; cbn [ctty csched cuser cvga]; try done; [|by apply Hinv].
    unfold j'. rewrite line_bytes_add by lia. rewrite umem_write_app, length_line_bytes by (unfold take_count in *; lia). done. }
  rewrite Hcan', (rv_canon _ _ _ _ Hinv). rewrite (bool_decide_eq_false_2 (j = _)) by (unfold take_count in *; lia).
  fold j'. destruct (decide (j' = Z.of_nat (length ln) + 1)) as [Hfull|Hfull];
    [rewrite !(bool_decide_eq_true_2 _ Hfull)|rewrite !(bool_decide_eq_false_2 _ Hfull)].
  - rewrite (proj2 (Z.eqb_neq (canon0 - 1) (canon0 - 0))) by lia. cbn [negb]. apply (read_exit_spec j'); [|done]. unfold take_count in *. lia.
  - rewrite Z.eqb_refl. cbn [negb]. by eexists _, _, _.
Qed.

Lemma tty_read_loop_spec fuel : ∀ j qf qr c ret bounce, (Z.to_nat (take_count - j) < fuel)%nat → 0 <= j < take_count → 0 < canon0 < 2 ^ 64 →
  length bounce = 128%nat → read_inv j qf qr c →
  returns (tty_read_loop run_queue read_wait fg_wait wait_fg wait_read fuel count (Rd (ubuf + j) ret j bounce) c) read_done.
Proof.
  induction fuel as [|fuel IH]; intros j qf qr c ret bounce Hf Hj Hc0 Hb Hinv; [lia|]. cbn [tty_read_loop].
  pose proof (chunk_pos j Hj) as (Hd & Hjd & _).
  eapply returns_bind; [by eapply read_iter_spec|]. intros n. cbv beta zeta. case_bool_decide as Hfull.
  { intros (c' & -> & Hd'). exists c'. done. }
  intros (ret' & bounce' & c' & -> & Hb' & Hinv').
  destruct (decide (j + chunk j = take_count)) as [Heq|Hne].
  - destruct fuel as [|fuel]; [lia|]. cbn [tty_read_loop]. unfold tty_read_iter at 1. cbn [rd_total].
    rewrite (proj2 (Z.ltb_ge (j + chunk j) count)) by (unfold take_count in *; lia). cbn [negb]. rewrite bind_Ok.
    destruct (read_exit_spec _ _ Heq Hinv') as (c2 & Hx & Hy). rewrite Hx. exists c2. done.
  - apply (IH _ true true); [lia|lia|done|done|done].
Qed.
End line.
End reader.

(** A whole read of a queued line. *)
Lemma tty_read_line run_queue default_wake pid_filter_wake read_wait fg_wait wait_fg wait_read lf lr fuel ubuf count bounce c l rest :
  let t := current_task (csched c) in let k := Z.min count (Z.of_nat (length l) + 1) in
  reader_apart read_wait fg_wait wait_fg wait_read t lf lr → t_pid (smem (csched c)) t = fg_pid (ctty c) →
  dll (smem (csched c)) fg_wait lf → dll (smem (csched c)) read_wait lr →
  tty_inv (ctty c) → 0 < canon_lines (ctty c) → ring (ctty c) = l ++ newline :: rest → newline ∉ l →
  0 < count < 2 ^ 64 → 0 <= ubuf → ubuf + k < 2 ^ 64 → mapped (cuser c) ubuf (ubuf + k) →
  length bounce = 128%nat → (Z.to_nat k < fuel)%nat →
  returns (tty_read run_queue default_wake pid_filter_wake read_wait fg_wait wait_fg wait_read fuel ubuf count bounce c)
    (read_done read_wait fg_wait wait_fg wait_read t (fg_pid (ctty c)) lf lr (smem (csched c)) ubuf count (canon_lines (ctty c)) l rest (cuser c) (cvga c)).
Proof.
  intros t k Hap Hpid Hdf Hdr Hinv Hcan Hring Hl Hcount Hu Hroom Hmap Hb Hf.
  assert (read_inv read_wait fg_wait wait_fg wait_read t (fg_pid (ctty c)) lf lr (smem (csched c)) ubuf (canon_lines (ctty c)) l rest (cuser c) (cvga c) 0 false false
    (set_csched (tty_read_enter default_wake pid_filter_wake wait_fg wait_read (csched c)) c)) as H0.
  { split; try done; cbn [ctty cuser csched set_csched].
    - rewrite bool_decide_eq_false_2 by lia. lia.
    - by apply reader_enter_inv. }
  pose proof (tty_read_loop_spec read_wait fg_wait wait_fg wait_read t (fg_pid (ctty c)) lf lr (smem (csched c)) Hap run_queue ubuf count
    (canon_lines (ctty c)) l rest (cuser c) (cvga c) Hl Hcount Hu Hroom Hmap fuel 0 false false
    (set_csched (tty_read_enter default_wake pid_filter_wake wait_fg wait_read (csched c)) c) 0 bounce) as Hloop.
  unfold take_count in Hloop. fold k in Hloop. rewrite !Z.add_0_r in Hloop. unfold tty_read.
  apply Hloop; [lia|lia|destruct Hinv as (_ & _ & _ & ?); lia|done|exact H0].
Qed.

(** C15: reading a line.  When the foreground task reads and a complete line is
    queued, [tty_read] returns without sleeping, after any number of bounces,
    with as much of that line as fits in [count] bytes, newline included: the
    user's buffer holds exactly these bytes and no other byte of the user's
    memory changes, they are gone from the queue, the line count drops by one
    exactly if the newline was delivered, both wait queues are as they were and
    the task is running. *)
Theorem tty_read_returns_line run_queue default_wake pid_filter_wake read_wait fg_wait wait_fg wait_read lf lr fuel ubuf count bounce c l rest :
  let t := current_task (csched c) in let k := Z.min count (Z.of_nat (length l) + 1) in
  reader_apart read_wait fg_wait wait_fg wait_read t lf lr → t_pid (smem (csched c)) t = fg_pid (ctty c) →
  dll (smem (csched c)) fg_wait lf → dll (smem (csched c)) read_wait lr →
  tty_inv (ctty c) → 0 < canon_lines (ctty c) → ring (ctty c) = l ++ newline :: rest → newline ∉ l →
  0 < count < 2 ^ 64 → 0 <= ubuf → ubuf + k < 2 ^ 64 → mapped (cuser c) ubuf (ubuf + k) →
  length bounce = 128%nat → (Z.to_nat k < fuel)%nat →
  returns (tty_read run_queue default_wake pid_filter_wake read_wait fg_wait wait_fg wait_read fuel ubuf count bounce c) (λ n, ∃ c',
    n = RdDone k c' ∧ ring (ctty c') = drop (Z.to_nat k) (ring (ctty c)) ∧
    canon_lines (ctty c') = canon_lines (ctty c) - (if bool_decide (k = Z.of_nat (length l) + 1) then 1 else 0) ∧
    (∀ a, cuser c' !! a = if bool_decide (ubuf <= a < ubuf + k) then ring (ctty c) !! Z.to_nat (a - ubuf) else cuser c !! a) ∧
    dll (smem (csched c')) fg_wait lf ∧ dll (smem (csched c')) read_wait lr ∧
    t_state (smem (csched c')) t = TASK_RUNNING ∧ cvga c' = cvga c ∧ tty_inv (ctty c')).
Proof.
  intros t k Hap Hpid Hdf Hdr Hinv Hcan Hring Hl Hcount Hu Hroom Hmap Hb Hf.
  eapply returns_mono; [by apply (tty_read_line _ _ _ _ _ _ _ lf lr fuel ubuf count bounce c l rest)|].
  intros n (c' & -> & [H1 H2 H3 H4 H5 H6 H7] & Hst). exists c'. split; [done|].
  unfold take_count in *. fold k in H2, H3, H5. split; [by rewrite H2, Hring|]. split; [done|]. split; [|split; [by apply H7|split; [by apply H7|done]]].
  intros a. rewrite H5, umem_write_lookup. unfold line_bytes.
  assert (Z.of_nat (length (take (Z.to_nat k) (l ++ [newline]))) = k) as -> by (rewrite length_take, length_app; cbn; lia).
  destruct (decide (ubuf <= a < ubuf + k)) as [Ha|Ha]; [rewrite !(bool_decide_eq_true_2 _ Ha)|by rewrite !(bool_decide_eq_false_2 _ Ha)].
  rewrite lookup_take_lt, Hring by lia.
  change (newline :: rest) with ([newline] ++ rest). rewrite app_assoc. symmetry. apply lookup_app_l. rewrite length_app. cbn. lia.
Qed.

(** The task 0x1000 (pid 5, in the foreground) reads four bytes of "hi\nok". *)
Definition demo_reader : console :=
  let m := INIT_LIST_HEAD 0x600 (INIT_LIST_HEAD 0x700 (st ∅ 0x1000 5)) in
  let t := Tty (<[0%nat := 10]> (<[1%nat := 111]> (<[2%nat := 107]> (tty_buffer demo_tty)))) 510 3 1 5 1 in
  Con t demo_vga (Sched (Kheap m demo_pmm (replicate 6 0) 0) 0x1000 0x3000 4 0x1000 0 0 0)
    (list_to_map ((λ a, (a, 0)) <$> [0x40; 0x41; 0x42; 0x43])).

Lemma tty_read_returns_line_witness :
  returns (tty_read 0x500 0xD0 0xD1 0x700 0x600 0x800 0x900 10 0x40 4 (replicate 128 0) demo_reader) (λ n, ∃ c',
    n = RdDone 3 c' ∧ ring (ctty c') = [111; 107] ∧ cuser c' !! 0x42 = Some newline ∧ cuser c' !! 0x43 = Some 0).
Proof.
  eapply returns_mono;
    [apply (tty_read_returns_line 0x500 0xD0 0xD1 0x700 0x600 0x800 0x900 [] [] 10 0x40 4 (replicate 128 0) demo_reader [104; 105] [111; 107])|].
  - apply (bool_decide_unpack _). vm_compute. exact I.
  - vm_compute. reflexivity.
  - split; [vm_compute; done|apply (bool_decide_unpack _); vm_compute; exact I].
  - split; [vm_compute; done|apply (bool_decide_unpack _); vm_compute; exact I].
  - apply (bool_decide_unpack _). vm_compute. exact I.
  - vm_compute. reflexivity.
  - vm_compute. reflexivity.
  - apply (bool_decide_unpack _). vm_compute. exact I.
  - lia.
  - lia.
  - vm_compute. reflexivity.
  - intros a Ha. change (0x40 + _) with 0x43 in Ha.
    assert (a = 0x40 ∨ a = 0x41 ∨ a = 0x42) as [->|[->| ->]] by lia; vm_compute; eexists; reflexivity.
  - reflexivity.
  - vm_compute. lia.
  - cbn beta. intros n (c' & -> & H1 & _ & H3 & _). exists c'. split; [reflexivity|].
    split; [rewrite H1; vm_compute; reflexivity|]. split; [rewrite H3; vm_compute; reflexivity|rewrite H3; vm_compute; reflexivity].
Defined.
