(* ===== verification/Layout.v ===== *)
(** * Packed structures in byte buffers

    Firmware tables, disk structures and executables are read through packed
    structs.  A struct is the list of its fields with their sizes in bytes;
    the offset of a field is the sum of the sizes before it, and a field is
    read little-endian.  Reading outside the buffer is a [Fault]. *)

From S2P Require Import Prelude Types.

Definition layout := list (string * Z).

Fixpoint offset_from (o : Z) (f : string) (l : layout) : Z :=
  match l with
  | [] => -1
  | (g, n) :: l' => if bool_decide (f = g) then o else offset_from (o + n) f l'
  end.

Definition offset_of (f : string) (l : layout) : Z := offset_from 0 f l.

Fixpoint size_of (l : layout) : Z :=
  match l with
  | [] => 0
  | (_, n) :: l' => n + size_of l'
  end.

Fixpoint field_size (f : string) (l : layout) : Z :=
  match l with
  | [] => 0
  | (g, n) :: l' => if bool_decide (f = g) then n else field_size f l'
  end.

(** Little-endian integers. *)
Fixpoint le (bs : list Z) : Z :=
  match bs with
  | [] => 0
  | b :: bs' => b + 256 * le bs'
  end.

Fixpoint le_enc (n : nat) (v : Z) : list Z :=
  match n with
  | O => []
  | S n' => v mod 256 :: le_enc n' (v / 256)
  end.

(** The characters of a string. *)
Definition codes (s : string) : list Z := (λ c, Z.of_N (Ascii.N_of_ascii c)) <$> String.list_ascii_of_string s.

Definition bytes_get (buf : list Z) (off n : Z) : res (list Z) :=
  if (0 <=? off) && (off + n <=? Z.of_nat (length buf)) then Ok (take (Z.to_nat n) (drop (Z.to_nat off) buf)) else Fault.

Definition get_le (buf : list Z) (off n : Z) : res Z := bs ← bytes_get buf off n; Ok (le bs).

(** The field [f] of the struct [l] at offset [base] of [buf]. *)
Definition field (l : layout) (f : string) (buf : list Z) (base : Z) : res Z :=
  get_le buf (base + offset_of f l) (field_size f l).

Definition is_byte (b : Z) : Prop := 0 <= b < 256.

Lemma le_range bs : Forall is_byte bs → 0 <= le bs < 256 ^ Z.of_nat (length bs).
Proof.
  induction 1 as [|b bs Hb _ IH]; cbn [le length]; [done|]. unfold is_byte in Hb.
  rewrite Nat2Z.inj_succ, Z.pow_succ_r by lia. lia.
Qed.

Lemma length_le_enc n v : length (le_enc n v) = n.
Proof. revert v. induction n as [|n IH]; intros v; cbn; [done|]. by rewrite IH. Qed.

Lemma le_enc_bytes n v : Forall is_byte (le_enc n v).
Proof. revert v. induction n as [|n IH]; intros v; cbn; constructor; [|apply IH]. apply Z.mod_pos_bound. lia. Qed.

Lemma le_le_enc n v : 0 <= v < 256 ^ Z.of_nat n → le (le_enc n v) = v.
Proof.
  revert v. induction n as [|n IH]; intros v Hv; cbn [le le_enc]; [cbn in Hv; lia|].
  rewrite Nat2Z.inj_succ, Z.pow_succ_r in Hv by lia. rewrite IH; [zlia|].
  split; [apply Z.div_pos; lia|]. apply Z.div_lt_upper_bound; lia.
Qed.

Lemma bytes_get_Ok buf off n : 0 <= off → 0 <= n → off + n <= Z.of_nat (length buf) →
  bytes_get buf off n = Ok (take (Z.to_nat n) (drop (Z.to_nat off) buf)).
Proof.
  intros H0 Hn Hl. unfold bytes_get. by rewrite (proj2 (Z.leb_le 0 off)), (proj2 (Z.leb_le _ _) Hl).
Qed.

(** Reading inside the second part of a buffer. *)
Lemma bytes_get_app pre buf off n : 0 <= off → 0 <= n → bytes_get (pre ++ buf) (Z.of_nat (length pre) + off) n = bytes_get buf off n.
Proof.
  intros H0 Hn. unfold bytes_get. rewrite length_app.
  replace (0 <=? Z.of_nat (length pre) + off) with true by (symmetry; apply Z.leb_le; lia).
  replace (0 <=? off) with true by (symmetry; apply Z.leb_le; lia). cbn [andb].
  replace (Z.of_nat (length pre) + off + n <=? Z.of_nat (length pre + length buf)) with (off + n <=? Z.of_nat (length buf))
    by (destruct (Z.leb_spec (off + n) (Z.of_nat (length buf))), (Z.leb_spec (Z.of_nat (length pre) + off + n) (Z.of_nat (length pre + length buf))); lia).
  destruct (off + n <=? Z.of_nat (length buf)); [|done]. do 2 f_equal.
  rewrite Z2Nat.inj_add, Nat2Z.id by lia. by rewrite drop_app_add.
Qed.

Lemma bytes_get_app_l buf post off n : off + n <= Z.of_nat (length buf) → 0 <= off → 0 <= n → bytes_get (buf ++ post) off n = bytes_get buf off n.
Proof.
  intros Hl H0 Hn. rewrite !bytes_get_Ok; [|lia|lia|lia|lia|lia|rewrite length_app; lia]. f_equal.
  rewrite drop_app_le by lia. apply take_app_le. rewrite length_drop. lia.
Qed.

Lemma get_le_app pre buf off n : 0 <= off → 0 <= n → get_le (pre ++ buf) (Z.of_nat (length pre) + off) n = get_le buf off n.
Proof. intros. unfold get_le. by rewrite bytes_get_app. Qed.

Lemma get_le_app_l buf post off n : off + n <= Z.of_nat (length buf) → 0 <= off → 0 <= n → get_le (buf ++ post) off n = get_le buf off n.
Proof. intros. unfold get_le. by rewrite bytes_get_app_l. Qed.

Lemma get_le_Ok buf off n : 0 <= off → 0 <= n → off + n <= Z.of_nat (length buf) → ok (get_le buf off n) = true.
Proof. intros. unfold get_le. by rewrite bytes_get_Ok. Qed.

(** [layout_eval] replaces offsets and sizes of known structs by numbers. *)
Ltac layout_eval :=
  repeat match goal with
  | |- context [offset_of ?f ?l] => let v := eval vm_compute in (offset_of f l) in change (offset_of f l) with v
  | |- context [field_size ?f ?l] => let v := eval vm_compute in (field_size f l) in change (field_size f l) with v
  | |- context [size_of ?l] => let v := eval vm_compute in (size_of l) in change (size_of l) with v
  end.

Lemma field_Ok l f buf base : 0 <= base + offset_of f l → 0 <= field_size f l → base + offset_of f l + field_size f l <= Z.of_nat (length buf) →
  ∃ v, field l f buf base = Ok v.
Proof. intros. unfold field, get_le. rewrite bytes_get_Ok by done. eauto. Qed.

Lemma field_Fault l f buf base : Z.of_nat (length buf) < base + offset_of f l + field_size f l → field l f buf base = Fault.
Proof. intros H. unfold field, get_le, bytes_get. rewrite (proj2 (Z.leb_gt _ _) H). by rewrite andb_false_r. Qed.
