(* ===== verification/Apic.v ===== *)
(** * Interrupt controllers and interrupt routing

    arch/x86_64/apic/apic.c and apic.h (local APIC, I/O APIC, redirection
    entries), arch/x86_64/cores.c (the table of cores), kernel/irq.c and
    arch/x86_64/kernel/irq.c (the table of handlers and the dispatch).  The
    registers of the two controllers are maps from register numbers to their
    contents. *)

From S2P Require Import Prelude Types FrameAlloc EarlyPmm Pmm Paging Vmm Kmalloc Mm Layout.

Definition MAX_PIC_IRQ : Z := 15.
Definition PIC_IRQ_COUNT : Z := MAX_PIC_IRQ + 1.
Definition IOAPIC_SIZE : Z := 8.
Definition IOAPIC_VERSION_OFFSET : Z := 0x01.
Definition IOAPIC_REDIRECTION_TABLE_START_OFFSET : Z := 0x10.
Definition NR_IRQS : Z := 224.
Definition IRQ_BASE : Z := 32.
Definition VEC_SPURIOUS : Z := 0xFF.
Definition IRQ_TIMER : Z := 0.
Definition IRQ_PS2 : Z := 1.

(** [struct lapic], field by field, in bytes. *)
Definition lapic_layout : layout :=
  [("rsv0", 32); ("id", 4); ("__pad1", 12); ("version", 4); ("__pad2", 12); ("rsv1", 64);
   ("tpr", 4); ("__pad4", 12); ("apr", 4); ("__pad5", 12); ("ppr", 4); ("__pad6", 12);
   ("eoi", 4); ("__pad7", 12); ("rrd", 4); ("__pad8", 12); ("ldr", 4); ("__pad9", 12);
   ("dfr", 4); ("__pad10", 12); ("sivr", 4); ("__pad11", 12);
   ("isr", 128); ("tmr", 128); ("irr", 128);
   ("err_status_reg", 4); ("__pad12", 12); ("rsv2", 96); ("lvt_cmci", 4); ("__pad13", 12);
   ("icr_low", 4); ("__pad14", 12); ("icr_high", 4); ("__pad15", 12);
   ("lvt_timer_reg", 4); ("__pad16", 12); ("lvt_thermal_scensor_reg", 4); ("__pad17", 12);
   ("lvt_pmcr_reg", 4); ("__pad18", 12); ("lvt_lint0_reg", 4); ("__pad19", 12);
   ("lvt_lint1_reg", 4); ("__pad20", 12); ("lvt_err_reg", 4); ("__pad21", 12);
   ("init_count_reg", 4); ("__pad22", 12); ("current_count_reg", 4); ("__pad23", 12);
   ("rsv3", 64); ("div_config_reg", 4); ("__pad24", 12); ("rsv4", 16)]%string.

Definition lapic_reg (f : string) : Z := offset_of f lapic_layout.

(** The bit fields of [union ioapic_redirection_entry]. *)
Record ioapic_redirection_entry := Redir {
  re_vector : Z; re_delivery : Z; re_dest_mode : Z; re_status : Z; re_polarity : Z;
  re_remote_irr : Z; re_trigger : Z; re_mask : Z; re_rsv : Z; re_dest : Z
}.

Definition redir_bits (e : ioapic_redirection_entry) : Z :=
  re_vector e + 2 ^ 8 * re_delivery e + 2 ^ 11 * re_dest_mode e + 2 ^ 12 * re_status e + 2 ^ 13 * re_polarity e +
  2 ^ 14 * re_remote_irr e + 2 ^ 15 * re_trigger e + 2 ^ 16 * re_mask e + 2 ^ 17 * re_rsv e + 2 ^ 56 * re_dest e.

Definition lower_dword (e : ioapic_redirection_entry) : Z := redir_bits e mod 2 ^ 32.
Definition upper_dword (e : ioapic_redirection_entry) : Z := redir_bits e / 2 ^ 32.

(** What the controller reads back from the two registers of a pin. *)
Definition redir_of (lo hi : Z) : ioapic_redirection_entry :=
  let x := lo + 2 ^ 32 * hi in
  Redir (get_bits x 0 8) (get_bits x 8 3) (get_bits x 11 1) (get_bits x 12 1) (get_bits x 13 1)
        (get_bits x 14 1) (get_bits x 15 1) (get_bits x 16 1) (get_bits x 17 39) (get_bits x 56 8).

Record irq_override := IrqOverride { ov_gsi : Z; ov_flags : Z }.
Record cpu_core := CpuCore { logical_id : Z; acpi_processor_id : Z; apic_id : Z; is_awake : bool }.
Record irq_desc := IrqDesc { handler : Z; dev : Z; irq_name : Z }.

(** The globals of apic.c, madt.c, cores.c and irq.c, and the memory the
    mappings and the core table are taken from.  [cores] is the table behind
    the pointer [cores_ptr]; its length is [cores_count]. *)
Record apic := Apic {
  lapic : Z;
  lapic_regs : gmap Z Z;
  ioapic_addr : Z;
  gsi_base : Z;
  ioapic_regs : gmap Z Z;
  irq_overrides : list irq_override;
  cores_ptr : Z;
  cores : list cpu_core;
  core_index : Z;
  type_5_called : bool;
  irq_table : list irq_desc;
  aheap : kheap
}.

Definition set_lapic x s := Apic x (lapic_regs s) (ioapic_addr s) (gsi_base s) (ioapic_regs s) (irq_overrides s) (cores_ptr s) (cores s) (core_index s) (type_5_called s) (irq_table s) (aheap s).
Definition set_lapic_regs x s := Apic (lapic s) x (ioapic_addr s) (gsi_base s) (ioapic_regs s) (irq_overrides s) (cores_ptr s) (cores s) (core_index s) (type_5_called s) (irq_table s) (aheap s).
Definition set_ioapic a b s := Apic (lapic s) (lapic_regs s) a b (ioapic_regs s) (irq_overrides s) (cores_ptr s) (cores s) (core_index s) (type_5_called s) (irq_table s) (aheap s).
Definition set_ioapic_regs x s := Apic (lapic s) (lapic_regs s) (ioapic_addr s) (gsi_base s) x (irq_overrides s) (cores_ptr s) (cores s) (core_index s) (type_5_called s) (irq_table s) (aheap s).
Definition set_overrides x s := Apic (lapic s) (lapic_regs s) (ioapic_addr s) (gsi_base s) (ioapic_regs s) x (cores_ptr s) (cores s) (core_index s) (type_5_called s) (irq_table s) (aheap s).
Definition set_cores p l s := Apic (lapic s) (lapic_regs s) (ioapic_addr s) (gsi_base s) (ioapic_regs s) (irq_overrides s) p l (core_index s) (type_5_called s) (irq_table s) (aheap s).
Definition set_core_index x s := Apic (lapic s) (lapic_regs s) (ioapic_addr s) (gsi_base s) (ioapic_regs s) (irq_overrides s) (cores_ptr s) (cores s) x (type_5_called s) (irq_table s) (aheap s).
Definition set_type_5 x s := Apic (lapic s) (lapic_regs s) (ioapic_addr s) (gsi_base s) (ioapic_regs s) (irq_overrides s) (cores_ptr s) (cores s) (core_index s) x (irq_table s) (aheap s).
Definition set_irq_table x s := Apic (lapic s) (lapic_regs s) (ioapic_addr s) (gsi_base s) (ioapic_regs s) (irq_overrides s) (cores_ptr s) (cores s) (core_index s) (type_5_called s) x (aheap s).
Definition set_aheap x s := Apic (lapic s) (lapic_regs s) (ioapic_addr s) (gsi_base s) (ioapic_regs s) (irq_overrides s) (cores_ptr s) (cores s) (core_index s) (type_5_called s) (irq_table s) x.

(** ** The table of cores (arch/x86_64/cores.c) *)

Definition CPU_CORE_SIZE : Z := 8.
Definition no_core_mem_msg : string := "cores_table_init: kmalloc failed".
Definition core_set_msg : string := "cores_array_update: idx is bigger than cores_count.".
Definition core_get_msg : string := "cpu_table_get: idx is bigger than cores_count.".

Definition cores_table_init (count : Z) (s : apic) : res apic :=
  '(p, h) ← kzalloc (u64 (CPU_CORE_SIZE * count)) (aheap s);
  let s := set_aheap h s in
  if p =? NULL then Panic no_core_mem_msg else
  Ok (set_cores p (replicate (Z.to_nat count) (CpuCore 0 0 0 false)) s).

Definition cores_table_get_count (s : apic) : Z := Z.of_nat (length (cores s)).

Definition cores_table_set (idx : Z) (core : cpu_core) (s : apic) : res apic :=
  if cores_table_get_count s <=? idx then Panic core_set_msg else
  l ← arr_set (cores s) idx core; Ok (set_cores (cores_ptr s) l s).

Definition cores_table_get (idx : Z) (s : apic) : res cpu_core :=
  if cores_table_get_count s <=? idx then Panic core_get_msg else arr_get (cores s) idx.

(** ** The controllers (arch/x86_64/apic/apic.c) *)

Definition irq_overrides_init (s : apic) : apic :=
  set_overrides ((λ i, IrqOverride (Z.of_nat i) 0) <$> seq 0 (Z.to_nat PIC_IRQ_COUNT)) s.

Definition get_current_apic_id (s : apic) : Z := Z.shiftr (ld (lapic_regs s) (lapic_reg "id")) 24.

Fixpoint update_awake_loop (n : nat) (i awake : Z) (s : apic) : res (Z * apic) :=
  match n with
  | O => Ok (awake, s)
  | S n' =>
      core ← cores_table_get i s;
      if apic_id core =? get_current_apic_id s then
        s ← cores_table_set i (CpuCore (logical_id core) (acpi_processor_id core) (apic_id core) true) s;
        update_awake_loop n' (i + 1) (u8 (awake + 1)) s
      else update_awake_loop n' (i + 1) awake s
  end.

Definition update_awake_cores (s : apic) : res (Z * apic) := update_awake_loop (length (cores s)) 0 0 s.

(** Selecting a register and accessing its window is one step. *)
Definition ioapic_read (reg : Z) (s : apic) : Z := ld (ioapic_regs s) reg.
Definition ioapic_write (reg val : Z) (s : apic) : apic := set_ioapic_regs (st (ioapic_regs s) reg val) s.

Definition ioapic_max_redirection_entries (s : apic) : Z := u8 (Z.shiftr (ioapic_read IOAPIC_VERSION_OFFSET s) 16).

Definition pin_range_msg : string := "ioapic_write_entry: pin/gsi not in range.".

Definition ioapic_write_entry (pin : Z) (e : ioapic_redirection_entry) (s : apic) : res apic :=
  if (pin <? gsi_base s) || (u32 (gsi_base s + ioapic_max_redirection_entries s) <=? pin) then Panic pin_range_msg else
  let s := ioapic_write (u32 (IOAPIC_REDIRECTION_TABLE_START_OFFSET + pin * 2 + 1)) (upper_dword e) s in
  Ok (ioapic_write (u32 (IOAPIC_REDIRECTION_TABLE_START_OFFSET + pin * 2)) (lower_dword e) s).

Definition lapic_write (f : string) (v : Z) (s : apic) : apic := set_lapic_regs (st (lapic_regs s) (lapic_reg f) v) s.

Definition enable_lapic (s : apic) : apic := lapic_write "sivr" (Z.lor 0x100 0xFF) s.
Definition apic_eoi (s : apic) : apic := lapic_write "eoi" 0x00 s.

(** The redirection entry of [vector] for an interrupt with [flags]. *)
Definition route_entry (vector flags : Z) : ioapic_redirection_entry :=
  Redir vector 0 0 0 (if Z.land flags 3 =? 3 then 1 else 0) 0 (if Z.land (Z.shiftr flags 2) 3 =? 3 then 1 else 0) 0 0 0.

Definition apic_route_irq (irq vector : Z) (s : apic) : res apic :=
  ov ← (if irq <=? MAX_PIC_IRQ then arr_get (irq_overrides s) irq else Ok (IrqOverride irq 0));
  ioapic_write_entry (ov_gsi ov) (route_entry vector (ov_flags ov)) s.

(** [elapsed] is what the hardware counter reads once [pit_sleep_10ms] is
    over. *)
Definition lapic_timer_init (elapsed vector : Z) (s : apic) : apic :=
  let s := lapic_write "div_config_reg" 0x03 s in
  let s := lapic_write "lvt_timer_reg" 0x10000 s in
  let s := lapic_write "init_count_reg" 0xFFFFFFFF s in
  let s := lapic_write "init_count_reg" 0 s in
  let ticks_in_10ms := u32 (0xFFFFFFFF - elapsed) in
  let s := lapic_write "div_config_reg" 0x03 s in
  let s := lapic_write "lvt_timer_reg" (Z.lor 0x20000 vector) s in
  lapic_write "init_count_reg" ticks_in_10ms s.

(** ** The table of handlers *)

Definition arch_irq_enable (irq : Z) (s : apic) : res apic :=
  if irq =? IRQ_TIMER then Ok s else apic_route_irq (u8 irq) (u8 (IRQ_BASE + irq)) s.

Definition request_irq (irq fn name dv : Z) (s : apic) : res (Z * apic) :=
  if NR_IRQS <=? irq then Ok (-1, s) else
  d ← arr_get (irq_table s) irq;
  if negb (handler d =? NULL) then Ok (-1, s) else
  tbl ← arr_set (irq_table s) irq (IrqDesc fn dv name);
  s ← arch_irq_enable irq (set_irq_table tbl s);
  Ok (0, s).

(** The call a dispatch ends in: handler, interrupt number and device. *)
Definition irq_handle (irq : Z) (s : apic) : res (option (Z * Z * Z)) :=
  d ← arr_get (irq_table s) irq;
  if negb (handler d =? NULL) then Ok (Some (handler d, irq, dev d)) else Ok None.

Definition irq_router (vector : Z) (s : apic) : res (option (Z * Z * Z) * apic) :=
  if vector =? VEC_SPURIOUS then Ok (None, s) else
  let s := apic_eoi s in
  c ← irq_handle (u32 (vector - IRQ_BASE)) s;
  Ok (c, s).

(** ** Redirection entries round-trip through the two registers *)

Definition redir_ok (e : ioapic_redirection_entry) : Prop :=
  0 <= re_vector e < 2 ^ 8 ∧ 0 <= re_delivery e < 2 ^ 3 ∧ 0 <= re_dest_mode e < 2 ∧ 0 <= re_status e < 2 ∧ 0 <= re_polarity e < 2 ∧
  0 <= re_remote_irr e < 2 ∧ 0 <= re_trigger e < 2 ∧ 0 <= re_mask e < 2 ∧ 0 <= re_rsv e < 2 ^ 39 ∧ 0 <= re_dest e < 2 ^ 8.

Lemma redir_roundtrip e : redir_ok e → redir_of (lower_dword e) (upper_dword e) = e.
Proof.
  intros Hok. unfold redir_of, lower_dword, upper_dword.
  assert (redir_bits e mod 2 ^ 32 + 2 ^ 32 * (redir_bits e / 2 ^ 32) = redir_bits e) as -> by (clear; zlia).
  rewrite !get_bits_spec by lia. destruct e as [v de dm st po ri tr ma rs ds]. unfold redir_ok in Hok. cbn in Hok. unfold redir_bits. cbn [re_vector re_delivery re_dest_mode re_status re_polarity re_remote_irr re_trigger re_mask re_rsv re_dest].
  destruct Hok as (? & ? & ? & ? & ? & ? & ? & ? & ? & ?).
  f_equal; zlia.
Qed.

Lemma route_entry_ok vector flags : 0 <= vector < 2 ^ 8 → redir_ok (route_entry vector flags).
Proof.
  intros Hv. unfold redir_ok, route_entry. cbn. destruct (Z.land flags 3 =? 3), (Z.land (Z.shiftr flags 2) 3 =? 3); lia.
Qed.

(** The entry the controller holds for a pin. *)
Definition pin_entry (s : apic) (pin : Z) : ioapic_redirection_entry :=
  redir_of (ioapic_read (IOAPIC_REDIRECTION_TABLE_START_OFFSET + pin * 2) s)
           (ioapic_read (IOAPIC_REDIRECTION_TABLE_START_OFFSET + pin * 2 + 1) s).

Lemma ioapic_write_entry_spec pin e s : redir_ok e → 0 <= gsi_base s → gsi_base s <= pin < gsi_base s + ioapic_max_redirection_entries s →
  gsi_base s < 2 ^ 16 →
  ∃ s', ioapic_write_entry pin e s = Ok s' ∧ pin_entry s' pin = e ∧ (∀ p, 0 <= p → p ≠ pin → pin_entry s' p = pin_entry s p) ∧
    irq_table s' = irq_table s ∧ lapic_regs s' = lapic_regs s ∧ irq_overrides s' = irq_overrides s.
Proof.
  intros He Hb0 Hpin Hb. assert (0 <= ioapic_max_redirection_entries s < 256) as Hmax by apply u8_range.
  unfold ioapic_write_entry. rewrite (u32_small (gsi_base s + _)) by lia.
  rewrite (proj2 (Z.ltb_ge _ _)) by lia. rewrite (proj2 (Z.leb_gt _ _)) by lia. cbn [orb].
  unfold IOAPIC_REDIRECTION_TABLE_START_OFFSET. rewrite !u32_small by lia. eexists. split; [reflexivity|].
  unfold pin_entry, ioapic_read, ioapic_write, IOAPIC_REDIRECTION_TABLE_START_OFFSET. cbn [ioapic_regs set_ioapic_regs].
  split_and!; try done.
  - rewrite ld_st_eq, ld_st_ne, ld_st_eq by lia. by apply redir_roundtrip.
  - intros p Hp Hne. rewrite !ld_st_ne by lia. done.
Qed.

(** The pin and trigger flags an interrupt number stands for. *)
Definition irq_route (s : apic) (irq : Z) : irq_override :=
  if irq <=? MAX_PIC_IRQ then znth (IrqOverride 0 0) (irq_overrides s) irq else IrqOverride irq 0.

Definition apic_inv (s : apic) : Prop :=
  length (irq_table s) = Z.to_nat NR_IRQS ∧ length (irq_overrides s) = Z.to_nat PIC_IRQ_COUNT ∧ 0 <= gsi_base s < 2 ^ 16.

#[export] Instance apic_inv_dec s : Decision (apic_inv s).
Proof. unfold apic_inv. apply _. Defined.

Lemma apic_route_irq_spec irq vector s : apic_inv s → 0 <= irq → 0 <= vector < 2 ^ 8 →
  let r := irq_route s irq in
  gsi_base s <= ov_gsi r < gsi_base s + ioapic_max_redirection_entries s →
  ∃ s', apic_route_irq irq vector s = Ok s' ∧ pin_entry s' (ov_gsi r) = route_entry vector (ov_flags r) ∧
    (∀ p, 0 <= p → p ≠ ov_gsi r → pin_entry s' p = pin_entry s p) ∧ irq_table s' = irq_table s ∧ lapic_regs s' = lapic_regs s ∧
    irq_overrides s' = irq_overrides s.
Proof.
  intros (Ht & Ho & Hb) Hirq Hv r Hr. unfold apic_route_irq.
  assert ((if irq <=? MAX_PIC_IRQ then arr_get (irq_overrides s) irq else Ok (IrqOverride irq 0)) = Ok r) as ->.
  { unfold r, irq_route. destruct (Z.leb_spec irq MAX_PIC_IRQ); [|done]. apply arr_get_znth. rewrite Ho. unfold PIC_IRQ_COUNT. lia. }
  rewrite bind_Ok. apply ioapic_write_entry_spec; [by apply route_entry_ok|lia|done|lia].
Qed.

Lemma irq_router_handler s irq d : 0 <= irq < NR_IRQS - 1 → irq_table s !! Z.to_nat irq = Some d → handler d ≠ NULL →
  irq_router (IRQ_BASE + irq) s = Ok (Some (handler d, irq, dev d), apic_eoi s).
Proof.
  unfold NR_IRQS. intros Hirq Hd Hh. unfold irq_router, VEC_SPURIOUS, IRQ_BASE. rewrite (proj2 (Z.eqb_neq (32 + irq) 0xFF)) by lia.
  assert (u32 (32 + irq - 32) = irq) as -> by (rewrite u32_small; lia). unfold irq_handle.
  assert (arr_get (irq_table (apic_eoi s)) irq = Ok d) as -> by (apply arr_get_Ok; split; [lia|exact Hd]). rewrite bind_Ok.
  by rewrite (proj2 (Z.eqb_neq _ _) Hh).
Qed.

(** C32: a requested interrupt is delivered to its handler.  For a free
    interrupt line below 223 whose pin the I/O APIC accepts, [request_irq]
    succeeds, programs the pin's redirection entry (unmasked, with polarity and
    trigger from the firmware's override) with the vector that [irq_router]
    turns back into a call of this handler with this line and device, after
    acknowledging the interrupt; other pins and handlers are unchanged.  A
    second request for the line fails and changes nothing. *)
Theorem request_irq_delivers irq fn name dv s : apic_inv s → 0 < irq < NR_IRQS - 1 → fn ≠ NULL →
  handler (znth (IrqDesc 0 0 0) (irq_table s) irq) = NULL →
  gsi_base s <= ov_gsi (irq_route s irq) < gsi_base s + ioapic_max_redirection_entries s →
  ∃ s', request_irq irq fn name dv s = Ok (0, s') ∧
    (let e := pin_entry s' (ov_gsi (irq_route s irq)) in
     re_mask e = 0 ∧ re_dest e = 0 ∧ irq_router (re_vector e) s' = Ok (Some (fn, irq, dv), apic_eoi s') ∧
     re_polarity e = (if Z.land (ov_flags (irq_route s irq)) 3 =? 3 then 1 else 0) ∧
     re_trigger e = (if Z.land (Z.shiftr (ov_flags (irq_route s irq)) 2) 3 =? 3 then 1 else 0)) ∧
    (∀ p, 0 <= p → p ≠ ov_gsi (irq_route s irq) → pin_entry s' p = pin_entry s p) ∧
    (∀ i, i ≠ Z.to_nat irq → irq_table s' !! i = irq_table s !! i) ∧
    ∀ fn' name' dv', request_irq irq fn' name' dv' s' = Ok (-1, s').
Proof.
  intros Hinv Hirq Hfn Hfree Hpin. pose proof Hinv as (Ht & Ho & Hb). unfold NR_IRQS in *.
  unfold request_irq at 1. unfold NR_IRQS. rewrite (proj2 (Z.leb_gt 224 irq)) by lia.
  rewrite (arr_get_znth (IrqDesc 0 0 0)), bind_Ok by lia. rewrite Hfree. cbn [Z.eqb NULL negb].
  rewrite arr_set_Ok, bind_Ok by lia. set (tbl := <[Z.to_nat irq := IrqDesc fn dv name]> (irq_table s)).
  unfold arch_irq_enable, IRQ_TIMER. rewrite (proj2 (Z.eqb_neq irq 0)) by lia.
  rewrite (u8_small irq) by lia. rewrite (u8_small (IRQ_BASE + irq)) by (unfold IRQ_BASE; lia).
  destruct (apic_route_irq_spec irq (IRQ_BASE + irq) (set_irq_table tbl s)) as (s' & -> & He & Hp & Htb & _).
  { split; [by cbn; unfold tbl; rewrite length_insert|done]. }
  { lia. }
  { unfold IRQ_BASE. lia. }
  { exact Hpin. }
  rewrite bind_Ok. exists s'. split; [done|].
  assert (irq_table s' !! Z.to_nat irq = Some (IrqDesc fn dv name)) as Hd.
  { rewrite Htb. cbn [irq_table set_irq_table]. unfold tbl. apply list_lookup_insert_eq. lia. }
  change (irq_route (set_irq_table tbl s) irq) with (irq_route s irq) in *. rewrite He. cbn [re_mask re_dest re_vector re_polarity re_trigger route_entry].
  split; [split; [done|split; [done|split; [|done]]]|]; [|split; [exact Hp|split]].
  - apply (irq_router_handler s' irq (IrqDesc fn dv name)); [unfold NR_IRQS; lia|done|done].
  - intros i Hi. rewrite Htb. cbn [irq_table set_irq_table]. unfold tbl. apply list_lookup_insert_ne. congruence.
  - intros fn' name' dv'. unfold request_irq, NR_IRQS. rewrite (proj2 (Z.leb_gt 224 irq)) by lia.
    assert (arr_get (irq_table s') irq = Ok (IrqDesc fn dv name)) as -> by (apply arr_get_Ok; split; [lia|done]).
    rewrite bind_Ok. cbn [handler]. by rewrite (proj2 (Z.eqb_neq fn NULL)).
Qed.

(** An I/O APIC with 24 pins; line 1 is redirected to pin 2, active low. *)
Definition demo_apic : apic :=
  Apic 0 ∅ 0xffff8880fec00000 0 {[ 1 := 0x170020 ]} (<[1%nat := IrqOverride 2 0xF]> ((λ i, IrqOverride (Z.of_nat i) 0) <$> seq 0 16))
       0 [] 0 false (replicate 224 (IrqDesc 0 0 0)) demo_heap.

Lemma request_irq_delivers_witness :
  ∃ s', request_irq IRQ_PS2 0xABCD 0 0 demo_apic = Ok (0, s') ∧ re_vector (pin_entry s' 2) = 33 ∧ re_polarity (pin_entry s' 2) = 1.
Proof.
  destruct (request_irq_delivers IRQ_PS2 0xABCD 0 0 demo_apic) as (s' & H1 & (H2 & H3 & H4 & H5 & H6) & _).
  - apply (bool_decide_unpack _). vm_compute. exact I.
  - vm_compute. split; reflexivity.
  - vm_compute. discriminate.
  - vm_compute. reflexivity.
  - vm_compute. split; [discriminate|reflexivity].
  - exists s'. split; [exact H1|]. split; [|exact H5].
    vm_compute in H1. injection H1 as <-. vm_compute. reflexivity.
Defined.

(** Line 223 can be requested, but its vector is the spurious one: its handler
    never runs. *)
Lemma irq_223_never_delivered s : irq_router (u8 (IRQ_BASE + 223)) s = Ok (None, s).
Proof. done. Qed.

(** The version register holds the index of the last pin, and the check
    rejects a pin equal to it. *)
Lemma last_pin_rejected e s : gsi_base s = 0 → ioapic_write_entry (ioapic_max_redirection_entries s) e s = Panic pin_range_msg.
Proof.
  intros Hb. unfold ioapic_write_entry. rewrite Hb, Z.add_0_l. pose proof (u8_range (Z.shiftr (ioapic_read IOAPIC_VERSION_OFFSET s) 16)) as Hr.
  fold (ioapic_max_redirection_entries s) in Hr. rewrite u32_small by lia. rewrite (proj2 (Z.leb_le _ _)) by lia. by rewrite orb_true_r.
Qed.
