(* ===== verification/Madt.v ===== *)
(** * The firmware's interrupt-controller table (arch/x86_64/apic/madt.c)

    The table is a byte buffer: a 44-byte header followed by records that
    start with their type and length.  The handlers read their record in
    place and update the controllers' state of [Apic]. *)

From S2P Require Import Prelude Types FrameAlloc EarlyPmm Pmm Paging Vmm Kmalloc Mm Layout Apic.

Definition acpi_header_layout : layout :=
  [("signature", 4); ("length", 4); ("revision", 1); ("checksum", 1); ("OEMID", 6); ("OEM_table_id", 8);
   ("OEM_revision", 4); ("creator_id", 4); ("creator_revision", 4)]%string.
Definition madt_layout : layout := acpi_header_layout ++ [("lapic_phys_addr", 4); ("flags", 4)]%string.
Definition madt_record_header_layout : layout := [("type", 1); ("length", 1)]%string.
Definition madt_record_lapic_layout : layout :=
  madt_record_header_layout ++ [("processor_id", 1); ("apic_id", 1); ("flags", 4)]%string.
Definition madt_record_ioapic_layout : layout :=
  madt_record_header_layout ++ [("ioapic_id", 1); ("rsv", 1); ("ioapic_phys_addr", 4); ("gsi_base", 4)]%string.
Definition madt_record_override_layout : layout :=
  madt_record_header_layout ++ [("bus_src", 1); ("irq_src", 1); ("gsi", 4); ("flags", 2)]%string.
Definition madt_record_lapic_override_layout : layout :=
  madt_record_header_layout ++ [("rsv", 2); ("lapic_phys_addr", 8)]%string.

Definition FIRST_MADT_RECORD_OFFSET : Z := 0x2C.
Definition MADT_REC_TYPE_0_ENABLED : Z := 0x01.

Definition bad_record_msg : string := "cores_array_init: invalid record length (rec->length < sizeof(struct madt_record_header).".
Definition two_type_5_msg : string := "madt_parse_record_type_5: multiple records of type 5.".
Definition bad_type_msg : string := "madt_parse_recoreds: unexpexted record type.".

Definition rec_type (buf : list Z) (p : Z) : res Z := field madt_record_header_layout "type" buf p.
Definition rec_length (buf : list Z) (p : Z) : res Z := field madt_record_header_layout "length" buf p.

(** Whether the record at [p] is an enabled core: the body of the counting
    loop. *)
Definition counts_core (buf : list Z) (p len : Z) : res bool :=
  ty ← rec_type buf p;
  if negb (ty =? 0) then Ok false else
  if len <? size_of madt_record_lapic_layout then Ok false else
  flags ← field madt_record_lapic_layout "flags" buf p;
  Ok (negb (Z.land flags MADT_REC_TYPE_0_ENABLED =? 0)).

Fixpoint madt_count_loop (fuel : nat) (buf : list Z) (ptr madt_end count : Z) : res Z :=
  match fuel with
  | O => OutOfFuel
  | S fuel' =>
      len ← rec_length buf ptr;
      if negb (ptr + len <? madt_end) then Ok count else
      if len <? size_of madt_record_header_layout then Panic bad_record_msg else
      b ← counts_core buf ptr len;
      madt_count_loop fuel' buf (ptr + len) madt_end (if b : bool then count + 1 else count)
  end.

Definition madt_count_cores (fuel : nat) (buf : list Z) : res Z :=
  madt_end ← field madt_layout "length" buf 0;
  madt_count_loop fuel buf FIRST_MADT_RECORD_OFFSET madt_end 0.

Section parse.
Context (cpu_has_1g_pages : bool) (kpgd : Z).

Definition madt_parse_record_type_0 (buf : list Z) (p : Z) (s : apic) : res apic :=
  len ← rec_length buf p;
  if len <? size_of madt_record_lapic_layout then Ok s else
  flags ← field madt_record_lapic_layout "flags" buf p;
  if Z.land flags MADT_REC_TYPE_0_ENABLED =? 0 then Ok s else
  pid ← field madt_record_lapic_layout "processor_id" buf p;
  aid ← field madt_record_lapic_layout "apic_id" buf p;
  let index := core_index s in
  cores_table_set index (CpuCore (u32 index) pid aid false) (set_core_index (index + 1) s).

Definition madt_parse_record_type_1 (buf : list Z) (p : Z) (s : apic) : res apic :=
  len ← rec_length buf p;
  if len <? size_of madt_record_ioapic_layout then Ok s else
  base ← field madt_record_ioapic_layout "gsi_base" buf p;
  if negb (base =? 0) then Ok s else
  addr ← field madt_record_ioapic_layout "ioapic_phys_addr" buf p;
  Ok (set_ioapic (PHYS_TO_VIRT addr) base s).

Definition madt_parse_record_type_2 (buf : list Z) (p : Z) (s : apic) : res apic :=
  len ← rec_length buf p;
  if len <? size_of madt_record_override_layout then Ok s else
  irq ← field madt_record_override_layout "irq_src" buf p;
  if MAX_PIC_IRQ <? irq then Ok s else
  gsi ← field madt_record_override_layout "gsi" buf p;
  flags ← field madt_record_override_layout "flags" buf p;
  l ← arr_set (irq_overrides s) irq (IrqOverride gsi flags);
  Ok (set_overrides l s).

Definition madt_parse_record_type_5 (buf : list Z) (p : Z) (s : apic) : res apic :=
  len ← rec_length buf p;
  if len <? size_of madt_record_lapic_override_layout then Ok s else
  if type_5_called s then Panic two_type_5_msg else
  let s := set_type_5 true s in
  addr ← field madt_record_lapic_override_layout "lapic_phys_addr" buf p;
  '(v, m) ← ioremap cpu_has_1g_pages kpgd addr (size_of lapic_layout) (as_mmu (aheap s));
  Ok (set_lapic v (set_aheap (with_mmu m (aheap s)) s)).

(** The switch of [madt_parse_recoreds]; types 3 and 4 are skipped. *)
Definition madt_parse_record (buf : list Z) (p : Z) (s : apic) : res apic :=
  ty ← rec_type buf p;
  if ty =? 0 then madt_parse_record_type_0 buf p s
  else if ty =? 1 then madt_parse_record_type_1 buf p s
  else if ty =? 2 then madt_parse_record_type_2 buf p s
  else if (ty =? 3) || (ty =? 4) then Ok s
  else if ty =? 5 then madt_parse_record_type_5 buf p s
  else Panic bad_type_msg.

Fixpoint madt_parse_loop (fuel : nat) (buf : list Z) (ptr madt_end : Z) (s : apic) : res apic :=
  match fuel with
  | O => OutOfFuel
  | S fuel' =>
      len ← rec_length buf ptr;
      if negb (ptr + len <? madt_end) then Ok s else
      s ← madt_parse_record buf ptr s;
      madt_parse_loop fuel' buf (ptr + len) madt_end s
  end.

Definition madt_parse_recoreds (fuel : nat) (buf : list Z) (s : apic) : res apic :=
  madt_end ← field madt_layout "length" buf 0;
  madt_parse_loop fuel buf FIRST_MADT_RECORD_OFFSET madt_end s.
End parse.

(** ** Tables as lists of records *)

(** A record: its bytes, the second of which is their number. *)
Definition record_ok (r : list Z) : Prop :=
  2 <= Z.of_nat (length r) < 256 ∧ Forall is_byte r ∧ r !! 1%nat = Some (Z.of_nat (length r)).

(** [buf] holds the table of the records [rs]; what follows it in memory is
    arbitrary. *)
Definition madt_is (buf : list Z) (rs : list (list Z)) : Prop :=
  ∃ hdr rest, buf = hdr ++ concat rs ++ rest ∧ Z.of_nat (length hdr) = FIRST_MADT_RECORD_OFFSET ∧ Forall record_ok rs ∧
    field madt_layout "length" hdr 0 = Ok (FIRST_MADT_RECORD_OFFSET + Z.of_nat (length (concat rs))).

(** The enabled core a record describes. *)
Definition core_of (r : list Z) : option (Z * Z) :=
  match field madt_record_header_layout "type" r 0, field madt_record_lapic_layout "flags" r 0,
        field madt_record_lapic_layout "processor_id" r 0, field madt_record_lapic_layout "apic_id" r 0 with
  | Ok ty, Ok flags, Ok pid, Ok aid => if (ty =? 0) && negb (Z.land flags MADT_REC_TYPE_0_ENABLED =? 0) then Some (pid, aid) else None
  | _, _, _, _ => None
  end.

Definition cores_of (rs : list (list Z)) : list (Z * Z) := omap core_of rs.

(** Fields of a record are read from its own bytes. *)
Lemma field_at l f pre r post : 0 <= offset_of f l → 0 <= field_size f l → offset_of f l + field_size f l <= Z.of_nat (length r) →
  field l f (pre ++ r ++ post) (Z.of_nat (length pre)) = field l f r 0.
Proof. intros H0 H1 Hl. unfold field. rewrite get_le_app, Z.add_0_l by done. by apply get_le_app_l. Qed.

Lemma rec_length_at pre r post : record_ok r → rec_length (pre ++ r ++ post) (Z.of_nat (length pre)) = Ok (Z.of_nat (length r)).
Proof.
  intros (Hl & _ & H1). unfold rec_length. rewrite field_at by (layout_eval; lia).
  unfold field, get_le. layout_eval. rewrite bytes_get_Ok by lia. rewrite bind_Ok.
  destruct r as [|a [|b r]]; [done|done|]. cbn in H1. injection H1 as ->. reflexivity || (f_equal; cbn; lia).
Qed.

Definition is_core (r : list Z) : bool := match core_of r with Some _ => true | None => false end.

Lemma length_cores_of r rs : length (cores_of (r :: rs)) = ((if is_core r then 1 else 0) + length (cores_of rs))%nat.
Proof. unfold cores_of, is_core. cbn. by destruct (core_of r). Qed.

(** The handlers see only their own record. *)
Lemma counts_core_at pre r post : record_ok r →
  counts_core (pre ++ r ++ post) (Z.of_nat (length pre)) (Z.of_nat (length r)) = Ok (is_core r).
Proof.
  intros Hr. pose proof Hr as (Hl & _ & _). unfold counts_core, rec_type, is_core, core_of.
  rewrite (field_at madt_record_header_layout) by (layout_eval; lia).
  destruct (field_Ok madt_record_header_layout "type" r 0) as [ty ->]; [layout_eval; lia..|]. rewrite bind_Ok.
  destruct (Z.eqb_spec ty 0) as [->|Hty]; cbn [negb andb].
  2: { destruct (field madt_record_lapic_layout "flags" r 0), (field madt_record_lapic_layout "processor_id" r 0),
         (field madt_record_lapic_layout "apic_id" r 0); done. }
  layout_eval. destruct (Z.ltb_spec (Z.of_nat (length r)) 8) as [Hs|Hs].
  { by rewrite (field_Fault madt_record_lapic_layout "flags" r 0) by (layout_eval; lia). }
  rewrite (field_at madt_record_lapic_layout) by (layout_eval; lia).
  destruct (field_Ok madt_record_lapic_layout "flags" r 0) as [fl ->]; [layout_eval; lia..|].
  destruct (field_Ok madt_record_lapic_layout "processor_id" r 0) as [pi ->]; [layout_eval; lia..|].
  destruct (field_Ok madt_record_lapic_layout "apic_id" r 0) as [ai ->]; [layout_eval; lia..|]. rewrite bind_Ok.
  by destruct (Z.land fl MADT_REC_TYPE_0_ENABLED =? 0).
Qed.

(** The counting loop over the records [rs] and the last one [r]. *)
Lemma madt_count_loop_spec rs : ∀ fuel pre r post count, Forall record_ok (rs ++ [r]) → (length rs < fuel)%nat →
  madt_count_loop fuel (pre ++ concat (rs ++ [r]) ++ post) (Z.of_nat (length pre))
    (Z.of_nat (length pre) + Z.of_nat (length (concat (rs ++ [r])))) count = Ok (count + Z.of_nat (length (cores_of rs))).
Proof.
  induction rs as [|x rs IH]; intros [|fuel] pre r post count Hok Hf; cbn [length] in Hf; try lia; cbn [madt_count_loop app concat].
  - apply Forall_cons in Hok as [Hr _]. rewrite app_nil_r. rewrite rec_length_at, bind_Ok by done.
    rewrite (proj2 (Z.ltb_ge _ _)) by lia. cbn. f_equal. lia.
  - apply Forall_cons in Hok as [Hx Hok]. pose proof Hx as (Hl & _ & _). rewrite <- app_assoc, rec_length_at, bind_Ok by done.
    assert (0 < Z.of_nat (length (concat (rs ++ [r])))) as Hpos.
    { rewrite concat_app, length_app. apply Forall_app in Hok as [_ Hok]. apply Forall_cons in Hok as [(? & _ & _) _]. cbn. rewrite app_nil_r. lia. }
    rewrite length_app. rewrite (proj2 (Z.ltb_lt _ _)) by lia. cbn [negb]. layout_eval. rewrite (proj2 (Z.ltb_ge _ 2)) by lia.
    rewrite counts_core_at, bind_Ok by done.
    specialize (IH fuel (pre ++ x) r post (if is_core x then count + 1 else count) Hok).
    rewrite length_app, Nat2Z.inj_add, <- app_assoc in IH.
    replace (Z.of_nat (length pre) + Z.of_nat (length x + length (concat (rs ++ [r]))))
      with (Z.of_nat (length pre) + Z.of_nat (length x) + Z.of_nat (length (concat (rs ++ [r])))) by lia.
    rewrite IH by lia. rewrite length_cores_of. destruct (is_core x); f_equal; lia.
Qed.

Lemma rec_length_self r : record_ok r → rec_length r 0 = Ok (Z.of_nat (length r)).
Proof. intros Hr. pose proof (rec_length_at [] r [] Hr) as H. by rewrite app_nil_r in H. Qed.

Section parse_spec.
Context (cpu_has_1g_pages : bool) (kpgd : Z).

Lemma parse_record_at pre r post s : record_ok r →
  madt_parse_record cpu_has_1g_pages kpgd (pre ++ r ++ post) (Z.of_nat (length pre)) s = madt_parse_record cpu_has_1g_pages kpgd r 0 s.
Proof.
  intros Hr. pose proof Hr as (Hl & _ & _). unfold madt_parse_record, rec_type.
  rewrite (field_at madt_record_header_layout) by (layout_eval; lia).
  destruct (field madt_record_header_layout "type" r 0) as [ty| | |]; [|done..]. rewrite !bind_Ok.
  unfold madt_parse_record_type_0, madt_parse_record_type_1, madt_parse_record_type_2, madt_parse_record_type_5.
  rewrite rec_length_at, rec_length_self, !bind_Ok by done. layout_eval.
  destruct (ty =? 0); [|destruct (ty =? 1); [|destruct (ty =? 2); [|destruct ((ty =? 3) || (ty =? 4)); [done|destruct (ty =? 5); [|done]]]]].
  - destruct (Z.ltb_spec (Z.of_nat (length r)) 8); [done|]. by rewrite !(field_at madt_record_lapic_layout) by (layout_eval; lia).
  - destruct (Z.ltb_spec (Z.of_nat (length r)) 12); [done|]. by rewrite !(field_at madt_record_ioapic_layout) by (layout_eval; lia).
  - destruct (Z.ltb_spec (Z.of_nat (length r)) 10); [done|]. by rewrite !(field_at madt_record_override_layout) by (layout_eval; lia).
  - destruct (Z.ltb_spec (Z.of_nat (length r)) 12); [done|]. by rewrite !(field_at madt_record_lapic_override_layout) by (layout_eval; lia).
Qed.

Fixpoint parse_all (rs : list (list Z)) (s : apic) : res apic :=
  match rs with
  | [] => Ok s
  | r :: rs' => s ← madt_parse_record cpu_has_1g_pages kpgd r 0 s; parse_all rs' s
  end.

Lemma madt_parse_loop_spec rs : ∀ fuel pre r post s, Forall record_ok (rs ++ [r]) → (length rs < fuel)%nat →
  madt_parse_loop cpu_has_1g_pages kpgd fuel (pre ++ concat (rs ++ [r]) ++ post) (Z.of_nat (length pre))
    (Z.of_nat (length pre) + Z.of_nat (length (concat (rs ++ [r])))) s = parse_all rs s.
Proof.
  induction rs as [|x rs IH]; intros [|fuel] pre r post s Hok Hf; cbn [length] in Hf; try lia; cbn [madt_parse_loop app concat parse_all].
  - apply Forall_cons in Hok as [Hr _]. rewrite app_nil_r. rewrite rec_length_at, bind_Ok by done.
    by rewrite (proj2 (Z.ltb_ge _ _)) by lia.
  - apply Forall_cons in Hok as [Hx Hok]. pose proof Hx as (Hl & _ & _). rewrite <- app_assoc, rec_length_at, bind_Ok by done.
    assert (0 < Z.of_nat (length (concat (rs ++ [r])))) as Hpos.
    { rewrite concat_app, length_app. apply Forall_app in Hok as [_ Hok]. apply Forall_cons in Hok as [(? & _ & _) _]. cbn. rewrite app_nil_r. lia. }
    rewrite length_app. rewrite (proj2 (Z.ltb_lt _ _)) by lia. cbn [negb]. rewrite parse_record_at by done.
    destruct (madt_parse_record cpu_has_1g_pages kpgd x 0 s) as [s1| | |]; [|done..]. rewrite !bind_Ok.
    specialize (IH fuel (pre ++ x) r post s1 Hok). rewrite length_app, Nat2Z.inj_add, <- app_assoc in IH.
    replace (Z.of_nat (length pre) + Z.of_nat (length x + length (concat (rs ++ [r]))))
      with (Z.of_nat (length pre) + Z.of_nat (length x) + Z.of_nat (length (concat (rs ++ [r])))) by lia.
    rewrite IH by lia. done.
Qed.

(** The cores found so far, in table form. *)
Definition core_entries (n : nat) (l : list (Z * Z)) : list cpu_core :=
  imap (λ i '(p, a), CpuCore (u32 (Z.of_nat (n + i))) p a false) l.

Definition no_core : cpu_core := CpuCore 0 0 0 false.

(** The state after the cores [l] with [k] slots left. *)
Definition cores_state (l : list (Z * Z)) (k : nat) (s : apic) : Prop :=
  cores s = core_entries 0 l ++ replicate k no_core ∧ core_index s = Z.of_nat (length l) ∧
  length (irq_overrides s) = Z.to_nat PIC_IRQ_COUNT.

Lemma length_core_entries n l : length (core_entries n l) = length l.
Proof. apply length_imap. Qed.

Lemma core_entries_snoc l p a : core_entries 0 (l ++ [(p, a)]) = core_entries 0 l ++ [CpuCore (u32 (Z.of_nat (length l))) p a false].
Proof. unfold core_entries. rewrite imap_app. cbn. by rewrite Nat.add_0_r. Qed.

Lemma cores_set_next l k p a s : cores_state l (S k) s →
  ∃ s', cores_table_set (core_index s) (CpuCore (u32 (core_index s)) p a false) (set_core_index (core_index s + 1) s) = Ok s' ∧
    cores_state (l ++ [(p, a)]) k s'.
Proof.
  intros (Hc & Hi & Ho). unfold cores_table_set, cores_table_get_count. cbn [cores set_core_index].
  assert (length (cores s) = length l + S k)%nat as Hlen by (rewrite Hc, length_app, length_core_entries, length_replicate; done).
  rewrite (proj2 (Z.leb_gt _ _)) by lia. rewrite arr_set_Ok, bind_Ok by lia. eexists. split; [reflexivity|].
  split; [|split; [cbn; rewrite length_app; cbn; lia|done]]. cbn [cores set_cores].
  rewrite Hi, Nat2Z.id, Hc. rewrite insert_app_r_alt by (rewrite length_core_entries; lia).
  rewrite length_core_entries, Nat.sub_diag, core_entries_snoc, <- app_assoc. done.
Qed.

Definition rec_type_of (r : list Z) : Z := default 0 (r !! 0%nat).

Lemma rec_type_ok r : record_ok r → field madt_record_header_layout "type" r 0 = Ok (rec_type_of r).
Proof.
  intros (Hl & _ & _). unfold field, get_le. layout_eval. rewrite bytes_get_Ok by lia. rewrite bind_Ok.
  destruct r as [|a r]; [exfalso; cbn [length] in Hl; lia|]. change (Ok (a + 256 * 0) = Ok a). f_equal. lia.
Qed.

(** One record other than a local-APIC override. *)
Lemma parse_record_cores r l k s : record_ok r → 0 <= rec_type_of r < 5 → cores_state l k s → (length (cores_of [r]) <= k)%nat →
  ∃ s', madt_parse_record cpu_has_1g_pages kpgd r 0 s = Ok s' ∧ cores_state (l ++ cores_of [r]) (k - length (cores_of [r])) s'.
Proof.
  intros Hr Hty Hs Hk. pose proof Hr as (Hl & _ & _). pose proof (rec_type_ok r Hr) as Hrt. unfold madt_parse_record, rec_type. rewrite Hrt, bind_Ok.
  assert (rec_type_of r ≠ 0 → cores_of [r] = []) as Hno.
  { intros Hne. enough (core_of r = None) as Hn by (unfold cores_of; cbn; by rewrite Hn).
    unfold core_of. rewrite Hrt, (proj2 (Z.eqb_neq _ _) Hne). by repeat case_match. }
  unfold madt_parse_record_type_0, madt_parse_record_type_1, madt_parse_record_type_2. rewrite rec_length_self, !bind_Ok by done. layout_eval.
  destruct (Z.eqb_spec (rec_type_of r) 0) as [H0|H0]; [|rewrite Hno in * by done; rewrite app_nil_r, Nat.sub_0_r].
  - assert (cores_of [r] = match core_of r with Some x => [x] | None => [] end) as Hco by (unfold cores_of; cbn; by destruct (core_of r)).
    unfold core_of in Hco. rewrite Hrt, H0 in Hco. cbn [Z.eqb andb] in Hco.
    destruct (Z.ltb_spec (Z.of_nat (length r)) 8) as [Hs8|Hs8].
    { rewrite (field_Fault madt_record_lapic_layout "flags" r 0) in Hco by (layout_eval; lia). exists s.
      rewrite Hco, app_nil_r, Nat.sub_0_r. done. }
    destruct (field_Ok madt_record_lapic_layout "flags" r 0) as [fl Hfl]; [layout_eval; lia..|].
    destruct (field_Ok madt_record_lapic_layout "processor_id" r 0) as [pi Hpi]; [layout_eval; lia..|].
    destruct (field_Ok madt_record_lapic_layout "apic_id" r 0) as [ai Hai]; [layout_eval; lia..|]. rewrite Hfl, Hpi, Hai in Hco |- *. rewrite !bind_Ok.
    destruct (Z.land fl MADT_REC_TYPE_0_ENABLED =? 0); cbn [negb] in Hco; rewrite Hco in Hk |- *;
      [exists s; by rewrite app_nil_r, Nat.sub_0_r|]. cbn [length] in *.
    destruct k as [|k]; [lia|]. rewrite Nat.sub_1_r. by apply cores_set_next.
  - destruct (Z.eqb_spec (rec_type_of r) 1) as [H1|H1]; [|destruct (Z.eqb_spec (rec_type_of r) 2) as [H2|H2]].
    + destruct (Z.ltb_spec (Z.of_nat (length r)) 12); [by exists s|].
      destruct (field_Ok madt_record_ioapic_layout "gsi_base" r 0) as [b ->]; [layout_eval; lia..|].
      destruct (field_Ok madt_record_ioapic_layout "ioapic_phys_addr" r 0) as [a ->]; [layout_eval; lia..|]. rewrite !bind_Ok.
      destruct (b =? 0); cbn [negb]; eexists; done.
    + destruct (Z.ltb_spec (Z.of_nat (length r)) 10); [by exists s|].
      destruct (field_Ok madt_record_override_layout "irq_src" r 0) as [i Hi]; [layout_eval; lia..|].
      destruct (field_Ok madt_record_override_layout "gsi" r 0) as [g ->]; [layout_eval; lia..|].
      destruct (field_Ok madt_record_override_layout "flags" r 0) as [f ->]; [layout_eval; lia..|]. rewrite Hi, !bind_Ok.
      destruct (Z.ltb_spec MAX_PIC_IRQ i) as [Hi15|Hi15]; [by exists s|].
      assert (0 <= i) as Hi0.
      { unfold field, get_le in Hi. res_inv Hi. subst i. eapply le_range. unfold bytes_get in Hx. res_inv Hx. subst.
        apply Forall_take, Forall_drop. apply Hr. }
      destruct Hs as (Hc & Hci & Ho). rewrite arr_set_Ok, bind_Ok by (rewrite Ho; unfold PIC_IRQ_COUNT; lia).
      eexists. split; [reflexivity|]. split; [done|]. split; [done|]. cbn [irq_overrides set_overrides]. by rewrite length_insert.
    + assert (((rec_type_of r =? 3) || (rec_type_of r =? 4)) = true) as ->.
      { apply orb_true_iff. rewrite !Z.eqb_eq. lia. }
      by exists s.
Qed.
End parse_spec.

Lemma parse_all_cores b kpgd rs : ∀ l k s, Forall record_ok rs → Forall (λ r, 0 <= rec_type_of r < 5) rs → cores_state l k s →
  (length (cores_of rs) <= k)%nat →
  ∃ s', parse_all b kpgd rs s = Ok s' ∧ cores_state (l ++ cores_of rs) (k - length (cores_of rs)) s'.
Proof.
  induction rs as [|r rs IH]; intros l k s Hok Hty Hs Hk; cbn [parse_all].
  { exists s. cbn. by rewrite app_nil_r, Nat.sub_0_r. }
  apply Forall_cons in Hok as [Hr Hok]. apply Forall_cons in Hty as [Ht Hty].
  assert (cores_of (r :: rs) = cores_of [r] ++ cores_of rs) as Hc by (unfold cores_of; cbn; by destruct (core_of r)).
  rewrite Hc, length_app in *. destruct (parse_record_cores b kpgd r l k s Hr Ht Hs) as (s1 & -> & Hs1); [lia|]. rewrite bind_Ok.
  destruct (IH _ _ _ Hok Hty Hs1) as (s2 & -> & Hs2); [lia|]. exists s2. split; [done|].
  rewrite app_assoc. replace (k - (length (cores_of [r]) + length (cores_of rs)))%nat with (k - length (cores_of [r]) - length (cores_of rs))%nat by lia.
  done.
Qed.

Lemma madt_read_spec b kpgd fuel buf rs r s : madt_is buf (rs ++ [r]) → (length rs < fuel)%nat →
  madt_count_cores fuel buf = Ok (Z.of_nat (length (cores_of rs))) ∧
  madt_parse_recoreds b kpgd fuel buf s = parse_all b kpgd rs s ∧
  (Forall (λ r, 0 <= rec_type_of r < 5) rs → length (irq_overrides s) = Z.to_nat PIC_IRQ_COUNT → core_index s = 0 →
   cores s = replicate (length (cores_of rs)) no_core →
   ∃ s', madt_parse_recoreds b kpgd fuel buf s = Ok s' ∧ cores s' = core_entries 0 (cores_of rs) ∧
     core_index s' = Z.of_nat (length (cores_of rs))).
Proof.
  intros (hdr & rest & -> & Hh & Hok & Hlen) Hf.
  assert (field madt_layout "length" (hdr ++ concat (rs ++ [r]) ++ rest) 0 = Ok (Z.of_nat (length hdr) + Z.of_nat (length (concat (rs ++ [r]))))) as Hend.
  { rewrite <- Hh in Hlen. rewrite <- Hlen. unfold field. apply get_le_app_l; layout_eval; unfold FIRST_MADT_RECORD_OFFSET in Hh; lia. }
  assert (madt_parse_recoreds b kpgd fuel (hdr ++ concat (rs ++ [r]) ++ rest) s = parse_all b kpgd rs s) as Hp.
  { unfold madt_parse_recoreds. rewrite Hend, bind_Ok, <- Hh. by apply madt_parse_loop_spec. }
  split; [|split; [done|]].
  - unfold madt_count_cores. rewrite Hend, bind_Ok, <- Hh. rewrite madt_count_loop_spec by done. f_equal.
  - intros Hty Ho Hi Hc. rewrite Hp. apply Forall_app in Hok as [Hok _].
    destruct (parse_all_cores b kpgd rs [] (length (cores_of rs)) s) as (s' & Hs' & Hc' & Hi' & _); [done|done| |done|].
    { split; [exact Hc|]. done. }
    exists s'. split; [done|]. rewrite Hc', Nat.sub_diag, app_nil_r in *. done.
Qed.

(** The interrupt-controller table is read record by record, without its
    last record.  For a table of well-formed records, [madt_count_cores] and
    [madt_parse_recoreds] terminate; the count is the number of enabled cores
    among all records but the last, and parsing is the sequence of the records'
    handlers over the same records, so that with the core table sized by the
    count every enabled core is stored in order and the table is filled
    exactly: no access beyond it. *)
Theorem madt_all_but_last b kpgd fuel buf rs r s : madt_is buf (rs ++ [r]) → (length rs < fuel)%nat →
  madt_count_cores fuel buf = Ok (Z.of_nat (length (cores_of rs))) ∧
  madt_parse_recoreds b kpgd fuel buf s = parse_all b kpgd rs s ∧
  (Forall (λ r, 0 <= rec_type_of r < 5) rs → length (irq_overrides s) = Z.to_nat PIC_IRQ_COUNT → core_index s = 0 →
   cores s = replicate (length (cores_of rs)) no_core →
   ∃ s', madt_parse_recoreds b kpgd fuel buf s = Ok s' ∧ cores s' = core_entries 0 (cores_of rs) ∧
     core_index s' = Z.of_nat (length (cores_of rs))).
Proof. apply madt_read_spec. Qed.

(** A table with two enabled cores, an override and a third core that is the
    last record. *)
Definition demo_records : list (list Z) := [[0; 8; 0; 7; 1; 0; 0; 0]; [2; 10; 0; 1; 2; 0; 0; 0; 15; 0]; [0; 8; 1; 9; 1; 0; 0; 0]].
Definition demo_madt : list Z := replicate 4 65 ++ le_enc 4 (44 + 26 + 8) ++ replicate 36 0 ++ concat (demo_records ++ [[0; 8; 2; 11; 1; 0; 0; 0]]).

#[export] Instance record_ok_dec r : Decision (record_ok r).
Proof. unfold record_ok, is_byte. apply _. Defined.

Lemma madt_all_but_last_witness :
  madt_count_cores 9 demo_madt = Ok 2 ∧
  ∃ s', madt_parse_recoreds false 0 9 demo_madt (set_cores 0 (replicate 2 no_core) demo_apic) = Ok s' ∧
    cores s' = [CpuCore 0 0 7 false; CpuCore 1 1 9 false].
Proof.
  destruct (madt_all_but_last false 0 9 demo_madt demo_records [0; 8; 2; 11; 1; 0; 0; 0] (set_cores 0 (replicate 2 no_core) demo_apic)) as (H1 & _ & H3).
  - exists (replicate 4 65 ++ le_enc 4 78 ++ replicate 36 0), []. split; [vm_compute; reflexivity|]. split; [vm_compute; reflexivity|].
    split; [apply (bool_decide_unpack _); vm_compute; exact I|vm_compute; reflexivity].
  - vm_compute. lia.
  - split; [exact H1|]. destruct H3 as (s' & H4 & H5 & _).
    + apply (bool_decide_unpack _). vm_compute. exact I.
    + vm_compute. reflexivity.
    + reflexivity.
    + vm_compute. reflexivity.
    + exists s'. split; [exact H4|]. rewrite H5. vm_compute. reflexivity.
Defined.
