(* ===== verification/Input.v ===== *)
(** * Keyboard input (drivers/ps2/ps2.c, kernel/input.c)

    Scan codes of the PS/2 controller become key codes, key codes become
    characters, and characters are typed into the terminal.  The controller is
    seen through the values its status and data ports return, in order, and the
    bytes written to it. *)

From Stdlib Require Import Ascii String.
From S2P Require Import Prelude Types FrameAlloc EarlyPmm Pmm Paging Vmm Kmalloc Mm ListHead Sched Wait Vga Tty Layout Apic.

(** ** Key codes (include/input.h) *)

Definition KEY_RESERVED : Z := 0.
Definition KEY_ESC : Z := 1.
Definition KEY_1 : Z := 2.
Definition KEY_2 : Z := 3.
Definition KEY_3 : Z := 4.
Definition KEY_4 : Z := 5.
Definition KEY_5 : Z := 6.
Definition KEY_6 : Z := 7.
Definition KEY_7 : Z := 8.
Definition KEY_8 : Z := 9.
Definition KEY_9 : Z := 10.
Definition KEY_0 : Z := 11.
Definition KEY_MINUS : Z := 12.
Definition KEY_EQUAL : Z := 13.
Definition KEY_BACKSPACE : Z := 14.
Definition KEY_TAB : Z := 15.
Definition KEY_Q : Z := 16.
Definition KEY_W : Z := 17.
Definition KEY_E : Z := 18.
Definition KEY_R : Z := 19.
Definition KEY_T : Z := 20.
Definition KEY_Y : Z := 21.
Definition KEY_U : Z := 22.
Definition KEY_I : Z := 23.
Definition KEY_O : Z := 24.
Definition KEY_P : Z := 25.
Definition KEY_LEFTBRACE : Z := 26.
Definition KEY_RIGHTBRACE : Z := 27.
Definition KEY_ENTER : Z := 28.
Definition KEY_LEFTCTRL : Z := 29.
Definition KEY_A : Z := 30.
Definition KEY_S : Z := 31.
Definition KEY_D : Z := 32.
Definition KEY_F : Z := 33.
Definition KEY_G : Z := 34.
Definition KEY_H : Z := 35.
Definition KEY_J : Z := 36.
Definition KEY_K : Z := 37.
Definition KEY_L : Z := 38.
Definition KEY_SEMICOLON : Z := 39.
Definition KEY_APOSTROPHE : Z := 40.
Definition KEY_GRAVE : Z := 41.
Definition KEY_LEFTSHIFT : Z := 42.
Definition KEY_BACKSLASH : Z := 43.
Definition KEY_Z : Z := 44.
Definition KEY_X : Z := 45.
Definition KEY_C : Z := 46.
Definition KEY_V : Z := 47.
Definition KEY_B : Z := 48.
Definition KEY_N : Z := 49.
Definition KEY_M : Z := 50.
Definition KEY_COMMA : Z := 51.
Definition KEY_DOT : Z := 52.
Definition KEY_SLASH : Z := 53.
Definition KEY_RIGHTSHIFT : Z := 54.
Definition KEY_KPASTERISK : Z := 55.
Definition KEY_LEFTALT : Z := 56.
Definition KEY_SPACE : Z := 57.
Definition KEY_CAPSLOCK : Z := 58.
Definition KEY_F1 : Z := 59.
Definition KEY_F2 : Z := 60.
Definition KEY_F3 : Z := 61.
Definition KEY_F4 : Z := 62.
Definition KEY_F5 : Z := 63.
Definition KEY_F6 : Z := 64.
Definition KEY_F7 : Z := 65.
Definition KEY_F8 : Z := 66.
Definition KEY_F9 : Z := 67.
Definition KEY_F10 : Z := 68.
Definition KEY_NUMLOCK : Z := 69.
Definition KEY_SCROLLLOCK : Z := 70.
Definition KEY_KP7 : Z := 71.
Definition KEY_KP8 : Z := 72.
Definition KEY_KP9 : Z := 73.
Definition KEY_KPMINUS : Z := 74.
Definition KEY_KP4 : Z := 75.
Definition KEY_KP5 : Z := 76.
Definition KEY_KP6 : Z := 77.
Definition KEY_KPPLUS : Z := 78.
Definition KEY_KP1 : Z := 79.
Definition KEY_KP2 : Z := 80.
Definition KEY_KP3 : Z := 81.
Definition KEY_KP0 : Z := 82.
Definition KEY_KPDOT : Z := 83.
Definition KEY_F11 : Z := 87.
Definition KEY_F12 : Z := 88.
Definition KEY_RIGHTCTRL : Z := 97.

(** A designated initialiser: all other elements are zero. *)
Definition designated (n : nat) (l : list (Z * Z)) : list Z :=
  fold_left (λ a '(k, c), <[Z.to_nat k := c]> a) l (replicate n 0).

Definition ascii_map : list Z := designated 128
    [(KEY_A, 97); (KEY_B, 98); (KEY_C, 99); (KEY_D, 100); (KEY_E, 101);
     (KEY_F, 102); (KEY_G, 103); (KEY_H, 104); (KEY_I, 105); (KEY_J, 106);
     (KEY_K, 107); (KEY_L, 108); (KEY_M, 109); (KEY_N, 110); (KEY_O, 111);
     (KEY_P, 112); (KEY_Q, 113); (KEY_R, 114); (KEY_S, 115); (KEY_T, 116);
     (KEY_U, 117); (KEY_V, 118); (KEY_W, 119); (KEY_X, 120); (KEY_Y, 121);
     (KEY_Z, 122); (KEY_1, 49); (KEY_2, 50); (KEY_3, 51); (KEY_4, 52);
     (KEY_5, 53); (KEY_6, 54); (KEY_7, 55); (KEY_8, 56); (KEY_9, 57);
     (KEY_0, 48); (KEY_MINUS, 45); (KEY_EQUAL, 61); (KEY_SPACE, 32); (KEY_ENTER, 10);
     (KEY_BACKSPACE, 8); (KEY_COMMA, 44); (KEY_DOT, 46); (KEY_SLASH, 47); (KEY_SEMICOLON, 59);
     (KEY_APOSTROPHE, 39); (KEY_GRAVE, 96); (KEY_LEFTBRACE, 91); (KEY_RIGHTBRACE, 93); (KEY_BACKSLASH, 92)].

Definition ascii_shift_map : list Z := designated 128
    [(KEY_A, 65); (KEY_B, 66); (KEY_C, 67); (KEY_D, 68); (KEY_E, 69);
     (KEY_F, 70); (KEY_G, 71); (KEY_H, 72); (KEY_I, 73); (KEY_J, 74);
     (KEY_K, 75); (KEY_L, 76); (KEY_M, 77); (KEY_N, 78); (KEY_O, 79);
     (KEY_P, 80); (KEY_Q, 81); (KEY_R, 82); (KEY_S, 83); (KEY_T, 84);
     (KEY_U, 85); (KEY_V, 86); (KEY_W, 87); (KEY_X, 88); (KEY_Y, 89);
     (KEY_Z, 90); (KEY_1, 33); (KEY_2, 64); (KEY_3, 35); (KEY_4, 36);
     (KEY_5, 37); (KEY_6, 94); (KEY_7, 38); (KEY_8, 42); (KEY_9, 40);
     (KEY_0, 41); (KEY_MINUS, 95); (KEY_EQUAL, 43); (KEY_SPACE, 32); (KEY_ENTER, 10);
     (KEY_BACKSPACE, 8); (KEY_COMMA, 60); (KEY_DOT, 62); (KEY_SLASH, 63); (KEY_SEMICOLON, 58);
     (KEY_APOSTROPHE, 34); (KEY_GRAVE, 126); (KEY_LEFTBRACE, 123); (KEY_RIGHTBRACE, 125); (KEY_BACKSLASH, 124)].

(** include/drivers/ps2.h *)
Definition ps2_scancode_base : list Z :=
  [0; KEY_ESC; KEY_1; KEY_2; KEY_3; KEY_4; KEY_5; KEY_6; KEY_7; KEY_8;
   KEY_9; KEY_0; KEY_MINUS; KEY_EQUAL; KEY_BACKSPACE; KEY_TAB; KEY_Q; KEY_W; KEY_E; KEY_R;
   KEY_T; KEY_Y; KEY_U; KEY_I; KEY_O; KEY_P; KEY_LEFTBRACE; KEY_RIGHTBRACE; KEY_ENTER; KEY_LEFTCTRL;
   KEY_A; KEY_S; KEY_D; KEY_F; KEY_G; KEY_H; KEY_J; KEY_K; KEY_L; KEY_SEMICOLON;
   KEY_APOSTROPHE; KEY_GRAVE; KEY_LEFTSHIFT; KEY_BACKSLASH; KEY_Z; KEY_X; KEY_C; KEY_V; KEY_B; KEY_N;
   KEY_M; KEY_COMMA; KEY_DOT; KEY_SLASH; KEY_RIGHTSHIFT; KEY_KPASTERISK; KEY_LEFTALT; KEY_SPACE; KEY_CAPSLOCK; KEY_F1;
   KEY_F2; KEY_F3; KEY_F4; KEY_F5; KEY_F6; KEY_F7; KEY_F8; KEY_F9; KEY_F10; KEY_NUMLOCK;
   KEY_SCROLLLOCK; KEY_KP7; KEY_KP8; KEY_KP9; KEY_KPMINUS; KEY_KP4; KEY_KP5; KEY_KP6; KEY_KPPLUS; KEY_KP1;
   KEY_KP2; KEY_KP3; KEY_KP0; KEY_KPDOT; 0; 0; 0; KEY_F11; KEY_F12].

(** ** Characters (kernel/input.c) *)

Record input := Input { shift_count : Z; caps_active : bool; ctrl_count : Z }.

(** Counting a modifier, with the clamping of dropped packets. *)
Definition count_modifier (n : Z) (is_release : bool) : Z :=
  let n := s32 (if is_release then n - 1 else n + 1) in
  if n <? 0 then 0 else if 2 <? n then 2 else n.

(** [input_handle_event] up to the call of [tty_push_char]: the character, or
    0 when nothing is typed. *)
Definition input_char (key : Z) (is_release : bool) (st : input) : res (Z * input) :=
  if (key =? KEY_LEFTSHIFT) || (key =? KEY_RIGHTSHIFT) then
    Ok (0, Input (count_modifier (shift_count st) is_release) (caps_active st) (ctrl_count st))
  else if (key =? KEY_LEFTCTRL) || (key =? KEY_RIGHTCTRL) then
    Ok (0, Input (shift_count st) (caps_active st) (count_modifier (ctrl_count st) is_release))
  else if (key =? KEY_CAPSLOCK) && negb is_release then
    Ok (0, Input (shift_count st) (negb (caps_active st)) (ctrl_count st))
  else if is_release then Ok (0, st)
  else if Z.of_nat (length ascii_map) <=? key then Ok (0, st)
  else
    c ← arr_get ascii_map key;
    if (KEY_Q <=? key) && (key <=? KEY_M) then
      let is_upper := caps_active st in
      let is_upper := if negb (shift_count st =? 0) then negb is_upper else is_upper in
      c ← (if is_upper then arr_get ascii_shift_map key else Ok c);
      Ok (c, st)
    else
      c ← (if negb (shift_count st =? 0) then arr_get ascii_shift_map key else Ok c);
      Ok (c, st).

(** The keyboard's static variables and the console it types into. *)
Record keyboard := Keyboard { kinput : input; is_extended : bool; kconsole : console }.

Section keyboard.
Context (run_queue default_wake pid_filter_wake : Z) (list_fuel : nat) (read_wait : Z).

Definition input_handle_event (key : Z) (is_release : bool) (k : keyboard) : res keyboard :=
  '(c, st) ← input_char key is_release (kinput k);
  let k := Keyboard st (is_extended k) (kconsole k) in
  if negb (c =? 0) then
    con ← tty_push_char run_queue default_wake pid_filter_wake list_fuel read_wait c (kconsole k);
    Ok (Keyboard st (is_extended k) con)
  else Ok k.

(** ** The interrupt (drivers/ps2/ps2.c) *)

Definition ps2_irq (scancode : Z) (k : keyboard) : res keyboard :=
  let is_release := negb (Z.land scancode 0x80 =? 0) in
  let raw_key := Z.land scancode (u8 (Z.lnot 0x80)) in
  if is_extended k then Ok (Keyboard (kinput k) false (kconsole k))
  else if scancode =? 0xE0 then Ok (Keyboard (kinput k) true (kconsole k))
  else if raw_key <? Z.of_nat (length ps2_scancode_base) then
    key ← arr_get ps2_scancode_base raw_key;
    if negb (key =? 0) then input_handle_event raw_key is_release k else Ok k
  else Ok k.
End keyboard.

(** ** Bringing up the controller *)

Definition PS2_DATA_PORT : Z := 0x60.
Definition PS2_STATUS_REG : Z := 0x64.
Definition PS2_CMD_REG : Z := 0x64.
Definition PS2_DISABLE_FIRST_PORT_CMD : Z := 0xAD.
Definition PS2_DISABLE_SECOND_PORT_CMD : Z := 0xA7.
Definition PS2_READ_CTRL_CONFIG_BYTE_CMD : Z := 0x20.
Definition PS2_WRITE_CONFIG_BYTE_CMD : Z := 0x60.
Definition PS2_ENABLE_FIRST_PORT_CMD : Z := 0xAE.
Definition PS2_SELF_TEST_CMD : Z := 0xAA.
Definition PS2_FIRST_PORT_TEST_CMD : Z := 0xAB.

(** What the status and data ports will return, and what was written. *)
Record ps2_io := Ps2Io { ps2_status : list Z; ps2_data : list Z; ps2_out : list (Z * Z) }.

(** A port that stops answering leaves the polling loops running. *)
Definition in_data (io : ps2_io) : res (Z * ps2_io) :=
  match ps2_data io with
  | [] => OutOfFuel
  | d :: ds => Ok (d, Ps2Io (ps2_status io) ds (ps2_out io))
  end.

Definition outb (port v : Z) (io : ps2_io) : ps2_io := Ps2Io (ps2_status io) (ps2_data io) (ps2_out io ++ [(port, v)]).

Fixpoint wait_read_loop (sts ds : list Z) (out : list (Z * Z)) : res ps2_io :=
  match sts with
  | [] => OutOfFuel
  | s :: sts' => if Z.land s 0x01 =? 0 then wait_read_loop sts' ds out else Ok (Ps2Io sts' ds out)
  end.
Definition ps2_wait_read (io : ps2_io) : res ps2_io := wait_read_loop (ps2_status io) (ps2_data io) (ps2_out io).

Fixpoint wait_write_loop (sts ds : list Z) (out : list (Z * Z)) : res ps2_io :=
  match sts with
  | [] => OutOfFuel
  | s :: sts' => if negb (Z.land s 0x02 =? 0) then wait_write_loop sts' ds out else Ok (Ps2Io sts' ds out)
  end.
Definition ps2_wait_write (io : ps2_io) : res ps2_io := wait_write_loop (ps2_status io) (ps2_data io) (ps2_out io).

Definition ps2_command (port v : Z) (io : ps2_io) : res ps2_io := io ← ps2_wait_write io; Ok (outb port v io).

Definition disable_ports (io : ps2_io) : res ps2_io :=
  io ← ps2_command PS2_CMD_REG PS2_DISABLE_FIRST_PORT_CMD io;
  ps2_command PS2_CMD_REG PS2_DISABLE_SECOND_PORT_CMD io.

(** Interrupt on, translation on, clock on. *)
Definition config_byte (b : Z) : Z := Z.land (Z.lor (Z.lor b 0x01) (Z.shiftl 1 6)) (u8 (Z.lnot (Z.shiftl 1 4))).

Definition enable_first_port (io : ps2_io) : res ps2_io :=
  io ← ps2_command PS2_CMD_REG PS2_READ_CTRL_CONFIG_BYTE_CMD io;
  io ← ps2_wait_read io;
  '(b, io) ← in_data io;
  io ← ps2_command PS2_CMD_REG PS2_WRITE_CONFIG_BYTE_CMD io;
  io ← ps2_command PS2_DATA_PORT (config_byte b) io;
  ps2_command PS2_CMD_REG PS2_ENABLE_FIRST_PORT_CMD io.

(** A command whose answer must be [want]. *)
Definition expect (want : Z) (io : ps2_io) : res (Z * ps2_io) :=
  io ← ps2_wait_read io;
  '(b, io) ← in_data io;
  Ok (if negb (b =? want) then - EFAULT else 0, io).

Definition controller_self_test (io : ps2_io) : res (Z * ps2_io) :=
  io ← ps2_command PS2_CMD_REG PS2_SELF_TEST_CMD io; expect 0x55 io.

Definition first_port_test (io : ps2_io) : res (Z * ps2_io) :=
  io ← ps2_command PS2_CMD_REG PS2_FIRST_PORT_TEST_CMD io; expect 0x00 io.

Definition reset_devices (io : ps2_io) : res (Z * ps2_io) :=
  io ← ps2_command PS2_DATA_PORT 0xFF io;
  '(r, io) ← expect 0xFA io;
  if negb (r =? 0) then Ok (r, io) else expect 0xAA io.

(** Flushing reads a data byte for every status that announces one. *)
Fixpoint flush_loop (sts ds : list Z) (out : list (Z * Z)) : res ps2_io :=
  match sts with
  | [] => OutOfFuel
  | s :: sts' =>
      if Z.land s 0x01 =? 0 then Ok (Ps2Io sts' ds out) else
      match ds with
      | [] => OutOfFuel
      | _ :: ds' => flush_loop sts' ds' out
      end
  end.

Definition ps2_kyb_init (ps2_irq_addr name : Z) (io : ps2_io) (a : apic) : res (Z * ps2_io * apic) :=
  io ← disable_ports io;
  io ← flush_loop (ps2_status io) (ps2_data io) (ps2_out io);
  '(r, io) ← controller_self_test io;
  if negb (r =? 0) then Ok (- EFAULT, io, a) else
  '(r, io) ← first_port_test io;
  if negb (r =? 0) then Ok (- EFAULT, io, a) else
  io ← enable_first_port io;
  '(r, io) ← reset_devices io;
  if negb (r =? 0) then Ok (- EFAULT, io, a) else
  '(r, a) ← request_irq IRQ_PS2 ps2_irq_addr name NULL a;
  if negb (r =? 0) then Ok (- EFAULT, io, a) else Ok (0, io, a).

(** ** The layout the tables are meant to hold

    The US keyboard, row by row: the key code of a row's first key and its
    characters without and with shift. *)


Definition us_rows : list (Z * list Z * list Z) :=
  [(2, codes "1234567890-=", codes "!@#$%^&*()_+"); (14, [backspace], [backspace]);
   (16, codes "qwertyuiop[]", codes "QWERTYUIOP{}"); (28, [newline], [newline]);
   (30, codes "asdfghjkl;'`", codes "ASDFGHJKL:" ++ [34] ++ codes "~");
   (43, codes "\zxcvbnm,./", codes "|ZXCVBNM<>?"); (57, codes " ", codes " ")].

Definition us_key (key : Z) (shifted : bool) : Z :=
  fold_left (λ c '(k, plain, shift), let row := if shifted : bool then shift else plain in
    if (k <=? key) && (key <? k + Z.of_nat (length row)) then znth 0 row (key - k) else c) us_rows 0.

Definition is_letter (key : Z) : bool :=
  (KEY_Q <=? key) && (key <=? KEY_P) || (KEY_A <=? key) && (key <=? KEY_L) || (KEY_Z <=? key) && (key <=? KEY_M).

Definition is_modifier (key : Z) : bool :=
  (key =? KEY_LEFTSHIFT) || (key =? KEY_RIGHTSHIFT) || (key =? KEY_LEFTCTRL) || (key =? KEY_RIGHTCTRL) || (key =? KEY_CAPSLOCK).

(** The shift level of a key press. *)
Definition level (key : Z) (st : input) : bool :=
  let shift := negb (shift_count st =? 0) in
  if (KEY_Q <=? key) && (key <=? KEY_M) then xorb shift (caps_active st) else shift.

Lemma tables_us key b : 0 <= key < 128 →
  znth 0 (if b : bool then ascii_shift_map else ascii_map) key = us_key key b.
Proof.
  intros Hk. assert (forallb (λ i, let key := Z.of_nat i in
    (znth 0 ascii_shift_map key =? us_key key true) && (znth 0 ascii_map key =? us_key key false)) (seq 0 128) = true) as Hall by (vm_compute; reflexivity).
  rewrite forallb_forall in Hall. specialize (Hall (Z.to_nat key)). rewrite in_seq, Z2Nat.id in Hall by lia.
  assert (0 <= Z.to_nat key < 0 + 128)%nat as Hr by lia. apply Hall in Hr. apply andb_true_iff in Hr as [H1 H2].
  apply Z.eqb_eq in H1, H2. by destruct b.
Qed.

Lemma length_ascii_map : length ascii_map = 128%nat. Proof. vm_compute. reflexivity. Qed.
Lemma length_ascii_shift_map : length ascii_shift_map = 128%nat. Proof. vm_compute. reflexivity. Qed.

Lemma input_char_press key st : 0 <= key < 128 → is_modifier key = false → input_char key false st = Ok (us_key key (level key st), st).
Proof.
  intros Hk Hm. unfold is_modifier in Hm. rewrite !orb_false_iff in Hm. destruct Hm as ((((H1 & H2) & H3) & H4) & H5).
  unfold input_char. rewrite H1, H2, H3, H4, H5. cbn [orb andb negb]. rewrite length_ascii_map. rewrite (proj2 (Z.leb_gt _ _)) by lia.
  rewrite (arr_get_znth 0 ascii_map), bind_Ok by (rewrite length_ascii_map; lia).
  assert (arr_get ascii_shift_map key = Ok (us_key key true)) as Hs.
  { rewrite (arr_get_znth 0) by (rewrite length_ascii_shift_map; lia). f_equal. by apply (tables_us key true). }
  rewrite (tables_us key false) by done. rewrite Hs. unfold level.
  destruct ((KEY_Q <=? key) && (key <=? KEY_M)), (shift_count st =? 0), (caps_active st); done.
Qed.

(** Any event: no access outside the tables, and the modifier counts stay in
    their range. *)
Definition input_inv (st : input) : Prop := 0 <= shift_count st <= 2 ∧ 0 <= ctrl_count st <= 2.

Lemma count_modifier_range n b : 0 <= count_modifier n b <= 2.
Proof. unfold count_modifier. destruct (Z.ltb_spec (s32 (if b then n - 1 else n + 1)) 0); [lia|]. destruct (Z.ltb_spec 2 (s32 (if b then n - 1 else n + 1))); lia. Qed.

Lemma input_char_inv key b st : 0 <= key → input_inv st → returns (input_char key b st) (λ '(_, st'), input_inv st').
Proof.
  intros Hk [Hs Hc]. unfold input_char. rewrite length_ascii_map.
  destruct ((key =? KEY_LEFTSHIFT) || (key =? KEY_RIGHTSHIFT)); [split; [apply count_modifier_range|done]|].
  destruct ((key =? KEY_LEFTCTRL) || (key =? KEY_RIGHTCTRL)); [split; [done|apply count_modifier_range]|].
  destruct ((key =? KEY_CAPSLOCK) && negb b); [done|]. destruct b; [done|].
  destruct (Z.leb_spec (Z.of_nat 128) key); [done|].
  rewrite (arr_get_znth 0 ascii_map), bind_Ok by (rewrite length_ascii_map; lia).
  rewrite (arr_get_znth 0 ascii_shift_map) by (rewrite length_ascii_shift_map; lia).
  destruct ((KEY_Q <=? key) && (key <=? KEY_M)), (shift_count st =? 0), (caps_active st); done.
Qed.

(** The scan-code table holds, at every position, the position or nothing. *)
Lemma scancode_identity raw : 0 <= raw < Z.of_nat (length ps2_scancode_base) →
  znth 0 ps2_scancode_base raw = if bool_decide (raw = 0 ∨ 84 <= raw <= 86) then 0 else raw.
Proof.
  change (Z.of_nat (length ps2_scancode_base)) with 89. intros Hr.
  assert (forallb (λ i, znth 0 ps2_scancode_base (Z.of_nat i) =? if bool_decide (Z.of_nat i = 0 ∨ 84 <= Z.of_nat i <= 86) then 0 else Z.of_nat i) (seq 0 89) = true)
    as Hall by (vm_compute; reflexivity).
  rewrite forallb_forall in Hall. specialize (Hall (Z.to_nat raw)). rewrite in_seq, Z2Nat.id in Hall by lia. apply Z.eqb_eq, Hall. lia.
Qed.

Definition keyboard_inv (k : keyboard) : Prop := input_inv (kinput k) ∧ tty_inv (ctty (kconsole k)) ∧ vga_inv (cvga (kconsole k)).

Lemma raw_key_spec sc : 0 <= sc < 256 →
  negb (Z.land sc 0x80 =? 0) = (0x80 <=? sc) ∧ Z.land sc (u8 (Z.lnot 0x80)) = sc mod 128.
Proof.
  intros Hs. assert (forallb (λ i, let sc := Z.of_nat i in Bool.eqb (negb (Z.land sc 0x80 =? 0)) (0x80 <=? sc) && (Z.land sc (u8 (Z.lnot 0x80)) =? sc mod 128))
    (seq 0 256) = true) as Hall by (vm_compute; reflexivity).
  rewrite forallb_forall in Hall. specialize (Hall (Z.to_nat sc)). rewrite in_seq, Z2Nat.id in Hall by lia.
  assert (0 <= Z.to_nat sc < 0 + 256)%nat as Hr by lia. apply Hall in Hr. apply andb_true_iff in Hr as [H1 H2].
  apply Bool.eqb_prop in H1. apply Z.eqb_eq in H2. done.
Qed.

Section typing.
Context (run_queue default_wake pid_filter_wake : Z) (list_fuel : nat) (read_wait : Z).

(** The readers of the terminal can be woken. *)
Definition wakeable (c : console) : Prop := ok (wake_up run_queue default_wake pid_filter_wake list_fuel read_wait (csched c)) = true.

Lemma push_keeps_inv c con : tty_inv (ctty con) → vga_inv (cvga con) → wakeable con →
  returns (tty_push_char run_queue default_wake pid_filter_wake list_fuel read_wait c con) (λ con', tty_inv (ctty con') ∧ vga_inv (cvga con')).
Proof.
  intros Ht Hv Hw. unfold tty_push_char. eapply returns_bind; [by apply tty_push_spec|]. intros [[nl t'] v'] [-> (Ht' & Hv' & _)].
  destruct (c =? newline); [|done]. cbn [csched]. unfold wakeable in Hw. destruct (wake_up _ _ _ _ _ _); done.
Qed.

Lemma event_keeps_inv key b k : 0 <= key → keyboard_inv k → wakeable (kconsole k) →
  returns (input_handle_event run_queue default_wake pid_filter_wake list_fuel read_wait key b k) (λ k', keyboard_inv k' ∧ is_extended k' = is_extended k).
Proof.
  intros Hk (Hi & Ht & Hv) Hw. unfold input_handle_event. eapply returns_bind; [by apply input_char_inv|]. intros [c st] Hst. cbv zeta.
  destruct (negb (c =? 0)); [|done]. eapply returns_bind; [by apply push_keeps_inv|]. intros con' [Ht' Hv']. done.
Qed.

Lemma scancode_get raw : 0 <= raw < Z.of_nat (length ps2_scancode_base) →
  arr_get ps2_scancode_base raw = Ok (if bool_decide (raw = 0 ∨ 84 <= raw <= 86) then 0 else raw).
Proof. intros Hr. rewrite (arr_get_znth 0) by done. by rewrite scancode_identity. Qed.

Lemma ps2_irq_inv sc k : 0 <= sc < 256 → keyboard_inv k → wakeable (kconsole k) →
  returns (ps2_irq run_queue default_wake pid_filter_wake list_fuel read_wait sc k) keyboard_inv.
Proof.
  intros Hs Hk Hw. destruct (raw_key_spec sc Hs) as [Hrel Hraw]. unfold ps2_irq. rewrite Hrel, Hraw. cbv zeta.
  destruct (is_extended k); [done|]. destruct (sc =? 0xE0); [done|].
  destruct (Z.ltb_spec (sc mod 128) (Z.of_nat (length ps2_scancode_base))) as [Hlt|]; [|done].
  rewrite scancode_get, bind_Ok by (split; [apply Z.mod_pos_bound; lia|done]).
  set (kc := if bool_decide _ then 0 else sc mod 128). destruct (kc =? 0); [done|]. cbn [negb]. eapply returns_mono; [apply event_keeps_inv; [apply Z.mod_pos_bound; lia|done|done]|]. by intros k' [? _].
Qed.
End typing.



(** With caps lock on and shift off, the keys between Q and M that are not
    letters are shifted too: the bracket key types a brace. *)
Lemma caps_shifts_brackets : input_char KEY_LEFTBRACE false (Input 0 true 0) = Ok (123, Input 0 true 0).
Proof. vm_compute. reflexivity. Qed.

(** ** The dialogue with the controller *)

Lemma flush_spec g sts ds out : flush_loop (replicate (length g) 1 ++ 0 :: sts) (g ++ ds) out = Ok (Ps2Io sts ds out).
Proof. induction g as [|x g IH]; [done|]. cbn [length replicate app flush_loop]. exact IH. Qed.

Lemma disable_ports_spec sts ds : disable_ports (Ps2Io (0 :: 0 :: sts) ds []) =
  Ok (Ps2Io sts ds [(PS2_CMD_REG, PS2_DISABLE_FIRST_PORT_CMD); (PS2_CMD_REG, PS2_DISABLE_SECOND_PORT_CMD)]).
Proof. reflexivity. Qed.

(** Each exchange with a ready controller. *)
Lemma self_test_spec sts a ds out : controller_self_test (Ps2Io (1 :: 1 :: sts) (a :: ds) out) =
  Ok (if negb (a =? 0x55) then - EFAULT else 0, Ps2Io sts ds (out ++ [(PS2_CMD_REG, PS2_SELF_TEST_CMD)])).
Proof. reflexivity. Qed.
Lemma port_test_spec sts b ds out : first_port_test (Ps2Io (1 :: 1 :: sts) (b :: ds) out) =
  Ok (if negb (b =? 0) then - EFAULT else 0, Ps2Io sts ds (out ++ [(PS2_CMD_REG, PS2_FIRST_PORT_TEST_CMD)])).
Proof. reflexivity. Qed.
Lemma enable_port_spec sts cfg ds out : enable_first_port (Ps2Io (1 :: 1 :: 1 :: 1 :: 1 :: sts) (cfg :: ds) out) =
  Ok (Ps2Io sts ds ((((out ++ [(PS2_CMD_REG, PS2_READ_CTRL_CONFIG_BYTE_CMD)]) ++ [(PS2_CMD_REG, PS2_WRITE_CONFIG_BYTE_CMD)]) ++
    [(PS2_DATA_PORT, config_byte cfg)]) ++ [(PS2_CMD_REG, PS2_ENABLE_FIRST_PORT_CMD)])).
Proof. reflexivity. Qed.
Lemma reset_spec c d out : reset_devices (Ps2Io [1; 1; 1] [c; d] out) =
  Ok (if negb (c =? 0xFA) then (- EFAULT, Ps2Io [1] [d] (out ++ [(PS2_DATA_PORT, 0xFF)]))
      else (if negb (d =? 0xAA) then - EFAULT else 0, Ps2Io [] [] (out ++ [(PS2_DATA_PORT, 0xFF)]))).
Proof.
  unfold reset_devices. change (ps2_command PS2_DATA_PORT 255 (Ps2Io [1; 1; 1] [c; d] out)) with (Ok (Ps2Io [1; 1] [c; d] (out ++ [(PS2_DATA_PORT, 0xFF)]))).
  rewrite bind_Ok. change (expect 0xFA (Ps2Io [1; 1] [c; d] (out ++ [(PS2_DATA_PORT, 0xFF)]))) with
    (Ok (if negb (c =? 0xFA) then - EFAULT else 0, Ps2Io [1] [d] (out ++ [(PS2_DATA_PORT, 0xFF)]))).
  rewrite bind_Ok. by destruct (c =? 0xFA).
Qed.

(** A controller that is always ready: two polls before the flush, [g] bytes of
    garbage, then twelve polls. *)
Definition ready_status (g : list Z) : list Z := [0; 0] ++ replicate (length g) 1 ++ 0 :: replicate 12 1.

Definition init_commands (cfg : Z) : list (Z * Z) :=
  [(PS2_CMD_REG, PS2_DISABLE_FIRST_PORT_CMD); (PS2_CMD_REG, PS2_DISABLE_SECOND_PORT_CMD);
   (PS2_CMD_REG, PS2_SELF_TEST_CMD); (PS2_CMD_REG, PS2_FIRST_PORT_TEST_CMD);
   (PS2_CMD_REG, PS2_READ_CTRL_CONFIG_BYTE_CMD); (PS2_CMD_REG, PS2_WRITE_CONFIG_BYTE_CMD); (PS2_DATA_PORT, config_byte cfg);
   (PS2_CMD_REG, PS2_ENABLE_FIRST_PORT_CMD); (PS2_DATA_PORT, 0xFF)].

(** The configuration byte keeps every bit but the three the driver sets. *)
Lemma config_byte_bits b n : 0 <= b < 256 → 0 <= n < 8 → Z.testbit (config_byte b) n =
  if bool_decide (n = 0 ∨ n = 6) then true else if bool_decide (n = 4) then false else Z.testbit b n.
Proof.
  intros Hb Hn. assert (n = 0 ∨ n = 1 ∨ n = 2 ∨ n = 3 ∨ n = 4 ∨ n = 5 ∨ n = 6 ∨ n = 7) as Hn' by lia.
  unfold config_byte. rewrite Z.land_spec, !Z.lor_spec. 
  destruct Hn' as [->|[->|[->|[->|[->|[->|[->| ->]]]]]]]; cbn; rewrite ?orb_false_r, ?orb_true_r, ?andb_true_r, ?andb_false_r; done.
Qed.

(** The controller's answers decide the outcome of [ps2_kyb_init]; with the
    expected ones the driver sends exactly [init_commands] and ends with the
    request for its interrupt. *)
Lemma ps2_init_dialogue addr name g a b cfg c d ap :
  ps2_kyb_init addr name (Ps2Io (ready_status g) (g ++ [a; b; cfg; c; d]) []) ap =
  if negb (a =? 0x55) then Ok (- EFAULT, Ps2Io (replicate 10 1) [b; cfg; c; d] (take 3 (init_commands cfg)), ap)
  else if negb (b =? 0) then Ok (- EFAULT, Ps2Io (replicate 8 1) [cfg; c; d] (take 4 (init_commands cfg)), ap)
  else if negb (c =? 0xFA) then Ok (- EFAULT, Ps2Io [1] [d] (init_commands cfg), ap)
  else if negb (d =? 0xAA) then Ok (- EFAULT, Ps2Io [] [] (init_commands cfg), ap)
  else '(r, ap) ← request_irq IRQ_PS2 addr name NULL ap; Ok (if negb (r =? 0) then - EFAULT else 0, Ps2Io [] [] (init_commands cfg), ap).
Proof.
  unfold ps2_kyb_init, ready_status. change ([0; 0] ++ replicate (length g) 1 ++ 0 :: replicate 12 1) with
    (0 :: 0 :: replicate (length g) 1 ++ 0 :: replicate 12 1). rewrite disable_ports_spec, bind_Ok. cbn [ps2_status ps2_data ps2_out].
  rewrite flush_spec, bind_Ok. change (replicate 12 1) with ([1; 1] ++ [1; 1] ++ [1; 1; 1; 1; 1] ++ [1; 1; 1]). cbn [app].
  rewrite self_test_spec, bind_Ok. destruct (a =? 0x55); [|done]. change (negb (0 =? 0)) with false. cbv iota.
  rewrite port_test_spec, bind_Ok. destruct (b =? 0); [|done]. change (negb (0 =? 0)) with false. cbv iota.
  rewrite enable_port_spec, bind_Ok, reset_spec, bind_Ok.
  destruct (c =? 0xFA); [|done]. destruct (d =? 0xAA); [|done]. change (negb (0 =? 0)) with false. cbv iota.
  destruct (request_irq IRQ_PS2 addr name NULL ap) as [[r ap']| | |]; [|done..]. cbn -[config_byte Z.eqb]. change (negb (0 =? 0)) with false. cbv iota. rewrite ?bind_Ok. by destruct (r =? 0).
Qed.
