(* ===== verification/Descriptors.v ===== *)
(** * Descriptor tables and exceptions

    arch/x86_64/gdt.c (segment descriptors and the task-state segment),
    arch/x86_64/idt/idt.c (interrupt gates) and arch/x86_64/idt/exceptions.c
    (faults and the table of fix-ups). *)

From S2P Require Import Prelude Types Layout.

(** ** Interrupt gates *)

Definition IDT_COUNT : Z := 256.
Definition EXCEPTION_COUNT : Z := 32.
Definition KERNEL_CS : Z := 0x08.

Record interrupt_descriptor := Gate {
  offset_low : Z; selector : Z; ist : Z; type_dp_present : Z; offset_mid : Z; offset_high : Z; gate_rsv : Z
}.

Definition empty_gate : interrupt_descriptor := Gate 0 0 0 0 0 0 0.

Definition make_gate (handler_addr : Z) : interrupt_descriptor :=
  Gate (u16 (Z.land handler_addr 0xFFFF)) KERNEL_CS 0 0x8E (u16 (Z.land (Z.shiftr handler_addr 16) 0xFFFF))
       (u32 (Z.land (Z.shiftr handler_addr 32) 0xFFFFFFFF)) 0.

Definition register_intrerrupt (int_no handler : Z) (idt : list interrupt_descriptor) : res (list interrupt_descriptor) :=
  arr_set idt int_no (make_gate handler).

Section idt.
(** The addresses of the assembly stubs. *)
Context (dummy_interrupt_handler int0 int13 int14 : Z) (irq_tramp_table : list Z).

Definition register_eceptions (idt : list interrupt_descriptor) : res (list interrupt_descriptor) :=
  idt ← for_range (Z.to_nat EXCEPTION_COUNT) 0 (λ i idt, register_intrerrupt i dummy_interrupt_handler idt) idt;
  idt ← register_intrerrupt 0 int0 idt;
  idt ← register_intrerrupt 13 int13 idt;
  register_intrerrupt 14 int14 idt.

(** [memset] of the whole table, the gates, and the limit loaded with it. *)
Definition idt_init (idt : list interrupt_descriptor) : res (Z * list interrupt_descriptor) :=
  let idt := replicate (length idt) empty_gate in
  let size := u16 (16 * Z.of_nat (length idt) - 1) in
  idt ← register_eceptions idt;
  idt ← for_range (Z.to_nat (IDT_COUNT - 32)) 32
          (λ v idt, h ← arr_get irq_tramp_table (v - 32); register_intrerrupt v h idt) idt;
  Ok (size, idt).

(** The handler of a vector as the processor computes it from its gate. *)
Definition gate_offset (g : interrupt_descriptor) : Z := offset_low g + 2 ^ 16 * offset_mid g + 2 ^ 32 * offset_high g.

Definition vector_handler (v : Z) : Z :=
  if v =? 0 then int0 else if v =? 13 then int13 else if v =? 14 then int14
  else if v <? EXCEPTION_COUNT then dummy_interrupt_handler else znth 0 irq_tramp_table (v - 32).
End idt.

Lemma make_gate_offset a : 0 <= a < 2 ^ 64 → gate_offset (make_gate a) = a.
Proof.
  intros Ha. unfold gate_offset, make_gate. cbn [offset_low offset_mid offset_high].
  change 0xFFFF with (Z.ones 16). change 0xFFFFFFFF with (Z.ones 32). rewrite !Z.land_ones, !Z.shiftr_div_pow2 by lia.
  unfold u16, u32. zlia.
Qed.

(** [idt] holds the gates of [f] below [n]. *)
Definition gates_upto (f : Z → Z) (n : Z) (idt : list interrupt_descriptor) : Prop :=
  length idt = 256%nat ∧ ∀ v, 0 <= v < n → idt !! Z.to_nat v = Some (make_gate (f v)).

Lemma register_gates f n h idt : gates_upto f n idt → 0 <= n < 256 → h = f n →
  returns (register_intrerrupt n h idt) (gates_upto f (n + 1)).
Proof.
  intros [Hl Hg] Hn ->. unfold register_intrerrupt. rewrite arr_set_Ok by lia. split; [by rewrite length_insert|].
  intros v Hv. destruct (decide (v = n)) as [->|]; [apply list_lookup_insert_eq; lia|].
  rewrite list_lookup_insert_ne by lia. apply Hg. lia.
Qed.

(** Re-registering a vector changes what its gate should be. *)
Lemma register_again f f' n k h idt : gates_upto f n idt → 0 <= k < n → n <= 256 → h = f' k → (∀ v, v ≠ k → f' v = f v) →
  returns (register_intrerrupt k h idt) (gates_upto f' n).
Proof.
  intros [Hl Hg] Hk Hn -> Hf. unfold register_intrerrupt. rewrite arr_set_Ok by lia. split; [by rewrite length_insert|].
  intros v Hv. destruct (decide (v = k)) as [->|Hne]; [apply list_lookup_insert_eq; lia|].
  rewrite list_lookup_insert_ne by lia. rewrite Hf by done. by apply Hg.
Qed.

Section idt_spec.
Context (dummy i0 i13 i14 : Z) (tramp : list Z).

Lemma register_exceptions_spec idt : length idt = 256%nat →
  returns (register_eceptions dummy i0 i13 i14 idt) (gates_upto (vector_handler dummy i0 i13 i14 tramp) 32).
Proof.
  intros Hl. unfold register_eceptions.
  apply (returns_bind _ _ (gates_upto (λ _, dummy) 32)).
  { apply (for_range_upto (gates_upto (λ _, dummy)) (λ _, False) 0 32); [lia|done|split; [done|lia]|].
    intros k t Hk Ht. by apply register_gates; [|lia|]. }
  intros t1 H1. apply (returns_bind _ _ (gates_upto (λ v, if v =? 0 then i0 else dummy) 32)).
  { eapply register_again; [done|lia|lia|done|]. intros v Hv. by rewrite (proj2 (Z.eqb_neq v 0)). }
  intros t2 H2. apply (returns_bind _ _ (gates_upto (λ v, if v =? 0 then i0 else if v =? 13 then i13 else dummy) 32)).
  { eapply register_again; [done|lia|lia|done|]. intros v Hv. by rewrite (proj2 (Z.eqb_neq v 13)). }
  intros t3 H3. eapply returns_mono; [eapply (register_again _ (λ v, if v =? 0 then i0 else if v =? 13 then i13 else if v =? 14 then i14 else dummy)); [done|lia|lia|done|]|].
  { intros v Hv. by rewrite (proj2 (Z.eqb_neq v 14)). }
  intros t4 [Hl4 H4]. split; [done|]. intros v Hv. rewrite H4 by done. do 2 f_equal. unfold vector_handler, EXCEPTION_COUNT.
  by rewrite (proj2 (Z.ltb_lt v 32)) by lia.
Qed.

Lemma idt_init_spec idt : length idt = 256%nat → length tramp = 224%nat →
  returns (idt_init dummy i0 i13 i14 tramp idt) (λ '(size, idt'), size = 4095 ∧
    gates_upto (vector_handler dummy i0 i13 i14 tramp) 256 idt').
Proof.
  intros Hl Ht. unfold idt_init. rewrite length_replicate, Hl. change (u16 (16 * Z.of_nat 256 - 1)) with 4095.
  eapply returns_bind; [apply register_exceptions_spec; by rewrite length_replicate|]. intros t1 H1.
  eapply returns_bind; [|intros t2 H2; split; [reflexivity|exact H2]].
  apply (for_range_upto (gates_upto (vector_handler dummy i0 i13 i14 tramp)) (λ _, False) 32 256); [lia|done|done|].
  intros k t Hk Hg. rewrite (arr_get_znth 0), bind_Ok by lia. apply register_gates; [done|lia|].
  unfold vector_handler, EXCEPTION_COUNT. rewrite (proj2 (Z.eqb_neq k 0)), (proj2 (Z.eqb_neq k 13)), (proj2 (Z.eqb_neq k 14)), (proj2 (Z.ltb_ge k 32)) by lia. done.
Qed.
End idt_spec.

(** The interrupt table.  [idt_init] fills all 256 gates: for every vector
    the processor finds a present ring-0 interrupt gate in the kernel code
    segment whose split offset recombines to the handler of that vector: the
    divide, general-protection and page-fault stubs, the dummy handler for the
    other exceptions and the trampoline of each interrupt line. *)
Theorem idt_init_correct dummy i0 i13 i14 tramp idt : length idt = 256%nat → length tramp = 224%nat →
  Forall (λ a, 0 <= a < 2 ^ 64) (dummy :: i0 :: i13 :: i14 :: tramp) →
  returns (idt_init dummy i0 i13 i14 tramp idt) (λ '(size, idt'), size = 4095 ∧ ∀ v, 0 <= v < 256 → ∃ g, idt' !! Z.to_nat v = Some g ∧
    gate_offset g = vector_handler dummy i0 i13 i14 tramp v ∧ selector g = KERNEL_CS ∧ ist g = 0 ∧ type_dp_present g = 0x8E).
Proof.
  intros Hl Ht Ha. eapply returns_mono; [by apply idt_init_spec|]. intros [size idt'] [-> [Hl' Hg]]. split; [done|].
  intros v Hv. exists (make_gate (vector_handler dummy i0 i13 i14 tramp v)). split; [by apply Hg|]. split; [|done].
  apply make_gate_offset. rewrite !Forall_cons in Ha. destruct Ha as (? & ? & ? & ? & Hall). unfold vector_handler.
  repeat (match goal with |- context [if ?b then _ else _] => destruct b eqn:? end; [done|]). bdec. unfold EXCEPTION_COUNT in *.
  destruct (lookup_lt_is_Some_2 tramp (Z.to_nat (v - 32))) as [x Hx]; [lia|]. unfold znth. rewrite Hx. cbn.
  rewrite Forall_lookup in Hall. by eapply Hall.
Qed.

Definition demo_tramp : list Z := (λ i, 0xFFFFFFFF81000000 + 16 * Z.of_nat i) <$> seq 0 224.

Lemma idt_init_correct_witness :
  returns (idt_init 0x1000 0x1100 0x1200 0x1300 demo_tramp (replicate 256 empty_gate)) (λ '(_, idt'), ∃ g,
    idt' !! 33%nat = Some g ∧ gate_offset g = 0xFFFFFFFF81000010).
Proof.
  eapply returns_mono; [apply (idt_init_correct 0x1000 0x1100 0x1200 0x1300 demo_tramp (replicate 256 empty_gate))|].
  - vm_compute. reflexivity.
  - vm_compute. reflexivity.
  - apply (bool_decide_unpack _). vm_compute. exact I.
  - intros [size idt'] [_ H]. destruct (H 33) as (g & H1 & H2 & _); [lia|]. exists g. split; [exact H1|]. rewrite H2. vm_compute. reflexivity.
Defined.

(** ** Segments and the task-state segment *)

Record gdt_entry := GdtEntry { limit_low : Z; base_low : Z; base_mid : Z; access_byte : Z; limit_high_and_flags : Z; base_high : Z }.

Definition tss_layout : layout :=
  [("rsv1", 4); ("rsp0_low", 4); ("rsp0_high", 4); ("rsp1_low", 4); ("rsp1_high", 4); ("rsp2_low", 4); ("rsp2_high", 4);
   ("rsv2", 4); ("rsv3", 4);
   ("ist1_low", 4); ("ist1_high", 4); ("ist2_low", 4); ("ist2_high", 4); ("ist3_low", 4); ("ist3_high", 4); ("ist4_low", 4); ("ist4_high", 4);
   ("ist5_low", 4); ("ist5_high", 4); ("ist6_low", 4); ("ist6_high", 4); ("ist7_low", 4); ("ist7_high", 4);
   ("rsv4", 4); ("rsv5", 4); ("rsv6", 2); ("iopb", 2)]%string.

(** The fields the code writes. *)
Record tss_struct := Tss { rsp0_low : Z; rsp0_high : Z; iopb : Z }.

Definition gdt_static : list gdt_entry :=
  [GdtEntry 0 0 0 0 0 0;
   GdtEntry 0xffff 0 0 0x9B 0xAF 0; GdtEntry 0xffff 0 0 0x93 0xCF 0;
   GdtEntry 0xffff 0 0 0xF3 0xCF 0; GdtEntry 0xffff 0 0 0xFB 0xAF 0;
   GdtEntry 0 0 0 0 0 0; GdtEntry 0 0 0 0 0 0].

Definition init_tss (tss_addr : Z) (gdt : list gdt_entry) (t : tss_struct) : res (list gdt_entry * tss_struct) :=
  let t := Tss (rsp0_low t) (rsp0_high t) (u16 (size_of tss_layout)) in
  let base := tss_addr in
  let limit := u32 (size_of tss_layout - 1) in
  gdt ← arr_set gdt 5 (GdtEntry (u16 (Z.land limit 0xffff)) (u16 (Z.land base 0xffff)) (u8 (Z.land (Z.shiftr base 16) 0xffff)) 0x89
                          (u8 (Z.land (Z.shiftr limit 16) 0x0F)) (u8 (Z.land (Z.shiftr base 24) 0xFF)));
  gdt ← arr_set gdt 6 (GdtEntry (u16 (Z.land (Z.shiftr base 32) 0xFFFF)) (u16 (Z.land (Z.shiftr base 48) 0xFFFF)) 0 0 0 0);
  Ok (gdt, t).

(** The limit passed to [load_gdtr] beside the table. *)
Definition gdt_init (tss_addr : Z) (gdt : list gdt_entry) (t : tss_struct) : res (Z * list gdt_entry * tss_struct) :=
  '(gdt, t) ← init_tss tss_addr gdt t;
  Ok (u16 (8 * Z.of_nat (length gdt) - 1), gdt, t).

Definition tss_set_rsp0 (addr : Z) (t : tss_struct) : tss_struct := Tss (u32 addr) (u32 (Z.shiftr addr 32)) (iopb t).

(** The base and limit the processor reads from the 16-byte system
    descriptor. *)
Definition tss_base (lo hi : gdt_entry) : Z :=
  base_low lo + 2 ^ 16 * base_mid lo + 2 ^ 24 * base_high lo + 2 ^ 32 * limit_low hi + 2 ^ 48 * base_low hi.
Definition tss_limit (lo : gdt_entry) : Z := limit_low lo + 2 ^ 16 * (limit_high_and_flags lo mod 16).

Lemma gdt_init_spec a t : 0 <= a < 2 ^ 64 →
  returns (gdt_init a gdt_static t) (λ '(limit, gdt, t'), limit = 55 ∧ iopb t' = 104 ∧
    ∃ lo hi, gdt !! 5%nat = Some lo ∧ gdt !! 6%nat = Some hi ∧ tss_base lo hi = a ∧ tss_limit lo = 103 ∧ take 5 gdt = take 5 gdt_static).
Proof.
  intros Ha. unfold gdt_init, init_tss. rewrite !arr_set_Ok by (rewrite ?length_insert; cbn; lia). split; [done|]. split; [done|].
  eexists _, _. split; [reflexivity|]. split; [reflexivity|]. split; [|done].
  unfold tss_base. cbn [base_low base_mid base_high limit_low]. change 0xffff with (Z.ones 16). change 0xFF with (Z.ones 8).
  rewrite !Z.land_ones, !Z.shiftr_div_pow2 by lia. unfold u16, u8. clear -Ha. zlia.
Qed.

Lemma tss_rsp0_roundtrip a t : 0 <= a < 2 ^ 64 → rsp0_low (tss_set_rsp0 a t) + 2 ^ 32 * rsp0_high (tss_set_rsp0 a t) = a.
Proof. intros Ha. unfold tss_set_rsp0. cbn. rewrite Z.shiftr_div_pow2 by lia. unfold u32. zlia. Qed.

(** ** Faults *)

Record interrupt_frame := Frame { frame_rip : Z; frame_cs : Z }.
Record ex_table_entry := ExEntry { fault_addr : Z; fixup_addr : Z }.

Fixpoint fixup_exception (tbl : list ex_table_entry) (f : interrupt_frame) : option interrupt_frame :=
  match tbl with
  | [] => None
  | e :: tbl' => if fault_addr e =? frame_rip f then Some (Frame (fixup_addr e) (frame_cs f)) else fixup_exception tbl' f
  end.

Definition gp_kernel_msg : string := "Excpetion: general protection fault from kernel code with no fixup.
".
Definition gp_user_msg : string := "Exception: general protection fault from user code.
".
Definition pf_kernel_msg : string := "Excpetion: page fault from kernel code with no fixup.
".
Definition pf_user_msg : string := "Exception: page fault from user code.
".

Definition general_protection_handler (tbl : list ex_table_entry) (f : interrupt_frame) : res interrupt_frame :=
  if frame_cs f =? KERNEL_CS then
    match fixup_exception tbl f with Some f' => Ok f' | None => Panic gp_kernel_msg end
  else Panic gp_user_msg.

Definition page_fault_handler (tbl : list ex_table_entry) (f : interrupt_frame) : res interrupt_frame :=
  if frame_cs f =? KERNEL_CS then
    match fixup_exception tbl f with Some f' => Ok f' | None => Panic pf_kernel_msg end
  else Panic pf_user_msg.

(** A kernel fault is survived exactly at an instruction of the table. *)
Lemma page_fault_survives tbl f : frame_cs f = KERNEL_CS →
  ok (page_fault_handler tbl f) = true ↔ frame_rip f ∈ (fault_addr <$> tbl).
Proof.
  intros Hcs. unfold page_fault_handler. rewrite Hcs, Z.eqb_refl.
  enough (is_Some (fixup_exception tbl f) ↔ frame_rip f ∈ (fault_addr <$> tbl)) as <-.
  { destruct (fixup_exception tbl f); cbn; split; naive_solver eauto using is_Some_None. }
  induction tbl as [|e tbl IH]; cbn [fixup_exception fmap list_fmap].
  - rewrite elem_of_nil. split; [intros [? [=]]|done].
  - rewrite elem_of_cons. destruct (Z.eqb_spec (fault_addr e) (frame_rip f)) as [->|Hne]; [split; eauto|]. rewrite IH. naive_solver.
Qed.
