(* ===== verification/HeapApi.v ===== *)
(** * The kernel heap as its clients use it

    The block layer, the file systems and the executable loader allocate with
    [kmalloc], [kzalloc] and [alloc_page] and release with [kfree] and
    [free_page] (include/mm.h).  The class states the promises their code
    relies on: an allocation returns NULL or a block that is not in use, and a
    block in use can be released.  Blocks above 1024 bytes are not part of the
    promise, because [kfree] cannot tell such a block from a pool page.  The
    instance at the end is the allocator of mm/kmalloc.c, and its laws are
    discharged by the lemmas of Kmalloc.v and Pmm.v. *)

From S2P Require Import Prelude Types FrameAlloc EarlyPmm Pmm Paging Vmm Kmalloc.

Class KernelHeap (H : Type) := {
  h_kmalloc : Z → H → res (Z * H);
  h_kzalloc : Z → H → res (Z * H);
  h_kfree : Z → H → res H;
  h_alloc_page : H → res (Z * H);
  h_free_page : Z → H → res H;
  (** The small blocks and the pages in use. *)
  h_live : H → gset Z → gset Z → Prop;
  h_live_ptr h B P p : h_live h B P → p ∈ B ∪ P → p ≠ NULL ∧ IS_ERR p = false;
  h_kmalloc_spec h B P size : h_live h B P → 0 <= size <= 1024 →
    returns (h_kmalloc size h) (λ '(p, h'), (p = NULL ∧ h_live h' B P) ∨ (p ∉ B ∪ P ∧ h_live h' ({[p]} ∪ B) P));
  h_kzalloc_spec h B P size : h_live h B P → 0 <= size <= 1024 →
    returns (h_kzalloc size h) (λ '(p, h'), (p = NULL ∧ h_live h' B P) ∨ (p ∉ B ∪ P ∧ h_live h' ({[p]} ∪ B) P));
  h_kfree_spec h B P p : h_live h B P → p ∈ B → returns (h_kfree p h) (λ h', h_live h' (B ∖ {[p]}) P);
  h_alloc_page_spec h B P : h_live h B P →
    returns (h_alloc_page h) (λ '(p, h'), (p = NULL ∧ h_live h' B P) ∨ (p ∉ B ∪ P ∧ h_live h' B ({[p]} ∪ P)));
  h_free_page_spec h B P p : h_live h B P → p ∈ P → returns (h_free_page p h) (λ h', h_live h' B (P ∖ {[p]}))
}.

(** ** The allocator of mm/kmalloc.c *)

(** The list of big allocations has fewer nodes than memory has words. *)
Definition heap_kfree (p : Z) (h : kheap) : res kheap := kfree (S (size (kmem h))) p h.

Definition with_frames (h : kheap) (fr : pmm) : kheap := Kheap (kmem h) fr (free_heads h) (big_alloc_head h).

Definition heap_alloc_page (h : kheap) : res (Z * kheap) := '(p, fr) ← alloc_page (kframes h); Ok (p, with_frames h fr).
Definition heap_free_page (p : Z) (h : kheap) : res kheap := fr ← free_page p (kframes h); Ok (with_frames h fr).

(** A page handed out whole: a taken frame of the bitmap that is no pool. *)
Definition page_live (h : kheap) (pools : gmap Z Z) (p : Z) : Prop :=
  ∃ f, p = PHYS_TO_VIRT f ∧ f mod PAGE_SIZE = 0 ∧ 0 < f < 2 ^ 46 ∧ f / PAGE_SIZE < 8 * pmm_size (kframes h) ∧
    ¬ fa_avail (kframes h) f ∧ pools !! p = None.

Definition kheap_live (h : kheap) (B P : gset Z) : Prop :=
  ∃ pools fl, heap_inv h pools fl B ∧ ∀ p, p ∈ P → page_live h pools p.

(** Blocks lie inside pool pages, so they are never whole pages. *)
Lemma slot_not_page h pools t p f : pages_ok pools → is_slot pools t p → page_live h pools f → p ≠ f.
Proof.
  intros Hok Hs (g & -> & Hal & Hg & _) ->. destruct (slot_page _ _ _ Hok Hs) as (Hpg & Hlo & Hhi & _ & Ht).
  destruct (slot_size_facts t Ht) as (n & _ & _ & ?). destruct (Hok _ _ Hpg) as (_ & Hpal & _).
  assert (PHYS_TO_VIRT g mod PAGE_SIZE = 0) as Hpm.
  { rewrite PHYS_TO_VIRT_small by lia. unfold ID_VIRT_REGION_START, PAGE_SIZE in *. clear -Hal. zlia. }
  revert Hlo Hhi Hpal Hpm. unfold PAGE_SIZE. generalize (PHYS_TO_VIRT g), (PAGE_ALIGN_DOWN (PHYS_TO_VIRT g)), (slot_size t), H.
  clear. intros a b s. zlia.
Qed.

(** Addresses of the direct map are neither NULL nor error pointers. *)
Lemma direct_ptr f p : 0 <= f < 2 ^ 46 → PHYS_TO_VIRT f <= p < PHYS_TO_VIRT f + PAGE_SIZE → p ≠ NULL ∧ IS_ERR p = false.
Proof.
  intros Hf. rewrite PHYS_TO_VIRT_small by lia. unfold NULL, IS_ERR, ID_VIRT_REGION_START, PAGE_SIZE.
  intros Hp. split; [lia|]. rewrite (u64_small p) by lia. change (u64 (- MAX_ERRNO)) with 0xfffffffffffff001. apply Z.leb_gt. lia.
Qed.

Lemma kheap_live_ptr h B P p : kheap_live h B P → p ∈ B ∪ P → p ≠ NULL ∧ IS_ERR p = false.
Proof.
  intros (pools & fl & Hinv & HP) [Hp|Hp]%elem_of_union.
  - destruct (hi_used _ _ _ _ Hinv _ Hp) as [t Hs].
    destruct (slot_page _ _ _ (hi_pages _ _ _ _ Hinv) Hs) as (Hpg & Hlo & Hhi & _ & Ht).
    destruct (slot_size_facts t Ht) as (n & _ & _ & ?). destruct (hi_pages _ _ _ _ Hinv _ _ Hpg) as (_ & Hal & ? & ?).
    destruct (hi_taken _ _ _ _ Hinv _ _ Hpg) as (f & Hf & Hfr & _).
    apply (direct_ptr f); [lia|]. rewrite <- Hf. lia.
  - destruct (HP _ Hp) as (f & -> & _ & Hf & _). apply (direct_ptr f); unfold PAGE_SIZE; lia.
Qed.

(** ** Blocks *)

(** Kernel data may be written anywhere inside the blocks in use. *)
Lemma heap_inv_write_used h pools fl B m : heap_inv h pools fl B →
  (∀ a, ¬ used_word pools B a → ld m a = ld (kmem h) a) →
  heap_inv (Kheap m (kframes h) (free_heads h) (big_alloc_head h)) pools fl B.
Proof.
  intros [Hlen Hpmm Hpages Htaken Hhdr Hchain Hfree Hused] Hm. split; cbn [kmem kframes free_heads]; try done.
  - intros pg t' Hpg. rewrite Hm; [by apply Hhdr|]. intros (p & t & _ & Hs & Ha). by eapply (header_not_slot pools pg t' t p pg).
  - intros t' Ht'. destruct (Hchain t' Ht') as [Hc Hnd]. split; [|done]. apply (chain_agree (kmem h)); [|done].
    intros x Hx. apply Hfree in Hx as [Hx Hxu]; [|done]. apply Hm. intros (p & t & Hp & Hs & Ha).
    destruct (slots_disjoint _ _ _ _ _ Hpages Hs Hx) as [?|?]; [by intros ->|lia|].
    pose proof (slot_first _ _ _ Hpages Hx). lia.
Qed.

Lemma heap_inv_write h pools fl B p t m : heap_inv h pools fl B → p ∈ B → is_slot pools t p →
  (∀ a, ¬ (p <= a < p + slot_size t) → ld m a = ld (kmem h) a) →
  heap_inv (Kheap m (kframes h) (free_heads h) (big_alloc_head h)) pools fl B.
Proof. intros Hinv Hp Hs Hm. apply heap_inv_write_used; [done|]. intros a Ha. apply Hm. intros ?. apply Ha. by exists p, t. Qed.

Lemma zero_bytes_out p n m a : 0 <= n → 0 <= p → p + n < 2 ^ 64 → ¬ (p <= a < p + n) → ld (zero_bytes p n m) a = ld m a.
Proof.
  intros Hn Hp Hb Ha. unfold zero_bytes.
  assert (ld (zero_words (Z.to_nat (n / 8)) p m) a = ld m a) as Hz.
  { apply zero_words_out. intros j Hj ->. apply Ha. rewrite u64_small by zlia. zlia. }
  destruct (Z.eqb_spec (n mod 8) 0); [done|]. rewrite ld_st_ne; [done|]. intros <-. apply Ha.
  rewrite u64_small by zlia. zlia.
Qed.

Lemma alloc_page_size s : fa_inv s → returns (alloc_page s) (λ '(_, s'), pmm_size s' = pmm_size s).
Proof.
  intros [Hok Hsz]. unfold alloc_page. cbn [fa_alloc pmm_frame_allocator].
  eapply returns_bind; [apply pmm_alloc_frame_spec; apply Hok|].
  intros [f s'] Hc. assert (pmm_size s' = pmm_size s) as Hs.
  { destruct Hc as [(_ & -> & _)|(g & _ & _ & Hl & _)]; [done|]. unfold pmm_size. by rewrite Hl. }
  by destruct (f =? NULL).
Qed.

Lemma fa_alloc_page s : fa_inv s → returns (alloc_page s) (λ '(_, s'), fa_inv s').
Proof.
  intros Hs. unfold alloc_page. eapply returns_bind; [exact (fa_alloc_spec s Hs)|].
  intros [f s'] [Hs' _]. by destruct (f =? NULL).
Qed.

Lemma kmalloc_small_size n t h p h' : fa_inv (kframes h) → kmalloc_small n t h = Ok (p, h') →
  pmm_size (kframes h') = pmm_size (kframes h).
Proof.
  revert h. induction n as [|n IH]; intros h Hfa Hk; [done|]. cbn [kmalloc_small] in Hk. res_inv Hk.
  { by subst h'. }
  rename Hx0 into Hi. destruct x0 as [r h1]. unfold init_tier in Hi.
  pose proof (alloc_page_size _ Hfa) as Hsz. pose proof (fa_alloc_page _ Hfa) as Hfa'.
  destruct (alloc_page (kframes h)) as [[f fr]| | |]; try done. cbn in Hsz, Hfa'. rewrite bind_Ok in Hi.
  assert (fa_inv (kframes h1) ∧ pmm_size (kframes h1) = pmm_size (kframes h)) as [Hfa1 Hs1].
  { res_inv Hi; by subst h1. }
  destruct (r <? 0); [by injection Hk as _ <-|]. rewrite <- Hs1. by apply IH.
Qed.

Lemma page_live_keeps h pools fl B0 B h' pools' p : heap_inv h pools fl B0 → keeps h pools B h' pools' →
  pmm_size (kframes h') = pmm_size (kframes h) → page_live h pools p → page_live h' pools' p.
Proof.
  intros Hinv (_ & _ & _ & Hav & Hpool) Hsz (f & -> & Hal & Hf & Hr & Hna & Hno). exists f.
  split; [done|]. split; [done|]. split; [done|]. split; [by rewrite Hsz|]. split; [by intros ?%Hav|].
  destruct (pools' !! PHYS_TO_VIRT f) as [t|] eqn:E; [|done]. exfalso.
  destruct (Hpool _ _ E) as [?|(g & Hg & Hgav)]; [congruence|]. apply Hna.
  destruct (hi_pmm _ _ _ _ Hinv) as [Hfa Hsmall]. pose proof (Hsmall _ Hgav).
  destruct (fa_avail_frame _ _ Hfa Hgav) as [_ Hg0].
  apply PHYS_TO_VIRT_inj in Hg as ->; [done|lia..].
Qed.

Definition alloc_post (B P : gset Z) (ret : Z * kheap) : Prop :=
  let '(p, h') := ret in (p = NULL ∧ kheap_live h' B P) ∨ (p ∉ B ∪ P ∧ kheap_live h' ({[p]} ∪ B) P).

(** The block [kmalloc] returns, with the slot it occupies. *)
Lemma kheap_kmalloc_slot h pools fl B P size : heap_inv h pools fl B → (∀ p, p ∈ P → page_live h pools p) → 0 <= size <= 1024 →
  returns (kmalloc size h) (λ '(p, h'), (p = NULL ∧ kheap_live h' B P) ∨
    (p ∉ B ∪ P ∧ p ≠ NULL ∧ ∃ pools' fl' t, is_slot pools' t p ∧ size <= slot_size t ∧ heap_inv h' pools' fl' ({[p]} ∪ B) ∧
      ∀ q, q ∈ P → page_live h' pools' q)).
Proof.
  intros Hinv HP Hs. destruct (size_to_tier_spec size Hs) as (Ht & Hfit & _).
  unfold kmalloc. cbn [kmalloc_rec].
  rewrite (proj2 (Z.eqb_neq (size_to_tier_idx size) TOO_BIG_SIZE)) by (unfold TOO_BIG_SIZE; lia). cbn [negb].
  pose proof (kmalloc_small_spec _ _ _ _ _ Hinv Ht) as Hspec.
  destruct (kmalloc_small 2 _ h) as [[p h']| | |] eqn:E; try done. cbn in Hspec.
  apply kmalloc_small_size in E; [|apply Hinv].
  destruct Hspec as (pools' & fl' & Hkeep & Hc).
  assert (∀ q, q ∈ P → page_live h' pools' q) as HP' by (intros q Hq; by eapply page_live_keeps; eauto).
  destruct Hc as [(-> & Hinv' & _)|(Hpn & Hpu & Hp & Hinv')]; [left; split; [done|by eexists _, _]|right].
  split; [|split; [done|by eexists _, _, _]].
  intros [?|HpP]%elem_of_union; [done|]. by eapply (slot_not_page h' pools'); [apply Hinv'|exact Hp|by apply HP'|].
Qed.

Lemma kheap_kmalloc h B P size : kheap_live h B P → 0 <= size <= 1024 → returns (kmalloc size h) (alloc_post B P).
Proof.
  intros (pools & fl & Hinv & HP) Hs. eapply returns_mono; [by eapply kheap_kmalloc_slot|].
  intros [p h'] [?|(Hp & _ & pools' & fl' & t & _ & _ & Hinv' & HP')]; [by left|right]. split; [done|by eexists _, _].
Qed.

Lemma kheap_kzalloc h B P size : kheap_live h B P → 0 <= size <= 1024 → returns (kzalloc size h) (alloc_post B P).
Proof.
  intros (pools & fl & Hinv & HP) Hs. unfold kzalloc. eapply returns_bind; [by eapply kheap_kmalloc_slot|].
  intros [p h'] [(-> & ?)|(Hp & Hpn & pools' & fl' & t & Hslot & Hfit & Hinv' & HP')]; [by left|].
  rewrite (proj2 (Z.eqb_neq p NULL)) by done. right. split; [done|]. exists pools', fl'. split; [|done].
  pose proof (slot_page _ _ _ (hi_pages _ _ _ _ Hinv') Hslot) as (Hpg & Hlo & Hhi & _ & Ht).
  destruct (hi_pages _ _ _ _ Hinv' _ _ Hpg) as (_ & _ & ? & ?). destruct (slot_size_facts t Ht) as (_ & _ & _ & ?).
  eapply heap_inv_write; [exact Hinv'| |exact Hslot|]; [by apply elem_of_union_l, elem_of_singleton|].
  intros a Ha. apply zero_bytes_out; [lia..|]. lia.
Qed.

Lemma kheap_kfree h B P p : kheap_live h B P → p ∈ B → returns (heap_kfree p h) (λ h', kheap_live h' (B ∖ {[p]}) P).
Proof.
  intros (pools & fl & Hinv & HP) Hp. destruct (hi_used _ _ _ _ Hinv _ Hp) as [t Hs].
  pose proof (slot_page _ _ _ (hi_pages _ _ _ _ Hinv) Hs) as (Hpg & _ & _ & _ & Ht).
  destruct (hi_hdr _ _ _ _ Hinv _ _ Hpg) as [Hmagic _].
  unfold heap_kfree, kfree. cbn [kfree_rec]. rewrite Hmagic, Z.eqb_refl.
  pose proof (kfree_small_spec _ _ _ _ _ _ Hinv Hp Hs) as Hf.
  assert (∀ h', kfree_small p h = Ok h' → pmm_size (kframes h') = pmm_size (kframes h)) as Hsz.
  { intros h' E. unfold kfree_small in E. res_inv E. by subst. }
  destruct (kfree_small p h) as [h'| | |]; try done. destruct Hf as [Hinv' Hkeep]. eexists _, _. split; [done|].
  intros q Hq. by eapply (page_live_keeps h pools _ B (B ∖ {[p]})); [..|apply Hsz|apply HP].
Qed.

(** ** Pages *)

(** Taking or returning a frame that is no pool leaves the blocks alone. *)
Lemma heap_inv_frames h pools fl B fr : heap_inv h pools fl B → fa_inv fr → (∀ f, fa_avail fr f → f < 2 ^ 46) →
  (∀ pg t f, pools !! pg = Some t → pg = PHYS_TO_VIRT f → 0 <= f < 2 ^ 46 → ¬ fa_avail (kframes h) f → ¬ fa_avail fr f) →
  heap_inv (with_frames h fr) pools fl B.
Proof.
  intros [Hlen Hpmm Hpages Htaken Hhdr Hchain Hfree Hused] Hfa Hsmall Hno. split; cbn [with_frames kmem kframes free_heads]; try done.
  intros pg t Hpg. destruct (Htaken _ _ Hpg) as (f & -> & Hf & Hna). exists f. split; [done|]. split; [done|]. by eapply Hno.
Qed.

(** A page is taken: the heap's memory and pools stay as they are. *)
Lemma alloc_page_inv h pools fl (B P : gset Z) : heap_inv h pools fl B → (∀ p, p ∈ P → page_live h pools p) →
  returns (heap_alloc_page h) (λ '(p, h'), ∃ fr, h' = with_frames h fr ∧ heap_inv h' pools fl B ∧ (∀ q, q ∈ P → page_live h' pools q) ∧
    (∀ f, fa_avail fr f → fa_avail (kframes h) f) ∧
    (p = NULL ∨ (p ∉ B ∪ P ∧ page_live h' pools p ∧ ∃ f, p = PHYS_TO_VIRT f ∧ fa_avail (kframes h) f))).
Proof.
  intros Hinv HP. destruct (hi_pmm _ _ _ _ Hinv) as [Hfa Hsmall]. unfold heap_alloc_page.
  pose proof (alloc_page_spec _ Hfa Hsmall) as Hspec. pose proof (alloc_page_size _ Hfa) as Hsz.
  destruct (alloc_page (kframes h)) as [[p fr]| | |]; try done. cbn in Hspec, Hsz. destruct Hspec as (Hfr & Hc).
  rewrite bind_Ok. cbn [returns runs].
  assert (∀ f, fa_avail fr f → fa_avail (kframes h) f) as Hsub.
  { intros f Hf. destruct Hc as [(_ & _ & Hno)|(g & _ & _ & _ & _ & Hs)]; [by destruct (Hno f)|by apply Hs]. }
  assert (heap_inv (with_frames h fr) pools fl B) as Hinv'.
  { apply heap_inv_frames; [done|done|by intros f ?%Hsub%Hsmall|]. intros pg t f _ _ _ Hna ?%Hsub. done. }
  assert (∀ q, q ∈ P → page_live (with_frames h fr) pools q) as HP'.
  { intros q Hq. destruct (HP q Hq) as (f & -> & Hal & Hf & Hr & Hna & Hno). exists f. cbn [with_frames kframes].
    rewrite Hsz. split_and!; try done; [lia|lia|]. by intros ?%Hsub. }
  exists fr. split; [done|]. split; [done|]. split; [done|]. split; [done|].
  destruct Hc as [(-> & _)|(f & -> & Hpn & Hav & Hav' & _)]; [by left|right].
  destruct (fa_avail_frame _ _ Hfa Hav) as [Hal Hf]. pose proof (Hsmall _ Hav) as Hf46.
  assert (pools !! PHYS_TO_VIRT f = None) as Hnone.
  { destruct (pools !! PHYS_TO_VIRT f) as [t|] eqn:E; [|done].
    destruct (hi_taken _ _ _ _ Hinv _ _ E) as (g & Hg & Hg46 & Hna). apply PHYS_TO_VIRT_inj in Hg as ->; [done|lia..]. }
  assert (page_live (with_frames h fr) pools (PHYS_TO_VIRT f)) as Hlive.
  { exists f. split; [done|]. split; [done|]. split; [lia|]. cbn [with_frames kframes]. rewrite Hsz. split; [|done].
    destruct Hav as (_ & _ & Ht). destruct (decide (f / PAGE_SIZE < 8 * pmm_size (kframes h))); [done|].
    by rewrite taken_beyond in Ht by (unfold pmm_size in *; lia). }
  split; [|split; [done|by exists f]].
  intros [HB|HPf]%elem_of_union.
  - destruct (hi_used _ _ _ _ Hinv _ HB) as [t Hs]. by eapply (slot_not_page (with_frames h fr)); [apply Hinv|exact Hs|exact Hlive|].
  - destruct (HP _ HPf) as (g & Hg & _ & Hgr & _ & Hna & _). apply PHYS_TO_VIRT_inj in Hg as ->; [done|lia..].
Qed.

(** A page is returned. *)
Lemma free_page_inv h pools fl (B P : gset Z) p : heap_inv h pools fl B → (∀ p, p ∈ P → page_live h pools p) → p ∈ P →
  returns (heap_free_page p h) (λ h', ∃ fr, h' = with_frames h fr ∧ heap_inv h' pools fl B ∧ (∀ q, q ∈ P ∖ {[p]} → page_live h' pools q) ∧
    (∀ f, fa_avail fr f → PHYS_TO_VIRT f = p ∨ fa_avail (kframes h) f)).
Proof.
  intros Hinv HP Hp. destruct (hi_pmm _ _ _ _ Hinv) as [[Hok Hmax] Hsmall].
  destruct (HP _ Hp) as (f & -> & Hal & Hf & Hr & Hna & Hnone).
  unfold heap_free_page, free_page. rewrite VIRT_TO_PHYS_TO_VIRT by lia.
  pose proof (pmm_free_frame_spec (kframes h) f Hok ltac:(lia) Hr) as Hspec.
  destruct (taken (bitmap (kframes h)) (f / PAGE_SIZE)) eqn:Ht.
  2:{ destruct Hna. split; [done|]. split; [lia|done]. }
  destruct (pmm_free_frame f (kframes h)) as [fr| | |]; try done. destruct Hspec as (Hlen & Hwf & Htk). rewrite bind_Ok. cbn [returns runs].
  assert (pmm_size fr = pmm_size (kframes h)) as Hsz by (unfold pmm_size; by rewrite Hlen).
  assert (∀ g, fa_avail fr g → g = f ∨ fa_avail (kframes h) g) as Hsub.
  { intros g (Hga & Hg0 & Hgt). rewrite Htk in Hgt by (unfold PAGE_SIZE; zlia). apply andb_false_iff in Hgt as [Hgt|Hgt].
    - left. apply negb_false_iff, bool_decide_eq_true in Hgt. unfold PAGE_SIZE in *. clear -Hgt Hga Hal. zlia.
    - by right. }
  assert (fa_inv fr) as Hfr.
  { destruct Hok as (_ & Hb & H0). split; [|by rewrite Hsz]. split; [done|]. rewrite Hsz. split; [done|].
    rewrite Htk, H0, bool_decide_eq_false_2; [done| |done]. unfold PAGE_SIZE in *. clear -Hal Hf. zlia. }
  exists fr. split; [done|]. split; [|split; [|by intros g [->|?]%Hsub; [left|right]]].
  - apply heap_inv_frames; [done|done|by intros g [->|?%Hsmall]%Hsub; [lia|]|].
    intros pg t g Hpg -> Hg Hgna [->|?]%Hsub; [congruence|done].
  - intros q [Hq Hne]%elem_of_difference. destruct (HP q Hq) as (g & -> & Hga & Hg & Hgr & Hgna & Hgno). exists g.
    cbn [with_frames kframes]. rewrite Hsz. split_and!; try done; [lia|lia|]. intros [->|?]%Hsub; [|done]. set_solver.
Qed.

Lemma kheap_alloc_page h B P : kheap_live h B P →
  returns (heap_alloc_page h) (λ '(p, h'), (p = NULL ∧ kheap_live h' B P) ∨ (p ∉ B ∪ P ∧ kheap_live h' B ({[p]} ∪ P))).
Proof.
  intros (pools & fl & Hinv & HP). eapply returns_mono; [by eapply alloc_page_inv|].
  intros [p h'] (fr & _ & Hinv' & HP' & _ & [->|(Hp & Hlive & _)]); [left|right]; (split; [done|]); exists pools, fl; (split; [done|]); [done|].
  intros q [->%elem_of_singleton|Hq]%elem_of_union; [done|by apply HP'].
Qed.

Lemma kheap_free_page h B P p : kheap_live h B P → p ∈ P → returns (heap_free_page p h) (λ h', kheap_live h' B (P ∖ {[p]})).
Proof.
  intros (pools & fl & Hinv & HP) Hp. eapply returns_mono; [by eapply free_page_inv|].
  intros h' (fr & _ & Hinv' & HP' & _). by exists pools, fl.
Qed.

(** The kernel's allocator implements the interface. *)
#[export] Instance kheap_kernel_heap : KernelHeap kheap := {|
  h_kmalloc := kmalloc;
  h_kzalloc := kzalloc;
  h_kfree := heap_kfree;
  h_alloc_page := heap_alloc_page;
  h_free_page := heap_free_page;
  h_live := kheap_live;
  h_live_ptr := kheap_live_ptr;
  h_kmalloc_spec := kheap_kmalloc;
  h_kzalloc_spec := kheap_kzalloc;
  h_kfree_spec := kheap_kfree;
  h_alloc_page_spec := kheap_alloc_page;
  h_free_page_spec := kheap_free_page
|}.
