(* ===== verification/StateMonad.v ===== *)
(** * Operations on a shared state

    The block layer and the file systems pass one state through many calls.
    [M S A] is such an operation: it runs in a state and returns a value and
    the state after it, or ends as a [res] can end.  [holds m s Q] is its
    specification: from [s], [m] returns, and [Q] holds of the result. *)

From S2P Require Import Prelude.

Definition M (S A : Type) : Type := S → res (A * S).

#[export] Instance M_ret S : MRet (M S) := λ A x s, Ok (x, s).
#[export] Instance M_bind S : MBind (M S) := λ A B f m s, '(x, s') ← m s; f x s'.

Section operations.
Context {S : Type}.

Definition lift {A} (m : res A) : M S A := λ s, x ← m; Ok (x, s).
Definition gets {A} (f : S → A) : M S A := λ s, Ok (f s, s).
Definition puts (f : S → S) : M S () := λ s, Ok ((), f s).

(** Running an operation of a component on its part of a larger state. *)
Definition zoom {T A} (get : S → T) (set : T → S → S) (m : M T A) : M S A :=
  λ s, '(x, t) ← m (get s); Ok (x, set t s).

Definition holds {A} (m : M S A) (s : S) (Q : A → S → Prop) : Prop := returns (m s) (λ '(x, s'), Q x s').

Lemma bind_run {A B} (m : M S A) (f : A → M S B) s : (m ≫= f) s = ('(x, s') ← m s; f x s').
Proof. done. Qed.

Lemma bind_step {A B} (m : M S A) (f : A → M S B) s x s' : m s = Ok (x, s') → (m ≫= f) s = f x s'.
Proof. intros H. rewrite bind_run, H. done. Qed.

Lemma holds_bind {A B} (m : M S A) (f : A → M S B) s R Q :
  holds m s R → (∀ x s', R x s' → holds (f x) s' Q) → holds (m ≫= f) s Q.
Proof. intros Hm Hf. unfold holds. rewrite bind_run. eapply returns_bind; [exact Hm|]. by intros [x s'] ?%Hf. Qed.

Lemma holds_mono {A} (m : M S A) s (Q Q' : A → S → Prop) : holds m s Q → (∀ x s', Q x s' → Q' x s') → holds m s Q'.
Proof. intros Hm HQ. eapply returns_mono; [exact Hm|]. intros [x s']. apply HQ. Qed.

Lemma holds_ret {A} (x : A) s (Q : A → S → Prop) : Q x s → holds (mret x) s Q.
Proof. done. Qed.

Lemma holds_Ok {A} (m : M S A) s Q : holds m s Q ↔ ∃ x s', m s = Ok (x, s') ∧ Q x s'.
Proof. unfold holds. rewrite returns_Ok. split; [intros ([x s'] & ? & ?)|intros (x & s' & ? & ?); exists (x, s')]; eauto. Qed.

Lemma gets_step {A B} (f : S → A) (g : A → M S B) s : (gets f ≫= g) s = g (f s) s.
Proof. done. Qed.

Lemma puts_step {B} (f : S → S) (g : () → M S B) s : (puts f ≫= g) s = g () (f s).
Proof. done. Qed.

Lemma lift_step {A B} (m : res A) (g : A → M S B) s x : m = Ok x → (lift m ≫= g) s = g x s.
Proof. by intros ->. Qed.

Lemma bind_assoc_run {A B C} (m : M S A) (f : A → M S B) (g : B → M S C) s : ((m ≫= f) ≫= g) s = (m ≫= λ x, f x ≫= g) s.
Proof. rewrite !bind_run. by destruct (m s) as [[x s']| | |]. Qed.

Lemma ret_step {A B} (x : A) (g : A → M S B) s : (mret x ≫= g) s = g x s.
Proof. done. Qed.

(** The same steps below a specification. *)
Lemma holds_gets {A B} (f : S → A) (g : A → M S B) s Q : holds (g (f s)) s Q → holds (gets f ≫= g) s Q.
Proof. done. Qed.

Lemma holds_puts {B} (f : S → S) (g : () → M S B) s Q : holds (g ()) (f s) Q → holds (puts f ≫= g) s Q.
Proof. done. Qed.

Lemma holds_lift {A B} (m : res A) (g : A → M S B) s x Q : m = Ok x → holds (g x) s Q → holds (lift m ≫= g) s Q.
Proof. by intros ->. Qed.
End operations.

Lemma zoom_holds {S T A} (get : S → T) (set : T → S → S) (m : M T A) s R Q :
  holds m (get s) R → (∀ x t, R x t → Q x (set t s)) → holds (zoom get set m) s Q.
Proof. intros Hm HQ. unfold holds, zoom. eapply returns_bind; [exact Hm|]. by intros [x t] ?%HQ. Qed.

#[export] Hint Rewrite @gets_step @puts_step @ret_step : run.
