(* ===== verification/Block.v ===== *)
(** * Block devices and partitions (block/block.c, block/partition.c)

    A block device is reached through its [read] pointer: a disk's goes to
    its driver, a partition's to [partition_read], which shifts the sector
    number and calls the parent.  The driver is the interface [DiskDriver];
    device structures live at the addresses the kernel heap gave them, and a
    buffer is the list of the bytes read into it. *)

From S2P Require Import Prelude Types FrameAlloc EarlyPmm Pmm Paging Vmm Kmalloc HeapApi StateMonad Layout.

Definition BLOCK_DEV_NAME_MAX : Z := 32.
Definition BLOCK_DEV_MAX : Z := 32.
Definition MBR_OFFSET : Z := 446.
Definition MBR_ENTRY_COUNT : Z := 4.

Definition mbr_partition_entry_layout : layout :=
  [("status", 1); ("chs0", 3); ("sys_id", 1); ("chs1", 3); ("lba_start", 4); ("sector_count", 4)]%string.

(** What a disk driver promises: a read either fails with a negative status or
    returns 0 and delivers the sectors asked for, and it never changes them. *)
Class DiskDriver (D : Type) := {
  (** The device, first sector, number of sectors, size of the buffer. *)
  drv_read : Z → Z → Z → Z → D → Z * list Z * D;
  (** A sector of a device, and its size. *)
  drv_sector : D → Z → Z → list Z;
  drv_sector_size : D → Z → Z;
  drv_sector_len d dev lba : Z.of_nat (length (drv_sector d dev lba)) = drv_sector_size d dev;
  drv_sector_bytes d dev lba : Forall is_byte (drv_sector d dev lba);
  drv_read_status d dev lba count len : - MAX_ERRNO <= (drv_read dev lba count len d).1.1 <= 0;
  drv_read_spec d dev lba count len st bs d' : 0 < count → count * drv_sector_size d dev <= len →
    drv_read dev lba count len d = (st, bs, d') →
    drv_sector d' = drv_sector d ∧ drv_sector_size d' = drv_sector_size d ∧
    (st = 0 → bs = concat ((λ k, drv_sector d dev (lba + k)) <$> seqZ 0 count))
}.

(** The [read] pointer of a device. *)
Inductive bdev_read_t := READ_NULL | READ_DRIVER | PARTITION_READ.

Record block_dev := BlockDev { bd_name : list Z; bd_sector_size : Z; bd_sector_count : Z; bd_priv_data : Z; bd_read : bdev_read_t }.
Record partition_info := PartInfo { pi_parent : Z; pi_lba_start : Z }.

Definition BLOCK_DEV_SIZE : Z := 64.
Definition PARTITION_INFO_SIZE : Z := 16.

(** The heap, the devices, their structures and [registered_block_devices]
    with [index] entries. *)
Record blk (H D : Type) := Blk { heap : H; disk : D; bdevs : gmap Z block_dev; pinfos : gmap Z partition_info; registered : list Z }.
Arguments Blk {H D} _ _ _ _ _.
Arguments heap {H D} _.
Arguments disk {H D} _.
Arguments bdevs {H D} _.
Arguments pinfos {H D} _.
Arguments registered {H D} _.

Section block.
Context {H D : Type} `{!KernelHeap H, !DiskDriver D}.
Implicit Types s : blk H D.

Definition set_heap (h : H) s : blk H D := Blk h (disk s) (bdevs s) (pinfos s) (registered s).
Definition set_disk (d : D) s : blk H D := Blk (heap s) d (bdevs s) (pinfos s) (registered s).
Definition set_bdevs m s : blk H D := Blk (heap s) (disk s) m (pinfos s) (registered s).
Definition set_pinfos m s : blk H D := Blk (heap s) (disk s) (bdevs s) m (registered s).
Definition set_registered l s : blk H D := Blk (heap s) (disk s) (bdevs s) (pinfos s) l.

Definition bkmalloc (size : Z) : M (blk H D) Z := zoom heap set_heap (h_kmalloc size).
Definition bkzalloc (size : Z) : M (blk H D) Z := zoom heap set_heap (h_kzalloc size).
Definition bkfree (p : Z) : M (blk H D) () := λ s, h ← h_kfree p (heap s); Ok ((), set_heap h s).

Definition balloc_page : M (blk H D) Z := zoom heap set_heap h_alloc_page.
Definition bfree_page (p : Z) : M (blk H D) () := λ s, h ← h_free_page p (heap s); Ok ((), set_heap h s).

(** Following a pointer to a structure; a wild pointer is a [Fault]. *)
Definition deref {A} (m : gmap Z A) (p : Z) : res A := match m !! p with Some x => Ok x | None => Fault end.

Definition block_dev_register (bdev : Z) : M (blk H D) () := puts (λ s,
  if BLOCK_DEV_MAX <=? Z.of_nat (length (registered s)) then s else set_registered (registered s ++ [bdev]) s).

(** [bdev->read(bdev, lba, count, iovec, 1)] with an iovec of [len] bytes:
    the status and the bytes written.  [fuel] bounds the nesting of
    partitions. *)
Fixpoint bdev_read (fuel : nat) (bdev lba count len : Z) : M (blk H D) (Z * list Z) :=
  match fuel with
  | O => lift OutOfFuel
  | S fuel' =>
      b ← (λ s, lift (deref (bdevs s) bdev) s);
      match bd_read b with
      | READ_NULL => lift Fault
      | READ_DRIVER => λ s, let '(st, bs, d) := drv_read (bd_priv_data b) lba count len (disk s) in Ok ((st, bs), set_disk d s)
      | PARTITION_READ => (* partition_read *)
          pinfo ← (λ s, lift (deref (pinfos s) (bd_priv_data b)) s);
          let real_lba := u64 (pi_lba_start pinfo + lba) in
          bdev_read fuel' (pi_parent pinfo) real_lba count len
      end
  end.

(** [strcpy(pbdev->name, bdev->name)] and
    [strncat(pbdev->name, suffix, sizeof(pbdev->name) - strlen(bdev->name) - 1)]
    on the contents of the strings. *)
Definition partition_name (name : list Z) (i : Z) : res (list Z) :=
  let len := Z.of_nat (length name) in
  if BLOCK_DEV_NAME_MAX <=? len then Fault else
  let suffix := [112; u8 (48 + i)] in
  Ok (name ++ take (Z.to_nat (BLOCK_DEV_NAME_MAX - len - 1)) suffix).

(** The loop over the entries of the table: returns [res] and the devices made
    so far. *)
Fixpoint scan_entries (n : nat) (i : Z) (bdev : Z) (b : block_dev) (buf : list Z) (pbdevs : list Z) : M (blk H D) (Z * list Z) :=
  match n with
  | O => mret (0, pbdevs)
  | S n' =>
      let entry := MBR_OFFSET + i * size_of mbr_partition_entry_layout in
      sys_id ← lift (field mbr_partition_entry_layout "sys_id" buf entry);
      if sys_id =? 0x00 then scan_entries n' (i + 1) bdev b buf pbdevs else
      pbdev ← bkzalloc BLOCK_DEV_SIZE;
      if pbdev =? NULL then mret (- ENOMEM, pbdevs) else
      puts (λ s, set_bdevs (<[pbdev := BlockDev [] 0 0 NULL READ_NULL]> (bdevs s)) s);;
      let pbdevs := pbdevs ++ [pbdev] in
      pinfo ← bkzalloc PARTITION_INFO_SIZE;
      if pinfo =? NULL then mret (- ENOMEM, pbdevs) else
      name ← lift (partition_name (bd_name b) i);
      sector_count ← lift (field mbr_partition_entry_layout "sector_count" buf entry);
      lba_start ← lift (field mbr_partition_entry_layout "lba_start" buf entry);
      puts (λ s, set_bdevs (<[pbdev := BlockDev name (bd_sector_size b) sector_count pinfo PARTITION_READ]> (bdevs s)) s);;
      puts (λ s, set_pinfos (<[pinfo := PartInfo bdev lba_start]> (pinfos s)) s);;
      scan_entries n' (i + 1) bdev b buf pbdevs
  end.

(** The loop at [exit]: release the devices, or register them. *)
Fixpoint scan_exit (res : Z) (pbdevs : list Z) : M (blk H D) () :=
  match pbdevs with
  | [] => mret ()
  | p :: rest =>
      (if negb (res =? 0) then
        b ← (λ s, lift (deref (bdevs s) p) s);
        (if negb (bd_priv_data b =? NULL) then
          bkfree (bd_priv_data b);; puts (λ s, set_pinfos (delete (bd_priv_data b) (pinfos s)) s)
        else mret ());;
        bkfree p;; puts (λ s, set_bdevs (delete p (bdevs s)) s)
      else block_dev_register p);;
      scan_exit res rest
  end.

(** Partitions of partitions are never made, so reads nest at most twice. *)
Definition read_fuel : nat := 2.

Definition partition_scan (bdev : Z) : M (blk H D) Z :=
  b ← (λ s, lift (deref (bdevs s) bdev) s);
  let size := if 512 <? bd_sector_size b then bd_sector_size b else 512 in
  buf ← bkmalloc size;
  if buf =? NULL then mret (- ENOMEM) else
  '(status, bs) ← bdev_read read_fuel bdev 0 1 size;
  '(res, pbdevs) ← (if negb (status =? 0) then mret (- EIO, []) else
    scan_entries (Z.to_nat MBR_ENTRY_COUNT) 0 bdev b bs []);
  scan_exit res pbdevs;;
  bkfree buf;;
  mret (if res =? 0 then Z.of_nat (length pbdevs) else res).

(** ** Specification of the scan *)

(** The used entries of a partition table: number, first sector, sectors. *)
Definition mbr_entry (mbr : list Z) (i : Z) : option (Z * Z * Z) :=
  let at_field f := le (take (Z.to_nat (field_size f mbr_partition_entry_layout))
    (drop (Z.to_nat (MBR_OFFSET + i * 16 + offset_of f mbr_partition_entry_layout)) mbr)) in
  if at_field "sys_id"%string =? 0 then None else Some (i, at_field "lba_start"%string, at_field "sector_count"%string).
Definition mbr_entries (mbr : list Z) : list (Z * Z * Z) := omap (mbr_entry mbr) (seqZ 0 MBR_ENTRY_COUNT).

(** Every device structure is a block of the heap. *)
Definition blk_inv s (B P : gset Z) : Prop :=
  h_live (heap s) B P ∧ dom (bdevs s) ⊆ B ∧ dom (pinfos s) ⊆ B.

(** The device and the [partition_info] of each entry, at the given
    addresses. *)
Definition dev_of (b : block_dev) (pq : Z * Z) (e : Z * Z * Z) : Z * block_dev :=
  (pq.1, BlockDev (bd_name b ++ [112; 48 + e.1.1]) (bd_sector_size b) e.2 pq.2 PARTITION_READ).
Definition info_of (bdev : Z) (pq : Z * Z) (e : Z * Z * Z) : Z * partition_info := (pq.2, PartInfo bdev e.1.2).

(** The addresses of the [partition_info]s that the devices point to. *)
Definition priv_keys (devs : list (Z * block_dev)) : list Z := filter (λ q, q ≠ NULL) (bd_priv_data <$> devs.*2).

(** The state [s0] with the structures [devs] and [infos] added in fresh
    blocks. *)
Definition made_state s0 (B P : gset Z) (devs : list (Z * block_dev)) (infos : list (Z * partition_info)) s : Prop :=
  h_live (heap s) (list_to_set (devs.*1 ++ infos.*1) ∪ B) P ∧ disk s = disk s0 ∧ registered s = registered s0 ∧
  bdevs s = list_to_map devs ∪ bdevs s0 ∧ pinfos s = list_to_map infos ∪ pinfos s0 ∧
  NoDup (devs.*1 ++ infos.*1) ∧ (∀ p, p ∈ devs.*1 ++ infos.*1 → p ∉ B ∧ p ≠ NULL) ∧ priv_keys devs = infos.*1.

Lemma priv_keys_cons p d devs : priv_keys ((p, d) :: devs) = if bd_priv_data d =? NULL then priv_keys devs else bd_priv_data d :: priv_keys devs.
Proof.
  unfold priv_keys. rewrite !fmap_cons. destruct (Z.eqb_spec (bd_priv_data d) NULL);
    [by rewrite filter_cons_False by tauto|by rewrite filter_cons_True].
Qed.

Lemma priv_keys_snoc p d devs : priv_keys (devs ++ [(p, d)]) = priv_keys devs ++ if bd_priv_data d =? NULL then [] else [bd_priv_data d].
Proof.
  induction devs as [|[p' d'] devs IH]; cbn [app]; rewrite !priv_keys_cons; [by destruct (_ =? _)|].
  rewrite IH. by destruct (bd_priv_data d' =? NULL).
Qed.

Lemma bkzalloc_spec s B P size : h_live (heap s) B P → 0 <= size <= 1024 →
  holds (bkzalloc size) s (λ p s', ∃ h, s' = set_heap h s ∧
    ((p = NULL ∧ h_live h B P) ∨ (p ≠ NULL ∧ p ∉ B ∪ P ∧ h_live h ({[p]} ∪ B) P))).
Proof.
  intros Hl Hs. eapply zoom_holds; [by apply h_kzalloc_spec|]. intros p h Hc. exists h. split; [done|].
  destruct Hc as [?|[? Hl']]; [by left|right]. split; [|done]. eapply h_live_ptr; [exact Hl'|].
  apply elem_of_union_l, elem_of_union_l, elem_of_singleton. done.
Qed.

Lemma bkmalloc_spec s B P size : h_live (heap s) B P → 0 <= size <= 1024 →
  holds (bkmalloc size) s (λ p s', ∃ h, s' = set_heap h s ∧
    ((p = NULL ∧ h_live h B P) ∨ (p ≠ NULL ∧ p ∉ B ∪ P ∧ h_live h ({[p]} ∪ B) P))).
Proof.
  intros Hl Hs. eapply zoom_holds; [by apply h_kmalloc_spec|]. intros p h Hc. exists h. split; [done|].
  destruct Hc as [?|[? Hl']]; [by left|right]. split; [|done]. eapply h_live_ptr; [exact Hl'|].
  apply elem_of_union_l, elem_of_union_l, elem_of_singleton. done.
Qed.

Lemma bkfree_spec s B P p : h_live (heap s) B P → p ∈ B →
  holds (bkfree p) s (λ _ s', ∃ h, s' = set_heap h s ∧ h_live h (B ∖ {[p]}) P).
Proof.
  intros Hl Hp. unfold holds, bkfree. eapply returns_bind; [by apply h_kfree_spec|]. intros h Hh. by exists h.
Qed.

Lemma balloc_page_spec s B P : h_live (heap s) B P →
  holds balloc_page s (λ p s', ∃ h, s' = set_heap h s ∧
    ((p = NULL ∧ h_live h B P) ∨ (p ≠ NULL ∧ p ∉ B ∪ P ∧ h_live h B ({[p]} ∪ P)))).
Proof.
  intros Hl. eapply zoom_holds; [by apply h_alloc_page_spec|]. intros p h Hc. exists h. split; [done|].
  destruct Hc as [?|[? Hl']]; [by left|right]. split; [|done]. eapply h_live_ptr; [exact Hl'|].
  apply elem_of_union_r, elem_of_union_l, elem_of_singleton. done.
Qed.

Lemma bfree_page_spec s B P p : h_live (heap s) B P → p ∈ P →
  holds (bfree_page p) s (λ _ s', ∃ h, s' = set_heap h s ∧ h_live h B (P ∖ {[p]})).
Proof.
  intros Hl Hp. unfold holds, bfree_page. eapply returns_bind; [by apply h_free_page_spec|]. intros h Hh. by exists h.
Qed.

Lemma made_nil s B P : h_live (heap s) B P → made_state s B P [] [] s.
Proof.
  intros Hl. unfold made_state. cbn. rewrite !(left_id_L ∅ union). split_and!; try done; [by apply NoDup_nil|].
  intros p Hp. by apply not_elem_of_nil in Hp.
Qed.

(** ** Undoing and registering *)

(** Releasing a fresh block and deleting its structure. *)
Lemma live_drop (l1 l2 : list Z) (q : Z) (B : gset Z) : NoDup (l1 ++ q :: l2) → q ∉ B →
  (list_to_set (l1 ++ q :: l2) ∪ B) ∖ {[q]} = list_to_set (C := gset Z) (l1 ++ l2) ∪ B.
Proof.
  intros Hnd Hq. rewrite <- Permutation_middle in Hnd. apply NoDup_cons in Hnd as [Hni _].
  apply set_eq. intros x. rewrite elem_of_difference, !elem_of_union, !elem_of_list_to_set, elem_of_singleton, !elem_of_app, elem_of_cons in *.
  naive_solver.
Qed.

Lemma live_drop_head (l : list Z) (q : Z) (B : gset Z) : NoDup (q :: l) → q ∉ B →
  (list_to_set (q :: l) ∪ B) ∖ {[q]} = list_to_set (C := gset Z) l ∪ B.
Proof. apply (live_drop []). Qed.

Lemma map_drop {A} (l : list (Z * A)) p (d : A) (m : gmap Z A) (B : gset Z) : p ∉ l.*1 → dom m ⊆ B → p ∉ B →
  delete p (list_to_map ((p, d) :: l) ∪ m) = list_to_map l ∪ m.
Proof.
  intros Hp Hd HB. cbn [list_to_map foldr uncurry]. apply map_eq. intros x. destruct (decide (x = p)) as [->|Hne].
  - rewrite lookup_delete_eq. symmetry. apply lookup_union_None. split; [by apply not_elem_of_list_to_map_1|].
    apply not_elem_of_dom. set_solver.
  - rewrite lookup_delete_ne, !lookup_union by done. simpl. by rewrite lookup_insert_ne by done.
Qed.

(** Releasing a block, dropping its structure, and going on. *)
Lemma free_step {A} s (B P : gset Z) p f (k : M (blk H D) A) Q : h_live (heap s) B P → p ∈ B →
  (∀ h, h_live h (B ∖ {[p]}) P → holds k (f (set_heap h s)) Q) → holds ((bkfree p;; puts f);; k) s Q.
Proof.
  intros Hl Hp Hk. unfold holds. rewrite bind_assoc_run.
  eapply (holds_bind (bkfree p)); [by apply bkfree_spec|]. intros _ s' (h & -> & Hh). by apply Hk.
Qed.

Lemma scan_exit_error s0 B P r devs infos s : r ≠ 0 → made_state s0 B P devs infos s → dom (bdevs s0) ⊆ B → dom (pinfos s0) ⊆ B →
  holds (scan_exit r devs.*1) s (λ _ s', ∃ h, s' = set_heap h s0 ∧ h_live h B P).
Proof.
  intros Hr Hmade HB1 HB2. revert s infos Hmade.
  induction devs as [|[p d] devs IH]; intros s infos (Hl & Hdk & Hrg & Hbd & Hpi & Hnd & Hfr & Hpk).
  { cbn in Hpk. destruct infos as [|[q x] infos]; [|done]. cbn in *. rewrite !(left_id_L ∅ union) in *.
    exists (heap s). split; [|done]. destruct s, s0. cbn in *. by subst. }
  change (((p, d) :: devs).*1) with (p :: devs.*1) in *. cbn [scan_exit app] in *. rewrite (proj2 (Z.eqb_neq r 0)) by done. cbn [negb].
  assert (deref (bdevs s) p = Ok d) as Hd by (unfold deref; rewrite Hbd; cbn; by rewrite (lookup_union_Some_l _ _ _ d) by apply lookup_insert_eq).
  assert (p ∉ B ∧ p ≠ NULL) as [HpB Hpn] by (apply Hfr; by left).
  assert (p ∉ devs.*1 ++ infos.*1 ∧ NoDup (devs.*1 ++ infos.*1)) as [Hpni Hnd'] by by apply NoDup_cons in Hnd.
  assert (p ∉ devs.*1) as Hpd by (intros ?; apply Hpni, elem_of_app; by left).
  unfold holds. rewrite bind_assoc_run, bind_run. unfold lift at 1. rewrite Hd, !bind_Ok.
  destruct (Z.eqb_spec (bd_priv_data d) NULL) as [He|Hq]; cbn [negb].
  - rewrite bind_assoc_run, ret_step. eapply free_step; [exact Hl|apply elem_of_union_l, elem_of_list_to_set; by left|].
    intros h Hh. rewrite live_drop_head in Hh by done. apply (IH _ infos). split_and!; cbn; try done.
    + rewrite Hbd. by apply (map_drop devs p d (bdevs s0) B).
    + intros x Hx. apply Hfr. by right.
    + by rewrite priv_keys_cons, He in Hpk.
  - rewrite priv_keys_cons, (proj2 (Z.eqb_neq _ _) Hq) in Hpk. destruct infos as [|[q x] infos]; [done|]. cbn in Hpk. injection Hpk as Hqe Hpk'. rewrite Hqe.
    assert (q ∉ B ∧ q ≠ NULL) as [HqB Hqn] by (apply Hfr; right; apply elem_of_app; right; by left).
    change (((q, x) :: infos).*1) with (q :: infos.*1) in *.
    assert (q ∉ infos.*1) as Hqi by (apply NoDup_app in Hnd' as (_ & _ & Hn); by apply NoDup_cons in Hn as [? _]).
    assert (NoDup (p :: devs.*1 ++ infos.*1)) as Hnd2.
    { eapply sublist_NoDup; [exact Hnd|]. apply sublist_skip, sublist_app; [done|by apply sublist_cons]. }
    rewrite bind_assoc_run. eapply free_step; [exact Hl|apply elem_of_union_l, elem_of_list_to_set; right; apply elem_of_app; right; by left|].
    intros h Hh. 
    assert (h_live h (list_to_set (p :: devs.*1 ++ infos.*1) ∪ B) P) as Hh'
      by (refine (eq_ind _ (λ X, h_live h X P) Hh _ _); by apply (live_drop (p :: _))).
    eapply free_step; [exact Hh'|apply elem_of_union_l, elem_of_list_to_set; by left|].
    intros h2 Hh2. rewrite live_drop_head in Hh2 by done. apply (IH _ infos). split_and!; cbn; try done.
    + rewrite Hbd. by apply (map_drop devs p d (bdevs s0) B).
    + rewrite Hpi. by apply (map_drop infos q x (pinfos s0) B).
    + by apply NoDup_cons in Hnd2 as [_ ?].
    + intros y Hy. apply Hfr. right. apply elem_of_app in Hy as [?|?]; apply elem_of_app; [by left|right; by right].
Qed.

(** Registration appends up to the size of the table. *)
Lemma scan_exit_ok ps s : Z.of_nat (length (registered s)) <= BLOCK_DEV_MAX →
  scan_exit 0 ps s = Ok ((), set_registered (take (Z.to_nat BLOCK_DEV_MAX) (registered s ++ ps)) s).
Proof.
  revert s. induction ps as [|p ps IH]; intros s Hlen; cbn [scan_exit].
  - rewrite app_nil_r, take_ge by lia. by destruct s.
  - rewrite Z.eqb_refl. cbn [negb]. unfold block_dev_register. rewrite puts_step.
    destruct (Z.leb_spec BLOCK_DEV_MAX (Z.of_nat (length (registered s)))) as [Hfull|Hroom].
    + rewrite IH by done. by rewrite !take_app_le by lia.
    + rewrite IH by (cbn; rewrite length_app; cbn; lia). cbn. by rewrite <- app_assoc.
Qed.

(** ** Making the structures *)

Lemma mbr_field f buf i : 512 <= Z.of_nat (length buf) → 0 <= i < MBR_ENTRY_COUNT → f ∈ ["sys_id"; "lba_start"; "sector_count"]%string →
  field mbr_partition_entry_layout f buf (MBR_OFFSET + i * size_of mbr_partition_entry_layout) =
  Ok (le (take (Z.to_nat (field_size f mbr_partition_entry_layout))
    (drop (Z.to_nat (MBR_OFFSET + i * 16 + offset_of f mbr_partition_entry_layout)) buf))).
Proof.
  intros Hl Hi Hf. unfold field, get_le. change (size_of mbr_partition_entry_layout) with 16. unfold MBR_OFFSET, MBR_ENTRY_COUNT in *.
  rewrite bytes_get_Ok; [done|..];
    (apply elem_of_cons in Hf as [->|Hf]; [layout_eval; lia|]; apply elem_of_cons in Hf as [->|Hf]; [layout_eval; lia|];
     apply list_elem_of_singleton in Hf as ->; layout_eval; lia).
Qed.

(** A block added to the structures. *)
Lemma live_cons_snoc (l1 l2 : list Z) p (B : gset Z) : {[p]} ∪ (list_to_set (l1 ++ l2) ∪ B) = list_to_set (C := gset Z) ((l1 ++ [p]) ++ l2) ∪ B.
Proof. apply set_eq. intros x. rewrite !elem_of_union, !elem_of_list_to_set, !elem_of_app, elem_of_singleton, list_elem_of_singleton. tauto. Qed.

Lemma live_snoc_snoc (l1 l2 : list Z) p (B : gset Z) : {[p]} ∪ (list_to_set (l1 ++ l2) ∪ B) = list_to_set (C := gset Z) (l1 ++ l2 ++ [p]) ∪ B.
Proof. apply set_eq. intros x. rewrite !elem_of_union, !elem_of_list_to_set, !elem_of_app, elem_of_singleton, list_elem_of_singleton. tauto. Qed.

Lemma map_snoc {A} (l : list (Z * A)) p (d : A) (m : gmap Z A) : p ∉ l.*1 → <[p := d]> (list_to_map l ∪ m) = list_to_map (l ++ [(p, d)]) ∪ m.
Proof. intros Hp. rewrite list_to_map_snoc by done. by rewrite insert_union_l. Qed.

(** The first allocation of an entry. *)
Lemma made_dev s0 B P devs infos s h p : made_state s0 B P devs infos s → p ∉ (list_to_set (devs.*1 ++ infos.*1) ∪ B) ∪ P → p ≠ NULL →
  h_live h ({[p]} ∪ (list_to_set (devs.*1 ++ infos.*1) ∪ B)) P →
  made_state s0 B P (devs ++ [(p, BlockDev [] 0 0 NULL READ_NULL)]) infos
    (set_bdevs (<[p := BlockDev [] 0 0 NULL READ_NULL]> (bdevs s)) (set_heap h s)).
Proof.
  intros (Hl & Hdk & Hrg & Hbd & Hpi & Hnd & Hfr & Hpk) Hp Hpn Hh.
  assert (p ∉ devs.*1 ++ infos.*1 ∧ p ∉ B) as [Hpl HpB]
    by (split; intros ?; apply Hp, elem_of_union_l, elem_of_union; [left; by apply elem_of_list_to_set|by right]).
  unfold made_state. cbn. rewrite fmap_app. cbn [fmap list_fmap fst]. split; [by rewrite <- live_cons_snoc|]. split; [done|]. split; [done|].
  apply not_elem_of_app in Hpl as [Hpl1 Hpl2].
  split; [rewrite Hbd; by apply map_snoc|]. split; [done|].
  split; [rewrite <- app_assoc; cbn; rewrite <- Permutation_middle; apply NoDup_cons; split; [|done]; by rewrite not_elem_of_app|].
  split.
  - intros x. rewrite !elem_of_app, list_elem_of_singleton. intros [[?| ->]|?]; [apply Hfr, elem_of_app; by left|done|apply Hfr, elem_of_app; by right].
  - by rewrite <- Hpk, priv_keys_snoc, app_nil_r.
Qed.

(** The second one fills the device in. *)
Lemma made_info s0 B P devs infos s h p z d q x : made_state s0 B P (devs ++ [(p, z)]) infos s → bd_priv_data z = NULL →
  bd_priv_data d = q → q ∉ (list_to_set ((devs ++ [(p, z)]).*1 ++ infos.*1) ∪ B) ∪ P → q ≠ NULL →
  h_live h ({[q]} ∪ (list_to_set ((devs ++ [(p, z)]).*1 ++ infos.*1) ∪ B)) P →
  made_state s0 B P (devs ++ [(p, d)]) (infos ++ [(q, x)])
    (set_pinfos (<[q := x]> (pinfos s)) (set_bdevs (<[p := d]> (bdevs s)) (set_heap h s))).
Proof.
  intros (Hl & Hdk & Hrg & Hbd & Hpi & Hnd & Hfr & Hpk) Hz Hdq Hq Hqn Hh.
  assert ((devs ++ [(p, d)]).*1 = (devs ++ [(p, z)]).*1) as Hk by by rewrite !fmap_app.
  assert (q ∉ (devs ++ [(p, z)]).*1 ++ infos.*1 ∧ q ∉ B) as [Hql HqB]
    by (split; intros ?; apply Hq, elem_of_union_l, elem_of_union; [left; by apply elem_of_list_to_set|by right]).
  assert (p ∉ devs.*1) as Hpd.
  { apply NoDup_app in Hnd as (Hnd & _). rewrite fmap_app in Hnd. apply NoDup_app in Hnd as (_ & Hnd & _).
    intros Hin. apply (Hnd p Hin). by left. }
  unfold made_state. cbn [heap disk registered bdevs pinfos set_pinfos set_bdevs set_heap]. rewrite Hk.
  assert ((infos ++ [(q, x)]).*1 = infos.*1 ++ [q]) as -> by by rewrite fmap_app.
  split; [by rewrite <- live_snoc_snoc|]. split; [done|]. split; [done|]. split; [|split; [|split; [|split]]].
  - rewrite Hbd, !list_to_map_snoc by done. by rewrite insert_union_l, insert_insert_eq.
  - rewrite Hpi. apply map_snoc. intros ?. apply Hql, elem_of_app. by right.
  - rewrite app_assoc. apply NoDup_app. split; [done|]. split; [|apply NoDup_singleton]. intros y Hy ->%list_elem_of_singleton. done.
  - intros y. rewrite app_assoc, (elem_of_app (_ ++ _)), list_elem_of_singleton. intros [?| ->]; [by apply Hfr|done].
  - rewrite <- Hpk, !priv_keys_snoc, Hz, Hdq, Z.eqb_refl, (proj2 (Z.eqb_neq q NULL)) by done. by rewrite app_nil_r.
Qed.

(** The structures of the entries below [i] are in place. *)
Definition entries_made s0 (B P : gset Z) (bdev : Z) (b : block_dev) (made : list (Z * Z)) (es : list (Z * Z * Z)) s : Prop :=
  length made = length es ∧ made_state s0 B P (zip_with (dev_of b) made es) (zip_with (info_of bdev) made es) s.

Lemma zip_dev_keys b made es : length made = length es → (zip_with (dev_of b) made es).*1 = made.*1.
Proof. revert es. induction made as [|pq made IH]; intros [|e es] Hl; try done. cbn. f_equal. apply IH. by injection Hl. Qed.

Lemma zip_info_keys bdev made es : length made = length es → (zip_with (info_of bdev) made es).*1 = made.*2.
Proof. revert es. induction made as [|pq made IH]; intros [|e es] Hl; try done. cbn. f_equal. apply IH. by injection Hl. Qed.

Lemma scan_entries_spec s0 B P bdev b buf n i made es s : 512 <= Z.of_nat (length buf) → Z.of_nat (length (bd_name b)) <= 29 →
  0 <= i → i + Z.of_nat n = MBR_ENTRY_COUNT → es = omap (mbr_entry buf) (seqZ 0 i) → entries_made s0 B P bdev b made es s →
  holds (scan_entries n i bdev b buf made.*1) s (λ '(r, ps) s',
    (r = 0 ∧ ∃ made', ps = made'.*1 ∧ entries_made s0 B P bdev b made' (mbr_entries buf) s') ∨
    (r = - ENOMEM ∧ ∃ devs infos, ps = devs.*1 ∧ made_state s0 B P devs infos s')).
Proof.
  intros Hbuf Hname. revert i made es s. induction n as [|n IH]; intros i made es s Hi Hin Hes [Hlen Hmade].
  { left. split; [done|]. exists made. split; [done|]. unfold mbr_entries. replace MBR_ENTRY_COUNT with i by lia. by subst es. }
  assert (0 <= i < MBR_ENTRY_COUNT) as Hi4 by lia.
  assert (omap (mbr_entry buf) (seqZ 0 (i + 1)) = es ++ match mbr_entry buf i with Some e => [e] | None => [] end) as Hnext.
  { rewrite Hes, seqZ_app by lia. rewrite omap_app. by rewrite Z.add_0_l. }
  cbn [scan_entries]. unfold holds.
  erewrite lift_step by (apply mbr_field; [done|done|set_solver]).
  destruct (Z.eqb_spec (le (take (Z.to_nat (field_size "sys_id" mbr_partition_entry_layout)) (drop (Z.to_nat (MBR_OFFSET + i * 16 + offset_of "sys_id" mbr_partition_entry_layout)) buf))) 0) as [Hsys|Hsys];
    [assert (mbr_entry buf i = None) as Hent by (unfold mbr_entry; cbv zeta; by rewrite Hsys)|].
  { apply (IH (i + 1) made es); [lia|lia|by rewrite Hnext, Hent, app_nil_r|done]. }
  pose proof Hmade as (Hl & _). eapply (holds_bind (bkzalloc BLOCK_DEV_SIZE)); [apply bkzalloc_spec; [exact Hl|unfold BLOCK_DEV_SIZE; lia]|].
  intros p s1 (h & -> & [(-> & Hh)|(Hpn & Hp & Hh)]).
  { right. split; [done|]. eexists _, _. split; [symmetry; by apply zip_dev_keys|]. destruct Hmade as (_ & Hrest). by split. }
  rewrite (proj2 (Z.eqb_neq p NULL)) by done. unfold holds. rewrite puts_step.
  pose proof (made_dev _ _ _ _ _ _ _ _ Hmade Hp Hpn Hh) as Hm1.
  set (s2 := set_bdevs _ _) in *. clearbody s2.
  assert ((zip_with (dev_of b) made es ++ [(p, BlockDev [] 0 0 NULL READ_NULL)]).*1 = made.*1 ++ [p]) as Hkeys
    by by rewrite fmap_app, zip_dev_keys.
  pose proof Hm1 as (Hl1 & _).
  eapply (holds_bind (bkzalloc PARTITION_INFO_SIZE)); [apply bkzalloc_spec; [exact Hl1|unfold PARTITION_INFO_SIZE; lia]|].
  intros q s3 (h3 & -> & [(-> & Hh3)|(Hqn & Hq & Hh3)]).
  { right. split; [done|]. eexists _, _. split; [by rewrite <- Hkeys|]. destruct Hm1 as (_ & Hrest). by split. }
  rewrite (proj2 (Z.eqb_neq q NULL)) by done. unfold holds.
  assert (partition_name (bd_name b) i = Ok (bd_name b ++ [112; 48 + i])) as Hpn'.
  { unfold partition_name, BLOCK_DEV_NAME_MAX. rewrite (proj2 (Z.leb_gt 32 _)) by lia. rewrite u8_small by (unfold MBR_ENTRY_COUNT in *; lia).
    by rewrite take_ge by (cbn; lia). }
  rewrite (lift_step _ _ _ _ Hpn').
  erewrite lift_step by (apply mbr_field; [done|done|set_solver]).
  erewrite lift_step by (apply mbr_field; [done|done|set_solver]).
  rewrite !puts_step.
  set (lba := le (take (Z.to_nat (field_size "lba_start" _)) _)) in *. set (cnt := le (take (Z.to_nat (field_size "sector_count" _)) _)) in *.
  pose proof (made_info _ _ _ _ _ _ _ _ _ (dev_of b (p, q) (i, lba, cnt)).2 q (PartInfo bdev lba) Hm1 eq_refl eq_refl Hq Hqn Hh3) as Hm2.
  replace (made.*1 ++ [p]) with ((made ++ [(p, q)]).*1) by by rewrite fmap_app.
  eapply (IH (i + 1) _ (es ++ [(i, lba, cnt)])); [lia|lia| |].
  { rewrite Hnext. unfold mbr_entry. cbv zeta. by rewrite (proj2 (Z.eqb_neq _ _) Hsys). }
  split; [rewrite !length_app; cbn; lia|].
  rewrite !zip_with_app by done. exact Hm2.
Qed.

(** ** The scan as a whole *)

Lemma seqZ_one : seqZ 0 1 = [0].
Proof. done. Qed.

(** Reading one sector of a disk. *)
Lemma read_sector fuel s bdev b : bdevs s !! bdev = Some b → bd_read b = READ_DRIVER → drv_sector_size (disk s) (bd_priv_data b) = bd_sector_size b →
  ∃ st bs d, bdev_read (S fuel) bdev 0 1 (bd_sector_size b) s = Ok ((st, bs), set_disk d s) ∧ drv_sector d = drv_sector (disk s) ∧
    st <= 0 ∧ (st = 0 → bs = drv_sector (disk s) (bd_priv_data b) 0).
Proof.
  intros Hb Hr Hsz. cbn [bdev_read].
  destruct (drv_read (bd_priv_data b) 0 1 (bd_sector_size b) (disk s)) as [[st bs] d] eqn:E.
  pose proof (drv_read_status (disk s) (bd_priv_data b) 0 1 (bd_sector_size b)) as Hst. rewrite E in Hst. cbn in Hst.
  pose proof E as E'. apply drv_read_spec in E' as (Hsec & _ & Hbs); [|lia|rewrite Hsz; lia].
  exists st, bs, d. split; [|split; [done|split; [lia|]]].
  - rewrite bind_run. unfold lift, deref. rewrite Hb, !bind_Ok, Hr, E. done.
  - intros ->. rewrite (Hbs eq_refl), seqZ_one. cbn. by rewrite app_nil_r.
Qed.

(** A partition's reads are its disk's, shifted. *)
Lemma partition_read_shift s p q name ss count bdev start lba n len : bdevs s !! p = Some (BlockDev name ss count q PARTITION_READ) →
  pinfos s !! q = Some (PartInfo bdev start) → bdev_read 2 p lba n len s = bdev_read 1 bdev (u64 (start + lba)) n len s.
Proof. intros Hp Hq. cbn [bdev_read]. unfold mbind, M_bind, lift, deref. rewrite Hp. cbn. by rewrite Hq. Qed.

(** The structures as the table of devices sees them. *)
Lemma made_lookup s0 B B' P bdev b made es s : dom (bdevs s0) ⊆ B → dom (pinfos s0) ⊆ B → B ⊆ B' → entries_made s0 B' P bdev b made es s →
  Forall2 (λ pq e, bdevs s !! pq.1 = Some (dev_of b pq e).2 ∧ pinfos s !! pq.2 = Some (info_of bdev pq e).2) made es ∧
  dom (bdevs s) ⊆ list_to_set (made.*1 ++ made.*2) ∪ B ∧ dom (pinfos s) ⊆ list_to_set (made.*1 ++ made.*2) ∪ B ∧
  (∀ x, x ∈ B → bdevs s !! x = bdevs s0 !! x).
Proof.
  intros HB1 HB2 Hsub (Hlen & _ & _ & _ & Hbd & Hpi & Hnd & Hfr & _). pose proof (zip_info_keys bdev made es Hlen) as Hk2.
  rewrite (zip_dev_keys b made es Hlen), Hk2 in *. apply NoDup_app in Hnd as (Hn1 & _ & Hn2). rewrite Hbd, Hpi.
  split; [|split; [|split]].
  - apply Forall2_same_length_lookup_2; [done|]. intros i pq e Hm He. split; apply lookup_union_Some_l, elem_of_list_to_map_1.
    + by rewrite zip_dev_keys.
    + apply list_elem_of_lookup_2 with i. by rewrite lookup_zip_with, Hm, He.
    + by rewrite Hk2.
    + apply list_elem_of_lookup_2 with i. by rewrite lookup_zip_with, Hm, He.
  - rewrite dom_union_L, dom_list_to_map_L, zip_dev_keys by done. set_solver.
  - rewrite dom_union_L, dom_list_to_map_L, Hk2. set_solver.
  - intros x Hx. apply lookup_union_r, not_elem_of_list_to_map_1. rewrite zip_dev_keys by done. intros Hin.
    destruct (Hfr x) as [Hx' _]; [apply elem_of_app; by left|]. by apply Hx', Hsub.
Qed.

(** What the caller of [partition_scan] gets for the table [es]. *)
Definition scan_post s (B P : gset Z) bdev b es (r : Z) s' : Prop :=
  drv_sector (disk s') = drv_sector (disk s) ∧
  ((r < 0 ∧ blk_inv s' B P ∧ bdevs s' = bdevs s ∧ pinfos s' = pinfos s ∧ registered s' = registered s) ∨
   (r = Z.of_nat (length es) ∧ ∃ made, blk_inv s' (list_to_set (made.*1 ++ made.*2) ∪ B) P ∧
    registered s' = take (Z.to_nat BLOCK_DEV_MAX) (registered s ++ made.*1) ∧
    Forall2 (λ pq '(i, start, count),
      bdevs s' !! pq.1 = Some (BlockDev (bd_name b ++ [112; 48 + i]) (bd_sector_size b) count pq.2 PARTITION_READ) ∧
      ∀ lba n len, bdev_read read_fuel pq.1 lba n len s' = bdev_read 1 bdev (u64 (start + lba)) n len s') made es ∧
    ∀ x, x ∈ B → bdevs s' !! x = bdevs s !! x)).

(** The last step of the scan: the sector buffer is released. *)
Lemma scan_done s (B P : gset Z) buf (r : Z) (Q : Z → blk H D → Prop) : h_live (heap s) ({[buf]} ∪ B) P → buf ∉ B →
  (∀ h, h_live h B P → Q r (set_heap h s)) → holds (bkfree buf;; mret r) s Q.
Proof.
  intros Hl Hbuf Hk. eapply holds_bind; [apply bkfree_spec; [exact Hl|by apply elem_of_union_l, elem_of_singleton]|].
  intros _ s' (h & -> & Hh). apply holds_ret, Hk. by replace (({[buf]} ∪ B) ∖ {[buf]}) with B in Hh by set_solver.
Qed.

Lemma with_buf_inv s h d B P buf : blk_inv s B P → dom (bdevs (set_disk d (set_heap h s))) ⊆ {[buf]} ∪ B ∧ dom (pinfos (set_disk d (set_heap h s))) ⊆ {[buf]} ∪ B.
Proof. intros (_ & ? & ?). cbn. set_solver. Qed.

(** C24: scanning a partition table.  On a disk with sectors of 512 to 1024
    bytes, [partition_scan] either fails with a negative error, and then every
    block it allocated has been released and no structure or registration has
    changed; or it returns the number of used entries of the table and has
    registered, in table order and up to the capacity of the device table, one
    partition per entry, named after the disk with its number, whose reads are
    the disk's reads shifted by the entry's first sector. *)
Theorem partition_scan_correct s B P bdev b : blk_inv s B P → bdevs s !! bdev = Some b → bd_read b = READ_DRIVER →
  512 <= bd_sector_size b <= 1024 → drv_sector_size (disk s) (bd_priv_data b) = bd_sector_size b →
  Z.of_nat (length (bd_name b)) <= 29 → Z.of_nat (length (registered s)) <= BLOCK_DEV_MAX →
  holds (partition_scan bdev) s (scan_post s B P bdev b (mbr_entries (drv_sector (disk s) (bd_priv_data b) 0))).
Proof.
  intros Hinv Hb Hrd Hss Hsz Hname Hreg. pose proof Hinv as (Hl & HB1 & HB2).
  set (mbr := drv_sector (disk s) (bd_priv_data b) 0).
  assert (512 <= Z.of_nat (length mbr)) as Hmbr by (unfold mbr; rewrite drv_sector_len; lia).
  unfold partition_scan, holds. rewrite bind_run. unfold lift at 1, deref at 1. rewrite Hb, !bind_Ok. cbv beta zeta.
  replace (if 512 <? bd_sector_size b then bd_sector_size b else 512) with (bd_sector_size b) by (destruct (Z.ltb_spec 512 (bd_sector_size b)); lia).
  eapply (holds_bind (bkmalloc (bd_sector_size b))); [apply bkmalloc_spec; [exact Hl|lia]|].
  intros buf s1 (h & -> & [(-> & Hh)|(Hbn & Hbf & Hh)]).
  { apply holds_ret. split; [done|]. left. split; [unfold ENOMEM; lia|]. by split. }
  rewrite (proj2 (Z.eqb_neq buf NULL)) by done. assert (buf ∉ B) as HbB by set_solver.
  destruct (read_sector 1 (set_heap h s) bdev b Hb Hrd Hsz) as (st & bs & d & Hread & Hsec & Hst & Hbs).
  unfold holds. rewrite (bind_step _ _ _ _ _ Hread).
  set (s1 := set_disk d (set_heap h s)) in *. destruct (with_buf_inv s h d B P buf Hinv) as [HD1 HD2]. fold s1 in HD1, HD2.
  assert (h_live (heap s1) ({[buf]} ∪ B) P) as Hl1 by done.
  assert (∀ r h', r < 0 → h_live h' B P → scan_post s B P bdev b (mbr_entries mbr) r (set_heap h' s1)) as Herr.
  { intros r h' Hr Hh'. split; [done|]. left. split; [done|]. by split. }
  destruct (Z.eqb_spec st 0) as [->|Hst0]; cbn [negb]; cbv beta iota.
  2:{ rewrite ret_step. cbv beta iota. cbn [scan_exit]. rewrite ret_step.
      apply (scan_done _ _ _ _ _ _ Hl1 HbB). intros h' Hh'. by apply Herr. }
  rewrite (Hbs eq_refl). fold mbr.
  eapply holds_bind; [apply (scan_entries_spec s1 ({[buf]} ∪ B) P bdev b mbr 4 0 [] []); [done|done|lia|done|done|]|].
  { split; [done|]. by apply made_nil. }
  intros [r ps] s2 [(-> & made & -> & Hmade)|(-> & devs & infos & -> & Hmade)]; cbv beta iota.
  2:{ eapply holds_bind; [by eapply (scan_exit_error s1); [|exact Hmade|..]|].
      intros _ s3 (h3 & -> & Hh3). apply (scan_done (set_heap h3 s1) _ _ _ _ _ Hh3 HbB). intros h' Hh'. by apply Herr. }
  destruct (made_lookup s1 B _ P bdev b made _ s2 HB1 HB2 ltac:(by apply union_subseteq_r) Hmade) as (Hparts & Hd1 & Hd2 & Hold).
  destruct Hmade as (Hlen & Hl2 & Hdk & Hrg & _ & _ & Hnd & Hfr & _).
  rewrite zip_dev_keys, zip_info_keys in * by done. set (N := list_to_set (made.*1 ++ made.*2)) in *.
  assert (buf ∉ N) as HbN.
  { intros HN%elem_of_list_to_set. destruct (Hfr _ HN) as [HN' _]. apply HN', elem_of_union_l, elem_of_singleton. done. }
  replace (N ∪ ({[buf]} ∪ B)) with ({[buf]} ∪ (N ∪ B)) in Hl2 by (clear; set_solver).
  unfold holds. rewrite (bind_step _ _ _ _ _ (scan_exit_ok made.*1 s2 ltac:(by rewrite Hrg))).
  eapply (scan_done (set_registered _ s2) (N ∪ B)); [exact Hl2|by apply not_elem_of_union|]. intros h' Hh'.
  split; [cbn; by rewrite Hdk|]. right. split; [by rewrite length_fmap, Hlen|]. exists made. split; [done|].
  split; [cbn; by rewrite Hrg|]. split; [|exact Hold].
  eapply Forall2_impl; [exact Hparts|]. intros [p q] [[i start] count] [Hp Hq]. split; [exact Hp|].
  intros lba n len. cbn in Hp, Hq. refine (partition_read_shift _ p q _ _ _ bdev start lba n len _ _); [exact Hp|exact Hq].
Qed.
End block.

(** ** Reads through any device

    The bytes a device holds, following partitions down to their disk, and
    what every read of it returns. *)

Section contents.
Context {H D : Type} `{!KernelHeap H, !DiskDriver D}.
Implicit Types s : blk H D.

Fixpoint dev_bytes (fuel : nat) s (dev lba n : Z) : list Z :=
  match fuel, bdevs s !! dev with
  | S fuel', Some b =>
      match bd_read b with
      | READ_NULL => []
      | READ_DRIVER => concat ((λ k, drv_sector (disk s) (bd_priv_data b) (lba + k)) <$> seqZ 0 n)
      | PARTITION_READ =>
          match pinfos s !! bd_priv_data b with
          | Some pi => dev_bytes fuel' s (pi_parent pi) (u64 (pi_lba_start pi + lba)) n
          | None => []
          end
      end
  | _, _ => []
  end.

(** A device whose partitions end at a disk with sectors of [ss] bytes. *)
Fixpoint dev_ok (fuel : nat) s (dev ss : Z) : Prop :=
  match fuel, bdevs s !! dev with
  | S fuel', Some b =>
      match bd_read b with
      | READ_NULL => False
      | READ_DRIVER => drv_sector_size (disk s) (bd_priv_data b) = ss
      | PARTITION_READ => match pinfos s !! bd_priv_data b with Some pi => dev_ok fuel' s (pi_parent pi) ss | None => False end
      end
  | _, _ => False
  end.

(** Nothing a read or an allocation does changes what a device holds. *)
Definition same_devices s s' : Prop :=
  bdevs s' = bdevs s ∧ pinfos s' = pinfos s ∧ drv_sector (disk s') = drv_sector (disk s) ∧ drv_sector_size (disk s') = drv_sector_size (disk s).

Lemma dev_bytes_same fuel s s' dev lba n : same_devices s s' → dev_bytes fuel s' dev lba n = dev_bytes fuel s dev lba n.
Proof.
  intros (Hb & Hp & Hs & _). revert dev lba. induction fuel as [|fuel IH]; intros dev lba; [done|]. cbn [dev_bytes]. rewrite Hb, Hp, Hs.
  destruct (bdevs s !! dev) as [b|]; [|done]. destruct (bd_read b); [done|done|]. destruct (pinfos s !! _); [apply IH|done].
Qed.

Lemma dev_ok_same fuel s s' dev ss : same_devices s s' → dev_ok fuel s dev ss → dev_ok fuel s' dev ss.
Proof.
  intros (Hb & Hp & _ & Hz). revert dev. induction fuel as [|fuel IH]; intros dev; [done|]. cbn [dev_ok]. rewrite Hb, Hp, Hz.
  destruct (bdevs s !! dev) as [b|]; [|done]. destruct (bd_read b); [done|done|]. destruct (pinfos s !! _); [apply IH|done].
Qed.

Lemma same_devices_trans s1 s2 s3 : same_devices s1 s2 → same_devices s2 s3 → same_devices s1 s3.
Proof. intros (? & ? & ? & ?) (? & ? & ? & ?). split_and!; congruence. Qed.

Lemma length_sectors (d : D) dev lba n : 0 <= n →
  Z.of_nat (length (concat ((λ k, drv_sector d dev (lba + k)) <$> seqZ 0 n))) = n * drv_sector_size d dev.
Proof.
  intros Hn. replace n with (Z.of_nat (Z.to_nat n)) by lia. generalize (Z.to_nat n) as k. clear n Hn. intros k.
  induction k as [|k IH]; [done|]. rewrite seqZ_S, fmap_app, concat_app, length_app. cbn. rewrite app_nil_r.
  rewrite Nat2Z.inj_add, IH, drv_sector_len. lia.
Qed.

Lemma length_dev_bytes fuel s dev ss lba n : dev_ok fuel s dev ss → 0 <= n → Z.of_nat (length (dev_bytes fuel s dev lba n)) = n * ss.
Proof.
  revert dev lba. induction fuel as [|fuel IH]; intros dev lba Hok Hn; [done|]. cbn [dev_ok dev_bytes] in *.
  destruct (bdevs s !! dev) as [b|]; [|done]. destruct (bd_read b); [done| |].
  - rewrite length_sectors, Hok by done. done.
  - destruct (pinfos s !! _); [by apply IH|done].
Qed.

(** A read's status is 0 or a negative error number, on any device. *)
Lemma bdev_read_status fuel s dev lba n len st bs s' : bdev_read fuel dev lba n len s = Ok ((st, bs), s') → - MAX_ERRNO <= st <= 0.
Proof.
  revert dev lba s. induction fuel as [|fuel IH]; intros dev lba s Hr; [done|]. cbn [bdev_read] in Hr.
  rewrite bind_run in Hr. unfold lift, deref in Hr. destruct (bdevs s !! dev) as [b|]; [|done]. rewrite !bind_Ok in Hr.
  destruct (bd_read b); [done| |].
  - pose proof (drv_read_status (disk s) (bd_priv_data b) lba n len) as Hst.
    destruct (drv_read _ _ _ _ _) as [[st1 bs1] d]. injection Hr as -> _ _. exact Hst.
  - rewrite bind_run in Hr. destruct (pinfos s !! bd_priv_data b); [|done]. rewrite !bind_Ok in Hr. by eapply IH.
Qed.

Lemma bdev_read_spec fuel s dev ss lba n len : dev_ok fuel s dev ss → 0 < n → n * ss <= len →
  ∃ st bs d, bdev_read fuel dev lba n len s = Ok ((st, bs), set_disk d s) ∧ same_devices s (set_disk d s) ∧
    - MAX_ERRNO <= st <= 0 ∧ (st = 0 → bs = dev_bytes fuel s dev lba n).
Proof.
  revert dev lba. induction fuel as [|fuel IH]; intros dev lba Hok Hn Hlen; [done|]. cbn [dev_ok dev_bytes bdev_read] in *.
  unfold mbind, M_bind, lift, deref. destruct (bdevs s !! dev) as [b|]; [|done]. cbn. destruct (bd_read b) eqn:Hr; [done| |].
  - destruct (drv_read (bd_priv_data b) lba n len (disk s)) as [[st bs] d] eqn:E. exists st, bs, d. split; [done|].
    pose proof (drv_read_status (disk s) (bd_priv_data b) lba n len) as Hst. rewrite E in Hst.
    apply drv_read_spec in E as (Hsec & Hsz & Hbs); [|done|by rewrite Hok]. split; [by split_and!|]. by split.
  - destruct (pinfos s !! bd_priv_data b) as [pi|]; [|done]. cbn. by apply IH.
Qed.
End contents.

(** ** A disk in memory, and a scan of it *)

Definition ram_sector (d : gmap Z (list Z)) (lba : Z) : list Z :=
  (λ b, b mod 256) <$> take 512 (default [] (d !! lba) ++ replicate 512 0).

#[export] Program Instance ram_disk : DiskDriver (gmap Z (list Z)) := {|
  drv_read dev lba count len d := (0, concat ((λ k, ram_sector d (lba + k)) <$> seqZ 0 count), d);
  drv_sector d dev lba := ram_sector d lba;
  drv_sector_size d dev := 512
|}.
Next Obligation. intros d dev lba. unfold ram_sector. rewrite length_fmap, length_take, length_app, length_replicate. lia. Qed.
Next Obligation. intros d dev lba. apply Forall_fmap, Forall_true. intros b. apply Z.mod_pos_bound. lia. Qed.
Next Obligation. by intros d dev lba count len. Qed.
Next Obligation. intros d dev lba count len st bs d' _ _ [= <- <- <-]. by split_and!. Qed.

Definition demo_mbr : list Z := replicate 446 0 ++ replicate 16 0 ++ [0; 0; 0; 0; 0x83; 0; 0; 0] ++ le_enc 4 2048 ++ le_enc 4 100.

(** A disk "sda" with one partition, its second entry. *)
Definition demo_blk : blk kheap (gmap Z (list Z)) :=
  Blk demo_heap1 {[ 0 := demo_mbr ]} {[ 0xffff88800000d080 := BlockDev [115; 100; 97] 512 4096 0 READ_DRIVER ]} ∅ [0xffff88800000d080].

Lemma demo_blk_inv : blk_inv demo_blk {[ 0xffff88800000d080 ]} ∅.
Proof.
  split; [|split; vm_compute; set_solver]. destruct demo_heap1_ok as (pools & fl & Hinv). exists pools, fl. split; [exact Hinv|set_solver].
Qed.

Lemma partition_scan_correct_witness :
  mbr_entries (drv_sector (disk demo_blk) 0 0) = [(1, 2048, 100)] ∧
  ok (partition_scan 0xffff88800000d080 demo_blk) = true ∧
  holds (partition_scan 0xffff88800000d080) demo_blk
    (scan_post demo_blk {[ 0xffff88800000d080 ]} ∅ 0xffff88800000d080 (BlockDev [115; 100; 97] 512 4096 0 READ_DRIVER)
      (mbr_entries (drv_sector (disk demo_blk) 0 0))).
Proof.
  split; [vm_compute; reflexivity|]. split; [vm_compute; reflexivity|].
  apply (partition_scan_correct demo_blk {[ 0xffff88800000d080 ]} ∅ 0xffff88800000d080 (BlockDev [115; 100; 97] 512 4096 0 READ_DRIVER));
    [apply demo_blk_inv|reflexivity|reflexivity|cbn; lia|reflexivity|cbn; lia|cbn; unfold BLOCK_DEV_MAX; lia].
Defined.
