(* ===== verification/FsTypes.v ===== *)
(** * File-system data (include/vfs.h, include/fs/ext2.h)

    The structures of the virtual file system and of ext2, at the addresses
    the kernel heap gave them, in one state with the block layer.  On-disk
    structures stay what they are in memory: the bytes read, accessed by the
    packed layouts of the headers. *)

From S2P Require Import Prelude Types HeapApi StateMonad Layout Block.

(** ** include/vfs.h *)

Definition MAX_FS_DRIVERS : Z := 16.
Definition S_IFMT : Z := 0xF000.
Definition S_IFREG : Z := 0x8000.
Definition S_IFDIR : Z := 0x4000.
Definition S_ISREG (m : Z) : bool := Z.land m S_IFMT =? S_IFREG.
Definition S_ISDIR (m : Z) : bool := Z.land m S_IFMT =? S_IFDIR.
Definition SEEK_SET : Z := 0.
Definition SEEK_CUR : Z := 1.
Definition SEEK_END : Z := 2.

(** A counted string: its bytes, and the cached length and hash. *)
Record qstr := Qstr { q_str : list Z; q_len : Z; q_hash : Z }.

Record superblock := Superblock { sb_bdev : Z; sb_root : Z; sb_block_size : Z; sb_sectors_per_block : Z; sb_priv_data : Z }.

(** The operation tables of the code, by name. *)
Inductive inode_operations := IOPS_NULL | ext2_file_iops | ext2_dir_iops.
Inductive file_operations := FOPS_NULL | ext2_file_fops | ext2_dir_fops | tty_fops.
#[export] Instance inode_operations_eq_dec : EqDecision inode_operations.
Proof. solve_decision. Defined.
#[export] Instance file_operations_eq_dec : EqDecision file_operations.
Proof. solve_decision. Defined.

Record inode := Inode { i_ino : Z; i_size : Z; i_mode : Z; i_sb : Z; i_iops : inode_operations; i_fops : file_operations; i_priv_data : Z }.
Record dentry := Dentry { d_name_str : Z; d_name : qstr; d_inode : Z; d_parent : Z; d_first_child : Z; d_next_sibling : Z; d_sb : Z }.
Record file := File { f_dentry : Z; f_pos : Z; f_ref_count : Z; f_fops : file_operations }.

Definition SUPERBLOCK_SIZE : Z := 32.
Definition INODE_SIZE : Z := 56.
Definition DENTRY_SIZE : Z := 56.
Definition FILE_SIZE : Z := 40.

(** ** include/fs/ext2.h *)

Definition EXT2_IFMT : Z := 0xF000.
Definition EXT2_MODE_DIR : Z := 0x4000.
Definition EXT2_MODE_FILE : Z := 0x8000.
Definition EXT2_ISDIR (m : Z) : bool := Z.land m EXT2_IFMT =? EXT2_MODE_DIR.
Definition EXT2_ISREG (m : Z) : bool := Z.land m EXT2_IFMT =? EXT2_MODE_FILE.
Definition EXT2_SUPERBLOCK_OFFSET : Z := 1024.
Definition EXT2_SIGNATURE : Z := 0xEF53.
Definition EXT2_FEATURE_REQUIRED_FILETYPE : Z := 0x0002.
Definition EXT2_FEATURE_REQUIRED_SUPPORTED : Z := EXT2_FEATURE_REQUIRED_FILETYPE.
Definition EXT2_ROOT_DIR_INO : Z := 2.

Definition ext2_superblock_layout : layout :=
  [("inode_count", 4); ("block_count", 4); ("superuser_rsv_block_count", 4); ("free_block_count", 4); ("free_inode_count", 4);
   ("first_data_block", 4); ("log_block_size", 4); ("log_frag_size", 4); ("blocks_per_blockgroup", 4); ("fragments_per_blockgroup", 4);
   ("inodes_per_blockgroup", 4); ("last_mount_time", 4); ("last_written_time", 4); ("mount_count", 2); ("max_mount_count", 2);
   ("ext2_signature", 2); ("fs_state", 2); ("error_action", 2); ("version_minor", 2); ("last_check_time", 4); ("check_interval", 4);
   ("os_id", 4); ("version_major", 4); ("default_res_uid", 2); ("default_res_gid", 2);
   ("first_non_rsv_inode", 4); ("inode_struct_size", 2); ("superblock_blockgroup", 2); ("optinal_features", 4); ("required_features", 4);
   ("ro_compat_features", 4); ("fs_id", 16); ("volume_name", 16); ("last_mounted_path", 64); ("compression_algorithm", 4);
   ("prealloc_blocks", 1); ("prealloc_dir_blocks", 1); ("unused0", 2); ("journal_id", 16); ("journal_inode", 4); ("journal_dev", 4);
   ("orphan_inode_list_head", 4); ("unused1", 1024 - 236)]%string.

Definition ext2_blockgroup_desc_layout : layout :=
  [("block_bitmap_addr", 4); ("inode_bitmap_addr", 4); ("inode_table_addr", 4); ("free_blocks_count", 2); ("free_inodes_count", 2);
   ("dir_count", 2); ("rsv", 14)]%string.

Definition ext2_inode_layout : layout :=
  [("mode", 2); ("user_id", 2); ("sizel", 4); ("last_access_time", 4); ("creation_time", 4); ("last_mod_time", 4); ("deletion_time", 4);
   ("group_id", 2); ("hard_links_count", 2); ("sector_count", 4); ("flags", 4); ("os_specific_val0", 4); ("direct_ptrs", 48);
   ("singly", 4); ("doubly", 4); ("triply", 4); ("generation_num", 4); ("extended_attr_block", 4); ("sizeu", 4);
   ("fragment_block_addr", 4); ("os_specific_val1", 12)]%string.

(** The flexible array [name] follows. *)
Definition ext2_dir_entry_layout : layout :=
  [("inode", 4); ("entry_size", 2); ("name_len_lower", 1); ("type", 1)]%string.

(** [inode] and [singly] are addresses of byte buffers. *)
Record ext2_inode_info := Ext2InodeInfo { ii_inode : Z; ii_size : Z; ii_sb : Z; ii_singly : Z }.

(** [bgd_table] is not initialised by [kmalloc]: [None] until it is assigned. *)
Record ext2_fs_info := Ext2FsInfo { fi_superblock : list Z; fi_inodes_per_group : Z; fi_block_per_group : Z; fi_block_group_count : Z; fi_bgd_table : option Z }.

Definition EXT2_INODE_INFO_SIZE : Z := 48.
Definition EXT2_FS_INFO_SIZE : Z := size_of ext2_superblock_layout + 4 * 4 + 8.

Example ext2_sizes : size_of ext2_superblock_layout = 1024 ∧ size_of ext2_inode_layout = 128 ∧ size_of ext2_blockgroup_desc_layout = 32 ∧
  size_of ext2_dir_entry_layout = 8 ∧ offset_of "direct_ptrs" ext2_inode_layout = 40 ∧ EXT2_FS_INFO_SIZE = 1048.
Proof. by vm_compute. Qed.

(** ** The state *)

Record fs (H D : Type) := Fs {
  fblk : blk H D;
  sbs : gmap Z superblock;
  fs_infos : gmap Z ext2_fs_info;
  inodes : gmap Z inode;
  i_infos : gmap Z ext2_inode_info;
  dentries : gmap Z dentry;
  ofiles : gmap Z file;
  (** Byte buffers that structures keep: on-disk inodes, indirect blocks, the
      block-group table. *)
  bufs : gmap Z (list Z);
  vfs_root : Z
}.
Arguments Fs {H D} _ _ _ _ _ _ _ _ _.
Arguments fblk {H D} _.
Arguments sbs {H D} _.
Arguments fs_infos {H D} _.
Arguments inodes {H D} _.
Arguments i_infos {H D} _.
Arguments dentries {H D} _.
Arguments ofiles {H D} _.
Arguments bufs {H D} _.
Arguments vfs_root {H D} _.

Section operations.
Context {H D : Type} `{!KernelHeap H, !DiskDriver D}.
Implicit Types s : fs H D.

Definition set_fblk x s : fs H D := Fs x (sbs s) (fs_infos s) (inodes s) (i_infos s) (dentries s) (ofiles s) (bufs s) (vfs_root s).
Definition set_sbs x s : fs H D := Fs (fblk s) x (fs_infos s) (inodes s) (i_infos s) (dentries s) (ofiles s) (bufs s) (vfs_root s).
Definition set_fs_infos x s : fs H D := Fs (fblk s) (sbs s) x (inodes s) (i_infos s) (dentries s) (ofiles s) (bufs s) (vfs_root s).
Definition set_inodes x s : fs H D := Fs (fblk s) (sbs s) (fs_infos s) x (i_infos s) (dentries s) (ofiles s) (bufs s) (vfs_root s).
Definition set_i_infos x s : fs H D := Fs (fblk s) (sbs s) (fs_infos s) (inodes s) x (dentries s) (ofiles s) (bufs s) (vfs_root s).
Definition set_dentries x s : fs H D := Fs (fblk s) (sbs s) (fs_infos s) (inodes s) (i_infos s) x (ofiles s) (bufs s) (vfs_root s).
Definition set_ofiles x s : fs H D := Fs (fblk s) (sbs s) (fs_infos s) (inodes s) (i_infos s) (dentries s) x (bufs s) (vfs_root s).
Definition set_bufs x s : fs H D := Fs (fblk s) (sbs s) (fs_infos s) (inodes s) (i_infos s) (dentries s) (ofiles s) x (vfs_root s).
Definition set_vfs_root x s : fs H D := Fs (fblk s) (sbs s) (fs_infos s) (inodes s) (i_infos s) (dentries s) (ofiles s) (bufs s) x.

Definition on_blk {A} (m : M (blk H D) A) : M (fs H D) A := zoom fblk set_fblk m.

Definition fkmalloc (size : Z) : M (fs H D) Z := on_blk (bkmalloc size).
Definition fkzalloc (size : Z) : M (fs H D) Z := on_blk (bkzalloc size).
Definition fkfree (p : Z) : M (fs H D) () := on_blk (bkfree p).
Definition falloc_page : M (fs H D) Z := on_blk balloc_page.
Definition ffree_page (p : Z) : M (fs H D) () := on_blk (bfree_page p).

(** [bdev->read] with one buffer of [len] bytes. *)
Definition bread (bdev lba count len : Z) : M (fs H D) (Z * list Z) := on_blk (bdev_read read_fuel bdev lba count len).

(** Following a pointer into one of the stores. *)
Definition at_ptr {A} (store : fs H D → gmap Z A) (p : Z) : M (fs H D) A := λ s, lift (deref (store s) p) s.

Lemma at_ptr_step {A B} (store : fs H D → gmap Z A) p x (k : A → M (fs H D) B) s : store s !! p = Some x → (at_ptr store p ≫= k) s = k x s.
Proof. intros Hx. unfold mbind, M_bind, at_ptr, lift, deref. by rewrite Hx. Qed.

Lemma at_ptr_fault {A B} (store : fs H D → gmap Z A) p (k : A → M (fs H D) B) s : store s !! p = None → (at_ptr store p ≫= k) s = Fault.
Proof. intros Hx. unfold mbind, M_bind, at_ptr, lift, deref. by rewrite Hx. Qed.
End operations.
