(* ===== verification/Dcache.v ===== *)
(** * Directory entries in memory (fs/vfs.c: hashing, d_alloc, d_free, d_add)

    A dentry records a name below a parent; the children of a dentry form a
    list through [first_child] and [next_sibling].  Names are lists of bytes;
    the address of a dentry's copy is kept so that it can be released. *)

From S2P Require Import Prelude Types HeapApi StateMonad Layout Block FsTypes.

(** DJB2; [char] is signed. *)
Fixpoint hash_loop (str : list Z) (hash : Z) : Z :=
  match str with
  | [] => hash
  | c :: rest => hash_loop rest (u32 (u32 (u32 (Z.shiftl hash 5) + hash) + s8 c))
  end.
Definition vfs_hash_name (str : list Z) : Z := hash_loop str 5381.

Section dcache.
Context {H D : Type} `{!KernelHeap H, !DiskDriver D}.
Implicit Types s : fs H D.

(** The address of the new dentry, or an error pointer. *)
Definition d_alloc (parent : Z) (q : qstr) : M (fs H D) Z :=
  d ← fkzalloc DENTRY_SIZE;
  if d =? NULL then mret (ERR_PTR (- ENOMEM)) else
  puts (λ s, set_dentries (<[d := Dentry NULL (Qstr [] 0 0) NULL NULL NULL NULL NULL]> (dentries s)) s);;
  str ← fkmalloc (u32 (q_len q + 1));
  if str =? NULL then
    fkfree d;;
    puts (λ s, set_dentries (delete d (dentries s)) s);;
    mret (ERR_PTR (- ENOMEM))
  else
    bs ← lift (bytes_get (q_str q) 0 (q_len q));
    puts (λ s, set_dentries (<[d := Dentry str (Qstr bs (q_len q) (q_hash q)) NULL parent NULL NULL NULL]> (dentries s)) s);;
    mret d.

Definition d_free (d : Z) : M (fs H D) () :=
  if d =? NULL then mret () else
  x ← at_ptr dentries d;
  (if negb (d_name_str x =? NULL) then fkfree (d_name_str x) else mret ());;
  fkfree d;;
  puts (λ s, set_dentries (delete d (dentries s)) s).

Definition with_inode (x : dentry) (i : Z) : dentry := Dentry (d_name_str x) (d_name x) i (d_parent x) (d_first_child x) (d_next_sibling x) (d_sb x).
Definition with_next (x : dentry) (n : Z) : dentry := Dentry (d_name_str x) (d_name x) (d_inode x) (d_parent x) (d_first_child x) n (d_sb x).
Definition with_child (x : dentry) (c : Z) : dentry := Dentry (d_name_str x) (d_name x) (d_inode x) (d_parent x) c (d_next_sibling x) (d_sb x).
Definition with_sb (x : dentry) (b : Z) : dentry := Dentry (d_name_str x) (d_name x) (d_inode x) (d_parent x) (d_first_child x) (d_next_sibling x) b.

(** [p->... = ...] on a dentry. *)
Definition upd_dentry (d : Z) (f : dentry → dentry) : M (fs H D) () :=
  x ← at_ptr dentries d;
  puts (λ s, set_dentries (<[d := f x]> (dentries s)) s).

Definition d_add (child inode : Z) : M (fs H D) () :=
  upd_dentry child (λ x, with_inode x inode);;
  c ← at_ptr dentries child;
  if negb (d_parent c =? NULL) then
    p ← at_ptr dentries (d_parent c);
    upd_dentry child (λ x, with_next x (d_first_child p));;
    upd_dentry (d_parent c) (λ x, with_child x child)
  else mret ().
End dcache.
