(* ===== verification/Ext2File.v ===== *)
(** * Reading ext2 files (fs/ext2/ext2.c, fs/ext2/file.c)

    Block buffers, the cached indirect block and [ext2_read_file].  The
    destination buffer is the list of the bytes written to it, in order.  The
    specification is the file's content byte by byte: its block map takes a
    block number to a sector, sector 0 is a hole that reads as zeros. *)

From S2P Require Import Prelude Types FrameAlloc EarlyPmm Pmm Paging Vmm Kmalloc HeapApi StateMonad Layout Block FsTypes.

Section ext2_file.
Context {H D : Type} `{!KernelHeap H, !DiskDriver D}.
Implicit Types s : fs H D.

Definition ext2_alloc_block (block_size : Z) : M (fs H D) Z :=
  if block_size =? PAGE_SIZE then falloc_page else fkmalloc block_size.

Definition ext2_free_block (block block_size : Z) : M (fs H D) () :=
  if block_size =? PAGE_SIZE then ffree_page block else fkfree block.

(** [p[i]] for a [uint32_t* p] at [off] of a buffer. *)
Definition u32_at (buf : list Z) (off i : Z) : res Z := get_le buf (off + 4 * i) 4.

Definition ext2_init_singly (i_info : Z) : M (fs H D) Z :=
  ii ← at_ptr i_infos i_info;
  if negb (ii_singly ii =? NULL) then mret 0 else
  sb ← at_ptr sbs (ii_sb ii);
  let block_size := sb_block_size sb in
  buf ← ext2_alloc_block block_size;
  if buf =? NULL then mret (- ENOMEM) else
  inode ← at_ptr bufs (ii_inode ii);
  singly ← lift (field ext2_inode_layout "singly" inode 0);
  let lba := u32 (singly * sb_sectors_per_block sb) in
  '(status, bs) ← bread (sb_bdev sb) lba (sb_sectors_per_block sb) block_size;
  if status <? 0 then
    ext2_free_block buf block_size;;
    mret status
  else
    puts (λ s, set_bufs (<[buf := bs]> (bufs s)) s);;
    puts (λ s, set_i_infos (<[i_info := Ext2InodeInfo (ii_inode ii) (ii_size ii) (ii_sb ii) buf]> (i_infos s)) s);;
    mret 0.

(** The sector of a block of the file.  The result of [ext2_init_singly] is
    not looked at. *)
Definition read_lba (i_info : Z) (inode : list Z) (sb : superblock) (block : Z) : M (fs H D) Z :=
  if block <? 12 then
    p ← lift (u32_at inode (offset_of "direct_ptrs" ext2_inode_layout) block);
    mret (u32 (p * sb_sectors_per_block sb))
  else if block <? 12 + sb_block_size sb / 4 then
    ext2_init_singly i_info;;
    ii ← at_ptr i_infos i_info;
    tbl ← at_ptr bufs (ii_singly ii);
    p ← lift (u32_at tbl 0 (block - 12));
    mret (u32 (p * sb_sectors_per_block sb))
  else mret 0.

(** [if (lba && read(...) < 0) { status = read(...); if (status < 0) ... }]:
    the status of the last read and what the buffer then holds. *)
Definition read_block (sb : superblock) (lba : Z) : M (fs H D) (Z * list Z) :=
  if lba =? 0 then mret (0, []) else
  '(status, bs) ← bread (sb_bdev sb) lba (sb_sectors_per_block sb) (sb_block_size sb);
  if status <? 0 then bread (sb_bdev sb) lba (sb_sectors_per_block sb) (sb_block_size sb) else mret (status, bs).

(** The loop over the blocks: the status and the bytes copied so far. *)
Fixpoint read_loop (n : nat) (i i_info : Z) (inode : list Z) (sb : superblock) (start_block offset remaining : Z) (out : list Z) : M (fs H D) (Z * list Z) :=
  match n with
  | O => mret (0, out)
  | S n' =>
      let block_size := sb_block_size sb in
      let block := u32 (start_block + i) in
      lba ← read_lba i_info inode sb block;
      '(status, bs) ← read_block sb lba;
      if status <? 0 then mret (status, out) else
      let first_offset := if block =? start_block then offset mod block_size else 0 in
      let tocopy :=
        if block =? start_block then u32_min (u32 remaining) (u32 (block_size - first_offset))
        else u32_min (u32 remaining) block_size in
      data ← (if negb (lba =? 0) then lift (bytes_get bs first_offset tocopy) else mret (replicate (Z.to_nat tocopy) 0));
      read_loop n' (i + 1) i_info inode sb start_block offset (u64 (remaining - tocopy)) (out ++ data)
  end.

(** Returns the result, the bytes written to [buf] and the new [*offset]. *)
Definition ext2_read_file (f count offset : Z) : M (fs H D) (Z * list Z * Z) :=
  fl ← at_ptr ofiles f;
  d ← at_ptr dentries (f_dentry fl);
  ino ← at_ptr inodes (d_inode d);
  ii ← at_ptr i_infos (i_priv_data ino);
  sb ← at_ptr sbs (d_sb d);
  let block_size := sb_block_size sb in
  if count =? 0 then mret (0, [], offset) else
  if ii_size ii <=? offset then mret (0, [], offset) else
  let count := if ii_size ii <? u64 (offset + count) then ii_size ii - offset else count in
  let start_block := u32 (offset / block_size) in
  let end_block := u32 (u64 (offset + count + block_size - 1) / block_size) in
  let block_count := u32 (end_block - start_block) in
  block_buf ← ext2_alloc_block block_size;
  if block_buf =? NULL then mret (- ENOMEM, [], offset) else
  inode ← at_ptr bufs (ii_inode ii);
  '(status, out) ← read_loop (Z.to_nat block_count) 0 (i_priv_data ino) inode sb start_block offset count [];
  ext2_free_block block_buf block_size;;
  if status <? 0 then mret (status, out, offset) else mret (s64 count, out, u64 (offset + count)).

(** ** The content of a file *)

(** The block map: direct pointers, then the indirect block; blocks beyond
    have no pointer. *)
Definition block_ptr (inode tbl : list Z) (bs k : Z) : Z :=
  if k <? 12 then le (take 4 (drop (Z.to_nat (40 + 4 * k)) inode))
  else if k <? 12 + bs / 4 then le (take 4 (drop (Z.to_nat (4 * (k - 12))) tbl))
  else 0.

Definition block_lba (sb : superblock) (inode tbl : list Z) (k : Z) : Z :=
  u32 (block_ptr inode tbl (sb_block_size sb) k * sb_sectors_per_block sb).

Definition file_block s (sb : superblock) (inode tbl : list Z) (k : Z) : list Z :=
  if block_lba sb inode tbl k =? 0 then replicate (Z.to_nat (sb_block_size sb)) 0
  else dev_bytes read_fuel (fblk s) (sb_bdev sb) (block_lba sb inode tbl k) (sb_sectors_per_block sb).

Definition file_byte s (sb : superblock) (inode tbl : list Z) (off : Z) : Z :=
  znth 0 (file_block s sb inode tbl (off / sb_block_size sb)) (off mod sb_block_size sb).

(** A mounted volume with blocks of 1024 or 4096 bytes on a working device.
    (Blocks of 2048 bytes are big allocations, which the heap interface does
    not cover.) *)
Definition vol_ok s (sb : superblock) : Prop :=
  (sb_block_size sb = 1024 ∨ sb_block_size sb = PAGE_SIZE) ∧ 0 < sb_sectors_per_block sb < 2 ^ 32 ∧
  ∃ ss, dev_ok read_fuel (fblk s) (sb_bdev sb) ss ∧ sb_sectors_per_block sb * ss = sb_block_size sb.

(** Only the heap and the device have moved. *)
Definition only_blk s s' : Prop :=
  s' = set_fblk (fblk s') s ∧ same_devices (fblk s) (fblk s') ∧ registered (fblk s') = registered (fblk s).

Lemma only_blk_refl s : only_blk s s.
Proof. split; [by destruct s|done]. Qed.

Lemma only_blk_trans s1 s2 s3 : only_blk s1 s2 → only_blk s2 s3 → only_blk s1 s3.
Proof.
  intros (-> & Hd & Hr) (E & Hd' & Hr'). split; [by rewrite E|]. split; [by eapply same_devices_trans|congruence].
Qed.

Lemma only_blk_set b s : same_devices (fblk s) b → registered b = registered (fblk s) → only_blk s (set_fblk b s).
Proof. by split. Qed.

Lemma vol_ok_only s s' sb : only_blk s s' → vol_ok s sb → vol_ok s' sb.
Proof.
  intros (_ & Hd & _) (Hbs & Hspb & ss & Hok & Hss). split; [done|]. split; [done|]. exists ss. split; [by eapply dev_ok_same|done].
Qed.

Lemma file_block_only s s' sb inode tbl k : only_blk s s' → file_block s' sb inode tbl k = file_block s sb inode tbl k.
Proof. intros (_ & Hd & _). unfold file_block. by rewrite (dev_bytes_same _ _ _ _ _ _ Hd). Qed.

Lemma length_file_block s sb inode tbl k : vol_ok s sb → Z.of_nat (length (file_block s sb inode tbl k)) = sb_block_size sb.
Proof.
  intros (Hbs & Hspb & ss & Hok & Hss). unfold file_block. destruct (_ =? 0).
  - rewrite length_replicate. unfold PAGE_SIZE in Hbs. lia.
  - rewrite (length_dev_bytes _ _ _ ss) by (done || lia). done.
Qed.

(** ** Block buffers *)

(** The block buffer [p] is in use, besides [B] and [P]. *)
Definition live_block (bs p : Z) (h : H) (B P : gset Z) : Prop :=
  if bs =? PAGE_SIZE then p ∉ P ∧ h_live h B ({[p]} ∪ P) else p ∉ B ∧ h_live h ({[p]} ∪ B) P.

Lemma ext2_alloc_block_spec s B P bs : h_live (heap (fblk s)) B P → bs = 1024 ∨ bs = PAGE_SIZE →
  holds (ext2_alloc_block bs) s (λ p s', only_blk s s' ∧
    ((p = NULL ∧ h_live (heap (fblk s')) B P) ∨ (p ≠ NULL ∧ live_block bs p (heap (fblk s')) B P))).
Proof.
  intros Hl Hbs. unfold ext2_alloc_block, live_block. destruct (Z.eqb_spec bs PAGE_SIZE) as [->|Hne].
  - eapply zoom_holds; [by apply balloc_page_spec|]. intros p b (h & -> & Hc). split; [by apply only_blk_set|].
    destruct Hc as [?|(Hpn & Hp & Hl')]; [by left|right]. split; [done|]. split; [set_solver|done].
  - eapply zoom_holds; [apply bkmalloc_spec; [exact Hl|lia]|]. intros p b (h & -> & Hc). split; [by apply only_blk_set|].
    destruct Hc as [?|(Hpn & Hp & Hl')]; [by left|right]. split; [done|]. split; [set_solver|done].
Qed.

Lemma ext2_free_block_spec s B P bs p : live_block bs p (heap (fblk s)) B P →
  holds (ext2_free_block p bs) s (λ _ s', only_blk s s' ∧ h_live (heap (fblk s')) B P).
Proof.
  unfold live_block, ext2_free_block. destruct (bs =? PAGE_SIZE); intros [Hp Hl].
  - eapply zoom_holds; [apply bfree_page_spec; [exact Hl|set_solver]|]. intros _ b (h & -> & Hh). split; [by apply only_blk_set|]. cbn.
    by replace (({[p]} ∪ P) ∖ {[p]}) with P in Hh by set_solver.
  - eapply zoom_holds; [apply bkfree_spec; [exact Hl|set_solver]|]. intros _ b (h & -> & Hh). split; [by apply only_blk_set|]. cbn.
    by replace (({[p]} ∪ B) ∖ {[p]}) with B in Hh by set_solver.
Qed.

Lemma bread_spec s sb lba : vol_ok s sb →
  holds (bread (sb_bdev sb) lba (sb_sectors_per_block sb) (sb_block_size sb)) s (λ '(st, bs) s',
    only_blk s s' ∧ heap (fblk s') = heap (fblk s) ∧ - MAX_ERRNO <= st <= 0 ∧
    (st = 0 → bs = dev_bytes read_fuel (fblk s) (sb_bdev sb) lba (sb_sectors_per_block sb))).
Proof.
  intros (Hbs & Hspb & ss & Hok & Hss).
  destruct (bdev_read_spec read_fuel (fblk s) (sb_bdev sb) ss lba (sb_sectors_per_block sb) (sb_block_size sb)) as (st & bs & d & Hr & Hd & Hst & Hbs');
    [done|lia|lia|].
  apply holds_Ok. exists (st, bs), (set_fblk (set_disk d (fblk s)) s). split; [unfold bread, on_blk, zoom; by rewrite Hr|].
  split; [by apply only_blk_set|done].
Qed.

(** ** One block *)

(** The pointer of block [k] can be looked up without allocating: it is
    direct, beyond the map, or in the loaded indirect block [tbl]. *)
Definition tbl_ready s (i_info : Z) (tbl : list Z) (bs : Z) (k : Z) : Prop :=
  k < 12 ∨ 12 + bs / 4 <= k ∨
  ∃ ii, i_infos s !! i_info = Some ii ∧ ii_singly ii ≠ NULL ∧ bufs s !! ii_singly ii = Some tbl ∧ bs <= Z.of_nat (length tbl).

Lemma u32_at_Ok buf off i : 0 <= off + 4 * i → off + 4 * i + 4 <= Z.of_nat (length buf) →
  u32_at buf off i = Ok (le (take 4 (drop (Z.to_nat (off + 4 * i)) buf))).
Proof. intros H0 H1. unfold u32_at, get_le. by rewrite bytes_get_Ok by lia. Qed.

Lemma init_singly_loaded s i_info ii : i_infos s !! i_info = Some ii → ii_singly ii ≠ NULL → ext2_init_singly i_info s = Ok (0, s).
Proof. intros Hii Hn. unfold ext2_init_singly. rewrite (at_ptr_step _ _ _ _ _ Hii), (proj2 (Z.eqb_neq _ _) Hn). done. Qed.

Lemma read_lba_spec s i_info inode tbl sb k : 128 <= Z.of_nat (length inode) → 0 <= k → 0 < sb_block_size sb →
  tbl_ready s i_info tbl (sb_block_size sb) k → read_lba i_info inode sb k s = Ok (block_lba sb inode tbl k, s).
Proof.
  intros Hin Hk Hbs Hr. unfold read_lba, block_lba, block_ptr.
  destruct (Z.ltb_spec k 12) as [Hk12|Hk12].
  - erewrite lift_step by (apply u32_at_Ok; layout_eval; lia). layout_eval. done.
  - destruct (Z.ltb_spec k (12 + sb_block_size sb / 4)) as [Hkm|Hkm]; [|done].
    destruct Hr as [?|[?|(ii & Hii & Hn & Htbl & Hlen)]]; [lia|lia|].
    rewrite (bind_step _ _ _ _ _ (init_singly_loaded s i_info ii Hii Hn)).
    rewrite (at_ptr_step _ _ _ _ _ Hii), (at_ptr_step _ _ _ _ _ Htbl).
    erewrite lift_step by (apply u32_at_Ok; [lia|zlia]). by rewrite Z.add_0_l.
Qed.

Lemma read_block_spec s sb lba : vol_ok s sb →
  holds (read_block sb lba) s (λ '(st, bs) s', only_blk s s' ∧ heap (fblk s') = heap (fblk s) ∧ - MAX_ERRNO <= st <= 0 ∧
    (st = 0 → lba ≠ 0 → bs = dev_bytes read_fuel (fblk s) (sb_bdev sb) lba (sb_sectors_per_block sb))).
Proof.
  intros Hv. unfold read_block. destruct (Z.eqb_spec lba 0) as [->|Hl].
  { apply holds_ret. split; [apply only_blk_refl|]. split; [done|]. split; [unfold MAX_ERRNO; lia|done]. }
  eapply holds_bind; [by apply bread_spec|]. intros [st bs] s1 (Ho & Hh & Hst & Hbs).
  destruct (Z.ltb_spec st 0) as [Hn|Hz].
  - eapply holds_mono; [apply bread_spec; by eapply vol_ok_only|]. intros [st2 bs2] s2 (Ho2 & Hh2 & Hst2 & Hbs2).
    split; [by eapply only_blk_trans|]. split; [congruence|]. split; [done|]. intros H0 _. rewrite (Hbs2 H0).
    by apply dev_bytes_same, Ho.
  - apply holds_ret. split; [done|]. split; [done|]. split; [done|]. intros H0 _. by apply Hbs.
Qed.

(** A piece of a block, byte by byte. *)
Lemma take_drop_seqZ (l : list Z) o n : 0 <= o → 0 <= n → o + n <= Z.of_nat (length l) →
  take (Z.to_nat n) (drop (Z.to_nat o) l) = (λ j, znth 0 l j) <$> seqZ o n.
Proof.
  intros Ho Hn Hl. apply list_eq. intros i. rewrite list_lookup_fmap.
  destruct (decide (Z.of_nat i < n)) as [Hi|Hi].
  - rewrite lookup_take, decide_True by lia. rewrite lookup_drop, lookup_seqZ_lt by lia. cbn. unfold znth.
    destruct (lookup_lt_is_Some_2 l (Z.to_nat o + i)) as [x Hx]; [lia|]. rewrite Hx.
    replace (Z.to_nat (o + Z.of_nat i)) with (Z.to_nat o + i)%nat by lia. by rewrite Hx.
  - rewrite lookup_take, decide_False by lia. by rewrite lookup_seqZ_ge by lia.
Qed.

Lemma file_piece s sb inode tbl pos n : vol_ok s sb → 0 <= pos → 0 <= n → pos mod sb_block_size sb + n <= sb_block_size sb →
  take (Z.to_nat n) (drop (Z.to_nat (pos mod sb_block_size sb)) (file_block s sb inode tbl (pos / sb_block_size sb)))
  = file_byte s sb inode tbl <$> seqZ pos n.
Proof.
  intros Hv Hp Hn Hb. pose proof (length_file_block s sb inode tbl (pos / sb_block_size sb) Hv) as Hlen.
  assert (0 < sb_block_size sb) as Hbs by (destruct Hv as ([?|?] & _); unfold PAGE_SIZE in *; lia).
  pose proof (Z.mod_pos_bound pos _ Hbs) as Hm.
  rewrite take_drop_seqZ by lia. apply list_eq. intros i. rewrite !list_lookup_fmap.
  destruct (decide (Z.of_nat i < n)) as [Hi|Hi]; [|by rewrite !lookup_seqZ_ge by lia].
  rewrite !lookup_seqZ_lt by lia. cbn. f_equal. unfold file_byte.
  assert ((pos + Z.of_nat i) / sb_block_size sb = pos / sb_block_size sb ∧
    (pos + Z.of_nat i) mod sb_block_size sb = pos mod sb_block_size sb + Z.of_nat i) as [-> ->]; [|done].
  pose proof (Z.div_mod pos (sb_block_size sb) ltac:(lia)) as Hdm.
  split; symmetry.
  - apply Z.div_unique with (r := pos mod sb_block_size sb + Z.of_nat i); lia.
  - apply Z.mod_unique with (q := pos / sb_block_size sb); lia.
Qed.

(** ** The loop *)

(** The file position at the start of iteration [i] of a read of
    [[offset, fin)], and the number of iterations. *)
Definition pos_at (bs offset fin i : Z) : Z := Z.min fin (if i =? 0 then offset else (offset / bs + i) * bs).
Definition blocks_in (bs offset fin : Z) : Z := (fin + bs - 1) / bs - offset / bs.

Lemma pos_step bs offset fin i : bs = 1024 ∨ bs = PAGE_SIZE → 0 <= offset < fin → 0 <= i < blocks_in bs offset fin →
  let pos := pos_at bs offset fin i in
  offset <= pos < fin ∧ pos / bs = offset / bs + i ∧ pos mod bs = (if i =? 0 then offset mod bs else 0) ∧
  pos_at bs offset fin (i + 1) = pos + Z.min (fin - pos) (bs - pos mod bs).
Proof.
  intros Hbs Ho Hi. unfold pos_at, blocks_in in *. cbv zeta.
  replace (i + 1 =? 0) with false by (symmetry; apply Z.eqb_neq; lia).
  destruct (Z.eqb_spec i 0) as [->|Hi0];
    destruct Hbs as [->| ->]; unfold PAGE_SIZE in *; cbn [Z.eqb]; zlia.
Qed.

Lemma pos_end bs offset fin : bs = 1024 ∨ bs = PAGE_SIZE → 0 <= offset < fin → pos_at bs offset fin (blocks_in bs offset fin) = fin.
Proof.
  intros Hbs Ho. unfold pos_at, blocks_in. destruct (Z.eqb_spec ((fin + bs - 1) / bs - offset / bs) 0) as [?|_];
    destruct Hbs as [->| ->]; unfold PAGE_SIZE in *; zlia.
Qed.

Lemma seqZ_extend (f : Z → Z) a n m : 0 <= n → 0 <= m → (f <$> seqZ a n) ++ (f <$> seqZ (a + n) m) = f <$> seqZ a (n + m).
Proof. intros. by rewrite seqZ_app, fmap_app by lia. Qed.

Section loop.
Context (s0 : fs H D) (sb : superblock) (inode tbl : list Z) (i_info offset fin : Z).
Context (Hvol : vol_ok s0 sb) (Hino : 128 <= Z.of_nat (length inode)) (Hoff : 0 <= offset < fin) (Hfin : fin < 2 ^ 42) (Hcnt : fin - offset < 2 ^ 32).
Context (Hready : ∀ k, offset / sb_block_size sb <= k < offset / sb_block_size sb + blocks_in (sb_block_size sb) offset fin → tbl_ready s0 i_info tbl (sb_block_size sb) k).
Let bs := sb_block_size sb.
Let start := offset / bs.
Let content := file_byte s0 sb inode tbl.

Definition loop_post (st : Z) (out : list Z) s' : Prop :=
  only_blk s0 s' ∧ heap (fblk s') = heap (fblk s0) ∧ - MAX_ERRNO <= st <= 0 ∧
  (∃ k, 0 <= k <= fin - offset ∧ out = content <$> seqZ offset k) ∧ (st = 0 → out = content <$> seqZ offset (fin - offset)).

Lemma read_loop_spec n i s out : 0 <= i → i + Z.of_nat n = blocks_in bs offset fin → only_blk s0 s → heap (fblk s) = heap (fblk s0) →
  out = content <$> seqZ offset (pos_at bs offset fin i - offset) →
  holds (read_loop n i i_info inode sb start offset (fin - pos_at bs offset fin i) out) s (λ '(st, out') s', loop_post st out' s').
Proof.
  assert (bs = 1024 ∨ bs = PAGE_SIZE) as Hbs by apply Hvol. fold bs in Hready.
  revert i s out. induction n as [|n IH]; intros i s out Hi Hin Hs Hheap Hout; cbn [read_loop].
  { replace i with (blocks_in bs offset fin) in Hout by lia. rewrite pos_end in Hout by done.
    split; [done|]. split; [done|]. split; [unfold MAX_ERRNO; lia|]. split; [|done]. exists (fin - offset). split; [lia|done]. }
  destruct (pos_step bs offset fin i Hbs Hoff ltac:(lia)) as (Hpos & Hdiv & Hmod & Hnext).
  set (pos := pos_at bs offset fin i) in *. fold bs start.
  assert (0 <= start + i < 2 ^ 32) as Hblk by (unfold start; destruct Hbs as [E|E]; rewrite E in *; unfold PAGE_SIZE in *; clear -Hdiv Hpos Hfin Hi Hoff; zlia).
  rewrite (u32_small (start + i)) by done.
  assert (tbl_ready s i_info tbl (sb_block_size sb) (start + i)) as Hr.
  { destruct Hs as (-> & _). apply Hready. fold bs. fold start. lia. }
  unfold holds. rewrite (bind_step _ _ _ _ _ (read_lba_spec s i_info inode tbl sb (start + i) Hino ltac:(lia) ltac:(fold bs; unfold PAGE_SIZE in Hbs; lia) Hr)).
  set (lba := block_lba sb inode tbl (start + i)).
  eapply holds_bind; [apply read_block_spec; by eapply vol_ok_only|]. intros [st blk] s1 (Ho1 & Hh1 & Hst & Hblk1).
  destruct (Z.ltb_spec st 0) as [Hneg|Hnn].
  { apply holds_ret. split; [by eapply only_blk_trans|]. split; [congruence|]. split; [done|]. split; [|lia].
    exists (pos - offset). split; [lia|done]. }
  assert ((start + i =? start) = (i =? 0)) as -> by (destruct (Z.eqb_spec (start + i) start), (Z.eqb_spec i 0); lia).
  assert ((if i =? 0 then offset mod bs else 0) = pos mod bs) as -> by done.
  assert (0 <= pos mod bs < bs) as Hpm by (apply Z.mod_pos_bound; unfold PAGE_SIZE in Hbs; lia).
  assert (0 < bs < 2 ^ 32) as Hbs' by (unfold PAGE_SIZE in Hbs; lia).
  set (tocopy := Z.min (fin - pos) (bs - pos mod bs)) in *.
  assert (0 < tocopy <= fin - pos ∧ tocopy <= bs - pos mod bs) as [Htc1 Htc2] by (unfold tocopy; lia).
  assert ((if i =? 0 then u32_min (u32 (fin - pos)) (u32 (bs - pos mod bs)) else u32_min (u32 (fin - pos)) bs) = tocopy) as ->.
  { rewrite !u32_small by lia. destruct (i =? 0); unfold u32_min, tocopy;
      match goal with |- context [?a <? ?b] => destruct (Z.ltb_spec a b) end; lia. }
  assert (∀ k, ((if negb (lba =? 0) then lift (bytes_get blk (pos mod bs) tocopy) else mret (replicate (Z.to_nat tocopy) 0)) ≫= k) s1
    = k (content <$> seqZ pos tocopy) s1 :> res (Z * list Z * fs H D)) as Hdata.
  { intros k. unfold content. rewrite <- file_piece by (done || (fold bs; lia)). fold bs. rewrite Hdiv. fold start.
    unfold file_block. fold lba. destruct (Z.eqb_spec lba 0) as [E|E]; cbn [negb].
    - rewrite ret_step, drop_replicate, take_replicate. fold bs.
      by replace (Z.to_nat tocopy `min` (Z.to_nat bs - Z.to_nat (pos mod bs)))%nat with (Z.to_nat tocopy) by lia.
    - assert (blk = dev_bytes read_fuel (fblk s0) (sb_bdev sb) lba (sb_sectors_per_block sb)) as ->.
      { rewrite Hblk1 by (done || lia). by apply dev_bytes_same, Hs. }
      apply lift_step, bytes_get_Ok; [lia|lia|]. destruct Hvol as (_ & Hspb & ss & Hok & Hss).
      rewrite (length_dev_bytes _ _ _ ss) by (done || lia). rewrite Hss. fold bs. lia. }
  unfold holds. rewrite Hdata, u64_small by lia.
  replace (fin - pos - tocopy) with (fin - pos_at bs offset fin (i + 1)) by lia.
  apply IH; [lia|lia|by eapply only_blk_trans|congruence|]. rewrite Hout.
  replace pos with (offset + (pos - offset)) at 2 by lia. rewrite seqZ_extend by lia. do 2 f_equal. lia.
Qed.
End loop.

(** ** Reading a file *)

(** The structures an open file leads to. *)
Definition file_at s (f : Z) (sb : superblock) (i_info : Z) (ii : ext2_inode_info) (inode : list Z) : Prop :=
  ∃ fl d ino, ofiles s !! f = Some fl ∧ dentries s !! f_dentry fl = Some d ∧ inodes s !! d_inode d = Some ino ∧
    i_priv_data ino = i_info ∧ i_infos s !! i_info = Some ii ∧ sbs s !! d_sb d = Some sb ∧
    bufs s !! ii_inode ii = Some inode ∧ 128 <= Z.of_nat (length inode).

(** The bytes of a read of [count] bytes at [offset]. *)
Definition readable (ii : ext2_inode_info) (count offset : Z) : Z := Z.max 0 (Z.min count (ii_size ii - offset)).

(** The result of a read, with an invariant [I] of the heap: an error with some
    prefix of the bytes copied and the offset unchanged, or exactly the bytes of
    the file and the offset advanced past them. *)
Definition read_result s (I : H → Prop) sb inode tbl (n offset : Z) (ret : Z * list Z * Z) s' : Prop :=
  let '(r, out, offset') := ret in
  only_blk s s' ∧ I (heap (fblk s')) ∧
  ((- MAX_ERRNO <= r < 0 ∧ offset' = offset ∧ ∃ k, 0 <= k <= n ∧ out = file_byte s sb inode tbl <$> seqZ offset k) ∨
   (r = n ∧ offset' = offset + n ∧ out = file_byte s sb inode tbl <$> seqZ offset n)).

Definition read_post s (B P : gset Z) := read_result s (λ h, h_live h B P).

Lemma live_block_heap bs p h h' B P : h = h' → live_block bs p h B P → live_block bs p h' B P.
Proof. by intros ->. Qed.

(** Block buffers: [I] survives taking a buffer ([J p] holds while [p] is the
    buffer) and giving it back. *)
Definition buffers (bs : Z) (I : H → Prop) (J : Z → H → Prop) : Prop :=
  (∀ s, I (heap (fblk s)) → holds (ext2_alloc_block bs) s (λ p s', only_blk s s' ∧ ((p = NULL ∧ I (heap (fblk s'))) ∨ (p ≠ NULL ∧ J p (heap (fblk s')))))) ∧
  (∀ s p, J p (heap (fblk s)) → holds (ext2_free_block p bs) s (λ _ s', only_blk s s' ∧ I (heap (fblk s')))).

Lemma ext2_read_file_inv s (I : H → Prop) (J : Z → H → Prop) f sb i_info ii inode tbl count offset :
  I (heap (fblk s)) → buffers (sb_block_size sb) I J → file_at s f sb i_info ii inode → vol_ok s sb →
  0 <= offset → 0 <= count < 2 ^ 32 → 0 <= ii_size ii < 2 ^ 41 →
  (∀ k, offset <= (k + 1) * sb_block_size sb - 1 → k * sb_block_size sb < offset + readable ii count offset → tbl_ready s i_info tbl (sb_block_size sb) k) →
  holds (ext2_read_file f count offset) s (read_result s I sb inode tbl (readable ii count offset) offset).
Proof.
  intros Hl [Hal Hfr] (fl & d & ino & Hf & Hd & Hi & <- & Hii & Hsb & Hino & Hlen) Hv Ho Hc Hsz Hready.
  unfold ext2_read_file, holds.
  rewrite (at_ptr_step _ _ _ _ _ Hf), (at_ptr_step _ _ _ _ _ Hd), (at_ptr_step _ _ _ _ _ Hi), (at_ptr_step _ _ _ _ _ Hii), (at_ptr_step _ _ _ _ _ Hsb).
  assert (readable ii count offset = 0 → returns (Ok (0, [], offset, s)) (λ '(x, s'), read_result s I sb inode tbl (readable ii count offset) offset x s')) as Hnone.
  { intros ->. split; [apply only_blk_refl|]. split; [done|]. right. split; [done|]. split; [lia|done]. }
  destruct (Z.eqb_spec count 0) as [->|Hc0]; [apply Hnone; unfold readable; lia|].
  destruct (Z.leb_spec (ii_size ii) offset) as [Hge|Hlt]; [apply Hnone; unfold readable; lia|]. clear Hnone.
  rewrite u64_small by lia.
  assert ((if ii_size ii <? offset + count then ii_size ii - offset else count) = readable ii count offset) as ->
    by (unfold readable; destruct (Z.ltb_spec (ii_size ii) (offset + count)); lia).
  assert (0 < readable ii count offset <= count ∧ offset + readable ii count offset <= ii_size ii) as [Hn Hnf] by (unfold readable; lia).
  set (n := readable ii count offset) in *. clearbody n. set (bs := sb_block_size sb) in *.
  assert (bs = 1024 ∨ bs = PAGE_SIZE) as Hbs by apply Hv.
  assert (0 < bs <= 4096) as Hbs' by (unfold PAGE_SIZE in Hbs; lia).
  assert (0 <= offset / bs < 2 ^ 32 ∧ 0 <= (offset + n + bs - 1) / bs < 2 ^ 32 ∧ 0 <= blocks_in bs offset (offset + n) < 2 ^ 32) as (Hsb1 & Heb & Hbc).
  { unfold blocks_in. destruct Hbs as [E|E]; rewrite E in *; unfold PAGE_SIZE in *; clear -Ho Hn Hnf Hsz; zlia. }
  rewrite (u64_small (offset + n + bs - 1)) by lia. rewrite (u32_small (offset / bs)), (u32_small (_ / bs)) by done.
  fold (blocks_in bs offset (offset + n)). rewrite u32_small by done.
  eapply holds_bind; [by apply Hal|]. intros bb s1 (Ho1 & [(-> & Hl1)|(Hbn & Hl1)]).
  { split; [done|]. split; [done|]. left. split; [unfold ENOMEM, MAX_ERRNO; lia|]. split; [done|]. exists 0. split; [lia|done]. }
  rewrite (proj2 (Z.eqb_neq bb NULL)) by done. unfold holds.
  rewrite (at_ptr_step bufs (ii_inode ii) inode) by (destruct Ho1 as (-> & _); done).
  assert (∀ k, offset / bs <= k < offset / bs + blocks_in bs offset (offset + n) → tbl_ready s1 (i_priv_data ino) tbl bs k) as Hready1.
  { intros k Hk. destruct Ho1 as (-> & _). apply Hready; unfold blocks_in in Hk; clear -Hk Hbs Ho; destruct Hbs as [E|E]; rewrite E in *; unfold PAGE_SIZE in *; zlia. }
  assert (pos_at bs offset (offset + n) 0 = offset) as Hp0 by (unfold pos_at; cbn [Z.eqb]; lia).
  pose proof (read_loop_spec s1 sb inode tbl (i_priv_data ino) offset (offset + n) (vol_ok_only _ _ _ Ho1 Hv) Hlen ltac:(lia) ltac:(lia) ltac:(lia)
    Hready1 (Z.to_nat (blocks_in bs offset (offset + n))) 0 s1 []) as Hloop.
  fold bs in Hloop. rewrite Hp0, Z.sub_diag in Hloop. replace (offset + n - offset) with n in Hloop by lia.
  eapply holds_bind; [apply Hloop; [lia|lia|apply only_blk_refl|done|done]|]. clear Hloop.
  intros [st out] s2 (Ho2 & Hh2 & Hst & (k & Hk & Hout) & Hdone). replace (offset + n - offset) with n in * by lia.
  assert (file_byte s1 sb inode tbl <$> seqZ offset k = file_byte s sb inode tbl <$> seqZ offset k ∧
    file_byte s1 sb inode tbl <$> seqZ offset n = file_byte s sb inode tbl <$> seqZ offset n) as [E1 E2].
  { split; apply list_fmap_ext; intros ? x _; unfold file_byte; by rewrite (file_block_only s s1). }
  eapply holds_bind; [apply (Hfr s2 bb); by rewrite Hh2|].
  intros _ s3 (Ho3 & Hl3).
  assert (only_blk s s3) as Hall by (eapply only_blk_trans; [exact Ho1|by eapply only_blk_trans]).
  destruct (Z.ltb_spec st 0) as [Hneg|Hnn].
  - split; [done|]. split; [done|]. left. split; [lia|]. split; [done|]. exists k. by rewrite <- E1.
  - split; [done|]. split; [done|]. right. rewrite s64_small, u64_small by lia. split; [done|]. split; [done|].
    rewrite <- E2. apply Hdone. lia.
Qed.


(** ** Loading the indirect block *)

(** Either an error, with nothing kept, or the block is in a buffer of its
    own and [tbl_ready] holds for the blocks it maps. *)
Lemma ext2_init_singly_spec s B P i_info ii sb inode : h_live (heap (fblk s)) B P → i_infos s !! i_info = Some ii → ii_singly ii = NULL →
  sbs s !! ii_sb ii = Some sb → vol_ok s sb → bufs s !! ii_inode ii = Some inode → 128 <= Z.of_nat (length inode) →
  holds (ext2_init_singly i_info) s (λ r s',
    (r < 0 ∧ only_blk s s' ∧ h_live (heap (fblk s')) B P) ∨
    (r = 0 ∧ ∃ buf ptr, field ext2_inode_layout "singly" inode 0 = Ok ptr ∧ live_block (sb_block_size sb) buf (heap (fblk s')) B P ∧
      ∀ k, tbl_ready s' i_info (dev_bytes read_fuel (fblk s) (sb_bdev sb) (u32 (ptr * sb_sectors_per_block sb)) (sb_sectors_per_block sb)) (sb_block_size sb) k)).
Proof.
  intros Hl Hii Hn Hsb Hv Hino Hlen. unfold ext2_init_singly, holds.
  rewrite (at_ptr_step _ _ _ _ _ Hii), Hn, Z.eqb_refl. cbn [negb]. rewrite (at_ptr_step _ _ _ _ _ Hsb).
  eapply holds_bind; [apply ext2_alloc_block_spec; [done|apply Hv]|]. intros buf s1 (Ho1 & [(-> & Hl1)|(Hbn & Hl1)]).
  { left. split; [unfold ENOMEM; lia|done]. }
  rewrite (proj2 (Z.eqb_neq buf NULL)) by done. unfold holds.
  rewrite (at_ptr_step bufs (ii_inode ii) inode) by (destruct Ho1 as (-> & _); done).
  destruct (field_Ok ext2_inode_layout "singly" inode 0) as [ptr Hptr]; [layout_eval; lia..|].
  rewrite (lift_step _ _ _ _ Hptr).
  eapply holds_bind; [apply bread_spec; by eapply vol_ok_only|]. intros [st bs] s2 (Ho2 & Hh2 & Hst & Hbs).
  destruct (Z.ltb_spec st 0) as [Hneg|Hnn].
  { eapply holds_bind; [apply (ext2_free_block_spec s2 B P (sb_block_size sb) buf); eapply live_block_heap; [symmetry; exact Hh2|exact Hl1]|].
    intros _ s3 (Ho3 & Hl3). left. split; [done|]. split; [|done]. eapply only_blk_trans; [exact Ho1|by eapply only_blk_trans]. }
  unfold holds. rewrite !puts_step. right. split; [done|]. exists buf, ptr. split; [done|].
  cbn [fblk i_infos bufs set_bufs set_i_infos]. split; [by rewrite Hh2|]. intros k. right. right.
  eexists. cbn [fblk i_infos bufs set_bufs set_i_infos]. split; [apply lookup_insert_eq|]. cbn [ii_singly]. split; [done|].
  split; [rewrite lookup_insert_eq; f_equal; rewrite (Hbs ltac:(lia)); apply dev_bytes_same, Ho1|].
  destruct Hv as (_ & Hspb & ss & Hok & Hss). rewrite (length_dev_bytes _ _ _ ss) by (done || lia). lia.
Qed.

(** When loading fails, the read goes on through a null pointer. *)
Lemma read_unchecked_singly s i_info ii inode sb block r s' : 12 <= block < 12 + sb_block_size sb / 4 →
  ext2_init_singly i_info s = Ok (r, s') → i_infos s' !! i_info = Some ii → ii_singly ii = NULL → bufs s' !! NULL = None →
  read_lba i_info inode sb block s = Fault.
Proof.
  intros Hb Hr Hii Hn Hnull. unfold read_lba. rewrite (proj2 (Z.ltb_ge block 12)), (proj2 (Z.ltb_lt block _)) by lia.
  rewrite (bind_step _ _ _ _ _ Hr), (at_ptr_step _ _ _ _ _ Hii), Hn. by apply at_ptr_fault.
Qed.

(** The remaining length is truncated to 32 bits: a read of 4 GiB copies
    nothing, and still reports all of it as read. *)
Lemma read_4g_copies_nothing n i i_info inode sb start offset s st out' s' :
  read_loop n i i_info inode sb start offset (2 ^ 32) [] s = Ok ((st, out'), s') → 0 < sb_block_size sb → out' = [].
Proof.
  intros Hrun Hbs. revert i s Hrun. induction n as [|n IH]; intros i s Hrun; [by injection Hrun as _ <- _|]. cbn [read_loop] in Hrun.
  rewrite bind_run in Hrun. destruct (read_lba i_info inode sb _ s) as [[lba s1]| | |]; try done. rewrite bind_Ok, bind_run in Hrun.
  destruct (read_block sb lba s1) as [[[st1 bs] s2]| | |]; try done. rewrite bind_Ok in Hrun.
  destruct (st1 <? 0); [by injection Hrun as _ <- _|]. change (u32 (2 ^ 32)) with 0 in Hrun.
  assert (∀ x, 0 <= x → u32_min 0 x = 0) as Hmin by (intros x Hx; unfold u32_min; destruct (Z.ltb_spec 0 x); lia).
  rewrite (Hmin (sb_block_size sb)), Hmin in Hrun by (lia || apply u32_range).
  assert (∀ b : bool, (if b then 0 else 0) = 0) as Hif by by intros []. rewrite Hif in Hrun.
  change (u64 (2 ^ 32 - 0)) with (2 ^ 32) in Hrun. cbn [app] in Hrun. revert Hrun.
  destruct (lba =? 0); cbn [negb].
  - rewrite ret_step. apply IH.
  - unfold bytes_get. destruct (_ && _); [|done]. rewrite (lift_step _ _ _ _ eq_refl). apply IH.
Qed.
End ext2_file.

(** ** A file on a disk in memory *)

(** A file of 1200 bytes: its first block is block 5 of the volume (sectors 10
    and 11), its second is a hole. *)
Definition demo_inode : list Z := le_enc 2 0x8000 ++ replicate 2 0 ++ le_enc 4 1200 ++ replicate 32 0 ++ le_enc 4 5 ++ replicate 84 0.
Definition demo_sectors : gmap Z (list Z) := {[ 10 := replicate 512 65; 11 := replicate 512 66 ]}.
Definition demo_sb : superblock := Superblock 0x100 0 1024 2 0.
Definition demo_ii : ext2_inode_info := Ext2InodeInfo 0x500 1200 0x200 0.
Definition demo_fs : fs kheap (gmap Z (list Z)) :=
  Fs (Blk demo_heap demo_sectors {[ 0x100 := BlockDev [115; 100; 97] 512 4096 0 READ_DRIVER ]} ∅ [0x100])
    {[ 0x200 := demo_sb ]} ∅ {[ 0x300 := Inode 12 1200 S_IFREG 0x200 ext2_file_iops ext2_file_fops 0x400 ]} {[ 0x400 := demo_ii ]}
    {[ 0x600 := Dentry 0x700 (Qstr [97] 1 0) 0x300 0 0 0 0x200 ]} {[ 0x800 := File 0x600 0 1 ext2_file_fops ]} {[ 0x500 := demo_inode ]} 0.

Lemma demo_heap_live : h_live demo_heap ∅ ∅.
Proof. destruct demo_heap_ok as (pools & fl & Hinv). exists pools, fl. split; [exact Hinv|set_solver]. Qed.

Lemma demo_vol : vol_ok demo_fs demo_sb.
Proof. split; [by left|]. split; [cbn; lia|]. exists 512. by split. Qed.

Lemma demo_file_at : file_at demo_fs 0x800 demo_sb 0x400 demo_ii demo_inode.
Proof. do 3 eexists. split_and!; try reflexivity. Qed.

