(* ===== verification/Ext2Dir.v ===== *)
(** * ext2 inodes, directories and mounting (fs/ext2/inode.c, dir.c, super.c, ext2.c) *)

From S2P Require Import Prelude Types FrameAlloc EarlyPmm Pmm Paging Vmm Kmalloc HeapApi StateMonad Layout Block FsTypes Dcache Ext2File.

Section ext2_dir.
Context {H D : Type} `{!KernelHeap H, !DiskDriver D}.
Implicit Types s : fs H D.

(** ** Inodes *)

Definition ext2_inode_data_size (inode : list Z) : res Z :=
  sizel ← field ext2_inode_layout "sizel" inode 0;
  sizeu ← field ext2_inode_layout "sizeu" inode 0;
  Ok (Z.lor sizel (Z.shiftl sizeu 32)).

Definition unsupported_msg : string := "ext2_lookup: unsupported type.
".

(** [if (p) kfree(p)]. *)
Definition kfree_opt (p : Z) : M (fs H D) () := if p =? NULL then mret () else fkfree p.

(** The label [out_err] of [ext2_read_inode]. *)
Definition read_inode_err (res block_buf block_size ext2_inode inode i_info : Z) : M (fs H D) Z :=
  (if block_buf =? NULL then mret () else ext2_free_block block_buf block_size);;
  kfree_opt ext2_inode;;
  kfree_opt inode;;
  kfree_opt i_info;;
  mret (ERR_PTR res).

(** Where an inode is: the block of the volume and the byte offset in it. *)
Definition inode_location (info : ext2_fs_info) (bgd : list Z) (sb : superblock) (ino : Z) : res (Z * Z) :=
  inode_size ← field ext2_superblock_layout "inode_struct_size" (fi_superblock info) 0;
  let block_group := u32 (ino - 1) / fi_inodes_per_group info in
  let index := u32 (ino - 1) mod fi_inodes_per_group info in
  if inode_size =? 0 then Fault else
  let inodes_per_block := sb_block_size sb / inode_size in
  if inodes_per_block =? 0 then Fault else
  let block_offset := index / inodes_per_block in
  let index_in_block := index mod inodes_per_block in
  inode_table_base ← field ext2_blockgroup_desc_layout "inode_table_addr" bgd (block_group * size_of ext2_blockgroup_desc_layout);
  Ok (u32 (inode_table_base + block_offset), u32 (inode_size * index_in_block)).

Definition ext2_read_inode (bdev sb_ptr ino : Z) : M (fs H D) Z :=
  sb ← at_ptr sbs sb_ptr;
  info ← at_ptr fs_infos (sb_priv_data sb);
  if fi_inodes_per_group info =? 0 then lift Fault else
  let block_group := u32 (ino - 1) / fi_inodes_per_group info in
  if fi_block_group_count info <=? block_group then mret (ERR_PTR (- EINVAL)) else
  bgd_ptr ← lift (match fi_bgd_table info with Some p => Ok p | None => Fault end);
  bgd ← at_ptr bufs bgd_ptr;
  '(target_block, off) ← lift (inode_location info bgd sb ino);
  let lba := u32 (target_block * sb_sectors_per_block sb) in
  block_buf ← ext2_alloc_block (sb_block_size sb);
  ext2_inode ← fkmalloc (size_of ext2_inode_layout);
  inode ← fkmalloc INODE_SIZE;
  i_info ← fkzalloc EXT2_INODE_INFO_SIZE;
  let out_err res := read_inode_err res block_buf (sb_block_size sb) ext2_inode inode i_info in
  if (block_buf =? NULL) || (ext2_inode =? NULL) || (inode =? NULL) || (i_info =? NULL) then out_err (- ENOMEM) else
  '(res, bs) ← bread bdev lba (sb_sectors_per_block sb) (sb_block_size sb);
  if res <? 0 then out_err res else
  bytes ← lift (bytes_get bs off (size_of ext2_inode_layout));
  size ← lift (ext2_inode_data_size bytes);
  mode ← lift (field ext2_inode_layout "mode" bytes 0);
  puts (λ s, set_bufs (<[ext2_inode := bytes]> (bufs s)) s);;
  puts (λ s, set_i_infos (<[i_info := Ext2InodeInfo ext2_inode size sb_ptr NULL]> (i_infos s)) s);;
  let '(iops, fops) :=
    if EXT2_ISDIR mode then (ext2_dir_iops, ext2_dir_fops)
    else if EXT2_ISREG mode then (ext2_file_iops, ext2_file_fops) else (IOPS_NULL, FOPS_NULL) in
  imode ← lift (if EXT2_ISREG mode then Ok S_IFREG else if EXT2_ISDIR mode then Ok S_IFDIR else Panic unsupported_msg);
  puts (λ s, set_inodes (<[inode := Inode ino size imode sb_ptr iops fops i_info]> (inodes s)) s);;
  ext2_free_block block_buf (sb_block_size sb);;
  mret inode.

(** ** Directories *)

(** [memcmp(buf + i, name + j, n) == 0]: it stops at the first difference. *)
Fixpoint mem_eq (n : nat) (buf : list Z) (i : Z) (name : list Z) (j : Z) : res bool :=
  match n with
  | O => Ok true
  | S n' =>
      x ← arr_get buf i;
      y ← arr_get name j;
      if x =? y then mem_eq n' buf (i + 1) name (j + 1) else Ok false
  end.

(** The offset of the entry found, if any; [-EUCLEAN] for an entry of size 0.
    [fuel] bounds the number of entries, which is at most the block size. *)
Fixpoint search_loop (fuel : nat) (buf : list Z) (block_size ptr : Z) (name : list Z) (name_len : Z) : res (Z + option Z) :=
  match fuel with
  | O => OutOfFuel
  | S fuel' =>
      if ptr <? block_size then
        entry_size ← field ext2_dir_entry_layout "entry_size" buf ptr;
        if entry_size =? 0 then Ok (inl (- EUCLEAN)) else
        inode ← field ext2_dir_entry_layout "inode" buf ptr;
        if inode =? 0 then search_loop fuel' buf block_size (ptr + entry_size) name name_len else
        len ← field ext2_dir_entry_layout "name_len_lower" buf ptr;
        if negb (len =? name_len) then search_loop fuel' buf block_size (ptr + entry_size) name name_len else
        same ← mem_eq (Z.to_nat name_len) buf (ptr + size_of ext2_dir_entry_layout) name 0;
        if (same : bool) then Ok (inr (Some ptr))
        else search_loop fuel' buf block_size (ptr + entry_size) name name_len
      else Ok (inr None)
  end.

(** [name_len] is a [uint8_t] parameter. *)
Definition search_dir_block (buf : list Z) (block_size : Z) (name : list Z) (name_len : Z) : res (Z + option Z) :=
  search_loop (S (Z.to_nat block_size)) buf block_size 0 name (u8 name_len).

(** The loop of [ext2_lookup]: a result to return, or the block and the offset
    of the entry ([None] when the directory ends first). *)
Fixpoint lookup_loop (n : nat) (i i_info : Z) (sb : superblock) (q : qstr) : M (fs H D) (Z + option (list Z * Z)) :=
  match n with
  | O => mret (inr None)
  | S n' =>
      ii ← at_ptr i_infos i_info;
      inode ← at_ptr bufs (ii_inode ii);
      addr ← (if i <? 12 then
          p ← lift (u32_at inode (offset_of "direct_ptrs" ext2_inode_layout) i); mret (inr p)
        else
          res ← ext2_init_singly i_info;
          if res <? 0 then mret (inl res) else
          ii ← at_ptr i_infos i_info;
          tbl ← at_ptr bufs (ii_singly ii);
          p ← lift (u32_at tbl 0 (i - 12)); mret (inr p));
      match addr with
      | inl res => mret (inl res)
      | inr addr =>
          if addr =? 0 then mret (inr None) else
          let lba := u32 (addr * sb_sectors_per_block sb) in
          '(res, bs) ← bread (sb_bdev sb) lba (sb_sectors_per_block sb) (sb_block_size sb);
          if res <? 0 then mret (inl res) else
          found ← lift (search_dir_block bs (sb_block_size sb) (q_str q) (q_len q));
          match found with
          | inl err => mret (inl err)
          | inr (Some off) => mret (inr (Some (bs, off)))
          | inr None => lookup_loop n' (i + 1) i_info sb q
          end
      end
  end.

Definition ext2_lookup (dir child : Z) : M (fs H D) Z :=
  dino ← at_ptr inodes dir;
  sb ← at_ptr sbs (i_sb dino);
  let block_size := sb_block_size sb in
  buf ← ext2_alloc_block block_size;
  if buf =? NULL then mret (- ENOMEM) else
  c ← at_ptr dentries child;
  r ← lookup_loop (Z.to_nat (12 + block_size / 4)) 0 (i_priv_data dino) sb (d_name c);
  match r with
  | inl res => ext2_free_block buf block_size;; mret res
  | inr None => ext2_free_block buf block_size;; mret (- ENOENT)
  | inr (Some (bs, off)) =>
      ino ← lift (field ext2_dir_entry_layout "inode" bs off);
      inode ← ext2_read_inode (sb_bdev sb) (i_sb dino) ino;
      if IS_ERR inode then
        ext2_free_block buf block_size;;
        mret (s32 (PTR_ERR inode))
      else
        d_add child inode;;
        upd_dentry child (λ x, with_sb x (i_sb dino));;
        ext2_free_block buf block_size;;
        mret 0
  end.

(** ** Searching a directory block *)

Record dirent := Dirent { de_inode : Z; de_type : Z; de_name : list Z; de_pad : list Z }.

Definition dirent_size (e : dirent) : Z := 8 + Z.of_nat (length (de_name e)) + Z.of_nat (length (de_pad e)).
Definition dirent_bytes (e : dirent) : list Z :=
  le_enc 4 (de_inode e) ++ le_enc 2 (dirent_size e) ++ [Z.of_nat (length (de_name e)); de_type e] ++ de_name e ++ de_pad e.

Definition dirent_ok (e : dirent) : Prop :=
  0 <= de_inode e < 2 ^ 32 ∧ dirent_size e < 2 ^ 16 ∧ Z.of_nat (length (de_name e)) < 256.

(** The first entry in use with the given name, and where it starts. *)
Fixpoint dir_find (off : Z) (es : list dirent) (name : list Z) : option Z :=
  match es with
  | [] => None
  | e :: rest => if negb (de_inode e =? 0) && bool_decide (de_name e = name) then Some off else dir_find (off + dirent_size e) rest name
  end.

Lemma length_dirent e : Z.of_nat (length (dirent_bytes e)) = dirent_size e.
Proof. unfold dirent_bytes, dirent_size. rewrite !length_app, !length_le_enc. cbn. lia. Qed.

Lemma entries_fit es : (length es <= length (concat (dirent_bytes <$> es)))%nat.
Proof. induction es as [|e es IH]; cbn; [lia|]. rewrite length_app. pose proof (length_dirent e). unfold dirent_size in *. lia. Qed.

Lemma mem_eq_spec n buf i name j : 0 <= i → i + Z.of_nat n <= Z.of_nat (length buf) → 0 <= j → j + Z.of_nat n <= Z.of_nat (length name) →
  mem_eq n buf i name j = Ok (bool_decide (take n (drop (Z.to_nat i) buf) = take n (drop (Z.to_nat j) name))).
Proof.
  revert i j. induction n as [|n IH]; intros i j Hi Hib Hj Hjn; [done|]. cbn [mem_eq].
  rewrite !(arr_get_znth 0) by lia. rewrite !bind_Ok.
  assert (∀ l k, 0 <= k < Z.of_nat (length l) → drop (Z.to_nat k) l = znth 0 l k :: drop (Z.to_nat (k + 1)) l) as Hd.
  { intros l k Hk. unfold znth. destruct (lookup_lt_is_Some_2 l (Z.to_nat k)) as [x Hx]; [lia|]. rewrite Hx. cbn.
    rewrite (drop_S _ _ _ Hx). do 2 f_equal. lia. }
  rewrite (Hd buf i), (Hd name j) by lia. cbn [take].
  destruct (Z.eqb_spec (znth 0 buf i) (znth 0 name j)) as [E|E].
  - rewrite E, IH by lia. f_equal. apply bool_decide_ext. split; [by intros ->|by intros [= ->]].
  - f_equal. symmetry. apply bool_decide_eq_false_2. by intros [= ?].
Qed.

(** The fields of the entry that follows [pre]. *)
Lemma dirent_field (pre post : list Z) e : dirent_ok e → let buf := pre ++ dirent_bytes e ++ post in let p := Z.of_nat (length pre) in
  field ext2_dir_entry_layout "inode" buf p = Ok (de_inode e) ∧ field ext2_dir_entry_layout "entry_size" buf p = Ok (dirent_size e) ∧
  field ext2_dir_entry_layout "name_len_lower" buf p = Ok (Z.of_nat (length (de_name e))).
Proof.
  intros (Hi & Hs & Hn). cbv zeta. unfold field. layout_eval. unfold dirent_bytes.
  assert (0 <= dirent_size e) as Hs0 by (unfold dirent_size; lia).
  split; [|split]; rewrite get_le_app by lia.
  - unfold get_le. rewrite bytes_get_Ok by (rewrite ?length_app, ?length_le_enc; cbn; lia).
    rewrite bind_Ok. f_equal. change (Z.to_nat 0) with 0%nat. rewrite drop_0. rewrite <- (le_le_enc 4 (de_inode e)) at 2 by done.
    done.
  - rewrite <- !app_assoc. rewrite (get_le_app (le_enc 4 (de_inode e)) _ 0 2) by lia.
    unfold get_le. rewrite bytes_get_Ok by (rewrite ?length_app, ?length_le_enc; cbn; lia).
    rewrite bind_Ok. f_equal. change (Z.to_nat 0) with 0%nat. rewrite drop_0. rewrite <- (le_le_enc 2 (dirent_size e)) at 2 by done.
    done.
  - rewrite <- !app_assoc. rewrite (get_le_app (le_enc 4 (de_inode e)) _ 2 1), (get_le_app (le_enc 2 (dirent_size e)) _ 0 1) by lia.
    unfold get_le. rewrite bytes_get_Ok by (cbn; lia). rewrite bind_Ok. f_equal.
    change (Z.of_nat (length (de_name e)) + 256 * 0 = Z.of_nat (length (de_name e))). lia.
Qed.

(** The name that follows an entry's header. *)
Lemma dirent_name (pre post : list Z) e : 
  take (length (de_name e)) (drop (Z.to_nat (Z.of_nat (length pre) + 8)) (pre ++ dirent_bytes e ++ post)) = de_name e.
Proof.
  replace (Z.to_nat (Z.of_nat (length pre) + 8)) with (length pre + 8)%nat by lia. rewrite drop_app_add. unfold dirent_bytes.
  rewrite <- !app_assoc. cbn [app le_enc drop]. apply take_app_length.
Qed.

Lemma search_loop_spec fuel es pre name : Forall dirent_ok es → Z.of_nat (length name) < 256 → (length es < fuel)%nat →
  let buf := pre ++ concat (dirent_bytes <$> es) in
  search_loop fuel buf (Z.of_nat (length buf)) (Z.of_nat (length pre)) name (Z.of_nat (length name)) = Ok (inr (dir_find (Z.of_nat (length pre)) es name)).
Proof.
  intros Hes Hname. cbv zeta. revert fuel pre. induction Hes as [|e es He Hes IH]; intros fuel pre Hf; (destruct fuel as [|fuel]; [cbn in Hf; lia|]).
  - cbn [search_loop fmap list_fmap concat dir_find]. rewrite app_nil_r, Z.ltb_irrefl. done.
  - cbn [search_loop fmap list_fmap concat dir_find]. destruct (dirent_field pre (concat (dirent_bytes <$> es)) e He) as (Hi & Hs & Hn).
    rewrite Hi, Hs, Hn, !bind_Ok. pose proof (length_dirent e) as Hlen.
    assert (8 <= dirent_size e) as Hmin by (unfold dirent_size; lia).
    rewrite (proj2 (Z.ltb_lt (Z.of_nat (length pre)) _)) by (rewrite !length_app; lia).
    rewrite (proj2 (Z.eqb_neq (dirent_size e) 0)) by lia.
    specialize (IH fuel (pre ++ dirent_bytes e) ltac:(cbn in Hf; lia)). rewrite <- app_assoc in IH.
    rewrite !(length_app pre (dirent_bytes e)), Nat2Z.inj_add, Hlen in IH.
    destruct (Z.eqb_spec (de_inode e) 0) as [E0|E0]; cbn [negb andb]; [by rewrite IH|].
    destruct (Z.eqb_spec (Z.of_nat (length (de_name e))) (Z.of_nat (length name))) as [El|El]; cbn [negb].
    2:{ rewrite bool_decide_eq_false_2 by congruence. by rewrite IH. }
    change (size_of ext2_dir_entry_layout) with 8. apply Nat2Z.inj in El.
    rewrite mem_eq_spec by (rewrite ?length_app; unfold dirent_size in Hlen; lia).
    rewrite bind_Ok, Nat2Z.id, <- El, dirent_name. change (Z.to_nat 0) with 0%nat. rewrite drop_0, El, take_ge by done.
    destruct (decide (de_name e = name)) as [E|E]; [by rewrite !bool_decide_eq_true_2|]. rewrite !bool_decide_eq_false_2 by done. by rewrite IH.
Qed.

(** Every pass of the search moves forward, so it ends on any block. *)
Lemma field_nonneg l f buf p v : Forall is_byte buf → field l f buf p = Ok v → 0 <= v.
Proof.
  intros Hb. unfold field, get_le, bytes_get. destruct (_ && _); [|done]. cbn. intros [= <-].
  apply (le_range (take _ _)). by apply Forall_take, Forall_drop.
Qed.

Lemma field_fuel l f buf p : field l f buf p ≠ OutOfFuel.
Proof. unfold field, get_le, bytes_get. by destruct (_ && _). Qed.

Lemma arr_get_fuel (l : list Z) i : arr_get l i ≠ OutOfFuel.
Proof. unfold arr_get. destruct (_ && _); [|done]. by destruct (l !! _). Qed.

Lemma bind_fuel {A B} (m : res A) (f : A → res B) : m ≠ OutOfFuel → (∀ x, m = Ok x → f x ≠ OutOfFuel) → (m ≫= f) ≠ OutOfFuel.
Proof. destruct m; naive_solver. Qed.

Lemma mem_eq_fuel n buf i name j : mem_eq n buf i name j ≠ OutOfFuel.
Proof.
  revert i j. induction n as [|n IH]; intros i j; [done|]. cbn [mem_eq].
  apply bind_fuel; [apply arr_get_fuel|]. intros x _. apply bind_fuel; [apply arr_get_fuel|]. intros y _. by destruct (_ =? _).
Qed.

Lemma search_loop_terminates fuel buf bs ptr name len : Forall is_byte buf → 0 <= ptr → bs - ptr < Z.of_nat fuel → (0 < fuel)%nat →
  search_loop fuel buf bs ptr name len ≠ OutOfFuel.
Proof.
  intros Hb. revert ptr. induction fuel as [|fuel IH]; intros ptr Hp Hf Hf0; [lia|]. cbn [search_loop].
  destruct (Z.ltb_spec ptr bs); [|done].
  apply bind_fuel; [apply field_fuel|]. intros size Hs. apply field_nonneg in Hs; [|done].
  destruct (Z.eqb_spec size 0); [done|].
  assert (search_loop fuel buf bs (ptr + size) name len ≠ OutOfFuel) as Hnext by (apply IH; lia).
  apply bind_fuel; [apply field_fuel|]. intros ino _. destruct (ino =? 0); [done|].
  apply bind_fuel; [apply field_fuel|]. intros l _. destruct (negb _); [done|].
  apply bind_fuel; [apply mem_eq_fuel|]. intros [] _; done.
Qed.

(** C27: searching a directory block.  [search_dir_block] ends on every block
    of bytes, whatever its entries.  On a block whose entries follow one another
    and fill it, it finds the first entry in use that has the given name, for
    names of up to 255 bytes, and finds nothing exactly when there is none. *)
Theorem search_dir_block_correct :
  (∀ buf bs name len, Forall is_byte buf → search_dir_block buf bs name len ≠ OutOfFuel) ∧
  (∀ es name, Forall dirent_ok es → Z.of_nat (length name) < 256 →
    let buf := concat (dirent_bytes <$> es) in
    search_dir_block buf (Z.of_nat (length buf)) name (Z.of_nat (length name)) = Ok (inr (dir_find 0 es name))).
Proof.
  split.
  - intros buf bs name len Hb. apply search_loop_terminates; [done|lia|lia|lia].
  - intros es name Hes Hn buf. unfold search_dir_block. rewrite u8_small by lia.
    apply (search_loop_spec _ es [] name Hes Hn). unfold buf. rewrite Nat2Z.id.
    pose proof (entries_fit es). lia.
Qed.

(** The length is passed as a byte: a longer name is cut to its length modulo
    256. *)
Lemma long_name_cut buf bs name : search_dir_block buf bs name (Z.of_nat (length name)) = search_dir_block buf bs name (u8 (Z.of_nat (length name))).
Proof. unfold search_dir_block. by rewrite (u8_small (u8 _)) by apply u8_range. Qed.
End ext2_dir.

Definition demo_entries : list dirent :=
  [Dirent 2 2 [46] [0; 0; 0]; Dirent 2 2 [46; 46] [0; 0]; Dirent 0 1 [97; 98] [0; 0]; Dirent 12 1 [97; 98] [0; 0; 0; 0; 0; 0]].

Lemma search_dir_block_correct_witness :
  dir_find 0 demo_entries [97; 98] = Some 36 ∧
  search_dir_block (concat (dirent_bytes <$> demo_entries)) 52 [97; 98] 2 = Ok (inr (Some 36)).
Proof.
  split; [reflexivity|].
  apply (proj2 search_dir_block_correct demo_entries [97; 98]); [|cbn; lia].
  repeat constructor; cbn; lia.
Defined.
