(* ===== verification/Ext2Super.v ===== *)
(** * Mounting ext2 (fs/ext2/super.c, ext2_register of fs/ext2/ext2.c)

    The superblock is the second kilobyte of the volume; the block-group table
    follows it.  [struct ext2_fs_info] comes from [kmalloc], so its fields have
    no value before they are assigned. *)

From S2P Require Import Prelude Types HeapApi StateMonad Layout Block FsTypes Dcache Ext2File Ext2Dir.

Section ext2_super.
Context {H D : Type} `{!KernelHeap H, !DiskDriver D}.
Implicit Types s : fs H D.

Definition at_bdev (bdev : Z) : M (fs H D) block_dev := λ s, lift (deref (bdevs (fblk s)) bdev) s.

(** [1024 << n] for a [uint32_t] result. *)
Definition block_size_of (log_block_size : Z) : res Z :=
  if 32 <=? log_block_size then Fault else Ok (u32 (Z.shiftl 1024 log_block_size)).

(** The status and the bytes of [*out_sb]. *)
Definition ext2_read_superblock (bdev : Z) : M (fs H D) (Z * list Z) :=
  b ← at_bdev bdev;
  let ss := bd_sector_size b in
  if ss =? 0 then lift Fault else
  let start_sector := u32 (EXT2_SUPERBLOCK_OFFSET / ss) in
  let end_byte := u32 (EXT2_SUPERBLOCK_OFFSET + size_of ext2_superblock_layout) in
  let end_sector := u32 (u32 (end_byte + ss - 1) / ss) in
  let sector_count := u32 (end_sector - start_sector) in
  let total_bytes := u32 (sector_count * ss) in
  buf ← fkmalloc total_bytes;
  if buf =? NULL then mret (- ENOMEM, []) else
  '(status, bs) ← bread bdev start_sector sector_count total_bytes;
  if status <? 0 then
    fkfree buf;;
    mret (status, [])
  else
    let offset := u32 (EXT2_SUPERBLOCK_OFFSET - start_sector * ss) in
    out ← lift (bytes_get bs offset (size_of ext2_superblock_layout));
    fkfree buf;;
    mret (0, out).

(** [strncpy(dst, src, n)]: the [n] bytes of the destination. *)
Fixpoint strncpy_bytes (n : nat) (src : list Z) : list Z :=
  match n with
  | O => []
  | S n' => match src with
    | [] => replicate n 0
    | c :: rest => if c =? 0 then replicate n 0 else c :: strncpy_bytes n' rest
    end
  end.

(** The checks of [ext2_probe] on a superblock. *)
Definition probe_ok (super : list Z) : res bool :=
  log ← field ext2_superblock_layout "log_block_size" super 0;
  block_size ← block_size_of log;
  signature ← field ext2_superblock_layout "ext2_signature" super 0;
  version ← field ext2_superblock_layout "version_major" super 0;
  features ← field ext2_superblock_layout "required_features" super 0;
  Ok (negb (negb (signature =? EXT2_SIGNATURE) || negb (version =? 1) ||
    negb (Z.land features (u32 (Z.lnot EXT2_FEATURE_REQUIRED_SUPPORTED)) =? 0) || (PAGE_SIZE <? block_size))).

(** The status and [info->label]. *)
Definition ext2_probe (bdev : Z) : M (fs H D) (Z * list Z) :=
  super ← fkmalloc (size_of ext2_superblock_layout);
  if super =? NULL then mret (- ENOMEM, []) else
  '(status, sbytes) ← ext2_read_superblock bdev;
  if status <? 0 then
    fkfree super;;
    mret (status, [])
  else
    good ← lift (probe_ok sbytes);
    if negb good then
      fkfree super;;
      mret (- EINVAL, [])
    else
      let label := <[31%nat := 0]> (strncpy_bytes 32 (drop (Z.to_nat (offset_of "volume_name" ext2_superblock_layout)) sbytes)) in
      fkfree super;;
      mret (0, label).

Definition ext2_fill_bgd_table_info (bdev info : Z) : M (fs H D) Z :=
  fi ← at_ptr fs_infos info;
  let super := fi_superblock fi in
  ipg ← lift (field ext2_superblock_layout "inodes_per_blockgroup" super 0);
  bpg ← lift (field ext2_superblock_layout "blocks_per_blockgroup" super 0);
  inode_count ← lift (field ext2_superblock_layout "inode_count" super 0);
  if ipg =? 0 then lift Fault else
  let groups := u32 (inode_count + ipg - 1) / ipg in
  puts (λ s, set_fs_infos (<[info := Ext2FsInfo super ipg bpg groups (fi_bgd_table fi)]> (fs_infos s)) s);;
  log ← lift (field ext2_superblock_layout "log_block_size" super 0);
  block_size ← lift (block_size_of log);
  if block_size =? 0 then lift Fault else
  first_data_block ← lift (field ext2_superblock_layout "first_data_block" super 0);
  let bgd_table_start_block := u32 (first_data_block + 1) in
  let bgd_table_bytes := u32 (size_of ext2_blockgroup_desc_layout * groups) in
  let block_count := u32 (bgd_table_bytes + block_size - 1) / block_size in
  bgd_table ← fkmalloc (u32 (block_count * block_size));
  if bgd_table =? NULL then mret (- ENOMEM) else
  b ← at_bdev bdev;
  if bd_sector_size b =? 0 then lift Fault else
  let sectors_per_block := block_size / bd_sector_size b in
  let lba := u32 (bgd_table_start_block * sectors_per_block) in
  let lba_count := u32 (block_count * sectors_per_block) in
  '(status, bs) ← bread bdev lba lba_count (u32 (block_count * block_size));
  if status <? 0 then
    fkfree bgd_table;;
    mret status
  else
    puts (λ s, set_bufs (<[bgd_table := bs]> (bufs s)) s);;
    puts (λ s, set_fs_infos (<[info := Ext2FsInfo super ipg bpg groups (Some bgd_table)]> (fs_infos s)) s);;
    mret 0.

(** An error pointer of [ext2_read_inode] is not NULL, so it is attached to
    the dentry as if it were an inode. *)
Definition ext2_get_root (bdev sb : Z) : M (fs H D) Z :=
  inode ← ext2_read_inode bdev sb EXT2_ROOT_DIR_INO;
  if inode =? NULL then mret (ERR_PTR (- ENOMEM)) else
  let root_name := Qstr [47] 1 (vfs_hash_name [47]) in
  d ← d_alloc NULL root_name;
  if IS_ERR d then
    fkfree inode;;
    mret (ERR_PTR (- ENOMEM))
  else
    upd_dentry d (λ x, with_sb x sb);;
    d_add d inode;;
    mret d.

(** The label [exit_err] of [ext2_mount]: testing [info->bgd_table] before it
    was assigned reads an uninitialised field. *)
Definition mount_err (res sb info : Z) : M (fs H D) Z :=
  (if sb =? NULL then mret () else fkfree sb;; puts (λ s, set_sbs (delete sb (sbs s)) s));;
  (if info =? NULL then mret () else
    fi ← at_ptr fs_infos info;
    table ← lift (match fi_bgd_table fi with Some t => Ok t | None => Fault end);
    if table =? NULL then mret () else fkfree table);;
  (if info =? NULL then mret () else fkfree info;; puts (λ s, set_fs_infos (delete info (fs_infos s)) s));;
  mret res.

Definition ext2_mount (bdev : Z) : M (fs H D) Z :=
  sb ← fkzalloc SUPERBLOCK_SIZE;
  if sb =? NULL then mount_err (ERR_PTR (- ENOMEM)) NULL NULL else
  puts (λ s, set_sbs (<[sb := Superblock NULL NULL 0 0 NULL]> (sbs s)) s);;
  info ← fkmalloc EXT2_FS_INFO_SIZE;
  if info =? NULL then mount_err (ERR_PTR (- ENOMEM)) sb NULL else
  puts (λ s, set_fs_infos (<[info := Ext2FsInfo [] 0 0 0 None]> (fs_infos s)) s);;
  '(status, super) ← ext2_read_superblock bdev;
  if status <? 0 then mount_err (ERR_PTR status) sb info else
  puts (λ s, set_fs_infos (<[info := Ext2FsInfo super 0 0 0 None]> (fs_infos s)) s);;
  status ← ext2_fill_bgd_table_info bdev info;
  if status <? 0 then mount_err (ERR_PTR status) sb info else
  log ← lift (field ext2_superblock_layout "log_block_size" super 0);
  block_size ← lift (block_size_of log);
  b ← at_bdev bdev;
  if bd_sector_size b =? 0 then lift Fault else
  puts (λ s, set_sbs (<[sb := Superblock bdev NULL block_size (block_size / bd_sector_size b) info]> (sbs s)) s);;
  root ← ext2_get_root bdev sb;
  if IS_ERR root then mount_err root sb info else
  puts (λ s, set_sbs (<[sb := Superblock bdev root block_size (block_size / bd_sector_size b) info]> (sbs s)) s);;
  mret sb.

(** ** The error path of mounting *)

(** When the superblock cannot be read, the cleanup of [ext2_mount] looks at
    the table pointer that nothing has set. *)
Lemma mount_err_uninitialised res sb info fi s : fs_infos s !! info = Some fi → fi_bgd_table fi = None → info ≠ NULL →
  ok (mount_err res sb info s) = false.
Proof.
  intros Hi Hn Hne. unfold mount_err. rewrite bind_run.
  set (first := if sb =? NULL then mret () else fkfree sb;; puts (λ s, set_sbs (delete sb (sbs s)) s)).
  assert (∀ u s1, first s = Ok (u, s1) → fs_infos s1 = fs_infos s) as Hsame.
  { intros u s1. unfold first. destruct (sb =? NULL); [by intros [= _ <-]|]. rewrite bind_run. unfold fkfree, on_blk, zoom.
    destruct (bkfree sb (fblk s)) as [[u1 b]| | |]; try done. cbn. by intros [= _ <-]. }
  destruct (first s) as [[u s1]| | |]; [|done..]. specialize (Hsame u s1 eq_refl). rewrite bind_Ok, (proj2 (Z.eqb_neq _ _) Hne).
  rewrite bind_assoc_run, (at_ptr_step _ _ fi) by by rewrite Hsame. by rewrite Hn.
Qed.

(** A block size that overflows 32 bits passes the test against the page
    size: [1024 << 22] is 0. *)
Lemma probe_accepts_zero_block : block_size_of 22 = Ok 0.
Proof. reflexivity. Qed.
End ext2_super.
