(* ===== verification/Vfs.v ===== *)
(** * The virtual file system (fs/vfs.c)

    Path lookup through the dentry cache, mounting, open files.  A path is the
    list of its bytes before the terminator.  Calls through operation tables go
    to the function the table names; a NULL entry is a [Fault]. *)

From S2P Require Import Prelude Types FrameAlloc EarlyPmm Pmm Paging Vmm Kmalloc HeapApi StateMonad Layout Block FsTypes Dcache Ext2File Ext2Dir Ext2Super.

Inductive fs_probe_t := ext2_probe_fn.
Inductive fs_mount_t := ext2_mount_fn.
Record fs_driver := FsDriver { drv_name : list Z; drv_probe : option fs_probe_t; drv_mount : option fs_mount_t }.

(** [memcpy(entry->name, "ext2fs", sizeof(entry->name))] copies 16 bytes from a
    literal of 7: [after] is what follows it in memory. *)
Definition ext2_register (after : list Z) : fs_driver :=
  FsDriver (take 16 ([101; 120; 116; 50; 102; 115; 0] ++ after)) (Some ext2_probe_fn) (Some ext2_mount_fn).

(** The drivers after [vfs_init]. *)
Definition vfs_init (after : list Z) (fs_drivers : list fs_driver) : res (list fs_driver) :=
  if MAX_FS_DRIVERS <=? Z.of_nat (length fs_drivers) then Fault else Ok (fs_drivers ++ [ext2_register after]).

Section vfs.
Context {H D : Type} `{!KernelHeap H, !DiskDriver D}.
Implicit Types s : fs H D.

(** ** Mounting *)

Fixpoint scan_devices (devs : list Z) (count : Z) : M (fs H D) Z :=
  match devs with
  | [] => mret count
  | dev :: rest =>
      res ← on_blk (partition_scan dev);
      if res <? 0 then mret res else scan_devices rest (count + res)
  end.

(** Only the devices registered at the start are scanned. *)
Definition vfs_scan_partitions : M (fs H D) Z :=
  devs ← gets (λ s, registered (fblk s));
  scan_devices devs 0.

Definition call_probe (p : fs_probe_t) (bdev : Z) : M (fs H D) (Z * list Z) := match p with ext2_probe_fn => ext2_probe bdev end.
Definition call_mount (m : fs_mount_t) (bdev : Z) : M (fs H D) Z := match m with ext2_mount_fn => ext2_mount bdev end.

(** The drivers tried on one device: whether one of them mounted it. *)
Fixpoint try_drivers (drivers : list fs_driver) (bdev : Z) : M (fs H D) bool :=
  match drivers with
  | [] => mret false
  | d :: rest =>
      match drv_probe d, drv_mount d with
      | Some p, Some m =>
          '(st, _) ← call_probe p bdev;
          if st =? 0 then
            sb ← call_mount m bdev;
            if IS_ERR sb then try_drivers rest bdev else
            x ← at_ptr sbs sb;
            puts (set_vfs_root (sb_root x));;
            mret true
          else try_drivers rest bdev
      | _, _ => try_drivers rest bdev
      end
  end.

Fixpoint mount_devices (drivers : list fs_driver) (devs : list Z) : M (fs H D) Z :=
  match devs with
  | [] => mret (- ENOENT)
  | dev :: rest => done ← try_drivers drivers dev; if (done : bool) then mret 0 else mount_devices drivers rest
  end.

Definition vfs_mount_root (drivers : list fs_driver) : M (fs H D) Z :=
  devs ← gets (λ s, registered (fblk s));
  mount_devices drivers devs.

(** ** Lookup *)

(** The walk over the children; there are at most as many as dentries. *)
Fixpoint find_child (fuel : nat) (cur : Z) (q : qstr) : M (fs H D) Z :=
  match fuel with
  | O => lift OutOfFuel
  | S fuel' =>
      if cur =? NULL then mret NULL else
      c ← at_ptr dentries cur;
      same ← (if (q_hash (d_name c) =? q_hash q) && (q_len (d_name c) =? q_len q)
        then lift (mem_eq (Z.to_nat (q_len q)) (q_str (d_name c)) 0 (q_str q) 0) else mret false);
      if (same : bool) then mret cur else find_child fuel' (d_next_sibling c) q
  end.

Definition call_lookup (ops : inode_operations) (dir child : Z) : M (fs H D) Z :=
  match ops with
  | ext2_dir_iops => ext2_lookup dir child
  | ext2_file_iops | IOPS_NULL => lift Fault
  end.

(** A dentry, or an error pointer. *)
Definition vfs_lookup_direct (parent : Z) (q : qstr) : M (fs H D) Z :=
  p ← at_ptr dentries parent;
  n ← gets (λ s, size (dentries s));
  cur ← find_child (S n) (d_first_child p) q;
  if negb (cur =? NULL) then mret cur else
  child ← d_alloc parent q;
  if IS_ERR child then mret child else
  p ← at_ptr dentries parent;
  ino ← at_ptr inodes (d_inode p);
  res ← call_lookup (i_iops ino) (d_inode p) child;
  if res <? 0 then
    d_free child;;
    mret (ERR_PTR res)
  else mret child.

Fixpoint skip_slashes (path : list Z) : list Z :=
  match path with
  | c :: rest => if c =? 47 then skip_slashes rest else path
  | [] => []
  end.

(** The distance to the next slash, or to the end. *)
Fixpoint to_delim (path : list Z) : nat :=
  match path with
  | c :: rest => if c =? 47 then O else S (to_delim rest)
  | [] => O
  end.

Fixpoint lookup_loop_path (fuel : nat) (cur : Z) (path : list Z) : M (fs H D) Z :=
  match fuel with
  | O => lift OutOfFuel
  | S fuel' =>
      match path with
      | [] => mret cur
      | _ =>
          d ← at_ptr dentries cur;
          ino ← at_ptr inodes (d_inode d);
          if negb (S_ISDIR (i_mode ino)) then mret (ERR_PTR (- ENOTDIR)) else
          let len := to_delim path in
          let token := Qstr path (Z.of_nat len) (vfs_hash_name (take len path)) in
          child ← vfs_lookup_direct cur token;
          if IS_ERR child then mret child else
          lookup_loop_path fuel' child (skip_slashes (drop len path))
      end
  end.

(** Every round consumes at least one byte of the path. *)
Definition vfs_lookup (path : list Z) : M (fs H D) Z :=
  cur ← gets vfs_root;
  lookup_loop_path (S (length path)) cur (skip_slashes path).

(** ** Open files *)

Definition vfs_open (path : list Z) : M (fs H D) Z :=
  d ← vfs_lookup path;
  if IS_ERR d then mret d else
  x ← at_ptr dentries d;
  ino ← at_ptr inodes (d_inode x);
  if negb (S_ISREG (i_mode ino)) then mret (ERR_PTR (- ENOTDIR)) else
  f ← fkzalloc FILE_SIZE;
  if f =? NULL then mret (ERR_PTR (- ENOMEM)) else
  puts (λ s, set_ofiles (<[f := File d 0 1 (i_fops ino)]> (ofiles s)) s);;
  mret f.

(** [f->fops->read(f, buf, count, &f->pos)] for a file of a file system: the
    result and the bytes delivered. *)
Definition call_read (f : Z) (fl : file) (count : Z) : M (fs H D) (Z * list Z) :=
  match f_fops fl with
  | ext2_file_fops =>
      '(r, out, pos) ← ext2_read_file f count (f_pos fl);
      puts (λ s, set_ofiles (<[f := File (f_dentry fl) pos (f_ref_count fl) (f_fops fl)]> (ofiles s)) s);;
      mret (r, out)
  | ext2_dir_fops | FOPS_NULL | tty_fops => lift Fault
  end.

(** (The file of a terminal has no dentry, so it never gets to the call.) *)
Definition vfs_read (f count : Z) : M (fs H D) (Z * list Z) :=
  fl ← at_ptr ofiles f;
  x ← at_ptr dentries (f_dentry fl);
  ino ← at_ptr inodes (d_inode x);
  if negb (S_ISREG (i_mode ino)) then mret (- EINVAL, []) else
  if f_ref_count fl =? 0 then mret (- EINVAL, []) else
  let count := if SSIZE_MAX <? count then SSIZE_MAX else count in
  call_read f fl count.

Definition vfs_close (f : Z) : M (fs H D) Z :=
  if f =? NULL then mret (- EINVAL) else
  fl ← at_ptr ofiles f;
  let ref_count := u32 (f_ref_count fl - 1) in
  puts (λ s, set_ofiles (<[f := File (f_dentry fl) (f_pos fl) ref_count (f_fops fl)]> (ofiles s)) s);;
  (if ref_count =? 0 then fkfree f;; puts (λ s, set_ofiles (delete f (ofiles s)) s) else mret ());;
  mret 0.

Definition vfs_seek (f offset whence : Z) : M (fs H D) Z :=
  fl ← at_ptr ofiles f;
  x ← at_ptr dentries (f_dentry fl);
  ino ← at_ptr inodes (d_inode x);
  if negb (S_ISREG (i_mode ino)) then mret (- EINVAL) else
  let new_pos :=
    if whence =? SEEK_SET then Some offset
    else if whence =? SEEK_CUR then Some (s64 (f_pos fl + offset))
    else None in
  match new_pos with
  | None => mret (- EINVAL)
  | Some new_pos =>
      if new_pos <? 0 then mret (- EINVAL) else
      let new_pos := if s64 (i_size ino) <? new_pos then s64 (i_size ino) else new_pos in
      puts (λ s, set_ofiles (<[f := File (f_dentry fl) (u64 new_pos) (f_ref_count fl) (f_fops fl)]> (ofiles s)) s);;
      mret new_pos
  end.

(** ** Paths as lists of names

    The reference: split at the slashes, drop the empty names, and look the
    names up one after the other. *)

Fixpoint split_path (path : list Z) : list (list Z) :=
  match path with
  | [] => [[]]
  | c :: rest =>
      if c =? 47 then [] :: split_path rest
      else match split_path rest with w :: ws => (c :: w) :: ws | [] => [[c]] end
  end.
Definition components (path : list Z) : list (list Z) := filter (λ w, w ≠ []) (split_path path).

Fixpoint walk (names : list (list Z)) (cur : Z) : M (fs H D) Z :=
  match names with
  | [] => mret cur
  | name :: rest =>
      d ← at_ptr dentries cur;
      ino ← at_ptr inodes (d_inode d);
      if negb (S_ISDIR (i_mode ino)) then mret (ERR_PTR (- ENOTDIR)) else
      child ← vfs_lookup_direct cur (Qstr name (Z.of_nat (length name)) (vfs_hash_name name));
      if IS_ERR child then mret child else walk rest child
  end.

Lemma components_cons_slash path : components (47 :: path) = components path.
Proof. unfold components. cbn [split_path]. rewrite Z.eqb_refl. by rewrite filter_cons_False by (intros Hne; by apply Hne). Qed.

Lemma components_skip path : components (skip_slashes path) = components path.
Proof.
  induction path as [|c path IH]; [done|]. cbn [skip_slashes]. destruct (Z.eqb_spec c 47) as [->|]; [|done].
  by rewrite components_cons_slash.
Qed.

Lemma split_path_token path : ∃ ws, split_path path = take (to_delim path) path :: ws ∧ filter (λ w, w ≠ []) ws = components (drop (to_delim path) path).
Proof.
  induction path as [|c path (ws & Hs & Hf)]; [by exists []|]. cbn [split_path to_delim]. destruct (Z.eqb_spec c 47) as [->|Hc].
  - exists (split_path path). split; [done|]. cbn [drop]. by rewrite components_cons_slash.
  - rewrite Hs. exists ws. done.
Qed.

(** The next name of a path that starts with one. *)
Lemma components_token c path : c ≠ 47 →
  components (c :: path) = take (to_delim (c :: path)) (c :: path) :: components (drop (to_delim (c :: path)) (c :: path)).
Proof.
  intros Hc. destruct (split_path_token (c :: path)) as (ws & Hs & Hf). unfold components at 1. rewrite Hs, filter_cons_True, Hf; [done|].
  cbn [to_delim]. by rewrite (proj2 (Z.eqb_neq c 47) Hc).
Qed.

Lemma skip_slashes_head path : match skip_slashes path with [] => True | c :: _ => c ≠ 47 end.
Proof. induction path as [|c path IH]; [done|]. cbn [skip_slashes]. by destruct (Z.eqb_spec c 47). Qed.

Lemma length_skip_slashes path : (length (skip_slashes path) <= length path)%nat.
Proof. induction path as [|c path IH]; [done|]. cbn [skip_slashes]. destruct (c =? 47); cbn; lia. Qed.

Lemma to_delim_length path : (to_delim path <= length path)%nat.
Proof. induction path as [|c path IH]; cbn; [done|]. destruct (c =? 47); cbn; lia. Qed.

(** A lookup reads only the counted bytes of the name. *)
Lemma mem_eq_take n buf i name j k : 0 <= j → j + Z.of_nat n <= Z.of_nat k → (k <= length name)%nat → mem_eq n buf i name j = mem_eq n buf i (take k name) j.
Proof.
  revert i j. induction n as [|n IH]; intros i j Hj Hk Hl; [done|]. cbn [mem_eq].
  assert (arr_get name j = arr_get (take k name) j) as ->.
  { rewrite !(arr_get_znth 0) by (rewrite ?length_take; lia). unfold znth. by rewrite lookup_take, decide_True by lia. }
  destruct (arr_get buf i); [|done..]. rewrite !bind_Ok. destruct (arr_get (take k name) j); [|done..]. rewrite !bind_Ok.
  destruct (_ =? _); [apply IH; lia|done].
Qed.

Lemma find_child_take fuel cur path k h s : (k <= length path)%nat →
  find_child fuel cur (Qstr path (Z.of_nat k) h) s = find_child fuel cur (Qstr (take k path) (Z.of_nat k) h) s.
Proof.
  intros Hk. revert cur. induction fuel as [|fuel IH]; intros cur; [done|]. cbn [find_child q_hash q_len q_str].
  destruct (cur =? NULL); [done|]. destruct (dentries s !! cur) as [c|] eqn:E; [|by rewrite !at_ptr_fault].
  rewrite !(at_ptr_step _ _ _ _ _ E), (mem_eq_take _ _ _ path 0 k) by (rewrite ?Nat2Z.id; lia).
  destruct (_ && _); [|rewrite !ret_step; apply IH].
  destruct (mem_eq _ _ _ _ _) as [[]| | |]; [by rewrite !(lift_step (Ok true) _ _ _ eq_refl)| |done..].
  rewrite !(lift_step (Ok false) _ _ _ eq_refl). apply IH.
Qed.

Lemma d_alloc_take parent path k h s : (k <= length path)%nat →
  d_alloc parent (Qstr path (Z.of_nat k) h) s = d_alloc parent (Qstr (take k path) (Z.of_nat k) h) s.
Proof.
  intros Hk. unfold d_alloc. cbn [q_len q_str q_hash].
  assert (bytes_get path 0 (Z.of_nat k) = bytes_get (take k path) 0 (Z.of_nat k)) as ->; [|done].
  rewrite !bytes_get_Ok by (rewrite ?length_take; lia). change (Z.to_nat 0) with 0%nat. rewrite !drop_0, Nat2Z.id.
  by rewrite take_take, Nat.min_id.
Qed.

Lemma lookup_direct_take parent path k h s : (k <= length path)%nat →
  vfs_lookup_direct parent (Qstr path (Z.of_nat k) h) s = vfs_lookup_direct parent (Qstr (take k path) (Z.of_nat k) h) s.
Proof.
  intros Hk. unfold vfs_lookup_direct. destruct (dentries s !! parent) as [p|] eqn:Ep; [|by rewrite !at_ptr_fault].
  rewrite !(at_ptr_step _ _ _ _ _ Ep), !gets_step, !(bind_run (find_child _ _ _)), find_child_take by done.
  destruct (find_child _ _ _ s) as [[cur s1]| | |]; [|done..]. rewrite !bind_Ok. destruct (negb _); [done|].
  rewrite !(bind_run (d_alloc _ _)), d_alloc_take by done. done.
Qed.

Lemma lookup_loop_walk fuel cur path s : (length path < fuel)%nat → match path with [] => True | c :: _ => c ≠ 47 end →
  lookup_loop_path fuel cur path s = walk (components path) cur s.
Proof.
  revert cur path s. induction fuel as [|fuel IH]; intros cur path s Hf Hc; [lia|]. cbn [lookup_loop_path].
  destruct path as [|c path]; [done|]. rewrite components_token by done.
  assert (1 <= to_delim (c :: path) <= length (c :: path))%nat as Hlen.
  { cbn [to_delim]. rewrite (proj2 (Z.eqb_neq c 47) Hc). split; [lia|]. pose proof (to_delim_length path). cbn. lia. }
  set (n := to_delim (c :: path)) in *. clearbody n. set (pth := c :: path) in *. clearbody pth. cbn [walk].
  destruct (dentries s !! cur) as [d|] eqn:Ed; [|by rewrite !at_ptr_fault]. rewrite !(at_ptr_step _ _ _ _ _ Ed).
  destruct (inodes s !! d_inode d) as [ino|] eqn:Ei; [|by rewrite !at_ptr_fault]. rewrite !(at_ptr_step _ _ _ _ _ Ei).
  destruct (negb _); [done|]. rewrite !bind_run, lookup_direct_take by lia. rewrite length_take, Nat.min_l by lia.
  destruct (vfs_lookup_direct _ _ s) as [[child s1]| | |]; [|done..]. rewrite !bind_Ok. destruct (IS_ERR child); [done|].
  rewrite IH, components_skip; [done| |apply skip_slashes_head].
  pose proof (length_skip_slashes (drop n pth)) as Hs. rewrite length_drop in Hs. lia.
Qed.

(** C25: path lookup.  For every path and state, [vfs_lookup] does exactly what
    looking up its names one after the other from the root does, where the
    names are what lies between slashes, without the empty ones; in particular
    it ends. *)
Theorem vfs_lookup_walks path s : vfs_lookup path s = walk (components path) (vfs_root s) s.
Proof.
  unfold vfs_lookup. rewrite gets_step, lookup_loop_walk, components_skip; [done| |apply skip_slashes_head].
  pose proof (length_skip_slashes path). lia.
Qed.

(** ** Operations that leave the dentries alone *)

Definition leaves_dentries {A} (m : M (fs H D) A) : Prop := ∀ s x s', m s = Ok (x, s') → dentries s' = dentries s.

Lemma ld_ret {A} (x : A) : leaves_dentries (mret x).
Proof. by intros s y s' [= _ <-]. Qed.
Lemma ld_lift {A} (m : res A) : leaves_dentries (lift m).
Proof. intros s x s' Hm. unfold lift in Hm. destruct m; try done. by injection Hm as _ <-. Qed.
Lemma ld_gets {A} (f : fs H D → A) : leaves_dentries (gets f).
Proof. by intros s x s' [= _ <-]. Qed.
Lemma ld_at_ptr {A} (store : fs H D → gmap Z A) p : leaves_dentries (at_ptr store p).
Proof. intros s x s' Hm. by apply (ld_lift (deref (store s) p)) in Hm. Qed.
Lemma ld_on_blk {A} (m : M (blk H D) A) : leaves_dentries (on_blk m).
Proof. intros s x s' Hm. unfold on_blk, zoom in Hm. destruct (m (fblk s)) as [[y b]| | |]; try done. by injection Hm as _ <-. Qed.
Lemma ld_puts f : (∀ s, dentries (f s) = dentries s) → leaves_dentries (puts f).
Proof. intros Hf s x s' [= _ <-]. apply Hf. Qed.
Lemma ld_bind {A B} (m : M (fs H D) A) (f : A → M (fs H D) B) : leaves_dentries m → (∀ x, leaves_dentries (f x)) → leaves_dentries (m ≫= f).
Proof.
  intros Hm Hf s x s' Hr. rewrite bind_run in Hr. destruct (m s) as [[y s1]| | |] eqn:E; try done.
  rewrite (Hf y s1 x s' Hr). by eapply Hm.
Qed.

(** [leaves] proves the frame condition by following the code; the database
    holds the frame lemmas of called functions. *)
Create HintDb frame.
Ltac leaves :=
  repeat first
    [ apply ld_bind; [|intros ?]
    | apply ld_ret | apply ld_lift | apply ld_gets | apply ld_at_ptr | apply ld_on_blk
    | apply ld_puts; intros ?; reflexivity
    | solve [auto with frame]
    | match goal with |- leaves_dentries (let '(_, _) := ?x in _) => destruct x end
    | match goal with |- leaves_dentries (if ?b then _ else _) => destruct b end
    | match goal with |- leaves_dentries (match ?b with _ => _ end) => destruct b end ].

Lemma ld_alloc_block bs : leaves_dentries (ext2_alloc_block bs).
Proof. unfold ext2_alloc_block. leaves. Qed.
Lemma ld_free_block b bs : leaves_dentries (ext2_free_block b bs).
Proof. unfold ext2_free_block. leaves. Qed.
#[local] Hint Resolve ld_alloc_block ld_free_block : frame.
Lemma ld_init_singly i : leaves_dentries (ext2_init_singly i).
Proof. unfold ext2_init_singly. leaves. Qed.
#[local] Hint Resolve ld_init_singly : frame.
Lemma ld_lookup_loop n i i_info sb q : leaves_dentries (lookup_loop n i i_info sb q).
Proof. revert i. induction n as [|n IH]; intros i; cbn [lookup_loop]; leaves. Qed.
Lemma ld_read_inode bdev sb ino : leaves_dentries (ext2_read_inode bdev sb ino).
Proof. unfold ext2_read_inode, read_inode_err, kfree_opt. leaves. Qed.

(** ** The dentry cache *)

(** [step Hr y s1 E] takes the first step of the run recorded in [Hr]. *)
Ltac step Hr y s1 E := rewrite bind_run in Hr; match type of Hr with (?m ≫= _) = _ => destruct m as [[y s1]| | |] eqn:E end; [|done..]; rewrite bind_Ok in Hr.

Lemma upd_dentry_run d f x s : dentries s !! d = Some x → upd_dentry d f s = Ok ((), set_dentries (<[d := f x]> (dentries s)) s).
Proof. intros Hx. unfold upd_dentry. by rewrite (at_ptr_step _ _ _ _ _ Hx). Qed.

(** [d_add] links the child in front of its parent's children. *)
Lemma d_add_links child inode parent x p s : dentries s !! child = Some x → d_parent x = parent → parent ≠ NULL → parent ≠ child → dentries s !! parent = Some p →
  ∃ s', d_add child inode s = Ok ((), s') ∧
    dentries s' = <[parent := with_child p child]> (<[child := with_next (with_inode x inode) (d_first_child p)]> (dentries s)).
Proof.
  intros Hx Hpar Hpn Hne Hp. unfold d_add. eexists. rewrite (bind_step _ _ _ _ _ (upd_dentry_run _ _ _ _ Hx)).
  rewrite (at_ptr_step _ _ (with_inode x inode)) by apply lookup_insert_eq. cbn [d_parent with_inode]. rewrite Hpar, (proj2 (Z.eqb_neq _ _) Hpn). cbn [negb].
  rewrite (at_ptr_step _ _ p) by (cbn; by rewrite lookup_insert_ne).
  erewrite bind_step by (apply upd_dentry_run; apply lookup_insert_eq).
  rewrite (upd_dentry_run _ _ p) by (cbn; by rewrite !lookup_insert_ne). split; [done|]. cbn. by rewrite insert_insert_eq.
Qed.

(** The two ends of a successful lookup: the parent's children start with the
    new dentry, and its name is untouched. *)
Definition linked s (parent child : Z) (name : qstr) : Prop :=
  ∃ p x, dentries s !! parent = Some p ∧ d_first_child p = child ∧ dentries s !! child = Some x ∧ d_name x = name.

Lemma ptr_err_negative p : IS_ERR p = true → - MAX_ERRNO <= s32 (PTR_ERR p) < 0.
Proof.
  unfold IS_ERR, PTR_ERR. change (u64 (- MAX_ERRNO)) with (2 ^ 64 - 4095). intros Hp%Z.leb_le. pose proof (u64_range p) as Hr.
  assert (s64 p = u64 p - 2 ^ 64) as ->.
  { unfold s64. cbv zeta. destruct (Z.ltb_spec (u64 p) (2 ^ 63)); lia. }
  unfold MAX_ERRNO. rewrite s32_small; lia.
Qed.

Lemma IS_ERR_ERR_PTR e : - MAX_ERRNO <= e < 0 → IS_ERR (ERR_PTR e) = true.
Proof. intros He. apply IS_ERR_iff; [apply u64_range|]. by exists e. Qed.

(** Every result of the lookup functions is an error number. *)
Lemma bread_errno bdev lba n len s st bs s' : bread bdev lba n len s = Ok ((st, bs), s') → - MAX_ERRNO <= st <= 0.
Proof. unfold bread, on_blk, zoom. intros Hr. destruct (bdev_read _ _ _ _ _ _) as [[[st1 bs1] b]| | |] eqn:E; try done. injection Hr as <- <- _. by eapply bdev_read_status. Qed.

Lemma init_singly_errno i s r s' : ext2_init_singly i s = Ok (r, s') → - MAX_ERRNO <= r <= 0.
Proof.
  intros Hr. unfold ext2_init_singly in Hr. step Hr ii s1 E1. destruct (negb _); [injection Hr as <- _; unfold MAX_ERRNO; lia|].
  step Hr sb s2 E2. step Hr buf s3 E3. destruct (buf =? NULL); [injection Hr as <- _; unfold MAX_ERRNO, ENOMEM; lia|].
  step Hr nd s4 E4. step Hr sg s5 E5. step Hr rb s6 E6. destruct rb as [st bs]. apply bread_errno in E6.
  destruct (st <? 0); [step Hr u s7 E7; injection Hr as <- _; lia|]. rewrite !puts_step in Hr. injection Hr as <- _. unfold MAX_ERRNO; lia.
Qed.

Lemma search_loop_negative fuel buf bs ptr name len e : search_loop fuel buf bs ptr name len = Ok (inl e) → - MAX_ERRNO <= e < 0.
Proof.
  revert ptr. induction fuel as [|fuel IH]; intros ptr; [done|]. cbn [search_loop]. destruct (ptr <? _); [|done].
  destruct (field _ "entry_size" _ _) as [sz| | |]; [|done..]. rewrite bind_Ok. destruct (sz =? 0); [intros [= <-]; unfold EUCLEAN, MAX_ERRNO; lia|].
  destruct (field _ "inode" _ _) as [ino| | |]; [|done..]. rewrite bind_Ok. destruct (ino =? 0); [apply IH|].
  destruct (field _ "name_len_lower" _ _) as [ln| | |]; [|done..]. rewrite bind_Ok. destruct (negb _); [apply IH|].
  destruct (mem_eq _ _ _ _ _) as [[]| | |]; [|apply IH|done..]. done.
Qed.

Lemma lookup_loop_negative n i i_info sb q s e s' : lookup_loop n i i_info sb q s = Ok (inl e, s') → - MAX_ERRNO <= e < 0.
Proof.
  revert i s. induction n as [|n IH]; intros i s Hr; [done|]. cbn [lookup_loop] in Hr.
  step Hr ii s1 E1. step Hr ib s2 E2. step Hr addr s3 E3.
  assert (∀ e', addr = inl e' → - MAX_ERRNO <= e' < 0) as Haddr.
  { intros e' ->. revert E3. destruct (i <? 12).
    - intros E3. by step E3 p0 s4 E4.
    - intros E3. step E3 r s4 E4. apply init_singly_errno in E4. destruct (Z.ltb_spec r 0); [injection E3 as <- _; lia|].
      step E3 ii2 s5 E5. step E3 tbl s6 E6. by step E3 p0 s7 E7. }
  destruct addr as [e'|a]; [injection Hr as <- _; by apply Haddr|]. destruct (a =? 0); [done|].
  step Hr rb s4 E4. destruct rb as [r bs]. apply bread_errno in E4. destruct (Z.ltb_spec r 0); [injection Hr as <- _; lia|].
  step Hr found s5 E5. destruct found as [e'|[off|]]; [|done|by eapply IH].
  injection Hr as <- _. unfold lift in E5. destruct (search_dir_block _ _ _ _) eqn:Es; try done. injection E5 as -> _.
  by eapply search_loop_negative.
Qed.

(** A successful [ext2_lookup] links the child. *)
Lemma ext2_lookup_links dir child parent x p s r s' : ext2_lookup dir child s = Ok (r, s') → 0 <= r →
  dentries s !! child = Some x → d_parent x = parent → parent ≠ NULL → parent ≠ child → dentries s !! parent = Some p →
  linked s' parent child (d_name x).
Proof.
  intros Hr Hr0 Hx Hpar Hpn Hne Hp. unfold ext2_lookup in Hr.
  step Hr dino s1 E1. apply ld_at_ptr in E1. step Hr sb s2 E2. apply ld_at_ptr in E2. step Hr buf s3 E3. apply ld_alloc_block in E3.
  destruct (buf =? NULL); [injection Hr as <- _; unfold ENOMEM in Hr0; lia|].
  step Hr c s4 E4. apply ld_at_ptr in E4. step Hr found s5 E5. pose proof (ld_lookup_loop _ _ _ _ _ _ _ _ E5) as E5'.
  destruct found as [e|[[bs off]|]].
  - apply lookup_loop_negative in E5. step Hr u s6 E6. injection Hr as <- _. lia.
  - step Hr ino s6 E6. apply ld_lift in E6. step Hr nd s7 E7. apply ld_read_inode in E7.
    assert (dentries s7 = dentries s) as Hd by congruence.
    destruct (IS_ERR nd) eqn:Herr.
    { step Hr u sa E8. injection Hr as <- _. pose proof (ptr_err_negative _ Herr). lia. }
    destruct (d_add_links child nd parent x p s7) as (sb8 & Ha & Hd8); [by rewrite Hd|done..|by rewrite Hd|].
    rewrite (bind_step _ _ _ _ _ Ha) in Hr.
    erewrite bind_step in Hr by (apply upd_dentry_run; rewrite Hd8, lookup_insert_ne by done; apply lookup_insert_eq).
    step Hr u s9 E9. apply ld_free_block in E9. injection Hr as _ <-. rewrite Hd8 in E9. cbn in E9.
    do 2 eexists. rewrite E9, lookup_insert_ne, lookup_insert_eq by done. split; [done|]. split; [done|]. by rewrite lookup_insert_eq.
  - step Hr u s6 E6. injection Hr as <- _. unfold ENOENT in Hr0. lia.
Qed.

Lemma ext2_lookup_errno dir child s r s' : ext2_lookup dir child s = Ok (r, s') → - MAX_ERRNO <= r <= 0.
Proof.
  intros Hr. unfold ext2_lookup in Hr. step Hr dino s1 E1. step Hr sb s2 E2. step Hr buf s3 E3.
  destruct (buf =? NULL); [injection Hr as <- _; unfold MAX_ERRNO, ENOMEM; lia|].
  step Hr c s4 E4. step Hr found s5 E5. destruct found as [e|[[bs off]|]].
  - apply lookup_loop_negative in E5. step Hr u s6 E6. injection Hr as <- _. lia.
  - step Hr ino s6 E6. step Hr nd s7 E7. destruct (IS_ERR nd) eqn:Herr.
    { step Hr u sa E8. injection Hr as <- _. pose proof (ptr_err_negative _ Herr). lia. }
    step Hr u1 sa E8. step Hr u2 s9 E9. step Hr u3 s10 E10. injection Hr as <- _. unfold MAX_ERRNO. lia.
  - step Hr u s6 E6. injection Hr as <- _. unfold MAX_ERRNO, ENOENT. lia.
Qed.

(** A fresh dentry carries the name it was asked for. *)
Lemma d_alloc_fresh s B P parent q d s' : h_live (heap (fblk s)) B P → q_len q = Z.of_nat (length (q_str q)) →
  d_alloc parent q s = Ok (d, s') → IS_ERR d = false →
  d ∉ B ∧ d ≠ NULL ∧ ∃ x, dentries s' = <[d := x]> (dentries s) ∧ d_name x = q ∧ d_parent x = parent.
Proof.
  intros Hl Hq Hr Herr. unfold d_alloc in Hr.
  pose proof (zoom_holds fblk set_fblk (bkzalloc DENTRY_SIZE) s _ (λ d s1, d ∉ B ∨ d = NULL) (bkzalloc_spec (fblk s) B P DENTRY_SIZE Hl ltac:(unfold DENTRY_SIZE; lia))) as Hz.
  step Hr d0 s1 E1. pose proof E1 as E1'. apply ld_on_blk in E1'. unfold holds in Hz. unfold fkzalloc, on_blk in E1. rewrite E1 in Hz.
  destruct (Z.eqb_spec d0 NULL) as [->|Hd0]; [injection Hr as <- _; vm_compute in Herr; done|].
  rewrite puts_step in Hr. step Hr str s2 E2. apply ld_on_blk in E2.
  destruct (str =? NULL).
  { step Hr u s3 E3. rewrite puts_step in Hr. injection Hr as <- _. vm_compute in Herr. done. }
  rewrite bytes_get_Ok in Hr by lia. change (Z.to_nat 0) with 0%nat in Hr. rewrite drop_0, take_ge in Hr by lia.
  rewrite (lift_step _ _ _ _ eq_refl), puts_step in Hr. injection Hr as <- <-. cbn in E2.
  split; [destruct Hz as [?|?]; [|done|done]|].
  - intros y b (h & -> & [(-> & _)|(_ & Hy & _)]); [by right|left]. intros ?. apply Hy. by apply elem_of_union_l.
  - split; [done|]. eexists. cbn. rewrite E2, E1', insert_insert_eq. split; [done|]. cbn. split; [by destruct q|done].
Qed.

Lemma find_child_state fuel cur q s c s' : find_child fuel cur q s = Ok (c, s') → s' = s.
Proof.
  revert cur. induction fuel as [|fuel IH]; intros cur Hr; [done|]. cbn [find_child] in Hr.
  destruct (cur =? NULL); [by injection Hr as _ <-|].
  destruct (dentries s !! cur) as [x|] eqn:E; [|by rewrite at_ptr_fault in Hr]. rewrite (at_ptr_step _ _ _ _ _ E) in Hr.
  destruct (_ && _).
  - destruct (mem_eq _ _ _ _ _) as [[]| | |]; [| |done..]; rewrite (lift_step _ _ _ _ eq_refl) in Hr; [by injection Hr as _ <-|by eapply IH].
  - rewrite ret_step in Hr. by eapply IH.
Qed.

Lemma mem_eq_refl l : mem_eq (length l) l 0 l 0 = Ok true.
Proof.
  rewrite mem_eq_spec by lia. f_equal. by apply bool_decide_eq_true_2.
Qed.

(** C23: the dentry cache.  A name that [vfs_lookup_direct] has found under a
    directory, whether in memory or on disk, is found again under the same
    address, without another allocation, disk access or change of any
    structure. *)
Theorem lookup_caches s B P parent q c s' : h_live (heap (fblk s)) B P → dom (dentries s) ⊆ B → parent ≠ NULL →
  q_len q = Z.of_nat (length (q_str q)) → vfs_lookup_direct parent q s = Ok (c, s') → IS_ERR c = false →
  vfs_lookup_direct parent q s' = Ok (c, s').
Proof.
  intros Hl Hdom Hpn Hq Hr Herr. pose proof Hr as Hr0. unfold vfs_lookup_direct in Hr.
  destruct (dentries s !! parent) as [p|] eqn:Ep; [|by rewrite at_ptr_fault in Hr]. rewrite (at_ptr_step _ _ _ _ _ Ep), gets_step in Hr.
  step Hr cur s1 E1. apply find_child_state in E1 as ->.
  destruct (negb (cur =? NULL)); [by injection Hr as <- <-|].
  step Hr child s2 E2. destruct (IS_ERR child) eqn:Hce; [injection Hr as <- <-; congruence|].
  destruct (d_alloc_fresh _ _ _ _ _ _ _ Hl Hq E2 Hce) as (HcB & Hcn & x & Hd & Hname & Hpar).
  assert (parent ∈ B) as HpB by (apply Hdom, elem_of_dom; by eexists).
  assert (parent ≠ child) as Hne by (by intros ->).
  assert (dentries s2 !! parent = Some p) as Ep2 by by rewrite Hd, lookup_insert_ne.
  rewrite (at_ptr_step _ _ _ _ _ Ep2) in Hr. step Hr ino s3 E3. assert (s3 = s2) as ->.
  { unfold at_ptr, lift in E3. destruct (deref _ _); try done. by injection E3 as _ <-. }
  step Hr r s4 E4. destruct (Z.ltb_spec r 0) as [Hneg|Hnn].
  { step Hr u s5 E5. injection Hr as <- <-. unfold call_lookup in E4. destruct (i_iops ino); [done|done|].
    apply ext2_lookup_errno in E4. rewrite IS_ERR_ERR_PTR in Herr by lia. done. }
  injection Hr as <- <-. unfold call_lookup in E4. destruct (i_iops ino); [done|done|].
  destruct (ext2_lookup_links _ _ parent x p _ _ _ E4 Hnn) as (p' & x' & Hp' & Hfc & Hx' & Hn'); [by rewrite Hd, lookup_insert_eq|done..|].
  unfold vfs_lookup_direct. rewrite (at_ptr_step _ _ _ _ _ Hp'), gets_step, Hfc.
  erewrite bind_step.
  2:{ cbn [find_child]. rewrite (proj2 (Z.eqb_neq _ _) Hcn), (at_ptr_step _ _ _ _ _ Hx'), Hn', Hname, !Z.eqb_refl. cbn [andb].
      rewrite Hq, Nat2Z.id, mem_eq_refl, (lift_step _ _ _ _ eq_refl). reflexivity. }
  by rewrite (proj2 (Z.eqb_neq _ _) Hcn).
Qed.
End vfs.

(** ** A directory on a disk in memory

    A volume with 1 KiB blocks: the inode table starts at block 5, the root
    directory is block 7 and names inode 12 "ab". *)

Definition demo_dir_block : list Z :=
  concat (dirent_bytes <$> [Dirent 2 2 [46] [0; 0; 0]; Dirent 2 2 [46; 46] [0; 0]; Dirent 12 1 [97; 98] (replicate 990 0)]).
Definition demo_dir_inode : list Z := le_enc 2 0x4000 ++ replicate 2 0 ++ le_enc 4 1024 ++ replicate 32 0 ++ le_enc 4 7 ++ replicate 84 0.
Definition demo_volume : gmap Z (list Z) :=
  {[ 10 := replicate 512 65; 11 := replicate 512 66; 12 := replicate 384 0 ++ demo_inode;
     14 := take 512 demo_dir_block; 15 := drop 512 demo_dir_block ]}.
Definition demo_super : list Z := replicate 88 0 ++ le_enc 2 128 ++ replicate 934 0.
Definition demo_root : Z := 0xffff88800000d080.

Definition demo_tree : fs kheap (gmap Z (list Z)) :=
  Fs (Blk demo_heap1 demo_volume {[ 0x100 := BlockDev [115; 100; 97] 512 4096 0 READ_DRIVER ]} ∅ [0x100])
    {[ 0x200 := Superblock 0x100 demo_root 1024 2 0x900 ]} {[ 0x900 := Ext2FsInfo demo_super 16 8192 1 (Some 0xA00) ]}
    {[ 0x300 := Inode 2 1024 S_IFDIR 0x200 ext2_dir_iops ext2_dir_fops 0x400 ]} {[ 0x400 := Ext2InodeInfo 0x500 1024 0x200 0 ]}
    {[ demo_root := Dentry 0 (Qstr [47] 1 (vfs_hash_name [47])) 0x300 0 0 0 0x200 ]} ∅
    {[ 0x500 := demo_dir_inode; 0xA00 := replicate 8 0 ++ le_enc 4 5 ++ replicate 20 0 ]} demo_root.

Definition demo_name : qstr := Qstr [97; 98] 2 (vfs_hash_name [97; 98]).

Lemma demo_tree_live : h_live (heap (fblk demo_tree)) {[ demo_root ]} ∅.
Proof. destruct demo_heap1_ok as (pools & fl & Hinv). exists pools, fl. split; [exact Hinv|set_solver]. Qed.

Lemma lookup_caches_witness :
  match vfs_lookup_direct demo_root demo_name demo_tree with
  | Ok (c, s') => IS_ERR c = false ∧ vfs_lookup_direct demo_root demo_name s' = Ok (c, s')
  | _ => False
  end.
Proof.
  assert (match vfs_lookup_direct demo_root demo_name demo_tree with Ok (c, _) => negb (IS_ERR c) | _ => false end = true) as Hb
    by (vm_compute; reflexivity).
  destruct (vfs_lookup_direct demo_root demo_name demo_tree) as [[c s']| | |] eqn:E; [|discriminate..].
  apply negb_true_iff in Hb. split; [exact Hb|].
  apply (lookup_caches demo_tree {[ demo_root ]} ∅ demo_root demo_name c s');
    [apply demo_tree_live|apply (bool_decide_unpack _); vm_compute; exact I|discriminate|reflexivity|exact E|exact Hb].
Defined.

Example read_file_by_path :
  match (f ← vfs_open [47; 97; 98]; vfs_seek f 500 SEEK_SET;; vfs_read f 20) demo_tree with
  | Ok ((r, out), _) => r = 20 ∧ out = replicate 12 65 ++ replicate 8 66
  | _ => False
  end.
Proof. vm_compute. done. Qed.
