(* ===== verification/ByteMem.v ===== *)
(** * Memory as bytes

    Memory that packed structures, buffers and devices share: a map from
    addresses to bytes that reads as zero where nothing was written, with
    little-endian integers on top.  Used by the boot loader and by the disk
    driver, whose controller reads and writes the same memory. *)

From S2P Require Import Prelude Types Layout.

Definition ldb (m : gmap Z Z) (a : Z) : Z := default 0 (m !! a).

Fixpoint rd (n : nat) (a : Z) (m : gmap Z Z) : list Z :=
  match n with
  | O => []
  | S n' => ldb m a :: rd n' (a + 1) m
  end.

Fixpoint wr (a : Z) (l : list Z) (m : gmap Z Z) : gmap Z Z :=
  match l with
  | [] => m
  | x :: l' => wr (a + 1) l' (<[a := x]> m)
  end.

Definition le16 (m : gmap Z Z) (a : Z) : Z := le (rd 2 a m).
Definition le32 (m : gmap Z Z) (a : Z) : Z := le (rd 4 a m).

(** ** Reading what was written *)

Lemma length_rd n a m : length (rd n a m) = n.
Proof. revert a. induction n as [|n IH]; intros a; cbn; [done|]. by rewrite IH. Qed.

Lemma rd_ext n a m m' : (∀ i, 0 <= i < Z.of_nat n → ldb m' (a + i) = ldb m (a + i)) → rd n a m' = rd n a m.
Proof.
  revert a. induction n as [|n IH]; intros a Hx; cbn [rd]; [done|]. f_equal.
  - specialize (Hx 0). rewrite Z.add_0_r in Hx. apply Hx. lia.
  - apply IH. intros i Hi. specialize (Hx (1 + i)). rewrite Z.add_assoc in Hx. apply Hx. lia.
Qed.

Lemma rd_lookup n a m i : 0 <= i < Z.of_nat n → znth 0 (rd n a m) i = ldb m (a + i).
Proof.
  revert a i. induction n as [|n IH]; intros a i Hi; [lia|]. cbn [rd]. destruct (decide (i = 0)) as [->|Hne].
  - by rewrite Z.add_0_r.
  - unfold znth. replace (Z.to_nat i) with (S (Z.to_nat (i - 1))) by lia. cbn. change (znth 0 (rd n (a + 1) m) (i - 1) = ldb m (a + i)).
    rewrite IH by lia. f_equal. lia.
Qed.

Lemma rd_app n k a m : rd (n + k) a m = rd n a m ++ rd k (a + Z.of_nat n) m.
Proof.
  revert a. induction n as [|n IH]; intros a; cbn [rd Nat.add app]; [by rewrite Z.add_0_r|].
  rewrite IH. do 3 f_equal. lia.
Qed.

(** Part of a range read. *)
Lemma rd_sub n a m k o : 0 <= o → o + Z.of_nat k <= Z.of_nat n → rd k (a + o) m = take k (drop (Z.to_nat o) (rd n a m)).
Proof.
  intros Ho Hk. replace n with (Z.to_nat o + (k + (n - Z.to_nat o - k)))%nat by lia.
  rewrite !rd_app, drop_app_length' by (by rewrite length_rd). rewrite take_app_length' by (by rewrite length_rd).
  f_equal. lia.
Qed.

Lemma ldb_insert m a v x : ldb (<[a := v]> m) x = if x =? a then v else ldb m x.
Proof. unfold ldb. destruct (Z.eqb_spec x a) as [->|]; [by rewrite lookup_insert_eq|by rewrite lookup_insert_ne]. Qed.

Lemma ldb_wr_out a l m x : x < a ∨ a + Z.of_nat (length l) <= x → ldb (wr a l m) x = ldb m x.
Proof.
  revert a m. induction l as [|y l IH]; intros a m Hx; cbn [wr length] in *; [done|].
  rewrite IH, ldb_insert by lia. by rewrite (proj2 (Z.eqb_neq x a)) by lia.
Qed.

Lemma ldb_wr_in a l m i : 0 <= i < Z.of_nat (length l) → ldb (wr a l m) (a + i) = znth 0 l i.
Proof.
  revert a m i. induction l as [|y l IH]; intros a m i Hi; cbn [wr length] in *; [lia|]. destruct (decide (i = 0)) as [->|Hne].
  - rewrite ldb_wr_out, ldb_insert by lia. by rewrite (proj2 (Z.eqb_eq _ _)) by lia.
  - replace (a + i) with (a + 1 + (i - 1)) by lia. rewrite IH by lia. unfold znth.
    by replace (Z.to_nat i) with (S (Z.to_nat (i - 1))) by lia.
Qed.

Lemma rd_wr a l m : rd (length l) a (wr a l m) = l.
Proof.
  apply (list_eq_same_length _ _ (length l)); [done|by rewrite length_rd|]. intros i x y Hi Hx Hy.
  assert (znth 0 (rd (length l) a (wr a l m)) (Z.of_nat i) = znth 0 l (Z.of_nat i)) as Heq
    by (rewrite rd_lookup, ldb_wr_in by lia; done).
  unfold znth in Heq. rewrite Nat2Z.id, Hx, Hy in Heq. done.
Qed.

Lemma wr_app a l1 l2 m : wr a (l1 ++ l2) m = wr (a + Z.of_nat (length l1)) l2 (wr a l1 m).
Proof.
  revert a m. induction l1 as [|x l1 IH]; intros a m; cbn [app wr length]; [by rewrite Z.add_0_r|].
  rewrite IH. f_equal. lia.
Qed.

(** ** Little-endian integers in memory *)

Definition ld_le (n : nat) (a : Z) (m : gmap Z Z) : Z := le (rd n a m).
Definition st_le (n : nat) (a v : Z) (m : gmap Z Z) : gmap Z Z := wr a (le_enc n v) m.

Lemma le_enc_mod n v : le (le_enc n v) = v mod 256 ^ Z.of_nat n.
Proof.
  revert v. induction n as [|n IH]; intros v; cbn [le le_enc]; [by rewrite Z.mod_1_r|].
  rewrite IH, Nat2Z.inj_succ, Z.pow_succ_r, Z.rem_mul_r by lia. done.
Qed.

Lemma ld_le_st_mod n a v m : ld_le n a (st_le n a v m) = v mod 256 ^ Z.of_nat n.
Proof. unfold ld_le, st_le. rewrite <- (length_le_enc n v) at 1. by rewrite rd_wr, le_enc_mod. Qed.

Lemma ld_le_st_eq n a v m : 0 <= v < 256 ^ Z.of_nat n → ld_le n a (st_le n a v m) = v.
Proof. intros Hv. unfold ld_le, st_le. rewrite <- (length_le_enc n v) at 1. by rewrite rd_wr, le_le_enc. Qed.

Lemma ld_le_ext n a m m' : (∀ i, 0 <= i < Z.of_nat n → ldb m' (a + i) = ldb m (a + i)) → ld_le n a m' = ld_le n a m.
Proof. intros Hx. unfold ld_le. by rewrite (rd_ext n a m m'). Qed.

Lemma ldb_st_out n a v m x : x < a ∨ a + Z.of_nat n <= x → ldb (st_le n a v m) x = ldb m x.
Proof. intros Hx. apply ldb_wr_out. by rewrite length_le_enc. Qed.

Lemma ld_le_st_ne n k a b v m : b + Z.of_nat k <= a ∨ a + Z.of_nat n <= b → ld_le k b (st_le n a v m) = ld_le k b m.
Proof. intros Hd. apply ld_le_ext. intros i Hi. apply ldb_st_out. lia. Qed.

(** Bytes sent to a list of addresses, in order. *)
Fixpoint scatter (addrs data : list Z) (m : gmap Z Z) : gmap Z Z :=
  match addrs, data with
  | a :: addrs', x :: data' => scatter addrs' data' (<[a := x]> m)
  | _, _ => m
  end.

Lemma scatter_out addrs data m x : x ∉ addrs → ldb (scatter addrs data m) x = ldb m x.
Proof.
  revert data m. induction addrs as [|a addrs IH]; intros [|d data] m Hx; cbn [scatter]; [done..|].
  apply not_elem_of_cons in Hx as [Hne Hx]. rewrite IH, ldb_insert by done. by rewrite (proj2 (Z.eqb_neq x a)).
Qed.

(** A contiguous range receives the data as [wr] does. *)
Lemma scatter_seqZ a data m : scatter (seqZ a (Z.of_nat (length data))) data m = wr a data m.
Proof.
  revert a m. induction data as [|x data IH]; intros a m; [done|]. cbn [length].
  rewrite seqZ_cons by lia. cbn [scatter wr]. rewrite <- IH. do 2 f_equal; lia.
Qed.

(** Two memories that agree outside [P] still do after the same transfer. *)
Lemma scatter_agree (P : Z → Prop) addrs data m m' : (∀ x, ¬ P x → ldb m' x = ldb m x) → ∀ x, ¬ P x → ldb (scatter addrs data m') x = ldb (scatter addrs data m) x.
Proof.
  revert data m m'. induction addrs as [|a addrs IH]; intros [|d data] m m' Hm x Hx; cbn [scatter]; [by apply Hm..|].
  apply IH; [|done]. intros y Hy. rewrite !ldb_insert. by rewrite Hm.
Qed.
