(* ===== verification/BootLoad.v ===== *)
(** * The kernel loader of the boot stage (arch/x86_64/boot/loadkernel.c)

    The second boot stage runs in flat real mode with 32-bit registers: a
    [size_t] and a [uint32_t] are [u32].  Memory is a map of bytes that reads
    as zero where nothing was written.  [issue_read_to_disk] (stage2.asm) asks
    the BIOS for sectors and does not return when that fails; the disk is the
    parameter [disk], the content of every sector.  Allocation is a bump
    pointer; [free] gives back the bytes allocated last.

    The specification is the content of a file by its block map: direct,
    indirect and doubly indirect pointers, and zeros for a block that is not
    allocated. *)

From S2P Require Import Prelude Types StateMonad Layout ByteMem.

Definition TEMP_BUF_ADDR : Z := 0x1110.
Definition TEMP_BUF_SIZE : Z := 4096.
Definition HEAP_ADDR : Z := 0x64000.
Definition HEAP_SIZE : Z := 1024 * 80.
Definition SECTOR_SIZE : Z := 512.
Definition DIRECT_BLOCK_POINTERS_COUNT : Z := 12.
Definition BLOCK_GROUP_DESCRIPTOR_SIZE : Z := 32.
Definition KERNEL_LOAD_DEST : Z := 0x1000000.

(** "kernel.bin" *)
Definition KERNEL_FILENAME : list Z := [107; 101; 114; 110; 101; 108; 46; 98; 105; 110].

(** The globals of loadkernel.h and the memory. *)
Record loader := Loader {
  lmem : gmap Z Z; brk : Z; remaining : Z; pstart : Z;
  blocksize : Z; sectors_per_block : Z; blocks_per_bg : Z; inode_size : Z; inodes_per_bg : Z; bgdt_lba : Z
}.

Definition with_mem (m : gmap Z Z) (s : loader) : loader :=
  Loader m (brk s) (remaining s) (pstart s) (blocksize s) (sectors_per_block s) (blocks_per_bg s) (inode_size s) (inodes_per_bg s) (bgdt_lba s).
Definition with_brk (b r : Z) (s : loader) : loader :=
  Loader (lmem s) b r (pstart s) (blocksize s) (sectors_per_block s) (blocks_per_bg s) (inode_size s) (inodes_per_bg s) (bgdt_lba s).
Definition with_pstart (p : Z) (s : loader) : loader :=
  Loader (lmem s) (brk s) (remaining s) p (blocksize s) (sectors_per_block s) (blocks_per_bg s) (inode_size s) (inodes_per_bg s) (bgdt_lba s).
Definition with_bgdt (b : Z) (s : loader) : loader :=
  Loader (lmem s) (brk s) (remaining s) (pstart s) (blocksize s) (sectors_per_block s) (blocks_per_bg s) (inode_size s) (inodes_per_bg s) b.

(** Division by a zero read from the disk is a processor fault. *)
Definition div_u (a b : Z) : res Z := if b =? 0 then Fault else Ok (a / b).
Definition mod_u (a b : Z) : res Z := if b =? 0 then Fault else Ok (a mod b).

(** ** Utilities *)

Definition malloc (size : Z) : M loader Z := λ s,
  if size <=? remaining s then Ok (brk s, with_brk (brk s + size) (u32 (remaining s - size)) s) else Ok (NULL, s).

Definition free (size : Z) : M loader () := puts (λ s, with_brk (brk s - size) (u32 (remaining s + size)) s).

(** A string is its bytes before the terminator. *)
Definition strlen (f : list Z) : Z := Z.of_nat (length f).

(** The loop of [strncmp]: the final [i]. *)
Fixpoint strncmp_loop (n : nat) (i : Z) (s1 : list Z) (s2 : Z) (m : gmap Z Z) : Z :=
  match n with
  | O => i
  | S n' =>
      if negb (znth 0 s1 i =? 0) && negb (ldb m (s2 + i) =? 0) && (znth 0 s1 i =? ldb m (s2 + i))
      then strncmp_loop n' (i + 1) s1 s2 m else i
  end.

(** True when the first [n] characters are equal. *)
Definition strncmp (s1 : list Z) (s2 n : Z) (m : gmap Z Z) : bool := strncmp_loop (Z.to_nat n) 0 s1 s2 m =? n.

Fixpoint memcpy_loop (n : nat) (dest src : Z) (m : gmap Z Z) : gmap Z Z :=
  match n with
  | O => m
  | S n' => memcpy_loop n' (dest + 1) (src + 1) (<[dest := ldb m src]> m)
  end.
Definition memcpy (dest src size : Z) (m : gmap Z Z) : gmap Z Z := memcpy_loop (Z.to_nat size) dest src m.

Fixpoint memset_loop (n : nat) (dest c : Z) (m : gmap Z Z) : gmap Z Z :=
  match n with
  | O => m
  | S n' => memset_loop n' (dest + 1) c (<[dest := c]> m)
  end.
Definition memset (dest c n : Z) (m : gmap Z Z) : gmap Z Z := memset_loop (Z.to_nat n) dest c m.

Definition min (a b : Z) : Z := if a <? b then a else b.

Section loader.
Context (disk : Z → list Z).

(** ** Disk reads *)

(** The BIOS packet holds 16 bits of the address and of the sector count. *)
Definition issue_read_to_disk (lba sectors buf : Z) (m : gmap Z Z) : gmap Z Z :=
  wr (u16 buf) (concat (disk <$> seqZ lba (u16 sectors))) m.

(** Each round reads at least one sector, so the number of sectors bounds the
    rounds. *)
Fixpoint read_rounds (fuel : nat) (lba sectors buf : Z) (m : gmap Z Z) : res (gmap Z Z) :=
  match fuel with
  | O => OutOfFuel
  | S fuel' =>
      if 0 <? sectors then
        let sectors_toread := min (TEMP_BUF_SIZE / SECTOR_SIZE) sectors in
        let m := issue_read_to_disk lba sectors_toread TEMP_BUF_ADDR m in
        let m := memcpy buf TEMP_BUF_ADDR (sectors_toread * SECTOR_SIZE) m in
        read_rounds fuel' (u32 (lba + sectors_toread)) (sectors - sectors_toread) (buf + sectors_toread * SECTOR_SIZE) m
      else Ok m
  end.

Definition read (lba sectors buf : Z) : M loader () := λ s,
  m ← read_rounds (S (Z.to_nat sectors)) lba sectors buf (lmem s); Ok ((), with_mem m s).

(** ** The superblock and inodes *)

Definition read_and_parse_superblock (superblock : Z) : M loader () :=
  p ← gets pstart;
  read (u32 (p + 2)) 2 superblock;;
  puts (λ s,
    let m := lmem s in
    let bs := u32 (Z.shiftl 1024 (le32 m (superblock + 24))) in
    Loader m (brk s) (remaining s) (pstart s) bs (bs / SECTOR_SIZE) (le32 m (superblock + 32)) (le16 m (superblock + 88))
      (le32 m (superblock + 40)) (bgdt_lba s)).

Definition rootdir_inode : M loader Z :=
  s ← gets id;
  q ← lift (div_u (4 - 1) (sectors_per_block s));
  let bgdt_first_block := q + 1 in
  puts (with_bgdt (u32 (pstart s + u32 (bgdt_first_block * sectors_per_block s))));;
  bgdt ← malloc SECTOR_SIZE;
  if bgdt =? NULL then mret NULL else
  lba ← gets bgdt_lba;
  read lba 1 bgdt;;
  inode_table_starting_block ← gets (λ s, le32 (lmem s) (bgdt + 8));
  free SECTOR_SIZE;;
  inode_table ← malloc SECTOR_SIZE;
  if inode_table =? NULL then mret NULL else
  read (u32 (pstart s + u32 (inode_table_starting_block * sectors_per_block s))) 1 inode_table;;
  mret (inode_table + inode_size s).

(** ** Searching the root directory *)

(** An entry of size 0 keeps the loop where it is for ever; any other moves
    it, so the block size bounds the rounds. *)
Fixpoint search_dir_block_loop (fuel : nat) (entry block bs : Z) (filename : list Z) (m : gmap Z Z) : res Z :=
  match fuel with
  | O => OutOfFuel
  | S fuel' =>
      if entry + 6 <? block + bs then
        let entry_size := le16 m (entry + 4) in
        if block + bs <? entry + entry_size then Ok 0 else
        let name_len := ldb m (entry + 6) in
        if negb (name_len =? strlen filename) then search_dir_block_loop fuel' (entry + entry_size) block bs filename m else
        if strncmp filename (entry + 8) (strlen filename) m then Ok (le32 m entry)
        else search_dir_block_loop fuel' (entry + entry_size) block bs filename m
      else Ok 0
  end.

Definition search_dir_block (block : Z) (filename : list Z) : M loader Z := λ s,
  n ← search_dir_block_loop (S (Z.to_nat (blocksize s))) block block (blocksize s) filename (lmem s); Ok (n, s).

Fixpoint search_dir_loop (n : nat) (direct_ptr buf : Z) (filename : list Z) : M loader Z :=
  match n with
  | O => mret 0
  | S n' =>
      s ← gets id;
      let ptr := le32 (lmem s) direct_ptr in
      if ptr =? 0 then search_dir_loop n' (direct_ptr + 4) buf filename else
      let block_lba := u32 (pstart s + u32 (ptr * sectors_per_block s)) in
      read block_lba (sectors_per_block s) buf;;
      inode_num ← search_dir_block buf filename;
      if negb (inode_num =? 0) then mret inode_num else search_dir_loop n' (direct_ptr + 4) buf filename
  end.

Definition search_dir (dir_inode : Z) (filename : list Z) : M loader Z :=
  bs ← gets blocksize;
  buf ← malloc bs;
  if buf =? NULL then mret 0 else
  inode_num ← search_dir_loop (Z.to_nat DIRECT_BLOCK_POINTERS_COUNT) (dir_inode + 40) buf filename;
  free bs;;
  mret inode_num.

Definition get_inode (inode_num : Z) : M loader Z :=
  s ← gets id;
  bg_num ← lift (div_u (u32 (inode_num - 1)) (inodes_per_bg s));
  let bg_desc_offset := u32 (bg_num * BLOCK_GROUP_DESCRIPTOR_SIZE) in
  buf ← malloc SECTOR_SIZE;
  if buf =? NULL then mret NULL else
  read (u32 (bgdt_lba s + bg_desc_offset / SECTOR_SIZE)) 1 buf;;
  let bg_desc := buf + bg_desc_offset mod SECTOR_SIZE in
  inode_table_block ← gets (λ s, le32 (lmem s) (bg_desc + 8));
  index ← lift (mod_u (u32 (inode_num - 1)) (inodes_per_bg s));
  let lba_to_read := u32 (pstart s + u32 (inode_table_block * sectors_per_block s) + u32 (index * inode_size s) / SECTOR_SIZE) in
  read lba_to_read 1 buf;;
  mret (buf + u32 (index * inode_size s) mod SECTOR_SIZE).

(** ** Loading the file *)

Fixpoint load_data_loop (n : nat) (dest buf ptr offset max : Z) : M loader Z :=
  match n with
  | O => mret offset
  | S n' =>
      if max <=? offset then mret offset else
      s ← gets id;
      let p := le32 (lmem s) ptr in
      if p =? 0 then
        puts (λ s, with_mem (memset (dest + offset) 0 (blocksize s) (lmem s)) s);;
        load_data_loop n' dest buf (ptr + 4) (u32 (offset + blocksize s)) max
      else
        let block_lba := u32 (pstart s + u32 (p * sectors_per_block s)) in
        read block_lba (sectors_per_block s) buf;;
        let tocopy := min (blocksize s) (u32 (max - offset)) in
        puts (λ s, with_mem (memcpy (dest + offset) buf tocopy (lmem s)) s);;
        load_data_loop n' dest buf (ptr + 4) (u32 (offset + tocopy)) max
  end.

Definition load_data (dest buf ptr n max : Z) : M loader Z := load_data_loop (Z.to_nat n) dest buf ptr 0 max.

(** The loop over the doubly indirect block, from [ptr] to [last]. *)
Fixpoint doubly_loop (fuel : nat) (ptr last buf singly_indirect_ptr offset filesize : Z) : M loader Z :=
  match fuel with
  | O => lift OutOfFuel
  | S fuel' =>
      s ← gets id;
      if ptr <? last then
        if filesize <=? offset then free (u32 (3 * blocksize s));; mret 0 else
        let p := le32 (lmem s) ptr in
        if p =? 0 then
          let tocopy := min (u32 (blocksize s / 4 * blocksize s)) (u32 (filesize - offset)) in
          puts (λ s, with_mem (memset (KERNEL_LOAD_DEST + offset) 0 tocopy (lmem s)) s);;
          doubly_loop fuel' (ptr + 4) last buf singly_indirect_ptr (u32 (offset + tocopy)) filesize
        else
          read (u32 (pstart s + u32 (p * sectors_per_block s))) (sectors_per_block s) singly_indirect_ptr;;
          n ← load_data (KERNEL_LOAD_DEST + offset) buf singly_indirect_ptr (blocksize s / 4) (u32 (filesize - offset));
          doubly_loop fuel' (ptr + 4) last buf singly_indirect_ptr (u32 (offset + n)) filesize
      else free (u32 (3 * blocksize s));; mret 0
  end.

Definition load_kernel_binary (inode : Z) : M loader Z :=
  s ← gets id;
  let filesize := le32 (lmem s) (inode + 4) in
  let direct_ptr := inode + 40 in
  buf ← malloc (blocksize s);
  if buf =? NULL then mret (-1) else
  n ← load_data (KERNEL_LOAD_DEST + 0) buf direct_ptr DIRECT_BLOCK_POINTERS_COUNT (u32 (filesize - 0));
  let offset := u32 (0 + n) in
  if filesize <=? offset then free (blocksize s);; mret 0 else
  singly_indirect_ptr ← malloc (blocksize s);
  if singly_indirect_ptr =? NULL then free (blocksize s);; mret (-1) else
  singly ← gets (λ s, le32 (lmem s) (inode + 88));
  read (u32 (pstart s + u32 (singly * sectors_per_block s))) (sectors_per_block s) singly_indirect_ptr;;
  n ← load_data (KERNEL_LOAD_DEST + offset) buf singly_indirect_ptr (blocksize s / 4) (u32 (filesize - offset));
  let offset := u32 (offset + n) in
  if filesize <=? offset then free (u32 (2 * blocksize s));; mret 0 else
  doubly_indirect_ptr ← malloc (blocksize s);
  if doubly_indirect_ptr =? NULL then free (u32 (2 * blocksize s));; mret (-1) else
  doubly ← gets (λ s, le32 (lmem s) (inode + 92));
  read (u32 (pstart s + u32 (doubly * sectors_per_block s))) (sectors_per_block s) doubly_indirect_ptr;;
  doubly_loop (S (Z.to_nat (blocksize s))) doubly_indirect_ptr (doubly_indirect_ptr + blocksize s) buf singly_indirect_ptr offset filesize.

Definition loadkernel (partition_start_lba : Z) : M loader Z :=
  puts (with_pstart partition_start_lba);;
  superblock ← malloc 1024;
  if superblock =? NULL then mret 1 else
  read_and_parse_superblock superblock;;
  rootdir ← rootdir_inode;
  if rootdir =? NULL then mret 1 else
  kernel_inode_num ← search_dir rootdir KERNEL_FILENAME;
  if kernel_inode_num =? 0 then mret 1 else
  kernel_inode ← get_inode kernel_inode_num;
  if kernel_inode =? NULL then mret 1 else
  res ← load_kernel_binary kernel_inode;
  if negb (res =? 0) then mret 1 else mret 0.
End loader.

(** The globals before the call. *)
Definition loader0 : loader := Loader ∅ HEAP_ADDR HEAP_SIZE 0 0 0 0 0 0 0.

(** ** Copies *)

Lemma memcpy_loop_wr n dest src m : dest + Z.of_nat n <= src ∨ src + Z.of_nat n <= dest → memcpy_loop n dest src m = wr dest (rd n src m) m.
Proof.
  revert dest src m. induction n as [|n IH]; intros dest src m Hd; cbn [memcpy_loop rd wr]; [done|].
  rewrite IH by lia. f_equal. apply rd_ext. intros i Hi. rewrite ldb_insert. by rewrite (proj2 (Z.eqb_neq _ _)) by lia.
Qed.

Lemma memset_loop_wr n dest c m : memset_loop n dest c m = wr dest (replicate n c) m.
Proof. revert dest m. induction n as [|n IH]; intros dest m; cbn; [done|]. apply IH. Qed.

(** ** Memory up to the temporary buffer

    Every disk read goes through the buffer at [TEMP_BUF_ADDR]; what it leaves
    there is of no interest. *)
Definition in_temp (x : Z) : Prop := TEMP_BUF_ADDR <= x < TEMP_BUF_ADDR + TEMP_BUF_SIZE.
Definition same (m m' : gmap Z Z) : Prop := ∀ x, ¬ in_temp x → ldb m' x = ldb m x.

#[export] Instance same_equiv : Equivalence same.
Proof. split; [by intros m x|by intros m m' Hm x Hx; rewrite Hm|]. intros m1 m2 m3 H12 H23 x Hx. by rewrite H23, H12. Qed.

#[export] Instance wr_same a l : Proper (same ==> same) (wr a l).
Proof.
  intros m m' Hm x Hx. destruct (decide (a <= x < a + Z.of_nat (length l))).
  - replace x with (a + (x - a)) by lia. by rewrite !ldb_wr_in by lia.
  - rewrite !ldb_wr_out by lia. by apply Hm.
Qed.

(** Writing inside the temporary buffer. *)
Lemma wr_temp a l m : TEMP_BUF_ADDR <= a → a + Z.of_nat (length l) <= TEMP_BUF_ADDR + TEMP_BUF_SIZE → same m (wr a l m).
Proof. intros Ha Hl x Hx. apply ldb_wr_out. unfold in_temp in Hx. lia. Qed.

(** A range above the buffer. *)
Definition above_temp (a : Z) : Prop := TEMP_BUF_ADDR + TEMP_BUF_SIZE <= a.

Lemma rd_same n a m m' : same m m' → above_temp a → rd n a m' = rd n a m.
Proof. intros Hm Ha. apply rd_ext. intros i Hi. apply Hm. unfold in_temp, above_temp in *. lia. Qed.

Section disk.
Context (disk : Z → list Z).
Context (disk_sector : ∀ l, length (disk l) = 512%nat).

(** [n] sectors from [lba]. *)
Definition sectors (lba n : Z) : list Z := concat (disk <$> seqZ lba n).

Lemma boot_length_sectors lba n : 0 <= n → Z.of_nat (length (sectors lba n)) = n * SECTOR_SIZE.
Proof.
  intros Hn. unfold sectors, SECTOR_SIZE. rewrite length_concat, <- list_fmap_compose.
  rewrite (list_fmap_ext _ (λ _, 512%nat)) by (intros i x _; apply disk_sector).
  transitivity (Z.of_nat (512 * length (seqZ lba n))); [f_equal|rewrite length_seqZ; lia].
  induction (seqZ lba n) as [|x l IH]; cbn [fmap list_fmap sum_list length]; [done|]. simpl in *. lia.
Qed.

Lemma sectors_app lba t n : 0 <= t <= n → sectors lba n = sectors lba t ++ sectors (lba + t) (n - t).
Proof. intros Ht. unfold sectors. rewrite <- concat_app, <- fmap_app, <- seqZ_app by lia. do 3 f_equal. lia. Qed.

Lemma read_rounds_spec fuel lba n buf m : 0 <= n < Z.of_nat fuel → 0 <= lba → lba + n <= 2 ^ 32 → above_temp buf →
  returns (read_rounds disk fuel lba n buf m) (same (wr buf (sectors lba n) m)).
Proof.
  revert lba n buf m. induction fuel as [|fuel IH]; intros lba n buf m Hn Hl Hln Hb; [lia|]. cbn [read_rounds].
  destruct (Z.ltb_spec 0 n) as [Hpos|]; [|replace n with 0 by lia; done]. cbv zeta.
  set (t := min (TEMP_BUF_SIZE / SECTOR_SIZE) n). assert (0 < t <= 8 ∧ t <= n) as [Ht Htn].
  { unfold t, min. change (TEMP_BUF_SIZE / SECTOR_SIZE) with 8. destruct (Z.ltb_spec 8 n); lia. }
  clearbody t. pose proof (boot_length_sectors lba t ltac:(lia)) as Hlt. unfold above_temp, TEMP_BUF_ADDR, TEMP_BUF_SIZE, SECTOR_SIZE in Hb, Hlt.
  assert (memcpy buf TEMP_BUF_ADDR (t * SECTOR_SIZE) (issue_read_to_disk disk lba t TEMP_BUF_ADDR m) =
    wr buf (sectors lba t) (wr TEMP_BUF_ADDR (sectors lba t) m)) as Hcpy.
  { unfold issue_read_to_disk, memcpy. change (u16 TEMP_BUF_ADDR) with TEMP_BUF_ADDR. rewrite u16_small by lia.
    unfold SECTOR_SIZE. rewrite memcpy_loop_wr by (unfold TEMP_BUF_ADDR; lia). f_equal. replace (Z.to_nat (t * 512)) with (length (sectors lba t)) by lia. apply rd_wr. }
  rewrite Hcpy. destruct (decide (n = t)) as [->|Hne].
  - replace (t - t) with 0 by lia. destruct fuel as [|fuel]; [lia|]. cbn. apply wr_same, wr_temp; unfold TEMP_BUF_ADDR, TEMP_BUF_SIZE; lia.
  - rewrite u32_small by lia. eapply returns_mono; [apply IH; unfold above_temp, TEMP_BUF_ADDR, TEMP_BUF_SIZE, SECTOR_SIZE; lia|].
    intros m' Hm'. rewrite (sectors_app lba t n), wr_app, Hlt by lia.
    etransitivity; [|exact Hm']. apply wr_same, wr_same, wr_temp; unfold TEMP_BUF_ADDR, TEMP_BUF_SIZE; lia.
Qed.

(** ** A volume *)

Context (pst bs spb : Z).
Context (Hpst : 0 <= pst) (Hspb : 0 < spb <= 32) (Hbs : bs = spb * SECTOR_SIZE).

Definition vol (s : loader) : Prop := pstart s = pst ∧ blocksize s = bs ∧ sectors_per_block s = spb.

(** A block, and the pointers that lead to one on the disk. *)
Definition block (p : Z) : list Z := sectors (pst + p * spb) spb.
Definition ptr_ok (p : Z) : Prop := 0 <= p ∧ pst + (p + 1) * spb <= 2 ^ 32.

Lemma length_block p : Z.of_nat (length (block p)) = bs.
Proof. unfold block. rewrite boot_length_sectors by lia. lia. Qed.

Lemma block_lba p : ptr_ok p → u32 (pst + u32 (p * spb)) = pst + p * spb.
Proof. intros [Hp Hr]. rewrite (u32_small (p * spb)) by nia. apply u32_small. nia. Qed.

Lemma bs_range : 0 < bs <= 2 ^ 14.
Proof. unfold SECTOR_SIZE in Hbs. lia. Qed.

Lemma read_spec s lba n buf : 0 <= n → 0 <= lba → lba + n <= 2 ^ 32 → above_temp buf →
  holds (read disk lba n buf) s (λ _ s', ∃ m', s' = with_mem m' s ∧ same (wr buf (sectors lba n) (lmem s)) m').
Proof.
  intros Hn Hl Hln Hb. unfold holds, read. eapply returns_bind; [apply read_rounds_spec; [lia|done..]|]. intros m' Hm'. by exists m'.
Qed.

Lemma boot_read_block_spec s p buf : ptr_ok p → above_temp buf →
  holds (read disk (u32 (pst + u32 (p * spb))) spb buf) s (λ _ s', ∃ m', s' = with_mem m' s ∧ same (wr buf (block p) (lmem s)) m').
Proof. intros Hp Hb. rewrite block_lba by done. destruct Hp. apply read_spec; [nia..|done]. Qed.

(** The bytes a table of block pointers describes. *)
Definition content (ps : list Z) (i : Z) : Z :=
  let p := znth 0 ps (i / bs) in if p =? 0 then 0 else znth 0 (block p) (i mod bs).

Definition table (m : gmap Z Z) (ptr : Z) (ps : list Z) : Prop := ∀ k, 0 <= k < Z.of_nat (length ps) → le32 m (ptr + 4 * k) = znth 0 ps k.

Section load_data.
Context (m0 : gmap Z Z) (dest buf ptr max : Z) (ps : list Z).
Let N : Z := Z.of_nat (length ps).
Context (Hbuf : above_temp buf) (Hptr : above_temp ptr) (Hdest : above_temp dest).
Context (Hbd : buf + bs <= dest) (Hpd : ptr + 4 * N <= dest) (Hbp : buf + bs <= ptr ∨ ptr + 4 * N <= buf).
Context (Htable : table m0 ptr ps) (Hps : Forall ptr_ok ps) (Hmax : 0 <= max < 2 ^ 32) (HN : N * bs < 2 ^ 32).

(** What holds after [off] bytes: they are the content, up to [max], and
    nothing else changed but the two buffers. *)
Definition loaded (off : Z) (m : gmap Z Z) : Prop :=
  (∀ x, ¬ in_temp x → ¬ (buf <= x < buf + bs) → ¬ (dest <= x < dest + off) → ldb m x = ldb m0 x) ∧
  (∀ j, 0 <= j < off → j < max → ldb m (dest + j) = content ps j).

Lemma loaded_ptr off m i : loaded off m → 0 <= i < N → le32 m (ptr + 4 * i) = znth 0 ps i.
Proof.
  intros [Hfr _] Hi. rewrite <- Htable by done. unfold le32. f_equal. apply rd_ext. intros k Hk. apply Hfr; unfold in_temp, above_temp in *; lia.
Qed.

(** One block more: [t] bytes of [l] go to the end of what is there. *)
Lemma loaded_wr i t l m m1 : loaded (i * bs) m → same m m1 ∨ (∃ b, Z.of_nat (length b) = bs ∧ same (wr buf b m) m1) →
  0 <= i → 0 <= t <= bs → Z.of_nat (length l) = t →
  (∀ k, 0 <= k < t → i * bs + k < max → znth 0 l k = content ps (i * bs + k)) → loaded (i * bs + t) (wr (dest + i * bs) l m1).
Proof.
  intros [Hfr Hc] Hm1 Hi Ht Hl Hlc.
  assert (∀ x, ¬ in_temp x → ¬ (buf <= x < buf + bs) → ldb m1 x = ldb m x) as Hkeep.
  { intros x Hx Hxb. destruct Hm1 as [Hm1|(b & Hb & Hm1)]; rewrite Hm1 by done; [done|]. apply ldb_wr_out. lia. }
  assert (0 <= i * bs) by nia. split.
  - intros x Hx Hxb Hxd. rewrite ldb_wr_out by lia. rewrite Hkeep by done. apply Hfr; [done..|lia].
  - intros j Hj Hjm. destruct (decide (j < i * bs)).
    + rewrite ldb_wr_out by lia. rewrite Hkeep by (unfold in_temp, above_temp in *; lia). apply Hc; lia.
    + replace (dest + j) with (dest + i * bs + (j - i * bs)) by lia. rewrite ldb_wr_in, Hlc by lia. f_equal. lia.
Qed.

Lemma content_at i k : 0 <= i → 0 <= k < bs → content ps (i * bs + k) = if znth 0 ps i =? 0 then 0 else znth 0 (block (znth 0 ps i)) k.
Proof.
  intros Hi Hk. unfold content. replace ((i * bs + k) / bs) with i by (apply (Z.div_unique _ _ _ k); lia).
  by replace ((i * bs + k) mod bs) with k by (apply (Z.mod_unique _ _ i); lia).
Qed.

Lemma load_data_loop_spec n i s : i + Z.of_nat n = N → 0 <= i → i * bs <= max + bs → vol s → loaded (i * bs) (lmem s) →
  holds (load_data_loop disk n dest buf (ptr + 4 * i) (i * bs) max) s (λ off s', ∃ m', s' = with_mem m' s ∧ loaded off m' ∧
    0 <= off <= N * bs ∧ off <= max + bs ∧ (max <= off ∨ off = N * bs)).
Proof.
  pose proof bs_range as Hbr. assert (0 <= N) as HN0 by (unfold N; lia). assert (0 <= N * bs) as HNb by (apply Z.mul_nonneg_nonneg; lia).
  revert i s. induction n as [|n IH]; intros i s Hin Hi Him Hv Hinv; cbn [load_data_loop].
  { exists (lmem s). destruct s; split; [done|]. split; [done|]. replace i with N in * by lia. split; [lia|]. split; [lia|by right]. }
  destruct (Z.leb_spec max (i * bs)) as [Hle|Hlt].
  { exists (lmem s). destruct s; split; [done|]. split; [done|]. split; [nia|]. split; [lia|by left]. }
  apply holds_gets. cbv zeta. unfold id. rewrite (loaded_ptr _ _ i Hinv) by lia. destruct Hv as (Hvp & Hvb & Hvs).
  assert ((i + 1) * bs <= N * bs) as HiN by (apply Z.mul_le_mono_nonneg_r; unfold SECTOR_SIZE in *; lia).
  destruct (Z.eqb_spec (znth 0 ps i) 0) as [Hp0|Hp0].
  - apply holds_puts. rewrite Hvb. unfold memset. rewrite memset_loop_wr, u32_small by nia.
    replace (i * bs + bs) with ((i + 1) * bs) by lia. replace (ptr + 4 * i + 4) with (ptr + 4 * (i + 1)) by lia.
    eapply holds_mono; [apply IH; [lia|lia|lia|done|]|].
    + replace ((i + 1) * bs) with (i * bs + bs) by lia. apply (loaded_wr _ _ _ (lmem s)); [done|by left|done|unfold SECTOR_SIZE in *; lia|rewrite length_replicate; unfold SECTOR_SIZE in *; lia|].
      intros k Hk _. rewrite content_at, Hp0 by done. unfold znth. rewrite lookup_replicate_2 by lia. done.
    + intros off s' (m' & -> & Hm'). by exists m'.
  - assert (ptr_ok (znth 0 ps i)) as Hok.
    { destruct (lookup_lt_is_Some_2 ps (Z.to_nat i)) as [p Hp]; [lia|]. unfold znth. rewrite Hp. by eapply Forall_lookup_1. }
    rewrite Hvp, Hvs, Hvb. eapply holds_bind; [by apply boot_read_block_spec|]. intros _ s' (m1 & -> & Hm1). apply holds_puts. cbn [lmem with_mem].
    set (t := min bs (u32 (max - i * bs))). assert (0 <= t <= bs ∧ i * bs + t <= max ∧ (t = bs ∨ i * bs + t = max)) as (Ht & Htm & Htc).
    { unfold t, min. rewrite u32_small by nia. destruct (Z.ltb_spec bs (max - i * bs)); unfold SECTOR_SIZE in *; lia. }
    clearbody t. unfold memcpy. rewrite memcpy_loop_wr, u32_small by nia.
    assert (loaded (i * bs + t) (wr (dest + i * bs) (rd (Z.to_nat t) buf m1) m1)) as Hl.
    { apply (loaded_wr _ _ _ (lmem s)); [done| |done..|rewrite length_rd; lia|].
      { right. exists (block (znth 0 ps i)). split; [apply length_block|done]. }
      intros k Hk _. rewrite content_at, (proj2 (Z.eqb_neq _ _) Hp0), rd_lookup by lia.
      rewrite Hm1 by (unfold in_temp, above_temp in *; lia). apply ldb_wr_in. rewrite length_block. lia. }
    destruct Htc as [->|Htc].
    + replace (i * bs + bs) with ((i + 1) * bs) in * by lia. replace (ptr + 4 * i + 4) with (ptr + 4 * (i + 1)) by lia.
      eapply holds_mono; [apply IH; [lia|lia|lia|done|done]|]. intros off s' (m' & -> & Hm'). by exists m'.
    + rewrite Htc in *. assert (∀ k, load_data_loop disk k dest buf (ptr + 4 * i + 4) max max = mret max) as ->.
      { intros [|k]; cbn [load_data_loop]; [done|]. by rewrite (proj2 (Z.leb_le max max)) by lia. }
      eexists. split; [reflexivity|]. split; [exact Hl|]. split; [nia|]. split; [lia|by left].
Qed.
End load_data.

(** ** The content of a file *)

(** The pointers in a block, or in part of an inode. *)
Definition ptrs (l : list Z) : list Z := (λ k, le (take 4 (drop (4 * k) l))) <$> seq 0 (length l `div` 4).

(** The fields of an inode. *)
Definition ino_size (ino : list Z) : Z := le (take 4 (drop 4 ino)).
Definition ino_direct (ino : list Z) : list Z := ptrs (take 48 (drop 40 ino)).
Definition ino_singly (ino : list Z) : Z := le (take 4 (drop 88 ino)).
Definition ino_doubly (ino : list Z) : Z := le (take 4 (drop 92 ino)).

(** The block of number [i] in the table block [t]; a missing table is a hole. *)
Definition ptr_in (t i : Z) : Z := if t =? 0 then 0 else znth 0 (ptrs (block t)) i.

(** The [i]-th block of the file: 0 when there is none. *)
Definition file_ptr (ino : list Z) (i : Z) : Z :=
  let q := bs / 4 in
  if i <? 12 then znth 0 (ino_direct ino) i
  else if i - 12 <? q then ptr_in (ino_singly ino) (i - 12)
  else ptr_in (ptr_in (ino_doubly ino) ((i - 12 - q) / q)) ((i - 12 - q) mod q).

Definition file_byte (ino : list Z) (i : Z) : Z :=
  let p := file_ptr ino (i / bs) in if p =? 0 then 0 else znth 0 (block p) (i mod bs).

(** An inode the loader handles: its pointers lie on the disk, the tables its
    size needs exist, and the file fits below 4 GiB. *)
Definition table_ok (t : Z) : Prop := t ≠ 0 ∧ ptr_ok t ∧ Forall ptr_ok (ptrs (block t)).
Record inode_ok (ino : list Z) : Prop := {
  ik_len : length ino = 128%nat;
  ik_direct : Forall ptr_ok (ino_direct ino);
  ik_singly : 12 * bs < ino_size ino → table_ok (ino_singly ino);
  ik_doubly : (12 + bs / 4) * bs < ino_size ino → table_ok (ino_doubly ino) ∧
    ∀ t, t ∈ ptrs (block (ino_doubly ino)) → t ≠ 0 → table_ok t;
  ik_small : ino_size ino <= (12 + bs / 4 + bs / 4 * (bs / 4)) * bs;
  ik_fits : 0 <= ino_size ino ∧ KERNEL_LOAD_DEST + ino_size ino + bs <= 2 ^ 32
}.

Lemma length_ptrs l : length (ptrs l) = (length l `div` 4)%nat.
Proof. unfold ptrs. by rewrite length_fmap, length_seq. Qed.

Lemma length_ptrs_block p : Z.of_nat (length (ptrs (block p))) = bs / 4.
Proof. rewrite length_ptrs, Nat2Z.inj_div, length_block. done. Qed.

Lemma table_rd m a l : rd (length l) a m = l → table m a (ptrs l).
Proof.
  intros Hrd k Hk. rewrite length_ptrs in Hk. unfold le32, ptrs, znth. rewrite list_lookup_fmap, lookup_seq_lt by lia.
  rewrite Nat2Z.inj_div in Hk. cbn [fmap option_fmap option_map from_option].
  unfold id. rewrite (rd_sub (length l)) by zlia. rewrite Hrd. by replace (Z.to_nat (4 * k)) with (4 * (0 + Z.to_nat k))%nat by lia.
Qed.

Lemma file_content ino base ps j : 0 <= base → (∀ k, 0 <= k < Z.of_nat (length ps) → file_ptr ino (base + k) = znth 0 ps k) →
  0 <= j < Z.of_nat (length ps) * bs → file_byte ino (base * bs + j) = content ps j.
Proof.
  intros Hb Hps Hj. pose proof bs_range as Hr. unfold file_byte, content. rewrite Z.div_add_l by lia.
  rewrite (Z.add_comm (base * bs)), Z.mod_add by lia. rewrite Hps; [done|].
  split; [apply Z.div_pos; lia|]. apply Z.div_lt_upper_bound; lia.
Qed.

Section load_kernel.
Context (m0 : gmap Z Z) (ino : list Z) (lo : Z).
Context (Hino : inode_ok ino) (Hlo : above_temp lo) (Htop : lo + 3 * bs <= KERNEL_LOAD_DEST).

Notation size := (ino_size ino).

(** The first [off] bytes are in place; apart from the three buffers and the
    destination nothing changed. *)
Definition kernel_at (off : Z) (m : gmap Z Z) : Prop :=
  (∀ x, ¬ in_temp x → ¬ (lo <= x < lo + 3 * bs) → ¬ (KERNEL_LOAD_DEST <= x < KERNEL_LOAD_DEST + off) → ldb m x = ldb m0 x) ∧
  (∀ j, 0 <= j < off → j < size → ldb m (KERNEL_LOAD_DEST + j) = file_byte ino j).

Definition below_dest (m m' : gmap Z Z) : Prop := ∀ x, ¬ in_temp x → ¬ (lo <= x < lo + bs) → x < KERNEL_LOAD_DEST → ldb m' x = ldb m x.

(** Loading through one table of pointers. *)
Lemma load_phase s base ptr ps : vol s → kernel_at (base * bs) (lmem s) → 0 <= base → base * bs < size →
  above_temp ptr → ptr + 4 * Z.of_nat (length ps) <= KERNEL_LOAD_DEST → lo + bs <= ptr ∨ ptr + 4 * Z.of_nat (length ps) <= lo →
  table (lmem s) ptr ps → Forall ptr_ok ps → Z.of_nat (length ps) * bs < 2 ^ 32 →
  (∀ k, 0 <= k < Z.of_nat (length ps) → file_ptr ino (base + k) = znth 0 ps k) →
  holds (load_data disk (KERNEL_LOAD_DEST + base * bs) lo ptr (Z.of_nat (length ps)) (u32 (size - base * bs))) s
    (λ n s', ∃ m', s' = with_mem m' s ∧ kernel_at (base * bs + n) m' ∧ below_dest (lmem s) m' ∧
      0 <= n <= Z.of_nat (length ps) * bs ∧ base * bs + n <= size + bs ∧ (size <= base * bs + n ∨ n = Z.of_nat (length ps) * bs)).
Proof.
  intros Hv [Hfr Hc] Hb0 Hbs' Hpt Hpd Hdis Htab Hps Hsm Hfile. pose proof bs_range as Hr. destruct (ik_fits _ Hino) as [Hs0 Hfit].
  unfold above_temp, KERNEL_LOAD_DEST, TEMP_BUF_ADDR, TEMP_BUF_SIZE in *. assert (0 <= base * bs) by (apply Z.mul_nonneg_nonneg; lia).
  rewrite u32_small by lia. unfold load_data. rewrite Nat2Z.id. replace ptr with (ptr + 4 * 0) by lia. replace 0 with (0 * bs) at 2 by lia.
  eapply holds_mono; [eapply (load_data_loop_spec (lmem s) _ lo ptr (size - base * bs) ps); unfold above_temp, TEMP_BUF_ADDR, TEMP_BUF_SIZE;
    try done; try lia|].
  { split; [done|]. intros j Hj. lia. }
  intros n s' (m' & -> & [Hlf Hlc] & Hn & Hnm & Hend). exists m'. split; [done|]. split; [split|split; [|split; [done|lia]]].
  - unfold KERNEL_LOAD_DEST. intros x Hx Hxl Hxd. rewrite Hlf by (done || lia). apply Hfr; [done|lia..].
  - unfold KERNEL_LOAD_DEST. intros j Hj Hjs. destruct (decide (j < base * bs)).
    + rewrite Hlf by (unfold in_temp, TEMP_BUF_ADDR, TEMP_BUF_SIZE; lia). apply Hc; lia.
    + replace j with (base * bs + (j - base * bs)) by lia. rewrite Z.add_assoc, Hlc by lia. symmetry. apply file_content; [done..|lia].
  - intros x Hx Hxl Hxd. apply Hlf; unfold KERNEL_LOAD_DEST in *; [done|lia..].
Qed.

Definition freed (n : Z) (s : loader) : loader := with_brk (brk s - n * bs) (u32 (remaining s + n * bs)) s.

Lemma boot_free_step {A} n s (k : () → M loader A) Q : 0 <= n <= 3 → holds (k ()) (freed n s) Q → holds (free (u32 (n * bs)) ≫= k) s Q.
Proof. intros Hn Hk. pose proof bs_range. rewrite u32_small by nia. exact Hk. Qed.

(** What the caller sees at the end. *)
Definition kernel_done (n : Z) (s : loader) (r : Z) (s' : loader) : Prop :=
  r = 0 ∧ ∃ m' off, s' = freed n (with_mem m' s) ∧ size <= off <= size + bs ∧ kernel_at off m'.

Lemma kernel_done_mem n s m (k : M loader Z) : holds k (with_mem m s) (kernel_done n (with_mem m s)) → holds k (with_mem m s) (kernel_done n s).
Proof. intros Hk. eapply holds_mono; [exact Hk|]. intros r s' (-> & m' & off & -> & Hoff). split; [done|]. by exists m', off. Qed.

Lemma doubly_done fuel ptr last buf sp off s : vol s → size <= off <= size + bs → kernel_at off (lmem s) →
  holds (doubly_loop disk (S fuel) ptr last buf sp off size) s (kernel_done 3 s).
Proof.
  intros (_ & Hvb & _) Hle Hk. cbn [doubly_loop]. apply holds_gets. unfold id. rewrite (proj2 (Z.leb_le _ _) (proj1 Hle)), Hvb.
  destruct (ptr <? last); (apply boot_free_step; [lia|]); (split; [done|]); exists (lmem s), off; destruct s; done.
Qed.

Lemma file_ptr_direct k : 0 <= k < 12 → file_ptr ino k = znth 0 (ino_direct ino) k.
Proof. intros Hk. unfold file_ptr. by rewrite (proj2 (Z.ltb_lt k 12)) by lia. Qed.

Lemma file_ptr_singly k : 0 <= k < bs / 4 → file_ptr ino (12 + k) = ptr_in (ino_singly ino) k.
Proof.
  intros Hk. unfold file_ptr. rewrite (proj2 (Z.ltb_ge (12 + k) 12)) by lia. replace (12 + k - 12) with k by lia.
  by rewrite (proj2 (Z.ltb_lt k _)) by lia.
Qed.

Lemma file_ptr_doubly t k : 0 <= t → 0 <= k < bs / 4 → file_ptr ino (12 + bs / 4 + t * (bs / 4) + k) = ptr_in (ptr_in (ino_doubly ino) t) k.
Proof.
  intros Ht Hk. set (q := bs / 4) in *. assert (0 <= t * q) by nia. unfold file_ptr. fold q. rewrite (proj2 (Z.ltb_ge _ 12)) by lia.
  rewrite (proj2 (Z.ltb_ge _ q)) by lia. replace (12 + q + t * q + k - 12 - q) with (k + t * q) by lia.
  rewrite Z.div_add, Z.mod_add, Z.div_small, Z.mod_small by lia. done.
Qed.

(** Bytes of a region of the file that has no blocks. *)
Lemma kernel_at_zeros base n t m : kernel_at (base * bs) m → 0 <= base → 0 <= t <= n * bs →
  (∀ k, 0 <= k < n → file_ptr ino (base + k) = 0) → kernel_at (base * bs + t) (memset (KERNEL_LOAD_DEST + base * bs) 0 t m).
Proof.
  intros [Hfr Hc] Hb Ht Hz. pose proof bs_range as Hr. assert (0 <= base * bs) by (apply Z.mul_nonneg_nonneg; lia).
  unfold memset. rewrite memset_loop_wr. split.
  - intros x Hx Hxl Hxd. rewrite ldb_wr_out by (rewrite length_replicate; lia). apply Hfr; [done..|lia].
  - intros j Hj Hjs. destruct (decide (j < base * bs)).
    + rewrite ldb_wr_out by (rewrite length_replicate; lia). apply Hc; lia.
    + replace (KERNEL_LOAD_DEST + j) with (KERNEL_LOAD_DEST + base * bs + (j - base * bs)) by lia. rewrite ldb_wr_in by (rewrite length_replicate; lia).
      unfold znth. rewrite lookup_replicate_2 by lia. cbn. unfold file_byte.
      replace j with ((j - base * bs) + base * bs) by lia. rewrite Z.div_add by lia. rewrite Z.add_comm, Hz; [done|].
      split; [apply Z.div_pos; lia|]. apply Z.div_lt_upper_bound; lia.
Qed.

(** Reading a block into one of the heap buffers. *)
Lemma kernel_at_heap off m m' a b : kernel_at off m → same (wr a b m) m' → lo <= a → a + Z.of_nat (length b) <= lo + 3 * bs → kernel_at off m'.
Proof.
  intros [Hfr Hc] Hs Ha Hb. split.
  - intros x Hx Hxl Hxd. rewrite Hs, ldb_wr_out by (done || lia). by apply Hfr.
  - intros j Hj Hjs. rewrite Hs, ldb_wr_out by (unfold in_temp, above_temp, KERNEL_LOAD_DEST, TEMP_BUF_ADDR, TEMP_BUF_SIZE in *; lia). by apply Hc.
Qed.

Lemma table_keep m m' a ps : table m a ps → (∀ x, a <= x < a + 4 * Z.of_nat (length ps) → ldb m' x = ldb m x) → table m' a ps.
Proof. intros Ht Hx k Hk. rewrite <- Ht by done. unfold le32. f_equal. apply rd_ext. intros i Hi. apply Hx. lia. Qed.

Lemma quarter : 4 * (bs / 4) = bs ∧ 0 < bs / 4 <= 2 ^ 12.
Proof. unfold SECTOR_SIZE in Hbs. clear -Hbs Hspb. zlia. Qed.

Lemma doubly_loop_spec fuel k s : 0 <= k <= bs / 4 → bs / 4 - k < Z.of_nat fuel → vol s → (12 + bs / 4) * bs < size → (12 + bs / 4 + k * (bs / 4)) * bs <= size + bs →
  kernel_at ((12 + bs / 4 + k * (bs / 4)) * bs) (lmem s) → table (lmem s) (lo + 2 * bs) (ptrs (block (ino_doubly ino))) →
  holds (doubly_loop disk fuel (lo + 2 * bs + 4 * k) (lo + 2 * bs + bs) lo (lo + bs) ((12 + bs / 4 + k * (bs / 4)) * bs) size) s (kernel_done 3 s).
Proof.
  intros Hk Hf Hv Hsz Hoff Hkern Htab. destruct quarter as [Hq4 Hq]. pose proof bs_range as Hr. assert (size + bs < 2 ^ 32) as Hfit by (destruct (ik_fits _ Hino); unfold KERNEL_LOAD_DEST in *; lia).
  destruct (ik_doubly _ Hino Hsz) as [(Hd0 & Hdok & _) Htabs].
  revert k s Hk Hf Hv Hoff Hkern Htab. induction fuel as [|fuel IH]; intros k s Hk Hf Hv Hoff Hkern Htab; [lia|].
  destruct (Z.leb_spec size ((12 + bs / 4 + k * (bs / 4)) * bs)) as [Hle|Hlt]; [by apply doubly_done|].
  pose proof (ik_small _ Hino) as Hsmall. assert (k < bs / 4) as Hkq.
  { destruct (decide (k = bs / 4)) as [->|]; [lia|lia]. }
  set (base := 12 + bs / 4 + k * (bs / 4)) in *. assert (0 <= base) as Hb0 by (unfold base; nia). assert (0 <= base * bs) by nia.
  assert (12 + bs / 4 + (k + 1) * (bs / 4) = base + bs / 4) as Hnext by (unfold base; lia).
  pose proof (length_ptrs_block (ino_doubly ino)) as Hlen. cbn [doubly_loop]. apply holds_gets. unfold id.
  rewrite (proj2 (Z.ltb_lt _ _)), (proj2 (Z.leb_gt _ _) Hlt), (Htab k) by lia. destruct Hv as (Hvp & Hvb & Hvs). rewrite Hvp, Hvb, Hvs.
  assert (∀ j, 0 <= j < bs / 4 → file_ptr ino (base + j) = ptr_in (znth 0 (ptrs (block (ino_doubly ino))) k) j) as Hfp.
  { intros j Hj. unfold base. rewrite file_ptr_doubly by lia. unfold ptr_in at 2. by rewrite (proj2 (Z.eqb_neq _ _) Hd0). }
  assert (lo + 2 * bs + 4 * k + 4 = lo + 2 * bs + 4 * (k + 1)) as Hp4 by lia. unfold above_temp in Hlo.
  set (p := znth 0 (ptrs (block (ino_doubly ino))) k) in *. assert (0 <= bs / 4 * bs <= 2 ^ 12 * 2 ^ 14) as Hqb by (split; [apply Z.mul_nonneg_nonneg|apply Z.mul_le_mono_nonneg]; lia).
  destruct (Z.eqb_spec p 0) as [Hp0|Hp0]; cbv zeta.
  - rewrite (u32_small (bs / 4 * bs)), (u32_small (size - base * bs)) by lia. apply holds_puts. cbn [lmem].
    set (t := min (bs / 4 * bs) (size - base * bs)). assert (0 <= t <= bs / 4 * bs ∧ base * bs + t <= size ∧ (t = bs / 4 * bs ∨ base * bs + t = size)) as (Ht & Hts & Htc).
    { unfold t, min. destruct (Z.ltb_spec (bs / 4 * bs) (size - base * bs)); lia. }
    clearbody t. rewrite u32_small by lia.
    assert (kernel_at (base * bs + t) (memset (KERNEL_LOAD_DEST + base * bs) 0 t (lmem s))) as Hk2.
    { apply (kernel_at_zeros _ (bs / 4)); [done..|]. intros j Hj. rewrite Hfp by done. by rewrite Hp0. }
    destruct Htc as [->|Htc].
    + rewrite Hp4. replace (base * bs + bs / 4 * bs) with ((12 + bs / 4 + (k + 1) * (bs / 4)) * bs) in * by (rewrite Hnext; lia).
      apply kernel_done_mem, IH; [lia|lia|done|lia|done|].
      cbn [lmem with_mem]. eapply table_keep; [exact Htab|]. intros x Hx. unfold memset. rewrite memset_loop_wr. apply ldb_wr_out. lia.
    + rewrite Htc in *. destruct fuel as [|fuel]; [lia|].
      apply kernel_done_mem, doubly_done; [done|lia|done].
  - assert (p ∈ ptrs (block (ino_doubly ino))) as Hin.
    { unfold p, znth. destruct (lookup_lt_is_Some_2 (ptrs (block (ino_doubly ino))) (Z.to_nat k)) as [v Hv]; [lia|].
      rewrite Hv. by eapply list_elem_of_lookup_2. }
    destruct (Htabs p Hin Hp0) as (_ & Hpok & Hall). clearbody p.
    eapply holds_bind; [apply boot_read_block_spec; [done|unfold above_temp; lia]|]. intros _ s1 (m1 & -> & Hm1).
    pose proof (length_block p) as Hlb. pose proof (length_ptrs_block p) as Hlp. rewrite <- Hlp at 1.
    eapply holds_bind; [apply load_phase; cbn [lmem with_mem]; unfold above_temp; try done; try lia|].
    { eapply kernel_at_heap; [exact Hkern|exact Hm1|lia..]. }
    { apply table_rd. rewrite (rd_same _ _ _ _ Hm1) by (unfold above_temp; lia). apply rd_wr. }
    { intros j Hj. rewrite Hlp in Hj. rewrite Hfp by done. unfold ptr_in. by rewrite (proj2 (Z.eqb_neq _ _) Hp0). }
    intros n s2 (m2 & -> & Hk2 & Hkeep & Hn & Hns & Hend). change (with_mem m2 (with_mem m1 s)) with (with_mem m2 s). cbn [lmem with_mem] in *. rewrite u32_small by lia.
    destruct Hend as [Hend|Hend].
    + destruct fuel as [|fuel]; [lia|].
      apply kernel_done_mem, doubly_done; [done|lia|done].
    + rewrite Hend, Hlp in *. rewrite Hp4. replace (base * bs + bs / 4 * bs) with ((12 + bs / 4 + (k + 1) * (bs / 4)) * bs) in * by (rewrite Hnext; lia).
      apply kernel_done_mem, IH; [lia|lia|done|lia|done|].
      cbn [lmem with_mem]. eapply table_keep; [exact Htab|]. intros x Hx. assert (¬ in_temp x) by (unfold in_temp; lia).
      rewrite Hkeep, Hm1, ldb_wr_out by (done || lia). done.
Qed.
End load_kernel.

Lemma malloc_step {A} s (k : Z → M loader A) Q : bs <= remaining s < 2 ^ 32 →
  holds (k (brk s)) (with_brk (brk s + bs) (remaining s - bs) s) Q → holds (malloc bs ≫= k) s Q.
Proof.
  intros Hr Hk. pose proof bs_range. unfold holds. rewrite (bind_step _ _ _ (brk s) (with_brk (brk s + bs) (remaining s - bs) s)); [exact Hk|].
  unfold malloc. rewrite (proj2 (Z.leb_le _ _)) by lia. by rewrite u32_small by lia.
Qed.

(** The state [n] blocks further up the heap. *)
Definition taken (n : Z) (s : loader) : loader := with_brk (brk s + n * bs) (remaining s - n * bs) s.

Definition kernel_loaded (ino : list Z) (s s' : loader) : Prop :=
  brk s' = brk s ∧ remaining s' = remaining s ∧ vol s' ∧
  (∀ j, 0 <= j < ino_size ino → ldb (lmem s') (KERNEL_LOAD_DEST + j) = file_byte ino j) ∧
  (∀ x, ¬ in_temp x → ¬ (brk s <= x < brk s + 3 * bs) → x < KERNEL_LOAD_DEST ∨ KERNEL_LOAD_DEST + ino_size ino + bs <= x → ldb (lmem s') x = ldb (lmem s) x).

Lemma kernel_done_loaded ino s n r s' : vol s → 0 <= n <= 3 → 3 * bs <= remaining s < 2 ^ 32 →
  kernel_done (lmem s) ino (brk s) n (taken n s) r s' → r = 0 ∧ kernel_loaded ino s s'.
Proof.
  intros Hv Hn Hr (-> & m' & off & -> & Hoff & Hfr & Hc). pose proof bs_range. split; [done|]. unfold kernel_loaded, freed, taken. cbn [brk remaining lmem with_brk with_mem].
  split; [lia|]. split; [rewrite u32_small; nia|]. split; [done|]. split.
  - intros j Hj. apply Hc; lia.
  - intros x Hx Hxl Hxd. apply Hfr; [done|done|lia].
Qed.

Lemma load_data_empty dest buf ptr n : load_data disk dest buf ptr n 0 = mret 0.
Proof. unfold load_data. by destruct (Z.to_nat n). Qed.

Lemma ino_field ino a m o : rd 128 a m = ino → 0 <= o <= 124 → le32 m (a + o) = le (take 4 (drop (Z.to_nat o) ino)).
Proof. intros Hrd Ho. unfold le32. by rewrite (rd_sub 128), Hrd by lia. Qed.

Lemma ino_table ino a m : length ino = 128%nat → rd 128 a m = ino → table m (a + 40) (ino_direct ino) ∧ Z.of_nat (length (ino_direct ino)) = 12.
Proof.
  intros Hl Hrd. assert (length (take 48 (drop 40 ino)) = 48%nat) as Hl2 by (rewrite length_take, length_drop; lia). split.
  - apply table_rd. rewrite Hl2, (rd_sub 128 a) by lia. by rewrite Hrd.
  - unfold ino_direct. by rewrite length_ptrs, Hl2.
Qed.

Section load_kernel_binary.
Context (s : loader) (a : Z) (ino : list Z).
Context (Hv : vol s) (Hino : inode_ok ino) (Hrd : rd 128 a (lmem s) = ino) (Ha : above_temp a) (Hab : a + 128 <= brk s).
Context (Hrem : 3 * bs <= remaining s < 2 ^ 32) (Htop : brk s + 3 * bs <= KERNEL_LOAD_DEST).

Lemma ino_kept off m : kernel_at (lmem s) ino (brk s) off m → rd 128 a m = ino.
Proof. intros [Hfr _]. rewrite <- Hrd. apply rd_ext. intros i Hi. pose proof bs_range. apply Hfr; unfold in_temp, above_temp in *; lia. Qed.

(** The end of the function after [n] blocks were allocated. *)
Lemma finish n m off : 0 <= n <= 3 → ino_size ino <= off <= ino_size ino + bs → kernel_at (lmem s) ino (brk s) off m →
  holds (free (u32 (n * bs)) ≫= λ _, mret 0) (with_mem m (taken n s)) (λ r s', r = 0 ∧ kernel_loaded ino s s').
Proof.
  intros Hn Hoff Hk. apply boot_free_step; [done|]. apply (kernel_done_loaded ino s n); [done..|]. split; [done|]. by exists m, off.
Qed.

Lemma load_doubly m : kernel_at (lmem s) ino (brk s) ((12 + bs / 4) * bs) m → (12 + bs / 4) * bs < ino_size ino →
  holds (malloc bs ≫= λ doubly_indirect_ptr,
    if doubly_indirect_ptr =? NULL then free (u32 (2 * bs));; mret (-1) else
    doubly ← gets (λ s, le32 (lmem s) (a + 92));
    read disk (u32 (pst + u32 (doubly * spb))) spb doubly_indirect_ptr;;
    doubly_loop disk (S (Z.to_nat bs)) doubly_indirect_ptr (doubly_indirect_ptr + bs) (brk s) (brk s + bs) ((12 + bs / 4) * bs) (ino_size ino))
    (with_mem m (taken 2 s)) (λ r s', r = 0 ∧ kernel_loaded ino s s').
Proof.
  intros Hk Hlt. pose proof bs_range as Hr. destruct quarter as [Hq4 Hq]. unfold above_temp, TEMP_BUF_ADDR, TEMP_BUF_SIZE in Ha.
  apply malloc_step; [cbn; lia|]. cbn [brk with_mem with_brk taken remaining]. rewrite (proj2 (Z.eqb_neq _ _)) by (unfold NULL; lia).
  apply holds_gets. cbn [lmem with_brk]. rewrite (ino_field ino) by (by eapply ino_kept || lia). change (le _) with (ino_doubly ino).
  destruct (ik_doubly _ Hino Hlt) as [(_ & Hok & _) _].
  eapply holds_bind; [apply boot_read_block_spec; [done|unfold above_temp, TEMP_BUF_ADDR, TEMP_BUF_SIZE; lia]|]. intros _ s' (m' & -> & Hm').
  pose proof (length_block (ino_doubly ino)) as Hlb. cbn [lmem with_mem with_brk] in Hm'.
  replace (brk s + 2 * bs) with (brk s + 2 * bs + 4 * 0) at 1 by lia. replace ((12 + bs / 4) * bs) with ((12 + bs / 4 + 0 * (bs / 4)) * bs) by lia.
  eapply holds_mono; [apply (doubly_loop_spec (lmem s) ino (brk s)); cbn [lmem with_mem]; unfold above_temp, TEMP_BUF_ADDR, TEMP_BUF_SIZE; try done; try lia|].
  - replace ((12 + bs / 4 + 0 * (bs / 4)) * bs) with ((12 + bs / 4) * bs) by lia.
    eapply kernel_at_heap; try exact Hk; try exact Hm'; unfold above_temp, TEMP_BUF_ADDR, TEMP_BUF_SIZE; lia.
  - apply table_rd. rewrite (rd_same _ _ _ _ Hm') by (unfold above_temp, TEMP_BUF_ADDR, TEMP_BUF_SIZE; lia). apply rd_wr.
  - intros r s' Hd. apply (kernel_done_loaded ino s 3 r s'); [done|lia|done|]. destruct Hd as (-> & m2 & off & -> & Hd). split; [done|]. exists m2, off.
    split; [|done]. unfold freed, taken, with_brk, with_mem. cbn [lmem brk remaining pstart blocksize sectors_per_block blocks_per_bg inode_size inodes_per_bg bgdt_lba].
    f_equal; [lia|f_equal; lia].
Qed.

Lemma load_singly m : kernel_at (lmem s) ino (brk s) (12 * bs) m → 12 * bs < ino_size ino →
  holds (malloc bs ≫= λ singly_indirect_ptr,
    if singly_indirect_ptr =? NULL then free bs;; mret (-1) else
    singly ← gets (λ s, le32 (lmem s) (a + 88));
    read disk (u32 (pst + u32 (singly * spb))) spb singly_indirect_ptr;;
    n ← load_data disk (KERNEL_LOAD_DEST + 12 * bs) (brk s) singly_indirect_ptr (bs / 4) (u32 (ino_size ino - 12 * bs));
    let offset := u32 (12 * bs + n) in
    if ino_size ino <=? offset then free (u32 (2 * bs));; mret 0 else
    doubly_indirect_ptr ← malloc bs;
    if doubly_indirect_ptr =? NULL then free (u32 (2 * bs));; mret (-1) else
    doubly ← gets (λ s, le32 (lmem s) (a + 92));
    read disk (u32 (pst + u32 (doubly * spb))) spb doubly_indirect_ptr;;
    doubly_loop disk (S (Z.to_nat bs)) doubly_indirect_ptr (doubly_indirect_ptr + bs) (brk s) singly_indirect_ptr offset (ino_size ino))
    (with_mem m (taken 1 s)) (λ r s', r = 0 ∧ kernel_loaded ino s s').
Proof.
  intros Hk Hlt. pose proof bs_range as Hr. destruct quarter as [Hq4 Hq]. pose proof (ik_fits _ Hino) as [Hs0 Hfit].
  unfold above_temp, TEMP_BUF_ADDR, TEMP_BUF_SIZE in Ha. destruct (ik_singly _ Hino Hlt) as (Hne & Hok & Hall).
  assert (bs / 4 * bs <= 2 ^ 12 * 2 ^ 14) as Hqb by (apply Z.mul_le_mono_nonneg; lia).
  apply malloc_step; [cbn; lia|]. cbn [brk with_mem with_brk taken remaining]. rewrite (proj2 (Z.eqb_neq _ _)) by (unfold NULL; lia).
  apply holds_gets. cbn [lmem with_brk]. rewrite (ino_field ino) by (by eapply ino_kept || lia). change (le _) with (ino_singly ino).
  eapply holds_bind; [apply boot_read_block_spec; [done|unfold above_temp, TEMP_BUF_ADDR, TEMP_BUF_SIZE; lia]|]. intros _ s' (m1 & -> & Hm1).
  pose proof (length_block (ino_singly ino)) as Hlb. pose proof (length_ptrs_block (ino_singly ino)) as Hlp. cbn [lmem with_mem with_brk] in Hm1.
  rewrite <- Hlp at 1.
  eapply holds_bind; [apply (load_phase (lmem s) ino (brk s)); cbn [lmem with_mem]; unfold above_temp, TEMP_BUF_ADDR, TEMP_BUF_SIZE; try done; try lia|].
  { eapply kernel_at_heap; try exact Hk; try exact Hm1; unfold above_temp, TEMP_BUF_ADDR, TEMP_BUF_SIZE; lia. }
  { apply table_rd. rewrite (rd_same _ _ _ _ Hm1) by (unfold above_temp, TEMP_BUF_ADDR, TEMP_BUF_SIZE; lia). apply rd_wr. }
  { intros k Hk'. rewrite file_ptr_singly by lia. unfold ptr_in. by rewrite (proj2 (Z.eqb_neq _ _) Hne). }
  intros n s' (m2 & -> & Hk2 & _ & Hn & Hns & Hend). rewrite Hlp in *. cbv zeta. rewrite (u32_small (12 * bs + n)) by (unfold KERNEL_LOAD_DEST in *; lia).
  match goal with |- holds _ ?st _ => replace st with (with_mem m2 (taken 2 s)) by (unfold taken, with_mem, with_brk; cbn -[Z.mul]; f_equal; lia) end.
  destruct (Z.leb_spec (ino_size ino) (12 * bs + n)) as [Hle|Hgt]; [by apply (finish 2 _ (12 * bs + n))|].
  replace (brk s + 1 * bs) with (brk s + bs) by lia. replace (12 * bs + n) with ((12 + bs / 4) * bs) in * by lia. by apply load_doubly.
Qed.

Lemma load_kernel_binary_holds : holds (load_kernel_binary disk a) s (λ r s', r = 0 ∧ kernel_loaded ino s s').
Proof.
  pose proof bs_range as Hr. pose proof (ik_fits _ Hino) as [Hs0 Hfit]. pose proof Hv as (Hvp & Hvb & Hvs).
  assert (above_temp (brk s)) as Hlo by (unfold above_temp in *; lia). unfold above_temp, TEMP_BUF_ADDR, TEMP_BUF_SIZE in Ha, Hlo.
  destruct (ino_table ino a (lmem s) (ik_len _ Hino) Hrd) as [Htab Hlen].
  unfold load_kernel_binary. apply holds_gets. unfold id. rewrite (ino_field ino) by (done || lia). change (le _) with (ino_size ino).
  rewrite Hvb, Hvp, Hvs. apply malloc_step; [lia|]. rewrite (proj2 (Z.eqb_neq _ _)) by (unfold NULL; lia).
  replace (with_brk (brk s + bs) (remaining s - bs) s) with (taken 1 s) by (unfold taken; f_equal; lia).
  assert (kernel_at (lmem s) ino (brk s) 0 (lmem s)) as Hk0 by (split; [done|lia]).
  assert (free bs = free (u32 (1 * bs))) as Hfree by (rewrite u32_small by lia; f_equal; lia).
  destruct (decide (ino_size ino = 0)) as [Hz|Hnz].
  { rewrite Hz. change (u32 (0 - 0)) with 0. rewrite load_data_empty. apply holds_gets with (f := λ _, 0).
    change (0 <=? u32 (0 + 0)) with true. cbv iota. rewrite Hfree.
    replace (taken 1 s) with (with_mem (lmem s) (taken 1 s)) by (by destruct s). apply (finish 1 _ 0); [lia..|done]. }
  change DIRECT_BLOCK_POINTERS_COUNT with 12. rewrite <- Hlen. replace 0 with (0 * bs) at 1 2 by lia.
  eapply holds_bind; [apply (load_phase (lmem s) ino (brk s)); cbn [lmem taken with_brk]; unfold above_temp, TEMP_BUF_ADDR, TEMP_BUF_SIZE, KERNEL_LOAD_DEST in *; try done; try lia|].
  { apply ik_direct, Hino. }
  { intros k Hk. apply file_ptr_direct. lia. }
  intros n s' (m1 & -> & Hk1 & _ & Hn & Hns & Hend). rewrite Hlen in *. rewrite Z.mul_0_l, !Z.add_0_l in *.
  rewrite u32_small by (unfold KERNEL_LOAD_DEST in *; lia). destruct (Z.leb_spec (ino_size ino) n) as [Hle|Hlt].
  { rewrite Hfree. by apply (finish 1 _ n). }
  assert (n = 12 * bs) as -> by lia. by apply load_singly.
Qed.
End load_kernel_binary.
End disk.
