(* ===== verification/BootVolume.v ===== *)
(** * Loading the kernel from an ext2 volume

    The functions of loadkernel.c that find the file (BootLoad.v), against the
    structures on the disk: the superblock, the block groups, the inodes and
    the entries of the root directory.  The theorem is about [loadkernel] as
    the boot stage calls it. *)

From S2P Require Import Prelude Types HeapApi StateMonad Layout ByteMem Block FsTypes Dcache Ext2File Ext2Dir BootLoad.

(** ** A directory block in memory *)

Lemma get_le_rd B a m o k v : rd (length B) a m = B → 0 <= o → get_le B o (Z.of_nat k) = Ok v → le (rd k (a + o) m) = v.
Proof.
  intros Hrd Ho. unfold get_le, bytes_get. destruct (_ && _) eqn:E; [|done]. bdec. cbn. intros [= <-].
  by rewrite (rd_sub (length B)), Hrd, Nat2Z.id by lia.
Qed.

Lemma strncmp_loop_spec n i (f : list Z) a m : (∀ x, x ∈ f → x ≠ 0) → 0 <= i → i + Z.of_nat n = Z.of_nat (length f) →
  (strncmp_loop n i f a m =? Z.of_nat (length f)) = bool_decide (drop (Z.to_nat i) f = rd n (a + i) m).
Proof.
  intros Hf. revert i. induction n as [|n IH]; intros i Hi Hn; cbn [strncmp_loop rd].
  { rewrite drop_ge by lia. rewrite bool_decide_eq_true_2 by done. apply Z.eqb_eq. lia. }
  destruct (lookup_lt_is_Some_2 f (Z.to_nat i)) as [x Hx]; [lia|]. assert (znth 0 f i = x) as Hz by (unfold znth; by rewrite Hx).
  rewrite Hz, (drop_S _ _ _ Hx). rewrite (proj2 (Z.eqb_neq x 0)) by (eapply Hf, list_elem_of_lookup_2, Hx). cbn [negb andb].
  destruct (Z.eqb_spec x (ldb m (a + i))) as [E|E].
  - rewrite (proj2 (Z.eqb_neq (ldb m (a + i)) 0)) by (rewrite <- E; eapply Hf, list_elem_of_lookup_2, Hx). cbn [negb andb].
    rewrite IH by lia. replace (a + (i + 1)) with (a + i + 1) by lia. replace (Z.to_nat (i + 1)) with (S (Z.to_nat i)) by lia.
    apply bool_decide_ext. rewrite E. split; [by intros ->|by intros [=]].
  - rewrite andb_false_r. rewrite bool_decide_eq_false_2 by (by intros [=]). apply Z.eqb_neq. lia.
Qed.

(** The inode number of the first entry with the name; 0 when there is none. *)
Fixpoint boot_find (es : list dirent) (name : list Z) : Z :=
  match es with
  | [] => 0
  | e :: rest => if bool_decide (de_name e = name) then de_inode e else boot_find rest name
  end.

Lemma search_dir_block_loop_spec fuel es pre name block m : Forall dirent_ok es → (∀ x, x ∈ name → x ≠ 0) → (length es < fuel)%nat →
  let B := pre ++ concat (dirent_bytes <$> es) in rd (length B) block m = B →
  search_dir_block_loop fuel (block + Z.of_nat (length pre)) block (Z.of_nat (length B)) name m = Ok (boot_find es name).
Proof.
  intros Hes Hname. cbv zeta. revert fuel pre. induction Hes as [|e es He Hes IH]; intros fuel pre Hf Hrd; (destruct fuel as [|fuel]; [cbn in Hf; lia|]).
  - cbn [search_dir_block_loop fmap list_fmap concat boot_find]. rewrite app_nil_r. by rewrite (proj2 (Z.ltb_ge _ _)) by lia.
  - cbn [fmap list_fmap concat] in Hrd |- *. destruct (dirent_field pre (concat (dirent_bytes <$> es)) e He) as (Hi & Hs & Hn).
    pose proof (length_dirent e) as Hlen. assert (8 + Z.of_nat (length (de_name e)) <= dirent_size e) as Hmin by (unfold dirent_size; lia).
    cbn [search_dir_block_loop boot_find].
    assert (le16 m (block + Z.of_nat (length pre) + 4) = dirent_size e) as ->.
    { rewrite <- Z.add_assoc. eapply (get_le_rd _ _ _ _ 2); [exact Hrd|lia|]. exact Hs. }
    assert (ldb m (block + Z.of_nat (length pre) + 6) = Z.of_nat (length (de_name e))) as ->.
    { transitivity (le (rd 1 (block + (Z.of_nat (length pre) + 6)) m)); [cbn; rewrite Z.add_assoc; lia|].
      eapply (get_le_rd _ _ _ _ 1); [exact Hrd|lia|]. exact Hn. }
    rewrite (proj2 (Z.ltb_lt _ _)) by (rewrite !length_app; lia). rewrite (proj2 (Z.ltb_ge _ _)) by (rewrite !length_app; lia).
    assert (search_dir_block_loop fuel (block + Z.of_nat (length pre) + dirent_size e) block
      (Z.of_nat (length (pre ++ dirent_bytes e ++ concat (dirent_bytes <$> es)))) name m = Ok (boot_find es name)) as Hnext.
    { specialize (IH fuel (pre ++ dirent_bytes e) ltac:(cbn in Hf; lia)). rewrite <- app_assoc in IH.
      rewrite (length_app pre (dirent_bytes e)), Nat2Z.inj_add, Hlen, Z.add_assoc in IH. by apply IH. }
    unfold strlen. destruct (Z.eqb_spec (Z.of_nat (length (de_name e))) (Z.of_nat (length name))) as [El|El]; cbn [negb].
    2:{ rewrite bool_decide_eq_false_2 by congruence. exact Hnext. }
    unfold strncmp. rewrite Nat2Z.id, strncmp_loop_spec by (done || lia). change (Z.to_nat 0) with 0%nat. rewrite drop_0, Z.add_0_r. apply Nat2Z.inj in El.
    rewrite <- Z.add_assoc, (rd_sub (length (pre ++ dirent_bytes e ++ concat (dirent_bytes <$> es)))) by (rewrite ?length_app; lia).
    rewrite Hrd, <- El, dirent_name. destruct (decide (de_name e = name)) as [E|E].
    + rewrite !bool_decide_eq_true_2 by done. f_equal. eapply (get_le_rd _ _ _ _ 4); [exact Hrd|lia|]. rewrite <- Hi. unfold field. layout_eval. f_equal. lia.
    + rewrite !bool_decide_eq_false_2 by done. exact Hnext.
Qed.

(** ** The volume *)

Section volume.
Context (disk : Z → list Z) (disk_sector : ∀ l, length (disk l) = 512%nat) (pst : Z).

(** The superblock and the fields the loader uses. *)
Definition v_super : list Z := sectors disk (pst + 2) 2.
Definition v_bs : Z := Z.shiftl 1024 (le (take 4 (drop 24 v_super))).
Definition v_spb : Z := v_bs / SECTOR_SIZE.
Definition v_inode_size : Z := le (take 2 (drop 88 v_super)).
Definition v_inodes_per_group : Z := le (take 4 (drop 40 v_super)).

(** The table of block groups starts in the block after the superblock; the
    descriptor of a group holds the first block of its inode table. *)
Definition v_bgdt : Z := pst + (3 / v_spb + 1) * v_spb.
Definition v_inode_table (g : Z) : Z := le (take 4 (drop (Z.to_nat (g * 32 mod 512 + 8)) (disk (v_bgdt + g * 32 / 512)))).

(** The sector and the bytes of an inode. *)
Definition v_index (n : Z) : Z := (n - 1) mod v_inodes_per_group * v_inode_size.
Definition v_inode_lba (n : Z) : Z := pst + v_inode_table ((n - 1) / v_inodes_per_group) * v_spb + v_index n / 512.
Definition v_inode (n : Z) : list Z := take 128 (drop (Z.to_nat (v_index n mod 512)) (disk (v_inode_lba n))).

(** The entries of the root directory (inode 2), block by block, and the
    lookup of a name in its direct blocks. *)
Context (entries : Z → list dirent).
Definition block_find (name : list Z) (p : Z) : Z := if p =? 0 then 0 else boot_find (entries p) name.
Definition first_found (name : list Z) (ps : list Z) : Z := default 0 (find (λ n, negb (n =? 0)) (block_find name <$> ps)).
Definition v_lookup (name : list Z) : Z := first_found name (ino_direct (v_inode 2)).

Definition entries_ok (p : Z) : Prop :=
  p = 0 ∨ (ptr_ok pst v_spb p ∧ block disk pst v_spb p = concat (dirent_bytes <$> entries p) ∧ Forall dirent_ok (entries p)).

Record volume_ok : Prop := {
  vk_pst : 0 <= pst;
  vk_bs : 0 <= le (take 4 (drop 24 v_super)) <= 4;
  vk_inode_size : v_inode_size = 128 ∨ v_inode_size = 256;
  vk_groups : 2 <= v_inodes_per_group < 2 ^ 32;
  vk_bgdt : v_bgdt + 1 <= 2 ^ 32;
  vk_table0 : ptr_ok pst v_spb (v_inode_table 0);
  vk_entries : ∀ p, p ∈ ino_direct (v_inode 2) → entries_ok p
}.

(** The inode can be read: its descriptor and its sector lie on the disk. *)
Definition inode_there (n : Z) : Prop :=
  0 < n < 2 ^ 32 ∧ (n - 1) / v_inodes_per_group * 32 < 2 ^ 32 ∧ v_bgdt + (n - 1) / v_inodes_per_group * 32 / 512 + 1 <= 2 ^ 32 ∧ v_index n < 2 ^ 32 ∧
  0 <= v_inode_table ((n - 1) / v_inodes_per_group) ∧ v_inode_lba n + 1 <= 2 ^ 32.

Context (Hvol : volume_ok).

Lemma v_bs_range : 1024 <= v_bs <= 2 ^ 14 ∧ v_bs = v_spb * SECTOR_SIZE ∧ 2 <= v_spb <= 32.
Proof.
  destruct (vk_bs Hvol) as [H0 H4]. unfold v_spb, v_bs. generalize dependent (le (take 4 (drop 24 v_super))). intros k H0 H4.
  assert (k = 0 ∨ k = 1 ∨ k = 2 ∨ k = 3 ∨ k = 4) as [->|[->|[->|[->| ->]]]] by lia; vm_compute; intuition discriminate.
Qed.

(** The loader's state once the superblock is parsed, with the heap used up to
    [b]. *)
Record ready (b : Z) (s : loader) : Prop := {
  rk_brk : brk s = b;
  rk_remaining : remaining s = HEAP_SIZE - (b - HEAP_ADDR);
  rk_vol : vol pst v_bs v_spb s;
  rk_inode_size : inode_size s = v_inode_size;
  rk_groups : inodes_per_bg s = v_inodes_per_group
}.

Lemma ready_mem b s m : ready b s → ready b (with_mem m s).
Proof. intros []. by constructor. Qed.

Definition heap_at (b : Z) (s : loader) : loader := with_brk b (HEAP_SIZE - (b - HEAP_ADDR)) s.

Lemma ready_at b b' s : ready b s → ready b' (heap_at b' s).
Proof. intros []. by constructor. Qed.

(** Allocating, when there is room below the end of the heap. *)
Lemma malloc_ready {A} b size s (k : Z → M loader A) Q : brk s = b → remaining s = HEAP_SIZE - (b - HEAP_ADDR) → HEAP_ADDR <= b → 0 <= size → b + size <= HEAP_ADDR + HEAP_SIZE →
  ((b =? NULL) = false → holds (k b) (heap_at (b + size) s) Q) → holds (malloc size ≫= k) s Q.
Proof.
  intros Hb Hr Hlo H0 Hhi Hk. unfold HEAP_SIZE, HEAP_ADDR in *. specialize (Hk ltac:(apply Z.eqb_neq; unfold NULL; lia)).
  unfold holds. rewrite (bind_step _ _ _ b (heap_at (b + size) s)); [exact Hk|].
  unfold malloc. rewrite Hr, Hb, (proj2 (Z.leb_le _ _)) by lia. unfold heap_at, HEAP_SIZE, HEAP_ADDR. rewrite u32_small by lia. do 3 f_equal. lia.
Qed.

Lemma free_ready {A} b size s (k : () → M loader A) Q : ready b s → 0 <= size → HEAP_ADDR + size <= b <= HEAP_ADDR + HEAP_SIZE →
  holds (k ()) (heap_at (b - size) s) Q → holds (free size ≫= k) s Q.
Proof.
  intros [Hb Hr _ _ _] H0 Hlo Hk. apply holds_puts. rewrite Hb, Hr. unfold heap_at, HEAP_SIZE, HEAP_ADDR in *. rewrite u32_small by lia.
  by replace (1024 * 80 - (b - 409600) + size) with (1024 * 80 - (b - size - 409600)) by lia.
Qed.

(** Reading one sector. *)
Lemma sectors_1 l : sectors disk l 1 = disk l.
Proof. change (disk l ++ [] = disk l). apply app_nil_r. Qed.

Lemma boot_read_sector s lba buf : 0 <= lba < 2 ^ 32 → above_temp buf →
  holds (read disk lba 1 buf) s (λ _ s', ∃ m', s' = with_mem m' s ∧ rd 512 buf m' = disk lba ∧
    (∀ x, ¬ in_temp x → ¬ (buf <= x < buf + 512) → ldb m' x = ldb (lmem s) x)).
Proof.
  intros Hl Hb. eapply holds_mono; [apply (read_spec disk disk_sector); [lia..|done]|]. intros _ s' (m' & -> & Hm'). exists m'. rewrite sectors_1 in Hm'.
  split; [done|]. split.
  - rewrite (rd_same _ _ _ _ Hm' Hb), <- (disk_sector lba). apply rd_wr.
  - intros x Hx Hxb. rewrite Hm' by done. apply ldb_wr_out. rewrite disk_sector. lia.
Qed.

(** Part of a sector that was read. *)
Lemma rd_part n k o a m l : rd n a m = l → 0 <= o → o + Z.of_nat k <= Z.of_nat n → rd k (a + o) m = take k (drop (Z.to_nat o) l).
Proof. intros <- Ho Hk. by apply rd_sub. Qed.

Lemma read_and_parse_superblock_spec s b : above_temp b → pstart s = pst → pst + 4 <= 2 ^ 32 →
  holds (read_and_parse_superblock disk b) s (λ _ s', brk s' = brk s ∧ remaining s' = remaining s ∧ pstart s' = pst ∧
    blocksize s' = v_bs ∧ sectors_per_block s' = v_spb ∧ inode_size s' = v_inode_size ∧ inodes_per_bg s' = v_inodes_per_group).
Proof.
  intros Hb Hp Hr. pose proof (vk_pst Hvol) as Hp0. destruct v_bs_range as ((Hlo & Hhi) & _ & _). unfold read_and_parse_superblock. apply holds_gets. rewrite Hp, u32_small by lia.
  eapply holds_bind; [apply (read_spec disk disk_sector); [lia..|done]|]. intros _ s' (m & -> & Hm).
  unfold holds, puts, returns, runs. cbn [brk remaining pstart blocksize sectors_per_block inode_size inodes_per_bg lmem with_mem].
  assert (rd 1024 b m = v_super) as Hrd.
  { rewrite (rd_same _ _ _ _ Hm Hb). pose proof (boot_length_sectors disk disk_sector (pst + 2) 2 ltac:(lia)) as Hl. unfold SECTOR_SIZE in Hl.
    replace 1024%nat with (length (sectors disk (pst + 2) 2)) by lia. apply rd_wr. }
  unfold le32, le16. rewrite !(rd_part 1024 _ _ b m _ Hrd) by lia. change (Z.shiftl _ _) with v_bs. rewrite u32_small by lia. done.
Qed.

(** The first sector of the inode table of group 0 holds the root's inode. *)
Lemma v_inode_root : v_inode 2 = take 128 (drop (Z.to_nat v_inode_size) (disk (pst + v_inode_table 0 * v_spb))).
Proof.
  pose proof (vk_groups Hvol) as Hg. unfold v_inode, v_inode_lba, v_index. change (2 - 1) with 1.
  rewrite Z.div_small, (Z.mod_small 1 v_inodes_per_group) by lia. rewrite Z.mul_1_l.
  destruct (vk_inode_size Hvol) as [-> | ->]; (rewrite Z.div_small, Z.mod_small by lia); by rewrite Z.add_0_r.
Qed.

Lemma heap_above b : HEAP_ADDR <= b → above_temp b.
Proof. unfold above_temp, HEAP_ADDR, TEMP_BUF_ADDR, TEMP_BUF_SIZE. lia. Qed.

Lemma rootdir_inode_spec b s : ready b s → HEAP_ADDR <= b → b + 512 <= HEAP_ADDR + HEAP_SIZE →
  holds (rootdir_inode disk) s (λ p s', p = b + v_inode_size ∧ ready (b + 512) s' ∧ bgdt_lba s' = v_bgdt ∧ rd 128 p (lmem s') = v_inode 2).
Proof.
  intros Hs Hlo Hhi. pose proof (rk_vol _ _ Hs) as (Hp & _ & Hspb). destruct v_bs_range as (_ & _ & Hr). pose proof (vk_pst Hvol) as Hp0.
  pose proof (vk_bgdt Hvol) as Hg. pose proof (heap_above b Hlo) as Hab.
  assert (0 <= (3 / v_spb + 1) * v_spb) as Hq0 by (apply Z.mul_nonneg_nonneg; [assert (0 <= 3 / v_spb) by (apply Z.div_pos; lia)|]; lia).
  unfold rootdir_inode. apply holds_gets. unfold id. rewrite Hspb, Hp. eapply (holds_lift _ _ _ (3 / v_spb)).
  { unfold div_u. by rewrite (proj2 (Z.eqb_neq _ _)) by lia. }
  apply holds_puts.
  assert (u32 (pst + u32 ((3 / v_spb + 1) * v_spb)) = v_bgdt) as ->.
  { unfold v_bgdt in *. generalize dependent ((3 / v_spb + 1) * v_spb). intros X Hg HX. by rewrite (u32_small X), u32_small by lia. }
  apply (malloc_ready b); [apply Hs|apply Hs|done|done|done|]. intros Hn. rewrite Hn. apply holds_gets.
  eapply holds_bind; [apply boot_read_sector; [|done]|]; [cbn [bgdt_lba heap_at with_brk with_bgdt]; unfold v_bgdt in *; lia|].
  intros _ s' (m1 & -> & Hrd1 & _). cbn [bgdt_lba heap_at with_brk with_bgdt] in Hrd1. apply holds_gets. cbn [lmem with_mem].
  unfold le32. rewrite (rd_part 512 4 8 b m1 _ Hrd1) by lia.
  assert (le (take 4 (drop (Z.to_nat 8) (disk v_bgdt))) = v_inode_table 0) as ->.
  { unfold v_inode_table. change (0 * 32 mod 512 + 8) with 8. change (0 * 32 / 512) with 0. by rewrite Z.add_0_r. }
  eapply (free_ready (b + SECTOR_SIZE)); [apply ready_mem, (ready_at b); by destruct Hs|done|unfold SECTOR_SIZE; lia|].
  replace (b + SECTOR_SIZE - SECTOR_SIZE) with b by lia.
  apply (malloc_ready b); [done|done|done|done|done|]. intros _. rewrite Hn. rewrite (block_lba pst v_spb) by (try apply (vk_table0 Hvol); lia).
  eapply holds_bind; [apply boot_read_sector; [|done]|]; [destruct (vk_table0 Hvol); nia|]. intros _ s' (m2 & -> & Hrd2 & _).
  cbn [inode_size]. rewrite (rk_inode_size _ _ Hs). split; [done|]. split; [by destruct Hs|]. split; [done|]. cbn [lmem with_mem].
  rewrite v_inode_root. apply (rd_part 512); [done|destruct (vk_inode_size Hvol); lia..].
Qed.

(** ** The root directory *)

Lemma search_dir_block_spec s buf p name : ptr_ok pst v_spb p → blocksize s = v_bs → (∀ x, x ∈ name → x ≠ 0) →
  block disk pst v_spb p = concat (dirent_bytes <$> entries p) → Forall dirent_ok (entries p) →
  rd (Z.to_nat v_bs) buf (lmem s) = block disk pst v_spb p → search_dir_block buf name s = Ok (boot_find (entries p) name, s).
Proof.
  intros Hp Hbs Hname Hblk Hes Hrd. destruct v_bs_range as (_ & Hb & Hr). pose proof (length_block disk disk_sector pst v_bs v_spb ltac:(lia) Hb p) as Hl.
  unfold search_dir_block. rewrite Hbs. pose proof (search_dir_block_loop_spec (S (Z.to_nat v_bs)) (entries p) [] name buf (lmem s) Hes Hname) as Hspec.
  cbv zeta in Hspec. cbn [app length] in Hspec. rewrite <- Hblk, Z.add_0_r, Hl in Hspec. rewrite Hspec; [done| |].
  - pose proof (entries_fit (entries p)) as Hf. rewrite <- Hblk in Hf. lia.
  - by replace (length (block disk pst v_spb p)) with (Z.to_nat v_bs) by lia.
Qed.

(** The search over the pointers that remain, from the [k]-th. *)
Lemma search_dir_loop_spec n k a buf name s ps : ready (buf + v_bs) s → HEAP_ADDR <= buf → (∀ x, x ∈ name → x ≠ 0) →
  above_temp a → a + 4 * Z.of_nat (length ps) <= buf → table (lmem s) a ps → 0 <= k → k + Z.of_nat n = Z.of_nat (length ps) → (∀ p, p ∈ ps → entries_ok p) →
  holds (search_dir_loop disk n (a + 4 * k) buf name) s (λ r s', ∃ m', s' = with_mem m' s ∧ r = first_found name (drop (Z.to_nat k) ps)).
Proof.
  intros Hs Hlo Hname Ha Hab Htab Hk Hn Hes. destruct v_bs_range as (_ & Hb & Hr). revert k s Hs Htab Hk Hn.
  induction n as [|n IH]; intros k s Hs Htab Hk Hn; cbn [search_dir_loop].
  { exists (lmem s). split; [by destruct s|]. by rewrite drop_ge by lia. }
  apply holds_gets. unfold id. rewrite (Htab k) by lia. destruct (lookup_lt_is_Some_2 ps (Z.to_nat k)) as [p Hp]; [lia|].
  assert (znth 0 ps k = p) as -> by (unfold znth; by rewrite Hp). rewrite (drop_S _ _ _ Hp). unfold first_found. cbn [fmap list_fmap find].
  replace (a + 4 * k + 4) with (a + 4 * (k + 1)) by lia. replace (S (Z.to_nat k)) with (Z.to_nat (k + 1)) by lia.
  assert (∀ m, table m a ps → holds (search_dir_loop disk n (a + 4 * (k + 1)) buf name) (with_mem m s)
    (λ r s', ∃ m', s' = with_mem m' s ∧ r = first_found name (drop (Z.to_nat (k + 1)) ps))) as Hnext.
  { intros m Hm. eapply holds_mono; [apply IH; [by apply ready_mem|done|lia..]|]. intros r s' (m' & -> & ->). by exists m'. }
  unfold block_find at 1 2. destruct (Z.eqb_spec p 0) as [->|Hp0]; cbv zeta.
  { specialize (Hnext (lmem s) Htab). by destruct s. }
  destruct (Hes p ltac:(by eapply list_elem_of_lookup_2)) as [?|(Hok & Hblk & Hd)]; [done|]. pose proof (rk_vol _ _ Hs) as (Hpst & Hbs & Hspb). rewrite Hpst, Hspb.
  pose proof (vk_pst Hvol) as Hp00. pose proof (length_block disk disk_sector pst v_bs v_spb ltac:(lia) Hb p) as Hl.
  eapply holds_bind; [apply (boot_read_block_spec disk disk_sector pst v_spb); [done|lia|done|by apply heap_above]|].
  intros _ s' (m & -> & Hm). unfold holds. erewrite bind_step; [|apply search_dir_block_spec; try done].
  2:{ cbn [lmem with_mem]. rewrite (rd_same _ _ _ _ Hm (heap_above _ Hlo)). replace (Z.to_nat v_bs) with (length (block disk pst v_spb p)) by lia. apply rd_wr. }
  destruct (Z.eqb_spec (boot_find (entries p) name) 0) as [E|E]; cbn [negb]; [|by exists m].
  apply Hnext. eapply table_keep; [exact Htab|]. intros x Hx. rewrite Hm by (unfold in_temp, above_temp in *; lia). apply ldb_wr_out. lia.
Qed.

Lemma search_dir_spec b p s name : ready b s → HEAP_ADDR <= b → b + v_bs <= HEAP_ADDR + HEAP_SIZE → (∀ x, x ∈ name → x ≠ 0) →
  above_temp p → p + 128 <= b → rd 128 p (lmem s) = v_inode 2 →
  holds (search_dir disk p name) s (λ r s', r = v_lookup name ∧ ∃ m', s' = with_mem m' s).
Proof.
  intros Hs Hlo Hhi Hname Hp Hpb Hrd. destruct v_bs_range as (Hb1 & Hb & Hr). pose proof (rk_vol _ _ Hs) as (_ & Hbs & _).
  destruct (ino_table (v_inode 2) p (lmem s)) as [Htab Hlen]; [by rewrite <- Hrd, length_rd|done|].
  unfold search_dir. apply holds_gets. rewrite Hbs. apply (malloc_ready b); [apply Hs|apply Hs|lia..|]. intros ->.
  change (Z.to_nat DIRECT_BLOCK_POINTERS_COUNT) with 12%nat. replace (p + 40) with (p + 40 + 4 * 0) by lia.
  eapply holds_bind; [apply (search_dir_loop_spec 12 0 (p + 40) b name _ (ino_direct (v_inode 2))); try done; try lia|].
  - by apply (ready_at b).
  - unfold above_temp in *. lia.
  - apply (vk_entries Hvol).
  - intros r s' (m' & -> & ->). eapply (free_ready (b + v_bs)); [apply ready_mem; by apply (ready_at b)|lia|lia|].
    split; [done|]. exists m'. unfold heap_at, with_mem, with_brk. cbn [lmem brk remaining pstart blocksize sectors_per_block blocks_per_bg inode_size inodes_per_bg bgdt_lba].
    destruct Hs. f_equal; lia.
Qed.

(** ** Inodes *)

Lemma get_inode_spec b n s : ready b s → bgdt_lba s = v_bgdt → HEAP_ADDR <= b → b + 512 <= HEAP_ADDR + HEAP_SIZE → inode_there n →
  holds (get_inode disk n) s (λ p s', b <= p ∧ p + 128 <= b + 512 ∧ ready (b + 512) s' ∧ rd 128 p (lmem s') = v_inode n).
Proof.
  intros Hs Hbg Hlo Hhi (Hn & Hg32 & Hd & Hix & Ht0 & Hlba). pose proof (vk_groups Hvol) as Hg. pose proof (vk_pst Hvol) as Hp0. destruct v_bs_range as (_ & _ & Hr).
  pose proof (rk_vol _ _ Hs) as (Hpst & _ & Hspb). pose proof (heap_above b Hlo) as Hab. unfold get_inode. apply holds_gets. unfold id.
  rewrite (rk_groups _ _ Hs), (rk_inode_size _ _ Hs), Hbg, Hpst, Hspb. rewrite (u32_small (n - 1)) by lia. set (g := (n - 1) / v_inodes_per_group) in *.
  assert (0 <= v_bgdt) as Hb0. { unfold v_bgdt. assert (0 <= 3 / v_spb) by (apply Z.div_pos; lia). nia. }
  assert (0 <= g) as Hg0 by (apply Z.div_pos; lia). assert (0 <= g * 32 / 512) as Hg1 by (apply Z.div_pos; lia).
  assert (0 <= v_index n ∧ v_index n mod 512 + 128 <= 512) as [Hi0 Him].
  { unfold v_index. assert (0 <= (n - 1) mod v_inodes_per_group) by (apply Z.mod_pos_bound; lia). destruct (vk_inode_size Hvol) as [-> | ->]; zlia. }
  assert (0 <= v_index n / 512) as Hi1 by (apply Z.div_pos; lia).
  apply (holds_lift _ _ _ g); [unfold div_u; by rewrite (proj2 (Z.eqb_neq _ _)) by lia|]. cbv zeta. rewrite (u32_small (g * BLOCK_GROUP_DESCRIPTOR_SIZE)) by (unfold BLOCK_GROUP_DESCRIPTOR_SIZE; lia).
  apply (malloc_ready b); [apply Hs|apply Hs|done|done|done|]. intros ->. unfold BLOCK_GROUP_DESCRIPTOR_SIZE, SECTOR_SIZE. rewrite (u32_small (v_bgdt + _)) by lia.
  eapply holds_bind; [apply boot_read_sector; [lia|done]|]. intros _ s' (m1 & -> & Hrd1 & _). apply holds_gets. cbn [lmem with_mem].
  assert (0 <= g * 32 mod 512 ∧ g * 32 mod 512 + 12 <= 512) as [Hm0 Hm1] by (clear -Hg0; zlia).
  unfold le32. rewrite <- Z.add_assoc, (rd_part 512 4 _ b m1 _ Hrd1) by lia. change (le _) with (v_inode_table g).
  apply (holds_lift _ _ _ ((n - 1) mod v_inodes_per_group)); [unfold mod_u; by rewrite (proj2 (Z.eqb_neq _ _)) by lia|].
  change ((n - 1) mod v_inodes_per_group * v_inode_size) with (v_index n). rewrite (u32_small (v_index n)) by lia.
  assert (u32 (pst + u32 (v_inode_table g * v_spb) + v_index n / 512) = v_inode_lba n ∧ 0 <= v_inode_lba n) as [-> Hl0].
  { unfold v_inode_lba in *. fold g in Hlba. fold g. assert (0 <= v_inode_table g * v_spb) as Hmul by (apply Z.mul_nonneg_nonneg; lia).
    rewrite (u32_small (v_inode_table g * v_spb)), u32_small by lia. lia. }
  eapply holds_bind; [apply boot_read_sector; [lia|done]|]. intros _ s' (m2 & -> & Hrd2 & _).
  assert (0 <= v_index n mod 512) by (apply Z.mod_pos_bound; lia).
  split; [lia|]. split; [lia|]. split; [by destruct Hs|]. cbn [lmem with_mem]. by apply (rd_part 512); [|lia..].
Qed.

Lemma loadkernel_holds s : brk s = HEAP_ADDR → remaining s = HEAP_SIZE → pst + 4 <= 2 ^ 32 →
  inode_there (v_lookup KERNEL_FILENAME) → inode_ok disk pst v_bs v_spb (v_inode (v_lookup KERNEL_FILENAME)) →
  holds (loadkernel disk pst) s (λ r s', r = 0 ∧ ∀ j, 0 <= j < ino_size (v_inode (v_lookup KERNEL_FILENAME)) →
    ldb (lmem s') (KERNEL_LOAD_DEST + j) = file_byte disk pst v_bs v_spb (v_inode (v_lookup KERNEL_FILENAME)) j).
Proof.
  intros Hbrk Hrem Hp4 Hn Hino. destruct v_bs_range as (Hbr & Hb & Hspb). pose proof (vk_pst Hvol) as Hp0. unfold loadkernel. apply holds_puts.
  apply (malloc_ready HEAP_ADDR); [done|by cbn; rewrite Hrem, Z.sub_diag, Z.sub_0_r|done..|]. intros ->.
  eapply holds_bind; [apply read_and_parse_superblock_spec; [by apply heap_above|done|done]|].
  intros _ s1 (Hb1 & Hr1 & Hp1 & Hbs1 & Hspb1 & His1 & Hg1). assert (ready (HEAP_ADDR + 1024) s1) as Hs1 by (by constructor).
  eapply holds_bind; [apply (rootdir_inode_spec _ _ Hs1); done|]. intros p s2 (-> & Hs2 & Hbg2 & Hrd2).
  assert (HEAP_ADDR + 1024 <= HEAP_ADDR + 1024 + v_inode_size) as Hge by (destruct (vk_inode_size Hvol); lia).
  rewrite (proj2 (Z.eqb_neq (_ + v_inode_size) NULL)) by (unfold HEAP_ADDR, NULL in *; lia).
  eapply holds_bind; [apply (search_dir_spec _ _ _ KERNEL_FILENAME Hs2)|].
  { unfold HEAP_ADDR. lia. }
  { unfold HEAP_ADDR, HEAP_SIZE. lia. }
  { intros x Hx. apply (Forall_forall (λ x, x ≠ 0) KERNEL_FILENAME); [|done]. unfold KERNEL_FILENAME. repeat constructor; lia. }
  { apply heap_above. lia. }
  { destruct (vk_inode_size Hvol); lia. }
  { done. }
  intros n s3 (-> & m3 & ->). destruct Hn as (Hn0 & Hn). rewrite (proj2 (Z.eqb_neq (v_lookup _) 0)) by lia.
  eapply holds_bind; [apply (get_inode_spec (HEAP_ADDR + 1024 + 512)); [by apply ready_mem|done|unfold HEAP_ADDR; lia|done|done]|].
  intros p s4 (Hlo & Hhi & Hs4 & Hrd4). rewrite (proj2 (Z.eqb_neq p NULL)) by (unfold HEAP_ADDR, NULL in *; lia).
  eapply holds_bind; [apply (load_kernel_binary_holds disk disk_sector pst v_bs v_spb); try done; try lia|].
  - apply (rk_vol _ _ Hs4).
  - apply heap_above. lia.
  - rewrite (rk_brk _ _ Hs4). lia.
  - rewrite (rk_remaining _ _ Hs4). unfold HEAP_SIZE, HEAP_ADDR. lia.
  - rewrite (rk_brk _ _ Hs4). unfold KERNEL_LOAD_DEST, HEAP_ADDR. lia.
  - intros r s5 (-> & _ & _ & _ & Hfile & _). cbn [negb Z.eqb]. done.
Qed.
End volume.

(** ** A small volume

    1 KiB blocks, a root directory with one block, and a kernel of 2500 bytes
    whose second block is a hole. *)

Definition poke (o : nat) (bs l : list Z) : list Z := take o l ++ bs ++ drop (o + length bs) l.
Definition zeros (n : nat) : list Z := replicate n 0.

Definition demo_super : list Z := poke 24 (le_enc 4 0) (poke 40 (le_enc 4 32) (poke 88 (le_enc 2 128) (zeros 512))).
Definition demo_ino (size : Z) (direct : list Z) : list Z := poke 4 (le_enc 4 size) (poke 40 (concat (le_enc 4 <$> direct)) (zeros 128)).
Definition demo_entries (p : Z) : list dirent :=
  [Dirent 2 2 [46] (zeros 3); Dirent 2 2 [46; 46] (zeros 2); Dirent 0 1 [120; 121] (zeros 6); Dirent 12 1 KERNEL_FILENAME (zeros (1024 - 58))].
Definition demo_dir : list Z := concat (dirent_bytes <$> demo_entries 8).
Definition demo_disk (l : Z) : list Z :=
  if l =? 66 then demo_super
  else if l =? 68 then poke 8 (le_enc 4 5) (zeros 512)
  else if l =? 74 then poke 128 (demo_ino 1024 [8]) (zeros 512)
  else if l =? 76 then poke 384 (demo_ino 2500 [9; 0; 10]) (zeros 512)
  else if l =? 80 then take 512 demo_dir
  else if l =? 81 then drop 512 demo_dir
  else if (l =? 82) || (l =? 83) || (l =? 84) || (l =? 85) then replicate 512 (l mod 256)
  else zeros 512.

Example loadkernel_demo :
  match loadkernel demo_disk 64 loader0 with
  | Ok (r, s) => (r, ldb (lmem s) KERNEL_LOAD_DEST, ldb (lmem s) (KERNEL_LOAD_DEST + 1023), ldb (lmem s) (KERNEL_LOAD_DEST + 1024), ldb (lmem s) (KERNEL_LOAD_DEST + 2499))
  | _ => (-1, 0, 0, 0, 0)
  end = (0, 82, 83, 0, 84).
Proof. vm_compute. reflexivity. Qed.

(** A block of zeros is searched for ever: an entry of size 0 does not move the
    search. *)
Lemma zero_entry_loops fuel block : search_dir_block_loop fuel block block 1024 KERNEL_FILENAME ∅ = OutOfFuel.
Proof.
  induction fuel as [|fuel IH]; [done|]. cbn [search_dir_block_loop]. rewrite (proj2 (Z.ltb_lt _ _)) by lia.
  change (le16 ∅ (block + 4)) with 0. rewrite Z.add_0_r, (proj2 (Z.ltb_ge _ _)) by lia. exact IH.
Qed.

(** A deleted entry hides a later one of the same name in its block. *)
Example deleted_hides : boot_find [Dirent 0 1 KERNEL_FILENAME []; Dirent 12 1 KERNEL_FILENAME []] KERNEL_FILENAME = 0.
Proof. reflexivity. Qed.

(** C4: the boot loader loads the kernel.  On an ext2 volume whose root
    directory has a file kernel.bin in its direct blocks, [loadkernel] returns
    0, and the bytes at [KERNEL_LOAD_DEST] are those of the file: direct, singly
    and doubly indirect blocks in order, zeros where the file has no block.  In
    particular every loop of the loader ends, its heap suffices, and the buffers
    never overlap the kernel.  The volume has blocks of 1 to 16 KiB and inodes of
    128 or 256 bytes. *)
Theorem loadkernel_correct disk pst entries s :
  (∀ l, length (disk l) = 512%nat) → volume_ok disk pst entries → pst + 4 <= 2 ^ 32 → brk s = HEAP_ADDR → remaining s = HEAP_SIZE →
  let n := v_lookup disk pst entries KERNEL_FILENAME in
  let ino := v_inode disk pst n in
  inode_there disk pst n → inode_ok disk pst (v_bs disk pst) (v_spb disk pst) ino →
  holds (loadkernel disk pst) s (λ r s', r = 0 ∧
    ∀ j, 0 <= j < ino_size ino → ldb (lmem s') (KERNEL_LOAD_DEST + j) = file_byte disk pst (v_bs disk pst) (v_spb disk pst) ino j).
Proof. intros Hd Hv Hp Hb Hr n ino Hn Hino. by apply loadkernel_holds. Qed.

Lemma demo_volume_ok : volume_ok demo_disk 64 demo_entries.
Proof.
  constructor; [done|by vm_compute|by left|by vm_compute|by vm_compute|by vm_compute|].
  - assert (ino_direct (v_inode demo_disk 64 2) = 8 :: replicate 11 0) as -> by (by vm_compute). intros p Hp.
    apply elem_of_cons in Hp as [->|Hp]; [|left; by apply elem_of_replicate in Hp as [-> _]].
    right. split; [by vm_compute|]. split; [by vm_compute|]. repeat constructor; by vm_compute.
Qed.

Lemma demo_sector l : length (demo_disk l) = 512%nat.
Proof. unfold demo_disk. repeat (case_match; [by vm_compute|]). by vm_compute. Qed.

Lemma demo_inode_ok : inode_ok demo_disk 64 (v_bs demo_disk 64) (v_spb demo_disk 64) (v_inode demo_disk 64 (v_lookup demo_disk 64 demo_entries KERNEL_FILENAME)).
Proof.
  assert (v_inode demo_disk 64 (v_lookup demo_disk 64 demo_entries KERNEL_FILENAME) = demo_ino 2500 [9; 0; 10]) as -> by (by vm_compute).
  assert (v_bs demo_disk 64 = 1024) as -> by (by vm_compute). assert (v_spb demo_disk 64 = 2) as -> by (by vm_compute).
  assert (ino_size (demo_ino 2500 [9; 0; 10]) = 2500) as Hsz by (by vm_compute). constructor; rewrite ?Hsz; [by vm_compute| |intros Hx; exfalso; lia|intros Hx; exfalso; revert Hx; by vm_compute|by vm_compute|by vm_compute].
  assert (ino_direct (demo_ino 2500 [9; 0; 10]) = [9; 0; 10] ++ replicate 9 0) as -> by (by vm_compute).
  apply Forall_app. split; [repeat constructor; by vm_compute|]. apply Forall_replicate. by vm_compute.
Qed.

Lemma loadkernel_correct_witness :
  let n := v_lookup demo_disk 64 demo_entries KERNEL_FILENAME in let ino := v_inode demo_disk 64 n in
  ino_size ino = 2500 ∧ holds (loadkernel demo_disk 64) loader0 (λ r s', r = 0 ∧
    ∀ j, 0 <= j < ino_size ino → ldb (lmem s') (KERNEL_LOAD_DEST + j) = file_byte demo_disk 64 (v_bs demo_disk 64) (v_spb demo_disk 64) ino j).
Proof.
  split; [by vm_compute|]. apply loadkernel_correct.
  - exact demo_sector.
  - exact demo_volume_ok.
  - lia.
  - done.
  - done.
  - assert (v_lookup demo_disk 64 demo_entries KERNEL_FILENAME = 12) as -> by (by vm_compute). split; [lia|]. repeat split; by vm_compute.
  - exact demo_inode_ok.
Defined.
