(* ===== verification/Pci.v ===== *)
(** * PCI configuration space (drivers/pci/pci.c, arch/x86_64/pci.c)

    The configuration mechanism is two ports: an address register and a data
    port onto the double word it selects.  A function that is not there reads
    as all ones. *)

From S2P Require Import Prelude Types StateMonad.

Definition PCI_MAX_BUS : Z := 255.
Definition PCI_MAX_DEV : Z := 31.
Definition PCI_MAX_FUNC : Z := 7.
Definition PCI_COMMAND_MEMORY_SPACE_BIT : Z := Z.shiftl 1 1.
Definition PIC_COMMAND_BUS_MASTER_BIT : Z := Z.shiftl 1 2.

(** CONFIG_ADDR_PORT and the double words behind CONFIG_DATA_PORT. *)
Record pci := Pci { cfg_addr : Z; cfg_space : gmap Z Z }.

Record pci_device := PciDevice { pd_bus : Z; pd_dev : Z; pd_func : Z }.

Definition cfg_dword (s : pci) (a : Z) : Z := default 0xFFFFFFFF (cfg_space s !! a).

Definition pci_addr (bus dev func offset : Z) : Z :=
  u32 (Z.lor (Z.lor (Z.lor (Z.lor (Z.shiftl bus 16) (Z.shiftl dev 11)) (Z.shiftl func 8)) (Z.land offset 0xFC)) 0x80000000).

Definition outl_addr (a : Z) : M pci () := puts (λ s, Pci a (cfg_space s)).
Definition inl_data : M pci Z := gets (λ s, cfg_dword s (cfg_addr s)).
Definition outl_data (v : Z) : M pci () := puts (λ s, Pci (cfg_addr s) (<[cfg_addr s := v]> (cfg_space s))).

Definition arch_pci_read_dword (bus dev func offset : Z) : M pci Z :=
  outl_addr (pci_addr bus dev func offset);;
  inl_data.

Definition arch_pci_write_dword (bus dev func offset val : Z) : M pci () :=
  outl_addr (pci_addr bus dev func offset);;
  outl_data val.

(** The three loops; [None] is [found = false]. *)
Fixpoint func_loop (n : nat) (bus dev func target_class target_subclass : Z) : M pci (option pci_device) :=
  match n with
  | O => mret None
  | S n' =>
      vendor ← arch_pci_read_dword bus dev func 0;
      if negb (Z.land vendor 0xFFFF =? 0xFFFF) then
        class_info ← arch_pci_read_dword bus dev func 0x08;
        let class := u8 (Z.shiftr class_info 24) in
        let subclass := u8 (Z.shiftr class_info 16) in
        if (class =? target_class) && (subclass =? target_subclass) then mret (Some (PciDevice (u8 bus) (u8 dev) (u8 func)))
        else func_loop n' bus dev (func + 1) target_class target_subclass
      else func_loop n' bus dev (func + 1) target_class target_subclass
  end.

Fixpoint dev_loop (n : nat) (bus dev target_class target_subclass : Z) : M pci (option pci_device) :=
  match n with
  | O => mret None
  | S n' =>
      r ← func_loop (Z.to_nat (PCI_MAX_FUNC + 1)) bus dev 0 target_class target_subclass;
      match r with Some d => mret (Some d) | None => dev_loop n' bus (dev + 1) target_class target_subclass end
  end.

Fixpoint bus_loop (n : nat) (bus target_class target_subclass : Z) : M pci (option pci_device) :=
  match n with
  | O => mret None
  | S n' =>
      r ← dev_loop (Z.to_nat (PCI_MAX_DEV + 1)) bus 0 target_class target_subclass;
      match r with Some d => mret (Some d) | None => bus_loop n' (bus + 1) target_class target_subclass end
  end.

Definition pci_get_by_class (target_class target_subclass : Z) : M pci (option pci_device) :=
  bus_loop (Z.to_nat (PCI_MAX_BUS + 1)) 0 target_class target_subclass.

Definition pci_read_dword (d : pci_device) (offset : Z) : M pci Z := arch_pci_read_dword (pd_bus d) (pd_dev d) (pd_func d) offset.
Definition pci_write_dword (d : pci_device) (offset val : Z) : M pci () := arch_pci_write_dword (pd_bus d) (pd_dev d) (pd_func d) offset val.

(** ** The search

    The functions in the order of their numbers, and the first one that is
    there and has the class. *)

Definition funcs_of (bus dev : Z) : list (Z * Z * Z) := (λ f, (bus, dev, f)) <$> seqZ 0 8.
Definition devs_of (bus : Z) : list (Z * Z * Z) := concat (funcs_of bus <$> seqZ 0 32).
Definition all_functions : list (Z * Z * Z) := concat (devs_of <$> seqZ 0 256).

Definition has_class (c sc : Z) (s : pci) (bdf : Z * Z * Z) : bool :=
  let '(b, d, f) := bdf in
  negb (Z.land (cfg_dword s (pci_addr b d f 0)) 0xFFFF =? 0xFFFF) &&
  (u8 (Z.shiftr (cfg_dword s (pci_addr b d f 8)) 24) =? c) && (u8 (Z.shiftr (cfg_dword s (pci_addr b d f 8)) 16) =? sc).

Definition as_device (bdf : Z * Z * Z) : pci_device := let '(b, d, f) := bdf in PciDevice b d f.

(** A search returns the first function of [l] with the class, and only the
    address register changes. *)
Definition finds (m : M pci (option pci_device)) (c sc : Z) (l : list (Z * Z * Z)) : Prop :=
  ∀ s, holds m s (λ r s', r = as_device <$> find (has_class c sc s) l ∧ cfg_space s' = cfg_space s).

Lemma has_class_space c sc s s' : cfg_space s' = cfg_space s → has_class c sc s' = has_class c sc s.
Proof. intros Hs. unfold has_class, cfg_dword. by rewrite Hs. Qed.

Lemma find_app {A} (f : A → bool) l1 l2 : find f (l1 ++ l2) = match find f l1 with Some x => Some x | None => find f l2 end.
Proof. induction l1 as [|x l1 IH]; cbn; [done|]. by destruct (f x). Qed.

(** One search after another. *)
Lemma finds_app m k c sc l1 l2 : finds m c sc l1 → finds k c sc l2 →
  finds (m ≫= λ r, match r with Some d => mret (Some d) | None => k end) c sc (l1 ++ l2).
Proof.
  intros Hm Hk s. eapply holds_bind; [apply Hm|]. intros r s' [-> Hs']. rewrite find_app. destruct (find _ l1); cbn [fmap option_fmap option_map]; [done|].
  eapply holds_mono; [apply Hk|]. intros r' s'' [-> Hs'']. by rewrite (has_class_space _ _ _ _ Hs'), Hs''.
Qed.

Lemma func_loop_finds n b d f c sc : 0 <= b < 2 ^ 8 → 0 <= d < 2 ^ 8 → 0 <= f → f + Z.of_nat n <= 2 ^ 8 →
  finds (func_loop n b d f c sc) c sc ((λ f, (b, d, f)) <$> seqZ f (Z.of_nat n)).
Proof.
  intros Hb Hd. revert f. induction n as [|n IH]; intros f Hf Hn s; [done|]. rewrite seqZ_cons by lia. cbn [func_loop fmap list_fmap find].
  assert (∀ s', cfg_space s' = cfg_space s → holds (func_loop n b d (f + 1) c sc) s'
    (λ r s'', r = as_device <$> find (has_class c sc s) ((λ f, (b, d, f)) <$> seqZ (Z.succ f) (Z.pred (Z.of_nat (S n)))) ∧ cfg_space s'' = cfg_space s)) as Hnext.
  { intros s' Hs'. replace (Z.succ f) with (f + 1) by lia. replace (Z.pred (Z.of_nat (S n))) with (Z.of_nat n) by lia.
    eapply holds_mono; [apply IH; lia|]. intros r s'' [-> Hs'']. by rewrite (has_class_space _ _ _ _ Hs'), Hs''. }
  unfold holds. erewrite bind_step; [|reflexivity]. unfold has_class at 1. unfold cfg_dword at 1 2. cbn [cfg_space cfg_addr].
  fold (cfg_dword s (pci_addr b d f 0)). destruct (Z.land (cfg_dword s (pci_addr b d f 0)) 0xFFFF =? 0xFFFF); cbn [negb andb]; [by apply Hnext|].
  erewrite bind_step; [|reflexivity]. unfold cfg_dword at 1 2. cbn [cfg_space cfg_addr]. fold (cfg_dword s (pci_addr b d f 8)).
  destruct (_ && _); [|by apply Hnext]. cbn. by rewrite !u8_small by lia.
Qed.

Lemma dev_loop_finds n b d c sc : 0 <= b < 2 ^ 8 → 0 <= d → d + Z.of_nat n <= 2 ^ 8 →
  finds (dev_loop n b d c sc) c sc (concat (funcs_of b <$> seqZ d (Z.of_nat n))).
Proof.
  intros Hb. revert d. induction n as [|n IH]; intros d Hd Hn; [by intros s|]. rewrite seqZ_cons by lia. cbn [dev_loop fmap list_fmap concat].
  apply finds_app; [by apply (func_loop_finds 8); lia|]. replace (Z.succ d) with (d + 1) by lia. replace (Z.pred (Z.of_nat (S n))) with (Z.of_nat n) by lia. apply IH; lia.
Qed.

Lemma bus_loop_finds n b c sc : 0 <= b → b + Z.of_nat n <= 2 ^ 8 → finds (bus_loop n b c sc) c sc (concat (devs_of <$> seqZ b (Z.of_nat n))).
Proof.
  revert b. induction n as [|n IH]; intros b Hb Hn; [by intros s|]. rewrite seqZ_cons by lia. cbn [bus_loop fmap list_fmap concat].
  apply finds_app; [by apply (dev_loop_finds 32); lia|]. replace (Z.succ b) with (b + 1) by lia. replace (Z.pred (Z.of_nat (S n))) with (Z.of_nat n) by lia. apply IH; lia.
Qed.

Lemma pci_get_by_class_finds c sc : finds (pci_get_by_class c sc) c sc all_functions.
Proof. apply (bus_loop_finds 256); lia. Qed.

(** C37: [pci_get_by_class] returns the first function, in the order of bus,
    device and function number, that is present and has the class and subclass
    asked for, and finds nothing exactly when there is none; configuration space
    is only read. *)
Theorem pci_get_by_class_correct c sc s :
  holds (pci_get_by_class c sc) s (λ r s', r = as_device <$> find (has_class c sc s) all_functions ∧ cfg_space s' = cfg_space s).
Proof. apply pci_get_by_class_finds. Qed.
