(* ===== verification/Ahci.v ===== *)
(** * The AHCI disk driver (drivers/ahci/ahci.c)

    The driver talks to the controller in two ways: through 32-bit registers,
    which the controller may change at any time, and through structures in
    memory, which the controller reads and into which it transfers data.  The
    controller is the class [Hba]: the value of each register, the effect of
    writing one, and [hba_tick], what the controller does between two accesses.
    Memory is the byte map of ByteMem, by physical address; the driver reaches
    it through the direct map.

    The loops that wait for the controller take [fuel]. *)

From S2P Require Import Prelude Types FrameAlloc EarlyPmm Pmm Paging Vmm Kmalloc HeapApi StateMonad Layout ByteMem Block Pci.

Definition AHCI_CLASS : Z := 0x01.
Definition AHCI_SUB_CLASS : Z := 0x06.
Definition AHCI_ENABLE_BIT : Z := Z.shiftl 1 31.
Definition AHCI_DEV_SATA : Z := 0x00000101.
Definition AHCI_HBA_PORT_DET_PRESENT : Z := 3.
Definition AHCI_HBA_PORT_IPM_ACTIVE : Z := 1.
Definition AHCI_HBA_PORT_CMD_ST_BIT : Z := 0x01.
Definition AHCI_HBA_PORT_CMD_FRE_BIT : Z := 0x10.
Definition AHCI_HBA_PORT_CMD_FR_BIT : Z := 0x4000.
Definition AHCI_HBA_PORT_CMD_CR_BIT : Z := 0x8000.
Definition AHCI_HBA_PORT_IS_TFES_BIT : Z := Z.shiftl 1 30.
Definition AHCI_HBA_PORT_TFD_BSY_BIT : Z := Z.shiftl 1 7.
Definition AHCI_HBA_PORT_TFD_DRQ_BIT : Z := Z.shiftl 1 3.
Definition AHCI_COMMAND_LIST_MAX_COUNT : Z := 32.
Definition AHCI_PHYSICAL_REGION_MAX_LENGTH : Z := 0x400000.
Definition AHCI_ATA_CMD_READ_DMA_EXT : Z := 0x25.
Definition AHCI_ATA_CMD_IDENTIFY : Z := 0xEC.
Definition AHCI_CMDFIS_DEVICE_LBA_MODE : Z := Z.shiftl 1 6.
Definition AHCI_DEFAULT_SECTOR_SIZE : Z := 512.
Definition FIS_TYPE_REG_H2D : Z := 0x27.

Definition fis_h2d_layout : layout :=
  [("fis_type", 1); ("pmport_rsv0_c", 1); ("command", 1); ("featurel", 1); ("lba0", 1); ("lba1", 1); ("lba2", 1); ("device", 1);
   ("lba3", 1); ("lba4", 1); ("lba5", 1); ("featureh", 1); ("countl", 1); ("counth", 1); ("iccl", 1); ("control", 1); ("rsv1", 4)]%string.

Definition fis_pio_setup_layout : layout :=
  [("fis_type", 1); ("pmport_d_i", 1); ("status", 1); ("error", 1); ("lba0", 1); ("lba1", 1); ("lba2", 1); ("device", 1);
   ("lba3", 1); ("lba4", 1); ("lba5", 1); ("rsv2", 1); ("countl", 1); ("counth", 1); ("rsv3", 1); ("e_status", 1); ("tc", 2); ("rsv4", 2)]%string.

Definition fis_dma_setup_layout : layout :=
  [("fis_type", 1); ("pmport_d_i_a", 1); ("rsv1", 2); ("dma_buf_id", 8); ("rsv2", 4); ("dma_buf_offset", 4); ("transfet_count", 4); ("rsv3", 4)]%string.

Definition hba_port_layout : layout :=
  [("clb", 4); ("clbu", 4); ("fb", 4); ("fbu", 4); ("is", 4); ("ie", 4); ("cmd", 4); ("rsv0", 4); ("tfd", 4); ("sig", 4); ("ssts", 4);
   ("sctl", 4); ("serr", 4); ("sact", 4); ("ci", 4); ("sntf", 4); ("fbs", 4); ("rsv1", 44); ("vendor", 16)]%string.

Definition hba_mem_layout : layout :=
  [("cap", 4); ("ghc", 4); ("is", 4); ("pi", 4); ("vs", 4); ("ccc_ctl", 4); ("ccc_pts", 4); ("em_loc", 4); ("em_ctl", 4); ("cap2", 4);
   ("bohc", 4); ("rsv", 0xA0 - 0x2C); ("vendor", 0x100 - 0xA0); ("ports", 32 * size_of hba_port_layout)]%string.

Definition hba_fis_layout : layout :=
  [("dsfis", size_of fis_dma_setup_layout); ("pad0", 4); ("psfis", size_of fis_pio_setup_layout); ("pad1", 12); ("sdbfis", 8); ("ufis", 64);
   ("rsv", 0x100 - 0xA0)]%string.

(** The first two bytes are bit fields: cfl, a, w, p, and r, b, c, pmp. *)
Definition hba_cmd_header_layout : layout :=
  [("cfl_a_w_p", 1); ("r_b_c_pmp", 1); ("prdtl", 2); ("prdbc", 4); ("ctba", 4); ("ctbau", 4); ("rsv1", 16)]%string.

(** The last word is dbc (22 bits), 9 reserved bits and i. *)
Definition hba_prdt_entry_layout : layout := [("dba", 4); ("dbau", 4); ("rsv0", 4); ("dbc_i", 4)]%string.

(** The array [prdt_entry] follows. *)
Definition hba_cmd_table_layout : layout := [("cfis", 64); ("acmd", 16); ("rsv", 48)]%string.


(** ** The controller *)

Class Hba (V : Type) := {
  hba_reg : Z → V → Z;
  hba_write : Z → Z → V * gmap Z Z → V * gmap Z Z;
  hba_tick : V * gmap Z Z → V * gmap Z Z
}.

(** The kernel's heap and devices, and memory; the controller is the [disk] of
    the block layer. *)
Record ahci (H V : Type) := Ahci { ablk : blk H V; amem : gmap Z Z }.
Arguments Ahci {H V} _ _.
Arguments ablk {H V} _.
Arguments amem {H V} _.

Section driver.
Context {H V : Type} `{!KernelHeap H, !Hba V}.
Implicit Types s : ahci H V.

Definition set_ablk b s : ahci H V := Ahci b (amem s).
Definition set_amem m s : ahci H V := Ahci (ablk s) m.
Definition set_hw (vm : V * gmap Z Z) s : ahci H V := Ahci (set_disk vm.1 (ablk s)) vm.2.
Definition hw s : V * gmap Z Z := (disk (ablk s), amem s).

Definition readl (a : Z) : M (ahci H V) Z := λ s, Ok (hba_reg a (disk (ablk s)), set_hw (hba_tick (hw s)) s).
Definition writel (v a : Z) : M (ahci H V) () := puts (λ s, set_hw (hba_write a (u32 v) (hw s)) s).

Definition port_reg (port : Z) (f : string) : Z := port + offset_of f hba_port_layout.

(** Memory behind a kernel pointer; only the direct map leads to it. *)
Definition ld_at (n : nat) (p : Z) : M (ahci H V) Z := λ s,
  if p <? ID_VIRT_REGION_START then Fault else Ok (ld_le n (VIRT_TO_PHYS p) (amem s), s).
Definition st_at (n : nat) (p v : Z) : M (ahci H V) () := λ s,
  if p <? ID_VIRT_REGION_START then Fault else Ok ((), set_amem (st_le n (VIRT_TO_PHYS p) v (amem s)) s).
Definition memset_at (p : Z) (n : Z) : M (ahci H V) () := λ s,
  if p <? ID_VIRT_REGION_START then Fault else Ok ((), set_amem (wr (VIRT_TO_PHYS p) (replicate (Z.to_nat n) 0) (amem s)) s).

Definition on_ablk {A} (m : M (blk H V) A) : M (ahci H V) A := zoom ablk set_ablk m.
Definition akmalloc (size : Z) : M (ahci H V) Z := on_ablk (bkmalloc size).
(** [kzalloc] clears the block. *)
Definition akzalloc (size : Z) : M (ahci H V) Z :=
  p ← on_ablk (bkzalloc size);
  if p =? NULL then mret NULL else
  memset_at p size;;
  mret p.

(** ** Command structures *)

Definition ahci_get_cmd_list (port : Z) : M (ahci H V) Z :=
  clbl ← readl (port_reg port "clb");
  clbu ← readl (port_reg port "clbu");
  let cmd_list_phys := Z.lor clbl (Z.shiftl clbu 32) in
  if cmd_list_phys =? 0 then mret NULL else mret (PHYS_TO_VIRT cmd_list_phys).

Definition ahci_get_cmdtbl (header : Z) : M (ahci H V) Z :=
  ctbal ← ld_at 4 (header + offset_of "ctba" hba_cmd_header_layout);
  ctbau ← ld_at 4 (header + offset_of "ctbau" hba_cmd_header_layout);
  let cmdtbl_phys := Z.lor ctbal (Z.shiftl ctbau 32) in
  if cmdtbl_phys =? 0 then mret NULL else mret (PHYS_TO_VIRT cmdtbl_phys).

Definition ahci_set_cmdtbl (header phys : Z) : M (ahci H V) () :=
  st_at 4 (header + offset_of "ctba" hba_cmd_header_layout) (u32 phys);;
  st_at 4 (header + offset_of "ctbau" hba_cmd_header_layout) (u32 (Z.shiftr phys 32)).

(** The inner loop of [ahci_build_prdt]: an error, or the next index. *)
Fixpoint prdt_chunks (fuel : nat) (cmdtbl max_entries index addr bytes_left : Z) : M (ahci H V) (Z + Z) :=
  match fuel with
  | O => lift OutOfFuel
  | S fuel' =>
      if bytes_left =? 0 then mret (inr index) else
      if max_entries <=? index then mret (inl (- ENOMEM)) else
      let chunck_size := if AHCI_PHYSICAL_REGION_MAX_LENGTH <? bytes_left then AHCI_PHYSICAL_REGION_MAX_LENGTH else bytes_left in
      let e := cmdtbl + size_of hba_cmd_table_layout + index * size_of hba_prdt_entry_layout in
      st_at 4 (e + offset_of "dba" hba_prdt_entry_layout) (u32 addr);;
      st_at 4 (e + offset_of "dbau" hba_prdt_entry_layout) (u32 (Z.shiftr addr 32));;
      w ← ld_at 4 (e + offset_of "dbc_i" hba_prdt_entry_layout);
      st_at 4 (e + offset_of "dbc_i" hba_prdt_entry_layout) (set_bits w 0 22 ((chunck_size - 1) mod 2 ^ 22));;
      prdt_chunks fuel' cmdtbl max_entries (u16 (index + 1)) (u64 (addr + chunck_size)) (bytes_left - chunck_size)
  end.

Definition chunk_fuel (n : Z) : nat := S (S (Z.to_nat (n / AHCI_PHYSICAL_REGION_MAX_LENGTH))).

Fixpoint build_prdt_loop (cmdtbl max_entries index : Z) (iovec : list phys_iovec) : M (ahci H V) Z :=
  match iovec with
  | [] => mret index
  | iv :: rest =>
      r ← prdt_chunks (chunk_fuel (iov_length iv)) cmdtbl max_entries index (iov_addr iv) (iov_length iv);
      match r with
      | inl e => mret e
      | inr index => build_prdt_loop cmdtbl max_entries index rest
      end
  end.

Definition ahci_build_prdt (cmdtbl max_entries : Z) (iovec : list phys_iovec) : M (ahci H V) Z := build_prdt_loop cmdtbl max_entries 0 iovec.

Definition ahci_cmdtbl_build_fis (cmdtbl lba count cmd device : Z) : M (ahci H V) () :=
  let f name := cmdtbl + offset_of name fis_h2d_layout in
  st_at 1 (f "fis_type"%string) FIS_TYPE_REG_H2D;;
  b ← ld_at 1 (f "pmport_rsv0_c"%string);
  st_at 1 (f "pmport_rsv0_c"%string) (set_bits b 7 1 1);;
  st_at 1 (f "command"%string) cmd;;
  st_at 1 (f "lba0"%string) (u8 lba);;
  st_at 1 (f "lba1"%string) (u8 (Z.shiftr lba 8));;
  st_at 1 (f "lba2"%string) (u8 (Z.shiftr lba 16));;
  st_at 1 (f "lba3"%string) (u8 (Z.shiftr lba 24));;
  st_at 1 (f "lba4"%string) (u8 (Z.shiftr lba 32));;
  st_at 1 (f "lba5"%string) (u8 (Z.shiftr lba 40));;
  st_at 1 (f "device"%string) device;;
  st_at 1 (f "countl"%string) (u8 count);;
  st_at 1 (f "counth"%string) (u8 (Z.shiftr count 8)).

(** ** Issuing a command *)

(** The wait for a free device: the value of [spin] at the end. *)
Fixpoint spin_loop (spin : nat) (port : Z) : M (ahci H V) nat :=
  match spin with
  | O => mret O
  | S spin' =>
      t1 ← readl (port_reg port "tfd");
      busy ← (if negb (Z.land t1 AHCI_HBA_PORT_TFD_BSY_BIT =? 0) then mret true else
        t2 ← readl (port_reg port "tfd"); mret (negb (Z.land t2 AHCI_HBA_PORT_TFD_DRQ_BIT =? 0)));
      if (busy : bool) then spin_loop spin' port else mret spin
  end.

(** [while (1)]: true when the slot was cleared, false on an error. *)
Fixpoint issue_loop (fuel : nat) (port slot : Z) : M (ahci H V) bool :=
  match fuel with
  | O => lift OutOfFuel
  | S fuel' =>
      ci ← readl (port_reg port "ci");
      if Z.land ci (u32 (Z.shiftl 1 slot)) =? 0 then mret true else
      ist ← readl (port_reg port "is");
      if negb (Z.land ist AHCI_HBA_PORT_IS_TFES_BIT =? 0) then mret false else issue_loop fuel' port slot
  end.

Definition spin_count : nat := Z.to_nat 1000000.

Definition ahci_issue_cmd (fuel : nat) (port slot : Z) : M (ahci H V) bool :=
  spin ← spin_loop spin_count port;
  if (spin =? 0)%nat then mret false else
  writel 0xFFFFFFFF (port_reg port "is");;
  writel (Z.shiftl 1 slot) (port_reg port "ci");;
  cleared ← issue_loop fuel port slot;
  if negb cleared then mret false else
  ist ← readl (port_reg port "is");
  if negb (Z.land ist AHCI_HBA_PORT_IS_TFES_BIT =? 0) then mret false else mret true.

Definition ahci_alloc_cmdtbl : M (ahci H V) Z :=
  cmdtbl ← on_ablk balloc_page;
  if cmdtbl =? NULL then mret NULL else
  memset_at cmdtbl PAGE_SIZE;;
  mret cmdtbl.

(** The common start of a command: the table of slot 0, made when it is not
    there yet. *)
Definition slot_table (cmd_list : Z) : M (ahci H V) Z :=
  cmdtbl ← ahci_get_cmdtbl cmd_list;
  if negb (cmdtbl =? NULL) then mret cmdtbl else
  cmdtbl ← ahci_alloc_cmdtbl;
  if cmdtbl =? NULL then mret NULL else
  ahci_set_cmdtbl cmd_list (VIRT_TO_PHYS cmdtbl);;
  mret cmdtbl.

(** The common end: the header of slot 0, then the command is issued. *)
Definition run_slot (fuel : nat) (port cmd_list ptrdl : Z) : M (ahci H V) Z :=
  st_at 2 (cmd_list + offset_of "prdtl" hba_cmd_header_layout) (u16 ptrdl);;
  b ← ld_at 1 (cmd_list + offset_of "cfl_a_w_p" hba_cmd_header_layout);
  let b := set_bits b 6 1 0 in
  let b := set_bits b 0 5 (size_of fis_h2d_layout / 4) in
  st_at 1 (cmd_list + offset_of "cfl_a_w_p" hba_cmd_header_layout) b;;
  issued ← ahci_issue_cmd fuel port 0;
  if negb issued then mret (- EIO) else mret 0.

Definition max_ptrd_entries : Z := u16 ((PAGE_SIZE - size_of hba_cmd_table_layout) / size_of hba_prdt_entry_layout).

Definition __ahci_read (fuel : nat) (port lba count : Z) (iovec : list phys_iovec) : M (ahci H V) Z :=
  cmd_list ← ahci_get_cmd_list port;
  cmdtbl ← slot_table cmd_list;
  if cmdtbl =? NULL then mret (- ENOMEM) else
  ahci_cmdtbl_build_fis cmdtbl lba (u16 count) AHCI_ATA_CMD_READ_DMA_EXT AHCI_CMDFIS_DEVICE_LBA_MODE;;
  ptrdl ← ahci_build_prdt cmdtbl max_ptrd_entries iovec;
  if ptrdl <? 0 then mret ptrdl else
  run_slot fuel port cmd_list ptrdl.

(** [bdev->priv_data] is the port. *)
Definition ahci_read (fuel : nat) (bdev : Z) (lba count : Z) (iovec : list phys_iovec) : M (ahci H V) Z :=
  b ← (λ s, lift (deref (bdevs (ablk s)) bdev) s);
  __ahci_read fuel (bd_priv_data b) lba count iovec.

Definition ahci_identify (fuel : nat) (port buf : Z) : M (ahci H V) Z :=
  cmd_list ← ahci_get_cmd_list port;
  cmdtbl ← slot_table cmd_list;
  if cmdtbl =? NULL then mret (- ENOMEM) else
  memset_at (cmdtbl + offset_of "cfis" hba_cmd_table_layout) (field_size "cfis" hba_cmd_table_layout);;
  ahci_cmdtbl_build_fis cmdtbl 0 0 AHCI_ATA_CMD_IDENTIFY 0x00;;
  ptrdl ← ahci_build_prdt cmdtbl 1 [PhysIovec (VIRT_TO_PHYS buf) 512];
  if ptrdl <? 0 then mret (- ptrdl) else
  run_slot fuel port cmd_list ptrdl.

(** ** Ports *)

(** [while (readl_relaxed(&port->cmd) & bit);] *)
Fixpoint wait_clear (fuel : nat) (port bit : Z) : M (ahci H V) () :=
  match fuel with
  | O => lift OutOfFuel
  | S fuel' =>
      cmd ← readl (port_reg port "cmd");
      if negb (Z.land cmd bit =? 0) then wait_clear fuel' port bit else mret ()
  end.

Definition stop_port (fuel : nat) (port : Z) : M (ahci H V) () :=
  cmd ← readl (port_reg port "cmd");
  let cmd := Z.land cmd (Z.lnot AHCI_HBA_PORT_CMD_ST_BIT) in
  let cmd := Z.land cmd (Z.lnot AHCI_HBA_PORT_CMD_FRE_BIT) in
  writel cmd (port_reg port "cmd");;
  wait_clear fuel port AHCI_HBA_PORT_CMD_FR_BIT;;
  wait_clear fuel port AHCI_HBA_PORT_CMD_CR_BIT.

Definition start_port (fuel : nat) (port : Z) : M (ahci H V) () :=
  wait_clear fuel port AHCI_HBA_PORT_CMD_CR_BIT;;
  cmd ← readl (port_reg port "cmd");
  writel (Z.lor cmd (Z.lor AHCI_HBA_PORT_CMD_FRE_BIT AHCI_HBA_PORT_CMD_ST_BIT)) (port_reg port "cmd").

Definition ahci_init_port (fuel : nat) (port : Z) : M (ahci H V) Z :=
  writel 0 (port_reg port "ie");;
  writel 0xFFFFFFFF (port_reg port "serr");;
  writel 0xFFFFFFFF (port_reg port "is");;
  stop_port fuel port;;
  cmd_list ← akzalloc (size_of hba_cmd_header_layout * AHCI_COMMAND_LIST_MAX_COUNT);
  if cmd_list =? NULL then mret (- ENOMEM) else
  fis ← akzalloc (size_of hba_fis_layout);
  if fis =? NULL then mret (- ENOMEM) else
  let cmd_list_phys := VIRT_TO_PHYS cmd_list in
  let fis_phys := VIRT_TO_PHYS fis in
  writel (u32 cmd_list_phys) (port_reg port "clb");;
  writel (u32 (Z.shiftr cmd_list_phys 32)) (port_reg port "clbu");;
  writel (u32 fis_phys) (port_reg port "fb");;
  writel (u32 (Z.shiftr fis_phys 32)) (port_reg port "fbu");;
  start_port fuel port;;
  mret 0.

(** ** Identification

    [id] is the 256 words the device returned. *)

Definition __id_get_sector_count_ (id : list Z) : res Z :=
  w60 ← arr_get id 60; w61 ← arr_get id 61; w83 ← arr_get id 83;
  if (Z.land w83 0xC000 =? 0x4000) && negb (Z.land w83 (Z.shiftl 1 10) =? 0) then
    w100 ← arr_get id 100; w101 ← arr_get id 101; w102 ← arr_get id 102; w103 ← arr_get id 103;
    Ok (Z.lor (Z.lor (Z.lor w100 (Z.shiftl w101 16)) (Z.shiftl w102 32)) (Z.shiftl w103 48))
  else Ok (Z.lor w60 (Z.shiftl w61 16)).

Definition __id_get_sector_size (id : list Z) : res Z :=
  w106 ← arr_get id 106;
  if (Z.land w106 0xC000 =? 0x4000) && negb (Z.land w106 (Z.shiftl 1 12) =? 0) then
    w117 ← arr_get id 117; w118 ← arr_get id 118;
    let words_per_sector := Z.lor w117 (Z.shiftl w118 16) in
    if 0 <? words_per_sector then Ok (u32 (words_per_sector * 2)) else Ok AHCI_DEFAULT_SECTOR_SIZE
  else Ok AHCI_DEFAULT_SECTOR_SIZE.

(** The words at a kernel pointer. *)
Definition words_at (p : Z) (m : gmap Z Z) : list Z := (λ k, ld_le 2 (VIRT_TO_PHYS p + 2 * k) m) <$> seqZ 0 256.

(** "satax" with the port's number. *)
Definition sata_name (i : Z) : list Z := [115; 97; 116; 97; u8 (48 + i)].

(** ** Probing *)

Fixpoint probe_loop (fuel n : nat) (i hba : Z) : M (ahci H V) Z :=
  match n with
  | O => mret 0
  | S n' =>
      pi ← readl (hba + offset_of "pi" hba_mem_layout);
      if Z.land pi (u32 (Z.shiftl 1 i)) =? 0 then probe_loop fuel n' (i + 1) hba else
      let port := hba + offset_of "ports" hba_mem_layout + i * size_of hba_port_layout in
      ssts ← readl (port_reg port "ssts");
      let det := Z.land ssts 0x0F in
      let ipm := Z.land (Z.shiftr ssts 8) 0x0F in
      if negb (det =? AHCI_HBA_PORT_DET_PRESENT) || negb (ipm =? AHCI_HBA_PORT_IPM_ACTIVE) then probe_loop fuel n' (i + 1) hba else
      sig ← readl (port_reg port "sig");
      if negb (sig =? AHCI_DEV_SATA) then probe_loop fuel n' (i + 1) hba else
      status ← ahci_init_port fuel port;
      if status <? 0 then mret status else
      id ← akmalloc 512;
      if id =? NULL then mret (- ENOMEM) else
      status ← ahci_identify fuel port id;
      if status <? 0 then mret (- EIO) else
      bdev ← on_ablk (bkzalloc BLOCK_DEV_SIZE);
      if bdev =? NULL then mret (- ENOMEM) else
      words ← gets (λ s, words_at id (amem s));
      sector_size ← lift (__id_get_sector_size words);
      sector_count ← lift (__id_get_sector_count_ words);
      on_ablk (puts (λ b, set_bdevs (<[bdev := BlockDev (sata_name i) sector_size sector_count port READ_DRIVER]> (bdevs b)) b));;
      on_ablk (block_dev_register bdev);;
      probe_loop fuel n' (i + 1) hba
  end.

Definition ahci_probe_ports (fuel : nat) (hba : Z) : M (ahci H V) Z := probe_loop fuel 32 0 hba.

(** ** Initialisation: the driver with the bus and the kernel's page table *)

Context {F : Type} `{!FrameAllocator F}.

Record ahci_sys := AhciSys { y_pci : pci; y_mmu : mmu F; y_ahci : ahci H V; y_hba : Z }.

Definition on_pci {A} (m : M pci A) : M ahci_sys A := zoom y_pci (λ p y, AhciSys p (y_mmu y) (y_ahci y) (y_hba y)) m.
Definition on_ahci {A} (m : M (ahci H V) A) : M ahci_sys A := zoom y_ahci (λ a y, AhciSys (y_pci y) (y_mmu y) a (y_hba y)) m.
Definition on_mmu {A} (m : M (mmu F) A) : M ahci_sys A := zoom y_mmu (λ u y, AhciSys (y_pci y) u (y_ahci y) (y_hba y)) m.

(** [kpgd] is the kernel's page table. *)
Definition ahci_init (cpu_has_1g_pages : bool) (kpgd : Z) (fuel : nat) : M ahci_sys Z :=
  pci_dev ← on_pci (pci_get_by_class AHCI_CLASS AHCI_SUB_CLASS);
  match pci_dev with
  | None => mret (- ENODEV)
  | Some d =>
      cmd_reg ← on_pci (pci_read_dword d 0x04);
      on_pci (pci_write_dword d 0x04 (Z.lor cmd_reg (Z.lor PIC_COMMAND_BUS_MASTER_BIT PCI_COMMAND_MEMORY_SPACE_BIT)));;
      bar5 ← on_pci (pci_read_dword d 0x24);
      let bar5_phys := Z.land bar5 0xFFFFFFF0 in
      hba ← on_mmu (ioremap cpu_has_1g_pages kpgd bar5_phys (size_of hba_mem_layout));
      puts (λ y, AhciSys (y_pci y) (y_mmu y) (y_ahci y) hba);;
      ghc ← on_ahci (readl (hba + offset_of "ghc" hba_mem_layout));
      on_ahci (writel (Z.lor ghc AHCI_ENABLE_BIT) (hba + offset_of "ghc" hba_mem_layout));;
      status ← on_ahci (ahci_probe_ports fuel hba);
      if status <? 0 then mret status else mret 0
  end.
End driver.

(** ** What the controller promises

    A command is described by the header of slot 0 at the port's command list,
    and by the table the header points to. *)

Definition prdt_at (m : gmap Z Z) (T : Z) (i : nat) : Z * Z :=
  let e := T + 128 + 16 * Z.of_nat i in
  (ld_le 4 e m + 2 ^ 32 * ld_le 4 (e + 4) m, get_bits (ld_le 4 (e + 12) m) 0 22 + 1).

Record fis_at (m : gmap Z Z) (T lba count : Z) : Prop := {
  fk_type : ld_le 1 T m = FIS_TYPE_REG_H2D;
  fk_c : get_bits (ld_le 1 (T + 1) m) 7 1 = 1;
  fk_cmd : ld_le 1 (T + 2) m = AHCI_ATA_CMD_READ_DMA_EXT;
  fk_lba_mode : get_bits (ld_le 1 (T + 7) m) 6 1 = 1;
  fk_lba : lba = ld_le 1 (T + 4) m + 2 ^ 8 * ld_le 1 (T + 5) m + 2 ^ 16 * ld_le 1 (T + 6) m +
    2 ^ 24 * ld_le 1 (T + 8) m + 2 ^ 32 * ld_le 1 (T + 9) m + 2 ^ 40 * ld_le 1 (T + 10) m;
  fk_count : count = ld_le 1 (T + 12) m + 2 ^ 8 * ld_le 1 (T + 13) m
}.

(** The command at the list [L]: read [count] sectors from [lba] into the
    ranges [R]. *)
Record command_at (m : gmap Z Z) (L lba count : Z) (R : list (Z * Z)) : Prop := {
  ck_cfl : get_bits (ld_le 1 L m) 0 5 = 5;
  ck_w : get_bits (ld_le 1 L m) 6 1 = 0;
  ck_prdtl : ld_le 2 (L + 2) m = Z.of_nat (length R);
  ck_fis : fis_at m (ld_le 4 (L + 8) m + 2 ^ 32 * ld_le 4 (L + 12) m) lba count;
  ck_prdt : ∀ i r, R !! i = Some r → prdt_at m (ld_le 4 (L + 8) m + 2 ^ 32 * ld_le 4 (L + 12) m) i = r
}.

(** The command list and the table of slot 0, which belong to the driver. *)
Definition structures (m : gmap Z Z) (L x : Z) : Prop :=
  let T := ld_le 4 (L + 8) m + 2 ^ 32 * ld_le 4 (L + 12) m in L <= x < L + 1024 ∨ T <= x < T + 4096.

Definition bytes_of (R : list (Z * Z)) : list Z := concat ((λ '(a, n), seqZ a n) <$> R).

Definition ticks {V} `{!Hba V} (j : nat) (vm : V * gmap Z Z) : V * gmap Z Z := Nat.iter j hba_tick vm.

(** A controller with disks of 512-byte sectors behind its ports: registers are
    polled without effect while no command runs; a command that was issued ends
    after finitely many accesses, by clearing its bit after the data was
    transferred, or by raising the task-file error. *)
Class HbaDisk (V : Type) `{!Hba V} := {
  hd_idle : V → Z → Prop;
  hd_clb : V → Z → Z;
  hd_sector : V → Z → Z → list Z;
  hd_sector_len v p l : length (hd_sector v p l) = 512%nat;
  hd_clb_reg v p : hba_reg (port_reg p "clb") v = hd_clb v p mod 2 ^ 32;
  hd_clbu_reg v p : hba_reg (port_reg p "clbu") v = hd_clb v p / 2 ^ 32;
  hd_same v v' p := hd_idle v' p ∧ hd_clb v' p = hd_clb v p ∧ hd_sector v' = hd_sector v;
  hd_tick v m p : hd_idle v p → ∃ v', hba_tick (v, m) = (v', m) ∧ hd_same v v' p;
  hd_ack v m p x : hd_idle v p → ∃ v', hba_write (port_reg p "is") x (v, m) = (v', m) ∧ hd_same v v' p;
  hd_issue v m p lba count R : hd_idle v p → command_at m (hd_clb v p) lba count R → 0 < count →
    Z.of_nat (length (bytes_of R)) = count * 512 → (∀ x, x ∈ bytes_of R → ¬ structures m (hd_clb v p) x) →
    ∃ (k : nat) (good : bool), ∀ j, let '(vj, mj) := ticks j (hba_write (port_reg p "ci") 1 (v, m)) in
      if bool_decide (j < k)%nat then
        Z.testbit (hba_reg (port_reg p "ci") vj) 0 = true ∧ Z.testbit (hba_reg (port_reg p "is") vj) 30 = false
      else
        hd_same v vj p ∧ Z.testbit (hba_reg (port_reg p "is") vj) 30 = negb good ∧
        (if good then Z.testbit (hba_reg (port_reg p "ci") vj) 0 = false ∧
           mj = scatter (bytes_of R) (concat (hd_sector v p <$> seqZ lba count)) m
         else ∀ x, x ∉ bytes_of R → ldb mj x = ldb m x)
}.

(** ** Chunks

    A range is described by pieces of at most 4 MiB. *)
Fixpoint chunks (fuel : nat) (a n : Z) : list (Z * Z) :=
  match fuel with
  | O => []
  | S fuel' =>
      if n =? 0 then [] else
      let c := if AHCI_PHYSICAL_REGION_MAX_LENGTH <? n then AHCI_PHYSICAL_REGION_MAX_LENGTH else n in
      (a, c) :: chunks fuel' (a + c) (n - c)
  end.

Definition iov_chunks (iov : list phys_iovec) : list (Z * Z) :=
  concat ((λ iv, chunks (chunk_fuel (iov_length iv)) (iov_addr iv) (iov_length iv)) <$> iov).
Definition iov_ranges (iov : list phys_iovec) : list (Z * Z) := (λ iv, (iov_addr iv, iov_length iv)) <$> iov.

Lemma bytes_of_app R1 R2 : bytes_of (R1 ++ R2) = bytes_of R1 ++ bytes_of R2.
Proof. unfold bytes_of. by rewrite fmap_app, concat_app. Qed.

Definition enough (fuel : nat) (n : Z) : Prop := n <= (Z.of_nat fuel - 1) * AHCI_PHYSICAL_REGION_MAX_LENGTH ∧ (0 < fuel)%nat.

Lemma chunk_fuel_enough n : 0 <= n → enough (chunk_fuel n) n.
Proof. intros Hn. unfold enough, chunk_fuel, AHCI_PHYSICAL_REGION_MAX_LENGTH. split; [zlia|lia]. Qed.

Lemma chunks_bytes fuel a n : 0 <= n → enough fuel n → bytes_of (chunks fuel a n) = seqZ a n.
Proof.
  unfold enough, AHCI_PHYSICAL_REGION_MAX_LENGTH. revert a n. induction fuel as [|fuel IH]; intros a n Hn [He Hf]; [lia|]. cbn [chunks].
  destruct (Z.eqb_spec n 0) as [->|Hnz]; [done|]. unfold AHCI_PHYSICAL_REGION_MAX_LENGTH.
  set (c := if 0x400000 <? n then 0x400000 else n). assert (0 < c <= n ∧ (c = n ∨ c = 0x400000)) as [Hc Hcc].
  { unfold c. destruct (Z.ltb_spec 0x400000 n); lia. }
  clearbody c. change (bytes_of ((a, c) :: chunks fuel (a + c) (n - c))) with (seqZ a c ++ bytes_of (chunks fuel (a + c) (n - c))).
  assert (seqZ a n = seqZ a c ++ seqZ (a + c) (n - c)) as -> by (rewrite <- seqZ_app by lia; f_equal; lia).
  f_equal. destruct (decide (n - c = 0)) as [->|]; [by destruct fuel|]. apply IH; [lia|]. lia.
Qed.

Lemma iov_chunks_bytes iov : Forall (λ iv, 0 <= iov_length iv) iov → bytes_of (iov_chunks iov) = bytes_of (iov_ranges iov).
Proof.
  induction 1 as [|iv iov Hiv _ IH]; [done|]. unfold iov_chunks, iov_ranges in *. cbn [fmap list_fmap concat]. rewrite bytes_of_app, IH.
  rewrite chunks_bytes by (done || by apply chunk_fuel_enough). done.
Qed.

Lemma chunks_range fuel a n : 0 <= a → 0 <= n → Forall (λ '(b, c), a <= b ∧ 0 < c <= AHCI_PHYSICAL_REGION_MAX_LENGTH ∧ b + c <= a + n) (chunks fuel a n).
Proof.
  revert a n. induction fuel as [|fuel IH]; intros a n Ha Hn; cbn [chunks]; [constructor|]. destruct (Z.eqb_spec n 0); [constructor|].
  set (c := if _ <? n then _ else n). assert (0 < c <= AHCI_PHYSICAL_REGION_MAX_LENGTH ∧ c <= n) as [Hc Hcn].
  { unfold c, AHCI_PHYSICAL_REGION_MAX_LENGTH. destruct (Z.ltb_spec 0x400000 n); lia. }
  clearbody c. constructor; [lia|]. eapply Forall_impl; [apply IH; lia|]. intros [b d] ?. lia.
Qed.

(** ** Memory behind the direct map *)

Section proofs.
Context {H V : Type} `{!KernelHeap H, !Hba V}.
Implicit Types s : ahci H V.

Definition phys_ok (a n : Z) : Prop := 0 <= a ∧ a + n <= 2 ^ 46.

Lemma direct_map a o : 0 <= a → 0 <= o → a + o < 2 ^ 46 → (PHYS_TO_VIRT a + o <? ID_VIRT_REGION_START) = false ∧ VIRT_TO_PHYS (PHYS_TO_VIRT a + o) = a + o.
Proof.
  intros Ha Ho Hao. rewrite PHYS_TO_VIRT_small by lia. split; [apply Z.ltb_ge; lia|]. unfold VIRT_TO_PHYS, u64, ID_VIRT_REGION_START. zlia.
Qed.

Lemma st_at_step {A} n a o v s (k : () → M (ahci H V) A) : 0 <= a → 0 <= o → a + o < 2 ^ 46 →
  (st_at n (PHYS_TO_VIRT a + o) v ≫= k) s = k () (set_amem (st_le n (a + o) v (amem s)) s).
Proof. intros Ha Ho Hao. destruct (direct_map a o Ha Ho Hao) as [H1 H2]. apply bind_step. unfold st_at. by rewrite H1, H2. Qed.

Lemma ld_at_step {A} n a o s (k : Z → M (ahci H V) A) : 0 <= a → 0 <= o → a + o < 2 ^ 46 →
  (ld_at n (PHYS_TO_VIRT a + o) ≫= k) s = k (ld_le n (a + o) (amem s)) s.
Proof. intros Ha Ho Hao. destruct (direct_map a o Ha Ho Hao) as [H1 H2]. apply bind_step. unfold ld_at. by rewrite H1, H2. Qed.

(** Specifications that only fix the memory. *)
Definition only_mem (s s' : ahci H V) (m : gmap Z Z) : Prop := s' = set_amem m s.

Definition changes (lo hi : Z) (m m' : gmap Z Z) : Prop := ∀ x, x < lo ∨ hi <= x → ldb m' x = ldb m x.

Lemma changes_refl lo hi m : changes lo hi m m.
Proof. by intros x. Qed.

Lemma changes_trans lo hi m1 m2 m3 : changes lo hi m1 m2 → changes lo hi m2 m3 → changes lo hi m1 m3.
Proof. intros H1 H2 x Hx. by rewrite H2, H1. Qed.

Lemma changes_st lo hi n a v m : lo <= a → a + Z.of_nat n <= hi → changes lo hi m (st_le n a v m).
Proof. intros Ha Hn x Hx. apply ldb_st_out. lia. Qed.

Lemma changes_weaken lo hi lo' hi' m m' : changes lo hi m m' → lo' <= lo → hi <= hi' → changes lo' hi' m m'.
Proof. intros Hc Hl Hh x Hx. apply Hc. lia. Qed.

Lemma changes_ld lo hi m m' n a : changes lo hi m m' → a + Z.of_nat n <= lo ∨ hi <= a → ld_le n a m' = ld_le n a m.
Proof. intros Hc Ha. apply ld_le_ext. intros i Hi. apply Hc. lia. Qed.

(** ** The command FIS *)

Lemma lba_bytes lba : 0 <= lba < 2 ^ 48 →
  lba = u8 lba + 2 ^ 8 * u8 (Z.shiftr lba 8) + 2 ^ 16 * u8 (Z.shiftr lba 16) + 2 ^ 24 * u8 (Z.shiftr lba 24) + 2 ^ 32 * u8 (Z.shiftr lba 32) + 2 ^ 40 * u8 (Z.shiftr lba 40).
Proof. intros Hl. rewrite !Z.shiftr_div_pow2 by lia. unfold u8. zlia. Qed.

Lemma count_bytes c : 0 <= c < 2 ^ 16 → c = u8 c + 2 ^ 8 * u8 (Z.shiftr c 8).
Proof. intros Hl. rewrite !Z.shiftr_div_pow2 by lia. unfold u8. zlia. Qed.

Lemma c_bit b : get_bits (set_bits b 7 1 1 mod 256) 7 1 = 1.
Proof. unfold set_bits, get_bits. rewrite !Z.shiftr_div_pow2, !Z.shiftl_mul_pow2 by lia. zlia. Qed.

Definition fis_mem (T lba count : Z) (m : gmap Z Z) : gmap Z Z :=
  let m := st_le 1 T FIS_TYPE_REG_H2D m in
  let m := st_le 1 (T + 1) (set_bits (ld_le 1 (T + 1) m) 7 1 1) m in
  let m := st_le 1 (T + 2) AHCI_ATA_CMD_READ_DMA_EXT m in
  let m := st_le 1 (T + 4) (u8 lba) m in
  let m := st_le 1 (T + 5) (u8 (Z.shiftr lba 8)) m in
  let m := st_le 1 (T + 6) (u8 (Z.shiftr lba 16)) m in
  let m := st_le 1 (T + 8) (u8 (Z.shiftr lba 24)) m in
  let m := st_le 1 (T + 9) (u8 (Z.shiftr lba 32)) m in
  let m := st_le 1 (T + 10) (u8 (Z.shiftr lba 40)) m in
  let m := st_le 1 (T + 7) AHCI_CMDFIS_DEVICE_LBA_MODE m in
  let m := st_le 1 (T + 12) (u8 count) m in
  st_le 1 (T + 13) (u8 (Z.shiftr count 8)) m.

Lemma build_fis_step {A} T lba count s (k : () → M (ahci H V) A) : 0 <= T → T + 4096 <= 2 ^ 46 →
  (ahci_cmdtbl_build_fis (PHYS_TO_VIRT T) lba count AHCI_ATA_CMD_READ_DMA_EXT AHCI_CMDFIS_DEVICE_LBA_MODE ≫= k) s = k () (set_amem (fis_mem T lba count (amem s)) s).
Proof.
  intros HT HT2. unfold ahci_cmdtbl_build_fis. layout_eval. rewrite !bind_assoc_run.
  repeat (first [rewrite bind_assoc_run|rewrite st_at_step by lia|rewrite ld_at_step by lia]; cbn [amem set_amem]; cbv beta).
  rewrite Z.add_0_r. done.
Qed.

(** Reading through a tower of stores. *)
Ltac ld_simpl := repeat first [rewrite ld_le_st_mod|rewrite ld_le_st_ne by lia].

Lemma fis_mem_ok T lba count m : 0 <= lba < 2 ^ 48 → 0 <= count < 2 ^ 16 → fis_at (fis_mem T lba count m) T lba count ∧ changes T (T + 14) m (fis_mem T lba count m).
Proof.
  intros Hl Hc. unfold fis_mem. cbv zeta. split.
  - constructor; ld_simpl; [done|apply c_bit|done|done| |].
    + change (256 ^ Z.of_nat 1) with 256. rewrite (lba_bytes lba Hl) at 1. unfold u8. by rewrite !Z.mod_mod by lia.
    + change (256 ^ Z.of_nat 1) with 256. rewrite (count_bytes count Hc) at 1. unfold u8. by rewrite !Z.mod_mod by lia.
  - intros x Hx. by rewrite !ldb_st_out by lia.
Qed.

Lemma fis_at_changes m m' T lba count : fis_at m T lba count → (∀ x, T <= x < T + 14 → ldb m' x = ldb m x) → fis_at m' T lba count.
Proof.
  intros [H1 H2 H3 H4 H5 H6] Hx. assert (∀ o, 0 <= o < 14 → ld_le 1 (T + o) m' = ld_le 1 (T + o) m) as Hld.
  { intros o Ho. apply ld_le_ext. intros i Hi. apply Hx. lia. }
  assert (ld_le 1 T m' = ld_le 1 T m) as Hld0 by (rewrite <- (Z.add_0_r T); apply Hld; lia).
  constructor; rewrite ?Hld0, ?Hld by lia; done.
Qed.

(** ** The table of physical regions *)

Definition prdt_entry_mem (e a n : Z) (m : gmap Z Z) : gmap Z Z :=
  let m := st_le 4 e (u32 a) m in
  let m := st_le 4 (e + 4) (u32 (Z.shiftr a 32)) m in
  st_le 4 (e + 12) (set_bits (ld_le 4 (e + 12) m) 0 22 ((n - 1) mod 2 ^ 22)) m.

Lemma dbc_bits w n : 0 < n <= AHCI_PHYSICAL_REGION_MAX_LENGTH → get_bits (set_bits w 0 22 ((n - 1) mod 2 ^ 22) mod 2 ^ 32) 0 22 + 1 = n.
Proof.
  unfold AHCI_PHYSICAL_REGION_MAX_LENGTH, set_bits, get_bits. intros Hn. rewrite !Z.shiftr_0_r, !Z.shiftl_0_r. zlia.
Qed.

Lemma prdt_entry_mem_ok T i a n m : 0 <= a < 2 ^ 46 → 0 < n <= AHCI_PHYSICAL_REGION_MAX_LENGTH →
  let e := T + 128 + 16 * Z.of_nat i in
  prdt_at (prdt_entry_mem e a n m) T i = (a, n) ∧ changes e (e + 16) m (prdt_entry_mem e a n m).
Proof.
  intros Ha Hn e. unfold prdt_at, prdt_entry_mem. fold e. cbv zeta. split.
  - ld_simpl. change (256 ^ Z.of_nat 4) with (2 ^ 32). f_equal; [|by apply dbc_bits]. rewrite Z.shiftr_div_pow2 by lia. unfold u32. zlia.
  - intros x Hx. by rewrite !ldb_st_out by lia.
Qed.

Lemma prdt_at_changes m m' T i : (∀ x, T + 128 + 16 * Z.of_nat i <= x < T + 128 + 16 * Z.of_nat i + 16 → ldb m' x = ldb m x) → prdt_at m' T i = prdt_at m T i.
Proof.
  intros Hx. unfold prdt_at. cbv zeta. f_equal; [f_equal; [|f_equal]|do 2 f_equal]; apply ld_le_ext; intros k Hk; apply Hx; lia.
Qed.

(** The entries from [i] on are [C]. *)
Definition prdt_has (m : gmap Z Z) (T : Z) (i : nat) (C : list (Z * Z)) : Prop := ∀ k r, C !! k = Some r → prdt_at m T (i + k) = r.

Lemma prdt_has_app m T i C1 C2 : prdt_has m T i C1 → prdt_has m T (i + length C1) C2 → prdt_has m T i (C1 ++ C2).
Proof.
  intros H1 H2 k r Hk. apply lookup_app_Some in Hk as [Hk|[Hl Hk]]; [by apply H1|].
  rewrite <- (H2 _ _ Hk). f_equal. lia.
Qed.

Lemma prdt_has_changes m m' T i j C : prdt_has m T i C → changes (T + 128 + 16 * Z.of_nat j) (T + 4096) m m' → (i + length C <= j)%nat → prdt_has m' T i C.
Proof.
  intros Hh Hc Hj k r Hk. rewrite <- (Hh _ _ Hk). apply prdt_at_changes. apply lookup_lt_Some in Hk. intros x Hx. apply Hc. lia.
Qed.

(** What building entries for the pieces [C] from index [i] on leaves. *)
Definition built (T max : Z) (i : nat) (C : list (Z * Z)) (s s' : ahci H V) (good bad : Prop) : Prop :=
  ∃ m', s' = set_amem m' s ∧ changes (T + 128 + 16 * Z.of_nat i) (T + 4096) (amem s) m' ∧
    if bool_decide (Z.of_nat (i + length C) <= max) then good ∧ prdt_has m' T i C else bad.

Section prdt.
Context (T max : Z) (HT : 0 <= T) (HT2 : T + 4096 <= 2 ^ 46) (Hmax : 0 <= max <= 248).

Lemma prdt_chunks_spec fuel i a n s : Z.of_nat i <= max → 0 <= a → 0 <= n → a + n <= 2 ^ 46 → enough fuel n →
  let C := chunks fuel a n in
  holds (prdt_chunks fuel (PHYS_TO_VIRT T) max (Z.of_nat i) a n) s (λ r s', built T max i C s s' (r = inr (Z.of_nat (i + length C))) (r = inl (- ENOMEM))).
Proof.
  intros Hi Ha Hn Han He. cbv zeta. revert i a n s Hi Ha Hn Han He. induction fuel as [|fuel IH]; intros i a n s Hi Ha Hn Han [He Hf]; [lia|].
  cbn [prdt_chunks chunks]. destruct (Z.eqb_spec n 0) as [->|Hnz].
  { exists (amem s). split; [by destruct s|]. split; [apply changes_refl|]. cbn [length]. rewrite Nat.add_0_r, bool_decide_eq_true_2 by done. by split. }
  cbv zeta. cbn [length]. destruct (Z.leb_spec max (Z.of_nat i)) as [Hge|Hlt].
  { exists (amem s). split; [by destruct s|]. split; [apply changes_refl|]. cbn [length]. by rewrite bool_decide_eq_false_2 by lia. }
  set (c := if _ <? n then _ else n). assert (0 < c <= AHCI_PHYSICAL_REGION_MAX_LENGTH ∧ c <= n ∧ (c = n ∨ c = AHCI_PHYSICAL_REGION_MAX_LENGTH)) as (Hc & Hcn & Hcc).
  { unfold c, AHCI_PHYSICAL_REGION_MAX_LENGTH. destruct (Z.ltb_spec 0x400000 n); lia. }
  clearbody c. layout_eval. set (e := T + 128 + 16 * Z.of_nat i). destruct (prdt_entry_mem_ok T i a c (amem s) ltac:(lia) Hc) as [Hent Hch]. fold e in Hent, Hch.
  replace (PHYS_TO_VIRT T + 128 + Z.of_nat i * 16) with (PHYS_TO_VIRT T + (128 + 16 * Z.of_nat i)) by lia. rewrite <- !(Z.add_assoc (PHYS_TO_VIRT T)).
  unfold holds. rewrite !st_at_step by lia. rewrite ld_at_step by lia. rewrite st_at_step by lia. cbn [amem set_amem].
  rewrite !(Z.add_assoc T (128 + 16 * Z.of_nat i)), (Z.add_assoc T 128). fold e. rewrite Z.add_0_r.
  change (st_le 4 (e + 12) _ _) with (prdt_entry_mem e a c (amem s)). rewrite u16_small, u64_small by lia.
  replace (Z.of_nat i + 1) with (Z.of_nat (S i)) by lia.
  eapply returns_mono; [apply (IH (S i) (a + c) (n - c)); [lia..|]|].
  { destruct Hcc as [->| ->]; unfold enough in *; [|lia]. split; [rewrite Z.sub_diag; unfold AHCI_PHYSICAL_REGION_MAX_LENGTH in *|]; nia. }
  intros [r s'] (m' & -> & Hm' & Hres). exists m'. split; [done|]. cbn [amem set_amem] in Hm'. split.
  { eapply changes_trans; [eapply changes_weaken; [exact Hch|unfold e; lia..]|]. eapply changes_weaken; [exact Hm'|lia..]. }
  cbn [length]. replace (i + S (length (chunks fuel (a + c) (n - c))))%nat with (S i + length (chunks fuel (a + c) (n - c)))%nat by lia.
  case_bool_decide; [|done]. destruct Hres as [-> Hh]. split; [done|]. intros k r Hk. destruct k as [|k]; cbn in Hk.
  - injection Hk as <-. rewrite Nat.add_0_r, <- Hent. apply prdt_at_changes. fold e. intros x Hx. apply Hm'. unfold e in Hx. lia.
  - rewrite <- (Hh _ _ Hk). f_equal. lia.
Qed.

Lemma build_prdt_loop_spec iov i s : Z.of_nat i <= max → Forall (λ iv, 0 <= iov_addr iv ∧ 0 <= iov_length iv ∧ iov_addr iv + iov_length iv <= 2 ^ 46) iov →
  holds (build_prdt_loop (PHYS_TO_VIRT T) max (Z.of_nat i) iov) s (λ r s', built T max i (iov_chunks iov) s s' (r = Z.of_nat (i + length (iov_chunks iov))) (r = - ENOMEM)).
Proof.
  intros Hi Hiov. revert i s Hi. induction Hiov as [|iv iov (Ha & Hn & Han) Hiov IH]; intros i s Hi; cbn [build_prdt_loop].
  { exists (amem s). split; [by destruct s|]. split; [apply changes_refl|]. cbn. rewrite Nat.add_0_r, bool_decide_eq_true_2 by done. by split. }
  unfold iov_chunks. cbn [fmap list_fmap concat]. fold (iov_chunks iov). set (C := chunks _ _ _).
  eapply holds_bind; [apply prdt_chunks_spec; [done..|by apply chunk_fuel_enough]|]. intros r s' (m & -> & Hm & Hres). fold C in Hres.
  destruct (decide (Z.of_nat (i + length C) <= max)) as [Hle|Hgt].
  2:{ rewrite bool_decide_eq_false_2 in Hres by done. subst r. exists m. split; [done|]. split; [done|]. rewrite length_app. by rewrite bool_decide_eq_false_2 by lia. }
  rewrite bool_decide_eq_true_2 in Hres by done. destruct Hres as [-> Hh]. eapply holds_mono; [by apply IH|].
  intros r s' (m' & -> & Hm' & Hres). cbn [amem set_amem] in Hm'. exists m'. split; [done|]. split.
  { eapply changes_trans; [exact Hm|]. eapply changes_weaken; [exact Hm'|lia..]. }
  rewrite length_app, Nat.add_assoc. case_bool_decide; [|done]. destruct Hres as [-> Hh']. split; [done|]. apply prdt_has_app; [|done].
  eapply prdt_has_changes; [exact Hh|exact Hm'|done].
Qed.
End prdt.

(** ** Running a command *)

Section disk.
Context `{!HbaDisk V} (port : Z).

Lemma hd_same_refl v : hd_idle v port → hd_same v v port.
Proof. done. Qed.

Lemma hd_same_trans v1 v2 v3 : hd_same v1 v2 port → hd_same v2 v3 port → hd_same v1 v3 port.
Proof. intros (_ & Hc & Hs) (Hi & Hc' & Hs'). split; [done|]. by rewrite Hc', Hs'. Qed.

(** Only the controller's own state moved on, and memory is [m]. *)
Definition waited (s : ahci H V) (m : gmap Z Z) (s' : ahci H V) : Prop :=
  ∃ v, s' = set_hw (v, m) s ∧ hd_same (disk (ablk s)) v port.

Lemma waited_start s : hd_idle (disk (ablk s)) port → waited s (amem s) s.
Proof. intros Hi. exists (disk (ablk s)). split; [by destruct s as [[] ?]|done]. Qed.

Lemma waited_mem s m m' s' : waited s m s' → waited s m' (set_amem m' s').
Proof. intros (v & -> & Hv). by exists v. Qed.

Lemma readl_waits a s m s' : waited s m s' → holds (readl a) s' (λ r s'', r = hba_reg a (disk (ablk s')) ∧ waited s m s'').
Proof.
  intros (v & -> & Hv). destruct (hd_tick v m port (proj1 Hv)) as (v' & Ht & Hv'). unfold holds, readl, hw. cbn [set_hw ablk amem disk set_disk fst snd]. rewrite Ht.
  split; [done|]. exists v'. split; [done|]. by eapply hd_same_trans.
Qed.

Lemma split_word x : 0 <= x → Z.lor (x mod 2 ^ 32) (Z.shiftl (x / 2 ^ 32) 32) = x.
Proof.
  intros Hx. apply Z.bits_inj'. intros n Hn. rewrite Z.lor_spec, Z.shiftl_spec by done. destruct (Z.ltb_spec n 32).
  - rewrite Z.mod_pow2_bits_low by lia. rewrite (Z.testbit_neg_r _ (n - 32)) by lia. by rewrite orb_false_r.
  - rewrite Z.mod_pow2_bits_high by lia. rewrite Z.div_pow2_bits by lia. cbn [orb]. f_equal. lia.
Qed.

Lemma get_cmd_list_spec s : hd_idle (disk (ablk s)) port → 0 < hd_clb (disk (ablk s)) port →
  holds (ahci_get_cmd_list port) s (λ r s', r = PHYS_TO_VIRT (hd_clb (disk (ablk s)) port) ∧ waited s (amem s) s').
Proof.
  intros Hi HL. unfold ahci_get_cmd_list. eapply holds_bind; [apply readl_waits; by apply waited_start|]. intros r s1 [-> Hs1].
  eapply holds_bind; [by apply readl_waits|]. intros r s2 [-> Hs2]. cbv zeta. rewrite hd_clb_reg, hd_clbu_reg.
  destruct Hs1 as (v & -> & (_ & Hc & _)). cbn [set_hw ablk disk set_disk fst]. rewrite Hc, split_word by lia.
  by rewrite (proj2 (Z.eqb_neq _ 0)) by lia.
Qed.

Lemma slot_table_spec s L T : 0 <= L → L + 1024 <= 2 ^ 46 → ld_le 4 (L + 8) (amem s) = T mod 2 ^ 32 → ld_le 4 (L + 12) (amem s) = T / 2 ^ 32 →
  0 < T < 2 ^ 46 → slot_table (PHYS_TO_VIRT L) s = Ok (PHYS_TO_VIRT T, s).
Proof.
  intros HL HL2 Hlo Hhi HT. unfold slot_table, ahci_get_cmdtbl. rewrite bind_assoc_run. layout_eval. rewrite ld_at_step by lia. rewrite bind_assoc_run, ld_at_step by lia.
  cbv zeta. rewrite Hlo, Hhi, split_word, (proj2 (Z.eqb_neq T 0)) by lia. rewrite ret_step, PHYS_TO_VIRT_small by lia.
  by rewrite (proj2 (Z.eqb_neq _ NULL)) by (unfold NULL, ID_VIRT_REGION_START; lia).
Qed.

Lemma spin_loop_spec n s m s' : waited s m s' → holds (spin_loop n port) s' (λ _ s'', waited s m s'').
Proof.
  revert s'. induction n as [|n IH]; intros s' Hs'; cbn [spin_loop]; [done|].
  eapply holds_bind; [by apply readl_waits|]. intros t1 s1 [_ Hs1]. eapply holds_bind with (R := λ _ s2, waited s m s2).
  - destruct (negb _); [done|]. eapply holds_bind; [by apply readl_waits|]. by intros t2 s2 [_ Hs2].
  - intros busy s2 Hs2. destruct busy; [by apply IH|done].
Qed.

(** The loop of [ahci_issue_cmd] on a command that ends after [k] accesses. *)
Section issue.
Context (s : ahci H V) (vm : V * gmap Z Z) (k : nat) (good : bool).
Context (Hbefore : ∀ j, (j < k)%nat → Z.testbit (hba_reg (port_reg port "ci") (ticks j vm).1) 0 = true ∧
  Z.testbit (hba_reg (port_reg port "is") (ticks j vm).1) 30 = false).
Context (Hafter : ∀ j, (k <= j)%nat → Z.testbit (hba_reg (port_reg port "is") (ticks j vm).1) 30 = negb good ∧
  (good = true → Z.testbit (hba_reg (port_reg port "ci") (ticks j vm).1) 0 = false)).

Lemma readl_tick {A} a j (f : Z → M (ahci H V) A) : (readl a ≫= f) (set_hw (ticks j vm) s) = f (hba_reg a (ticks j vm).1) (set_hw (ticks (S j) vm) s).
Proof. apply bind_step. unfold readl, hw. cbn [set_hw ablk amem disk set_disk]. by rewrite <- surjective_pairing. Qed.

Lemma tfes_bit x : negb (Z.land x AHCI_HBA_PORT_IS_TFES_BIT =? 0) = Z.testbit x 30.
Proof. unfold AHCI_HBA_PORT_IS_TFES_BIT. rewrite land_bit_0 by lia. by rewrite negb_involutive. Qed.

Lemma ci_bit x : (Z.land x (u32 (Z.shiftl 1 0)) =? 0) = negb (Z.testbit x 0).
Proof. change (u32 (Z.shiftl 1 0)) with (Z.shiftl 1 0). by rewrite land_bit_0. Qed.

Lemma issue_loop_spec fuel j : (k - j < fuel)%nat →
  holds (issue_loop fuel port 0) (set_hw (ticks j vm) s) (λ cleared s', ∃ j', s' = set_hw (ticks j' vm) s ∧ (k <= j')%nat ∧ (good = true → cleared = true)).
Proof.
  revert j. induction fuel as [|fuel IH]; intros j Hj; [lia|]. cbn [issue_loop]. unfold holds. rewrite readl_tick, ci_bit.
  destruct (decide (j < k)%nat) as [Hlt|Hge].
  - destruct (Hbefore j Hlt) as [-> _]. cbn [negb]. rewrite readl_tick, tfes_bit. destruct (decide (S j < k)%nat) as [Hlt'|Hge'].
    + destruct (Hbefore (S j) Hlt') as [_ ->]. apply IH. lia.
    + destruct (Hafter (S j) ltac:(lia)) as [-> _]. destruct good eqn:Hg; cbn [negb]; [apply IH; lia|]. exists (S (S j)). split; [done|]. split; [lia|done].
  - destruct (Hafter j ltac:(lia)) as [_ Hc]. destruct (Z.testbit _ 0) eqn:Eci; cbn [negb].
    + destruct good eqn:Hg; [by specialize (Hc eq_refl)|]. rewrite readl_tick, tfes_bit. destruct (Hafter (S j) ltac:(lia)) as [-> _]. cbn [negb].
      exists (S (S j)). split; [done|]. split; [lia|done].
    + exists (S j). split; [done|]. split; [lia|done].
Qed.

Lemma issue_result fuel : (k < fuel)%nat →
  holds (cleared ← issue_loop fuel port 0;
    if negb cleared then mret false else
    ist ← readl (port_reg port "is");
    if negb (Z.land ist AHCI_HBA_PORT_IS_TFES_BIT =? 0) then mret false else mret true) (set_hw vm s) (λ r s', ∃ j', s' = set_hw (ticks j' vm) s ∧ (k <= j')%nat ∧ r = good).
Proof.
  intros Hf. eapply holds_bind; [apply (issue_loop_spec fuel 0); lia|]. intros cleared s' (j & -> & Hj & Hc). destruct cleared; cbn [negb].
  - unfold holds. rewrite readl_tick, tfes_bit. destruct (Hafter j Hj) as [-> _]. destruct good eqn:Hg; cbn [negb]; exists (S j); (split; [done|]); (split; [lia|done]).
  - exists j. split; [done|]. split; [done|]. destruct good; [by specialize (Hc eq_refl)|done].
Qed.
End issue.

(** The state after a command for the ranges [R]. *)
Definition completed (s : ahci H V) (m : gmap Z Z) (lba count : Z) (R : list (Z * Z)) (good : bool) (s' : ahci H V) : Prop :=
  ∃ m', waited s m' s' ∧
    if good then m' = scatter (bytes_of R) (concat (hd_sector (disk (ablk s)) port <$> seqZ lba count)) m
    else ∀ x, x ∉ bytes_of R → ldb m' x = ldb m x.

(** Either the device stayed busy, or the command ran. *)
Lemma issue_cmd_spec s s0 m lba count R : waited s m s0 → command_at m (hd_clb (disk (ablk s)) port) lba count R → 0 < count →
  Z.of_nat (length (bytes_of R)) = count * 512 → (∀ x, x ∈ bytes_of R → ¬ structures m (hd_clb (disk (ablk s)) port) x) →
  ∃ fuel0, ∀ fuel, (fuel0 <= fuel)%nat → holds (ahci_issue_cmd fuel port 0) s0 (λ r s', completed s m lba count R r s').
Proof.
  intros Hs0 Hcmd Hcnt Hlen Hdis. pose proof (spin_loop_spec spin_count s m s0 Hs0) as Hspin. apply holds_Ok in Hspin as (spin & s1 & Heq & Hs1).
  destruct Hs1 as (v1 & -> & Hv1). destruct (hd_ack v1 m port (u32 0xFFFFFFFF) (proj1 Hv1)) as (v2 & Hack & Hv2).
  pose proof (hd_same_trans _ _ _ Hv1 Hv2) as (Hi2 & Hc2 & Hd2). rewrite <- Hc2 in Hcmd, Hdis.
  destruct (hd_issue v2 m port lba count R Hi2 Hcmd Hcnt Hlen Hdis) as (k & good & Hlaw). exists (S k). intros fuel Hfuel.
  unfold ahci_issue_cmd. unfold holds. rewrite (bind_step _ _ _ _ _ Heq). destruct (spin =? 0)%nat.
  { exists m. split; [by exists v1|done]. }
  unfold writel. rewrite !puts_step. unfold hw at 2. cbn [set_hw ablk amem disk set_disk fst snd]. rewrite Hack. unfold hw. cbn [set_hw ablk amem disk set_disk fst snd].
  change (u32 (Z.shiftl 1 0)) with 1. set (vm := hba_write (port_reg port "ci") 1 (v2, m)) in *.
  change (Ahci _ _) with (set_hw vm s). eapply returns_mono; [apply (issue_result s vm k good); [| |lia]|].
  - intros j Hj. specialize (Hlaw j). destruct (ticks j vm). by rewrite bool_decide_eq_true_2 in Hlaw.
  - intros j Hj. specialize (Hlaw j). destruct (ticks j vm). rewrite bool_decide_eq_false_2 in Hlaw by lia. destruct Hlaw as (_ & Ht & Hg). split; [done|]. intros ->. apply Hg.
  - intros [r s'] (j & -> & Hj & ->). specialize (Hlaw j). destruct (ticks j vm) as [vj mj] eqn:Etj. rewrite bool_decide_eq_false_2 in Hlaw by lia.
    destruct Hlaw as (Hvj & _ & Hg). exists mj. split.
    + exists vj. split; [done|]. eapply hd_same_trans; [|exact Hvj]. by eapply hd_same_trans.
    + rewrite Hd2 in Hg. destruct good; [apply Hg|done].
Qed.

(** ** Reading *)

Definition hdr_mem (L n : Z) (m : gmap Z Z) : gmap Z Z :=
  let m := st_le 2 (L + 2) (u16 n) m in
  st_le 1 L (set_bits (set_bits (ld_le 1 L m) 6 1 0) 0 5 (size_of fis_h2d_layout / 4)) m.

Lemma hdr_bits b : get_bits (set_bits (set_bits b 6 1 0) 0 5 5 mod 256) 0 5 = 5 ∧ get_bits (set_bits (set_bits b 6 1 0) 0 5 5 mod 256) 6 1 = 0.
Proof. unfold set_bits, get_bits. rewrite ?Z.shiftr_0_r, ?Z.shiftl_0_r, !Z.shiftr_div_pow2, !Z.shiftl_mul_pow2 by lia. split; zlia. Qed.

(** A port that is set up: a command list [L] and a table [T] for its first
    slot, apart from each other. *)
Record port_ready (s : ahci H V) (L T : Z) : Prop := {
  pk_idle : hd_idle (disk (ablk s)) port;
  pk_clb : hd_clb (disk (ablk s)) port = L;
  pk_list : 0 < L ∧ L + 1024 <= 2 ^ 46;
  pk_table : 0 < T ∧ T + 4096 <= 2 ^ 46;
  pk_apart : L + 1024 <= T ∨ T + 4096 <= L;
  pk_ctba : ld_le 4 (L + 8) (amem s) = T mod 2 ^ 32;
  pk_ctbau : ld_le 4 (L + 12) (amem s) = T / 2 ^ 32
}.

Definition driver_memory (L T x : Z) : Prop := L <= x < L + 1024 ∨ T <= x < T + 4096.

(** Memory apart from the driver's structures, whose pointer is intact. *)
Definition outside (L T : Z) (m m' : gmap Z Z) : Prop :=
  (∀ x, ¬ driver_memory L T x → ldb m' x = ldb m x) ∧ (∀ x, L + 8 <= x < L + 16 → ldb m' x = ldb m x).

Lemma outside_trans L T m1 m2 m3 : outside L T m1 m2 → outside L T m2 m3 → outside L T m1 m3.
Proof. intros [A1 B1] [A2 B2]. split; intros x Hx; [by rewrite A2, A1|by rewrite B2, B1]. Qed.

Lemma outside_table L T m m' : L + 1024 <= T ∨ T + 4096 <= L → changes T (T + 4096) m m' → outside L T m m'.
Proof. intros Hd Hc. split; intros x Hx; apply Hc; unfold driver_memory in *; lia. Qed.

Lemma outside_hdr L T n m : outside L T m (hdr_mem L n m).
Proof. unfold outside, hdr_mem, driver_memory. split; intros x Hx; rewrite !ldb_st_out by lia; done. Qed.

Lemma table_ptr L T m m' : outside L T m m' → ld_le 4 (L + 8) m' = ld_le 4 (L + 8) m ∧ ld_le 4 (L + 12) m' = ld_le 4 (L + 12) m.
Proof. intros [_ Hx]. split; apply ld_le_ext; intros i Hi; apply Hx; lia. Qed.

Lemma ready_after s L T m' s' : port_ready s L T → waited s m' s' → (∀ x, L + 8 <= x < L + 16 → ldb m' x = ldb (amem s) x) → port_ready s' L T.
Proof.
  intros [Hi Hc Hl Ht Ha Hlo Hhi] (v & -> & (Hi' & Hc' & _)) Hm. constructor; [done|by cbn; rewrite Hc'|done..| |]; cbn [set_hw amem snd].
  - rewrite <- Hlo. apply ld_le_ext. intros i Hx. apply Hm. lia.
  - rewrite <- Hhi. apply ld_le_ext. intros i Hx. apply Hm. lia.
Qed.

(** The header of the slot completes the command. *)
Lemma command_ready L T lba count R m : L + 1024 <= T ∨ T + 4096 <= L → ld_le 4 (L + 8) m = T mod 2 ^ 32 → ld_le 4 (L + 12) m = T / 2 ^ 32 →
  fis_at m T lba count → prdt_has m T 0 R → (length R <= 248)%nat → command_at (hdr_mem L (Z.of_nat (length R)) m) L lba count R.
Proof.
  intros Hd Hlo Hhi Hfis Hprdt Hlen. destruct (table_ptr L T _ _ (outside_hdr L T (Z.of_nat (length R)) m)) as [Hlo' Hhi'].
  assert (ld_le 4 (L + 8) (hdr_mem L (Z.of_nat (length R)) m) + 2 ^ 32 * ld_le 4 (L + 12) (hdr_mem L (Z.of_nat (length R)) m) = T) as HT.
  { rewrite Hlo', Hhi', Hlo, Hhi. pose proof (Z.div_mod T (2 ^ 32)). lia. }
  assert (∀ x, T <= x < T + 4096 → ldb (hdr_mem L (Z.of_nat (length R)) m) x = ldb m x) as Hkeep.
  { intros x Hx. unfold hdr_mem. rewrite !ldb_st_out by lia. done. }
  constructor; rewrite ?HT.
  - unfold hdr_mem. ld_simpl. change (256 ^ Z.of_nat 1) with 256. change (size_of fis_h2d_layout / 4) with 5. apply hdr_bits.
  - unfold hdr_mem. ld_simpl. change (256 ^ Z.of_nat 1) with 256. change (size_of fis_h2d_layout / 4) with 5. apply hdr_bits.
  - unfold hdr_mem. ld_simpl. change (256 ^ Z.of_nat 2) with (2 ^ 16). rewrite u16_small by lia. apply Z.mod_small. lia.
  - eapply fis_at_changes; [exact Hfis|]. intros x Hx. apply Hkeep. lia.
  - intros i r Hi. rewrite <- (Hprdt _ _ Hi). apply prdt_at_changes. apply lookup_lt_Some in Hi. intros x Hx. apply Hkeep. lia.
Qed.

(** What a read leaves. *)
Definition read_post (s : ahci H V) (L T lba count : Z) (iov : list phys_iovec) (r : Z) (s' : ahci H V) : Prop :=
  port_ready s' L T ∧ ∃ m', waited s m' s' ∧
  if bool_decide (length (iov_chunks iov) <= 248)%nat then
    (r = 0 ∧ ∀ x, ¬ driver_memory L T x →
       ldb m' x = ldb (scatter (bytes_of (iov_ranges iov)) (concat (hd_sector (disk (ablk s)) port <$> seqZ lba count)) (amem s)) x) ∨
    (r = - EIO ∧ ∀ x, ¬ driver_memory L T x → x ∉ bytes_of (iov_ranges iov) → ldb m' x = ldb (amem s) x)
  else r = - ENOMEM ∧ ∀ x, ¬ driver_memory L T x → ldb m' x = ldb (amem s) x.

Definition iov_ok (iov : list phys_iovec) : Prop :=
  Forall (λ iv, 0 <= iov_addr iv ∧ 0 <= iov_length iv ∧ iov_addr iv + iov_length iv <= 2 ^ 46) iov.

Lemma run_slot_spec s s1 m L T lba count iov : port_ready s L T → waited s m s1 → outside L T (amem s) m →
  fis_at m T lba count → prdt_has m T 0 (iov_chunks iov) → (length (iov_chunks iov) <= 248)%nat → 0 < count →
  iov_ok iov → Z.of_nat (length (bytes_of (iov_ranges iov))) = count * 512 → (∀ x, x ∈ bytes_of (iov_ranges iov) → ¬ driver_memory L T x) →
  ∃ fuel0, ∀ fuel, (fuel0 <= fuel)%nat →
    holds (run_slot fuel port (PHYS_TO_VIRT L) (Z.of_nat (length (iov_chunks iov)))) s1 (read_post s L T lba count iov).
Proof.
  intros Hr Hs1 Hout Hfis Hprdt Hlen Hcnt Hiov Hbytes Hdis. pose proof Hr as [_ Hclb [HL HL2] [HT HT2] Hap Hlo Hhi].
  assert (bytes_of (iov_chunks iov) = bytes_of (iov_ranges iov)) as Hbeq by (apply iov_chunks_bytes; eapply Forall_impl; [exact Hiov|]; intros ? (? & ? & _); done).
  destruct (table_ptr _ _ _ _ Hout) as [Hlo1 Hhi1]. rewrite Hlo in Hlo1. rewrite Hhi in Hhi1.
  set (m3 := hdr_mem L (Z.of_nat (length (iov_chunks iov))) m). pose proof (command_ready L T lba count _ m Hap Hlo1 Hhi1 Hfis Hprdt Hlen) as Hcmd. fold m3 in Hcmd.
  assert (outside L T (amem s) m3) as Hout3 by (eapply outside_trans; [exact Hout|apply outside_hdr]). destruct (table_ptr _ _ _ _ Hout3) as [Hlo3 Hhi3].
  destruct (issue_cmd_spec s (set_amem m3 s1) m3 lba count (iov_chunks iov)) as [fuel0 Hissue].
  { by eapply waited_mem. } { by rewrite Hclb. } { done. } { by rewrite Hbeq. }
  { rewrite Hbeq, Hclb. intros x Hx. unfold structures. rewrite Hlo3, Hhi3, Hlo, Hhi. specialize (Hdis x Hx). unfold driver_memory in Hdis.
    replace (T mod 2 ^ 32 + 2 ^ 32 * (T / 2 ^ 32)) with T by (pose proof (Z.div_mod T (2 ^ 32)); lia). done. }
  exists fuel0. intros fuel Hf. unfold run_slot. layout_eval. unfold holds. rewrite st_at_step by lia.
  rewrite ld_at_step, st_at_step by lia. destruct Hs1 as (v1 & -> & Hv1). cbn [amem set_amem set_hw snd]. rewrite Z.add_0_r. change (20 / 4) with (size_of fis_h2d_layout / 4).
  change (st_le 1 L _ _) with m3. eapply holds_bind; [exact (Hissue fuel Hf)|]. intros good s' (m' & Hw & Hm').
  assert (∀ x, L + 8 <= x < L + 16 → x ∉ bytes_of (iov_chunks iov)) as Hptr by (intros x Hx Hin; rewrite Hbeq in Hin; apply (Hdis x Hin); left; lia).
  assert (port_ready s' L T) as Hr'.
  { eapply ready_after; [done|exact Hw|]. intros x Hx. rewrite <- (proj2 Hout3 x Hx). destruct good; [subst m'; by apply scatter_out, Hptr|by apply Hm', Hptr]. }
  destruct good; (split; [done|]); exists m'; (split; [done|]); rewrite bool_decide_eq_true_2 by done.
  - left. split; [done|]. intros x Hx. subst m'. rewrite Hbeq. apply (scatter_agree (driver_memory L T)); [|done]. intros y Hy. by apply (proj1 Hout3).
  - right. split; [done|]. intros x Hx Hin. rewrite Hm' by (by rewrite Hbeq). by apply (proj1 Hout3).
Qed.

Lemma ahci_read_holds s L T lba count iov : port_ready s L T → 0 <= lba → lba + count <= 2 ^ 48 → 0 < count < 2 ^ 16 →
  iov_ok iov → Z.of_nat (length (bytes_of (iov_ranges iov))) = count * 512 → (∀ x, x ∈ bytes_of (iov_ranges iov) → ¬ driver_memory L T x) →
  ∃ fuel0, ∀ fuel, (fuel0 <= fuel)%nat → holds (__ahci_read fuel port lba count iov) s (read_post s L T lba count iov).
Proof.
  intros Hr Hl0 Hl Hcnt Hiov Hbytes Hdis. pose proof Hr as [Hi Hclb [HL HL2] [HT HT2] Hap Hlo Hhi].
  pose proof (get_cmd_list_spec s Hi ltac:(lia)) as Hget. apply holds_Ok in Hget as (cl & s1 & Heq1 & -> & Hs1). rewrite Hclb in Heq1.
  assert (amem s1 = amem s) as Hm1 by (by destruct Hs1 as (v & -> & _)).
  pose proof (slot_table_spec s1 L T ltac:(lia) HL2 ltac:(by rewrite Hm1) ltac:(by rewrite Hm1) ltac:(lia)) as Heq2.
  destruct (fis_mem_ok T lba count (amem s1) ltac:(lia) ltac:(lia)) as [Hfis Hfch]. set (m2 := fis_mem T lba count (amem s1)) in *.
  change max_ptrd_entries with 248. pose proof (build_prdt_loop_spec T 248 ltac:(lia) HT2 ltac:(lia) iov 0 (set_amem m2 s1) ltac:(lia) Hiov) as Hbuild.
  apply holds_Ok in Hbuild as (n & s3 & Heq3 & m3 & -> & Hch3 & Hres). cbn [amem set_amem Nat.add] in Hch3, Hres.
  assert (outside L T (amem s) m3) as Hout.
  { apply outside_table; [done|]. rewrite <- Hm1. eapply changes_trans; [eapply changes_weaken; [exact Hfch|lia..]|]. eapply changes_weaken; [exact Hch3|lia..]. }
  assert (waited s m3 (set_amem m3 (set_amem m2 s1))) as Hw3 by (by eapply waited_mem, waited_mem).
  assert (∀ fuel, __ahci_read fuel port lba count iov s =
    (if n <? 0 then mret n else run_slot fuel port (PHYS_TO_VIRT L) n) (set_amem m3 (set_amem m2 s1))) as Hrun.
  { intros fuel. unfold __ahci_read. rewrite (bind_step _ _ _ _ _ Heq1), (bind_step _ _ _ _ _ Heq2).
    rewrite (proj2 (Z.eqb_neq (PHYS_TO_VIRT T) NULL)) by (rewrite PHYS_TO_VIRT_small by lia; unfold NULL, ID_VIRT_REGION_START; lia).
    rewrite u16_small, build_fis_step by lia. by rewrite (bind_step _ _ _ _ _ Heq3). }
  unfold holds. destruct (decide (length (iov_chunks iov) <= 248)%nat) as [Hle|Hgt].
  - rewrite bool_decide_eq_true_2 in Hres by lia. destruct Hres as [-> Hprdt].
    destruct (run_slot_spec s (set_amem m3 (set_amem m2 s1)) m3 L T lba count iov) as [fuel0 Hslot]; try done; try lia.
    { eapply fis_at_changes; [exact Hfis|]. intros x Hx. apply Hch3. lia. }
    exists fuel0. intros fuel Hf. rewrite Hrun, (proj2 (Z.ltb_ge _ 0)) by lia. by apply Hslot.
  - rewrite bool_decide_eq_false_2 in Hres by lia. subst n. exists O. intros fuel _. rewrite Hrun. cbn. split.
    + eapply ready_after; [done|exact Hw3|apply Hout].
    + exists m3. split; [done|]. rewrite bool_decide_eq_false_2 by done. split; [done|apply Hout].
Qed.
End disk.
End proofs.

(** ** A controller in memory

    One port; commands complete at once.  It shows that the promises of
    [HbaDisk] can be kept. *)

Record toy := Toy { toy_regs : gmap Z Z; toy_disk : Z → Z }.

Definition toy_port : Z := 0x1000.
Definition toy_reg (a : Z) (v : toy) : Z :=
  if (a =? port_reg toy_port "ci") || (a =? port_reg toy_port "is") then 0 else u32 (default 0 (toy_regs v !! a)).
Definition toy_clb (v : toy) (p : Z) : Z := toy_reg (port_reg p "clb") v + 2 ^ 32 * toy_reg (port_reg p "clbu") v.
Definition toy_sector (v : toy) (p l : Z) : list Z := replicate 512 (u8 (toy_disk v l)).

(** Executing the command of slot 0. *)
Definition toy_exec (v : toy) (m : gmap Z Z) : gmap Z Z :=
  let L := toy_clb v toy_port in
  let T := ld_le 4 (L + 8) m + 2 ^ 32 * ld_le 4 (L + 12) m in
  let R := prdt_at m T <$> seq 0 (Z.to_nat (ld_le 2 (L + 2) m)) in
  let lba := ld_le 1 (T + 4) m + 2 ^ 8 * ld_le 1 (T + 5) m + 2 ^ 16 * ld_le 1 (T + 6) m +
    2 ^ 24 * ld_le 1 (T + 8) m + 2 ^ 32 * ld_le 1 (T + 9) m + 2 ^ 40 * ld_le 1 (T + 10) m in
  let count := ld_le 1 (T + 12) m + 2 ^ 8 * ld_le 1 (T + 13) m in
  scatter (bytes_of R) (concat (toy_sector v toy_port <$> seqZ lba count)) m.

Definition toy_write (a x : Z) (vm : toy * gmap Z Z) : toy * gmap Z Z :=
  if a =? port_reg toy_port "ci" then (vm.1, toy_exec vm.1 vm.2)
  else if a =? port_reg toy_port "is" then vm
  else (Toy (<[a := x]> (toy_regs vm.1)) (toy_disk vm.1), vm.2).

#[export] Instance toy_hba : Hba toy := {| hba_reg := toy_reg; hba_write := toy_write; hba_tick := λ vm, vm |}.

Lemma toy_ticks j (vm : toy * gmap Z Z) : ticks j vm = vm.
Proof. by induction j. Qed.

Lemma toy_reg_range a v : 0 <= toy_reg a v < 2 ^ 32.
Proof. unfold toy_reg. destruct (_ || _); [done|apply u32_range]. Qed.

#[export, refine] Instance toy_hba_disk : HbaDisk toy :=
  {| hd_idle := λ _ p, p = toy_port; hd_clb := toy_clb; hd_sector := toy_sector |}.
Proof.
  - intros v p l. apply length_replicate.
  - intros v p. unfold toy_clb. change hba_reg with toy_reg. pose proof (toy_reg_range (port_reg p "clb") v). zlia.
  - intros v p. unfold toy_clb. change hba_reg with toy_reg. pose proof (toy_reg_range (port_reg p "clb") v). zlia.
  - intros v m p Hp. by exists v.
  - intros v m p x ->. by exists v.
  - intros v m p lba count R -> [_ _ Hn [_ _ _ _ Hlba Hcount] Hprdt] _ _ _. exists O, true. intros j. rewrite toy_ticks.
    change (hba_write (port_reg toy_port "ci") 1 (v, m)) with (v, toy_exec v m). rewrite bool_decide_eq_false_2 by lia. split; [done|]. split; [done|]. split; [done|].
    unfold toy_exec. cbv zeta. rewrite <- Hlba, <- Hcount, Hn, Nat2Z.id. do 2 f_equal. apply list_eq. intros i. rewrite list_lookup_fmap.
    destruct (R !! i) as [r|] eqn:Hi.
    + rewrite lookup_seq_lt by (by eapply lookup_lt_Some). cbn. f_equal. by apply Hprdt.
    + apply lookup_ge_None in Hi. by rewrite lookup_seq_ge.
Defined.


Definition demo_toy : toy := Toy {[ toy_port := 0x10000 ]} (λ l, l * 3).
Definition demo_ahci : ahci kheap toy :=
  Ahci (Blk demo_heap demo_toy {[ 0x900 := BlockDev (sata_name 0) 512 4096 toy_port READ_DRIVER ]} ∅ [0x900]) (st_le 4 0x10008 0x20000 ∅).

Example ahci_read_demo : match ahci_read 5 0x900 7 2 [PhysIovec 0x30000 512; PhysIovec 0x50000 512] demo_ahci with
  | Ok (r, s) => (r, ldb (amem s) 0x30000, ldb (amem s) 0x301ff, ldb (amem s) 0x30200, ldb (amem s) 0x50000)
  | _ => (1, 0, 0, 0, 0) end = (0, 21, 21, 0, 24).
Proof. vm_compute. reflexivity. Qed.

