(* ===== verification/ProcMem.v ===== *)
(** * The memory of a process

    Creating a process combines the heap, the page tables and the list of
    ranges of an [mm_struct], and all of them live in the same memory and take
    frames from the same bitmap.  [proc_live] is the invariant of the three
    together, and the lemmas say that every operation the executable loader
    uses keeps it: heap blocks and pages come and go without touching the page
    tables or the list of ranges, and new page tables are never heap pages. *)

From S2P Require Import Prelude Types FrameAlloc EarlyPmm Pmm Paging Vmm Kmalloc Mm HeapApi.

(** What is fixed while the heap is at work: the root table, the [mm_struct],
    the page tables, the translation, the frames of the user's pages, the list
    of ranges, and how many more ranges can be added from the 32-byte slots at
    hand. *)
Record proc := Proc {
  pr_root : Z;
  pr_mm : Z;
  pr_tables : gmap Z (nat * Z);
  pr_tr : Z → option (Z * Z);
  pr_user : gset Z;
  pr_ranges : list (Z * Z);
  pr_spare : nat
}.

(** The blocks of the [mm_struct] and of its ranges. *)
Definition pr_blocks (c : proc) : list Z := pr_mm c :: (pr_ranges c).*1.

Record proc_inv (c : proc) (B P : gset Z) (h : kheap) (pools : gmap Z Z) (fl : list (list Z)) : Prop := {
  pi_heap : heap_inv h pools fl B;
  pi_mmu : mmu_wf (pr_root c) (as_mmu h) (pr_tables c);
  pi_tr : ∀ va, translate (kmem h) (pr_root c) va = pr_tr c va;
  pi_tables : ∀ t, is_Some (pr_tables c !! t) → t < 2 ^ 46 ∧ pools !! PHYS_TO_VIRT t = None ∧ PHYS_TO_VIRT t ∉ P;
  pi_user : ∀ f, f ∈ pr_user c → 0 <= f < 2 ^ 46 ∧ ¬ fa_avail (kframes h) f ∧ PHYS_TO_VIRT f ∉ P;
  pi_pages : ∀ p, p ∈ P → page_live h pools p;
  pi_blocks : ∀ a, a ∈ pr_blocks c → a ∈ B ∧ is_slot pools 0 a;
  pi_nodup : NoDup (pr_blocks c);
  pi_pgd : ld (kmem h) (mm_pgd (pr_mm c)) = PHYS_TO_VIRT (pr_root c);
  pi_ranges : ranges (kmem h) (ld (kmem h) (mm_allocs_head (pr_mm c))) (pr_ranges c);
  pi_spare : (pr_spare c <= length (znth [] fl 0))%nat
}.

Definition proc_live (c : proc) (B P : gset Z) (h : kheap) : Prop := ∃ pools fl, proc_inv c B P h pools fl.

(** ** Page tables and other words *)

Lemma pt_wf_agree m m' root T : pt_wf m root T → (∀ a, table_word T a → ld m' a = ld m a) →
  pt_wf m' root T ∧ ∀ va, translate m' root va = translate m root va.
Proof.
  intros Hwf Hm. assert (∀ t i, is_Some (T !! t) → 0 <= i < 512 → ld m' (entry_addr t i) = ld m (entry_addr t i)) as He.
  { intros t i Ht Hi. apply Hm. by exists t, i. }
  split.
  - destruct Hwf as (Hr & Hf & Hent). split_and!; [done..|]. intros t n k i Ht Hi. rewrite He by (done || by eexists). by apply Hent.
  - intros va. pose proof Hwf as (Hr & _). apply (hw_walk_agree _ _ root T); [done|by rewrite pre_top|]. intros t' n' Ht'.
    apply He; [by eexists|apply index_of_range].
Qed.

Lemma table_word_page T a : table_word T a → (∀ t, is_Some (T !! t) → table_frame t ∧ t < 2 ^ 46) →
  ∃ t, is_Some (T !! t) ∧ PHYS_TO_VIRT t <= a < PHYS_TO_VIRT t + PAGE_SIZE ∧ PHYS_TO_VIRT t mod PAGE_SIZE = 0.
Proof.
  intros (t & i & Ht & Hi & ->) Hf. destruct (Hf _ Ht) as [(Hal & Hlo & _) Hhi]. exists t. split; [done|].
  unfold entry_addr, entry_ptr. rewrite PHYS_TO_VIRT_small by lia. unfold u64, ID_VIRT_REGION_START, PAGE_SIZE in *. zlia.
Qed.

Lemma slot_pool_word pools t q a : pages_ok pools → is_slot pools t q → q <= a < q + slot_size t → pool_word pools a.
Proof.
  intros Hok Hs Ha. destruct (slot_page _ _ _ Hok Hs) as (Hpg & Hlo & Hhi & _ & Ht). destruct (slot_size_facts t Ht) as (_ & _ & _ & ?).
  eexists _, t. split; [done|lia].
Qed.

Section inv.
Context (c : proc) (B P : gset Z) (h : kheap) (pools : gmap Z Z) (fl : list (list Z)).
Context (Hc : proc_inv c B P h pools fl).

Lemma proc_table_frames t : is_Some (pr_tables c !! t) → table_frame t ∧ t < 2 ^ 46.
Proof.
  intros Ht. split; [|by apply (pi_tables _ _ _ _ _ _ Hc)]. destruct Ht as [[n k] Ht].
  by apply (proj1 (proj2 (proj1 (pi_mmu _ _ _ _ _ _ Hc))) _ _ _ Ht).
Qed.

(** A page table is no pool page. *)
Lemma table_not_pool pools' a : pages_ok pools' → (∀ t, is_Some (pr_tables c !! t) → pools' !! PHYS_TO_VIRT t = None) →
  table_word (pr_tables c) a → ¬ pool_word pools' a.
Proof.
  intros Hok Hno Ha (pg & t' & Hpg & Hr). destruct (table_word_page _ _ Ha proc_table_frames) as (t & Ht & Hra & Hal).
  destruct (Hok _ _ Hpg) as (_ & Hpal & _). assert (pg = PHYS_TO_VIRT t) as -> by (unfold PAGE_SIZE in *; zlia).
  by rewrite Hno in Hpg.
Qed.

(** The words of the [mm_struct] and of the list of ranges. *)
Definition block_word (a : Z) : Prop := ∃ b, b ∈ pr_blocks c ∧ b <= a < b + 32.

Lemma slot_words b : b ∈ pr_blocks c → 2 ^ 63 <= b ∧ b + 32 < 2 ^ 64.
Proof.
  intros Hb. destruct (pi_blocks _ _ _ _ _ _ Hc b Hb) as [_ Hs]. pose proof (hi_pages _ _ _ _ (pi_heap _ _ _ _ _ _ Hc)) as Hok.
  destruct (slot_page _ _ _ Hok Hs) as (Hpg & Hlo & Hhi & _). destruct (Hok _ _ Hpg) as (_ & _ & ? & ?).
  change (slot_size 0) with 32 in *. lia.
Qed.

Lemma block_word_offset b o : b ∈ pr_blocks c → 0 <= o < 32 → u64 (b + o) = b + o ∧ block_word (b + o).
Proof. intros Hb Ho. pose proof (slot_words b Hb). split; [apply u64_small; lia|]. exists b. split; [done|lia]. Qed.

Lemma ranges_words m' : (∀ a, block_word a → ld m' a = ld (kmem h) a) →
  ld m' (mm_pgd (pr_mm c)) = PHYS_TO_VIRT (pr_root c) ∧ ranges m' (ld m' (mm_allocs_head (pr_mm c))) (pr_ranges c).
Proof.
  intros Hm. assert (pr_mm c ∈ pr_blocks c) as Hmm by by left. unfold mm_pgd, mm_allocs_head.
  destruct (block_word_offset (pr_mm c) 16 Hmm ltac:(lia)) as [E16 W16].
  destruct (block_word_offset (pr_mm c) 0 Hmm ltac:(lia)) as [_ W0]. rewrite Z.add_0_r in W0.
  rewrite E16, !Hm by done. split; [apply Hc|]. eapply ranges_agree; [rewrite <- E16; apply Hc|].
  intros a Ha. assert (a ∈ pr_blocks c) as Hb by by right. unfold alloc_addr, alloc_next.
  destruct (block_word_offset a 16 Hb ltac:(lia)) as [E16' W16']. destruct (block_word_offset a 0 Hb ltac:(lia)) as [_ W0'].
  rewrite Z.add_0_r in W0'. rewrite E16', !Hm by done. done.
Qed.

(** What any step of the heap has to show. *)
Lemma proc_inv_step (B' P' : gset Z) h' pools' fl' : heap_inv h' pools' fl' B' → pools ⊆ pools' →
  (∀ a, a ∈ pr_blocks c → a ∈ B') →
  (∀ a, block_word a ∨ table_word (pr_tables c) a → ld (kmem h') a = ld (kmem h) a) →
  (∀ f, fa_avail (kframes h') f → fa_avail (kframes h) f ∨ PHYS_TO_VIRT f ∈ P) →
  (∀ t, is_Some (pr_tables c !! t) → pools' !! PHYS_TO_VIRT t = None ∧ PHYS_TO_VIRT t ∉ P') →
  (∀ f, f ∈ pr_user c → PHYS_TO_VIRT f ∉ P') → (∀ p, p ∈ P' → page_live h' pools' p) →
  (pr_spare c <= length (znth [] fl' 0%Z))%nat → proc_inv c B' P' h' pools' fl'.
Proof.
  intros Hinv' Hsub HB' Hmem Hav HT HU HP' Hspare. pose proof (pi_mmu _ _ _ _ _ _ Hc) as (Hpt & _ & Hdis).
  destruct (pt_wf_agree (kmem h) (kmem h') _ _ Hpt) as [Hpt' Htr]; [intros a Ha; apply Hmem; by right|].
  destruct (ranges_words (kmem h')) as [Hpgd Hrg]; [intros a Ha; apply Hmem; by left|].
  split; try done.
  - split; [done|]. split; [apply Hinv'|]. intros f Hf. cbn in Hf. destruct (pr_tables c !! f) eqn:E; [|done].
    destruct (Hav f Hf) as [Hf'|Hf'].
    + cbn in Hdis. by rewrite Hdis in E.
    + by destruct (pi_tables _ _ _ _ _ _ Hc f) as (_ & _ & []); [eexists|].
  - intros va. rewrite Htr. apply Hc.
  - intros t Ht. split; [by apply (pi_tables _ _ _ _ _ _ Hc)|]. by apply HT.
  - intros f Hf. destruct (pi_user _ _ _ _ _ _ Hc f Hf) as (? & Hna & HfP). split; [done|]. split; [|by apply HU]. intros [?|?]%Hav; done.
  - intros a Ha. split; [by apply HB'|]. destruct (pi_blocks _ _ _ _ _ _ Hc a Ha) as [_ Hs]. by eapply is_slot_mono.
  - apply Hc.
Qed.
End inv.

(** ** Heap blocks *)

(** Free 32-byte slots stay free unless they are handed out. *)
Lemma spare_slots h pools fl B h' pools' fl' B' (X : list Z) : heap_inv h pools fl B → heap_inv h' pools' fl' B' → pools ⊆ pools' →
  (∀ q, q ∈ B' → q ∈ B ∨ q ∈ X ∨ ¬ is_slot pools 0 q) → (length (znth [] fl 0%Z) <= length (znth [] fl' 0%Z) + length X)%nat.
Proof.
  intros Hinv Hinv' Hsub HX. rewrite <- length_app. apply submseteq_length, NoDup_submseteq.
  - by destruct (hi_chain _ _ _ _ Hinv 0 ltac:(lia)).
  - intros q Hq. apply (hi_free _ _ _ _ Hinv) in Hq as [Hs HqB]; [|lia]. apply elem_of_app.
    destruct (decide (q ∈ B')) as [Hq'|Hq'].
    + destruct (HX q Hq') as [?|[?|?]]; [done|by right|done].
    + left. apply (hi_free _ _ _ _ Hinv'); [lia|]. split; [|done]. by eapply is_slot_mono.
Qed.

(** A step of the heap proper: [used] are blocks it leaves alone. *)
Lemma proc_keeps c B P h pools fl (used B' : gset Z) h' pools' fl' : proc_inv c B P h pools fl → heap_inv h' pools' fl' B' →
  keeps h pools used h' pools' → pmm_size (kframes h') = pmm_size (kframes h) → (∀ a, a ∈ pr_blocks c → a ∈ used ∧ a ∈ B') →
  (pr_spare c <= length (znth [] fl' 0%Z))%nat → proc_inv c B' P h' pools' fl'.
Proof.
  intros Hc Hinv' Hk Hsz Hb Hsp. pose proof Hk as (Hsub & _ & Hmem & Hav & Hnew). pose proof (pi_heap _ _ _ _ _ _ Hc) as Hinv.
  destruct (hi_pmm _ _ _ _ Hinv) as [Hfa Hsmall].
  assert (∀ t, is_Some (pr_tables c !! t) → pools' !! PHYS_TO_VIRT t = None) as HT.
  { intros t Ht. destruct (pools' !! PHYS_TO_VIRT t) as [t'|] eqn:E; [|done]. exfalso. destruct (pi_tables _ _ _ _ _ _ Hc t Ht) as (Hlt & Hno & _).
    destruct (proc_table_frames _ _ _ _ _ _ Hc t Ht) as [(_ & ? & _) _].
    destruct (Hnew _ _ E) as [?|(f & Hf & Hfav)]; [congruence|]. destruct (fa_avail_frame _ _ Hfa Hfav) as [_ ?]. pose proof (Hsmall _ Hfav).
    apply PHYS_TO_VIRT_inj in Hf as ->; [|lia..]. destruct (pi_mmu _ _ _ _ _ _ Hc) as (_ & _ & Hdis). destruct Ht as [x Hx].
    specialize (Hdis f Hfav). congruence. }
  eapply proc_inv_step; [exact Hc|exact Hinv'|done|intros a Ha; by apply Hb| |by intros f ?%Hav; left| |intros f Hf; by apply (pi_user _ _ _ _ _ _ Hc)| |done].
  - intros a Ha. apply Hmem. destruct Ha as [(b & Hbb & Ha)|Ha].
    + left. exists b, 0. change (slot_size 0) with 32. split; [by apply Hb|]. split; [by apply (pi_blocks _ _ _ _ _ _ Hc)|done].
    + right. eapply table_not_pool; [exact Hc|apply Hinv'|done|done].
  - intros t Ht. split; [by apply HT|]. by apply (pi_tables _ _ _ _ _ _ Hc).
  - intros p Hp. eapply page_live_keeps; [exact Hinv|exact Hk|done|]. by apply (pi_pages _ _ _ _ _ _ Hc).
Qed.

(** The tier of a request above 32 bytes is not the first. *)
Lemma tier_above size : 32 < size <= 1024 → 0 < size_to_tier_idx size < 6 ∧ size <= slot_size (size_to_tier_idx size).
Proof.
  intros Hs. destruct (size_to_tier_spec size ltac:(lia)) as (Ht & Hfit & _). split; [|done].
  assert (size_to_tier_idx size ≠ 0); [|lia]. intros E. rewrite E in Hfit. change (slot_size 0) with 32 in Hfit. lia.
Qed.

Lemma is_slot_tier pools t t' q : pages_ok pools → is_slot pools t q → is_slot pools t' q → t = t'.
Proof. intros Hok H1 H2. destruct (slot_page _ _ _ Hok H1) as (E1 & _), (slot_page _ _ _ Hok H2) as (E2 & _). congruence. Qed.

(** A request that leaves the slots set aside for ranges alone. *)
Definition request_ok (c : proc) (size : Z) : Prop := 0 <= size <= 1024 ∧ ((0 < pr_spare c)%nat → 32 < size).

Lemma request_above c size : 32 < size <= 1024 → request_ok c size.
Proof. intros Hs. split; lia. Qed.

(** The slots set aside survive. *)
Lemma request_spare c B P h pools fl size h' pools' fl' (B' : gset Z) : proc_inv c B P h pools fl → request_ok c size → heap_inv h' pools' fl' B' → pools ⊆ pools' →
  (∀ q, q ∈ B' → q ∈ B ∨ is_slot pools' (size_to_tier_idx size) q) → (pr_spare c <= length (znth [] fl' 0%Z))%nat.
Proof.
  intros Hc [Hs Hsp] Hinv' Hsub HB'. destruct (pr_spare c) as [|n] eqn:E; [lia|]. destruct (tier_above size) as [Ht _]; [lia|]. rewrite <- E. etrans; [apply Hc|].
  pose proof (spare_slots _ _ _ _ _ _ _ _ [] (pi_heap _ _ _ _ _ _ Hc) Hinv' Hsub) as Hx. cbn in Hx. rewrite Nat.add_0_r in Hx. apply Hx.
  intros q [?|Hq]%HB'; [by left|]. right. right. intros Hq0. assert (0 = size_to_tier_idx size); [|lia]. eapply is_slot_tier; [apply Hinv'|by eapply is_slot_mono|done].
Qed.

(** [kmalloc], with the slot it returns. *)
Lemma proc_kmalloc_slot c B P h pools fl size : proc_inv c B P h pools fl → request_ok c size →
  returns (kmalloc size h) (λ '(p, h'), (p = NULL ∧ proc_live c B P h') ∨
    (p ≠ NULL ∧ p ∉ B ∪ P ∧ ∃ pools' fl' t, is_slot pools' t p ∧ size <= slot_size t ∧ proc_inv c ({[p]} ∪ B) P h' pools' fl')).
Proof.
  intros Hc Hreq. pose proof Hreq as [Hs _]. destruct (size_to_tier_spec size Hs) as (Ht & Hfit & _). pose proof (pi_heap _ _ _ _ _ _ Hc) as Hinv. unfold kmalloc. cbn [kmalloc_rec].
  rewrite (proj2 (Z.eqb_neq (size_to_tier_idx size) TOO_BIG_SIZE)) by (unfold TOO_BIG_SIZE; lia). cbn [negb].
  pose proof (kmalloc_small_spec (size_to_tier_idx size) _ _ _ _ Hinv ltac:(lia)) as Hspec.
  destruct (kmalloc_small 2 _ h) as [[p h']| | |] eqn:E; try done. cbn in Hspec. apply kmalloc_small_size in E; [|apply Hinv].
  destruct Hspec as (pools' & fl' & Hkeep & Hcase). pose proof Hkeep as (Hsub & _).
  destruct Hcase as [(-> & Hinv' & _)|(Hpn & Hpu & Hp & Hinv')].
  - left. split; [done|]. exists pools', fl'. eapply proc_keeps; [exact Hc|exact Hinv'|exact Hkeep|done| |].
    + intros a Ha. by destruct (pi_blocks _ _ _ _ _ _ Hc a Ha).
    + eapply request_spare; [exact Hc|exact Hreq|exact Hinv'|done|auto].
  - right. split; [done|].
    assert (proc_inv c ({[p]} ∪ B) P h' pools' fl') as Hc'.
    { eapply proc_keeps; [exact Hc|exact Hinv'|exact Hkeep|done| |].
      - intros a Ha. destruct (pi_blocks _ _ _ _ _ _ Hc a Ha). split; [done|set_solver].
      - eapply request_spare; [exact Hc|exact Hreq|exact Hinv'|done|]. intros q [->%elem_of_singleton|Hq]%elem_of_union; [by right|by left]. }
    split; [|by eexists _, _, _]. intros [?|HpP]%elem_of_union; [done|].
    eapply (slot_not_page h' pools'); [apply Hinv'|exact Hp|by apply (pi_pages _ _ _ _ _ _ Hc')|done].
Qed.

Lemma proc_kmalloc c B P h size : proc_live c B P h → request_ok c size →
  returns (kmalloc size h) (λ '(p, h'), (p = NULL ∧ proc_live c B P h') ∨ (p ≠ NULL ∧ p ∉ B ∪ P ∧ proc_live c ({[p]} ∪ B) P h')).
Proof.
  intros (pools & fl & Hc) Hs. eapply returns_mono; [by eapply proc_kmalloc_slot|].
  intros [p h'] [?|(Hpn & Hp & pools' & fl' & t & _ & _ & Hc')]; [by left|right]. split; [done|]. split; [done|]. by exists pools', fl'.
Qed.

(** Writing inside a block that is not part of the list of ranges. *)
Lemma proc_write c B P h pools fl p t m : proc_inv c B P h pools fl → p ∈ B → p ∉ pr_blocks c → is_slot pools t p →
  (∀ a, ¬ (p <= a < p + slot_size t) → ld m a = ld (kmem h) a) →
  proc_inv c B P (Kheap m (kframes h) (free_heads h) (big_alloc_head h)) pools fl.
Proof.
  intros Hc Hp Hnb Hs Hm. pose proof (pi_heap _ _ _ _ _ _ Hc) as Hinv. pose proof (hi_pages _ _ _ _ Hinv) as Hok.
  eapply proc_inv_step; [exact Hc|by eapply heap_inv_write|done|intros a Ha; by apply (pi_blocks _ _ _ _ _ _ Hc)| |by left| |intros f Hf; by apply (pi_user _ _ _ _ _ _ Hc)|by apply Hc|by apply Hc].
  - intros a [(b & Hb & Ha)|Ha]; cbn [kmem]; apply Hm.
    + destruct (pi_blocks _ _ _ _ _ _ Hc b Hb) as [_ Hbs]. destruct (slots_disjoint _ _ _ _ _ Hok Hs Hbs) as [?|?]; [by intros ->|lia|].
      change (slot_size 0) with 32 in *. lia.
    + intros Hr. assert (¬ pool_word pools a) as Hnp.
      { eapply table_not_pool; [exact Hc|done| |done]. intros t' Ht'. by apply (pi_tables _ _ _ _ _ _ Hc). }
      apply Hnp. by apply (slot_pool_word pools t p).
  - intros t' Ht'. destruct (pi_tables _ _ _ _ _ _ Hc t' Ht') as (_ & ? & ?). done.
Qed.

Lemma proc_kzalloc c B P h size : proc_live c B P h → request_ok c size →
  returns (kzalloc size h) (λ '(p, h'), (p = NULL ∧ proc_live c B P h') ∨ (p ≠ NULL ∧ p ∉ B ∪ P ∧ proc_live c ({[p]} ∪ B) P h')).
Proof.
  intros (pools & fl & Hc) Hs. pose proof Hs as [Hsz _]. unfold kzalloc. eapply returns_bind; [by eapply proc_kmalloc_slot|].
  intros [p h'] [(-> & Hc')|(Hpn & Hp & pools' & fl' & t & Hslot & Hfit & Hc')]; [by left|].
  rewrite (proj2 (Z.eqb_neq p NULL)) by done. right. split; [done|]. split; [done|]. exists pools', fl'.
  pose proof (hi_pages _ _ _ _ (pi_heap _ _ _ _ _ _ Hc')) as Hok.
  pose proof (slot_page _ _ _ Hok Hslot) as (Hpg & Hlo & Hhi & _ & Ht). destruct (Hok _ _ Hpg) as (_ & _ & ? & ?).
  destruct (slot_size_facts t Ht) as (_ & _ & _ & ?). eapply proc_write; [exact Hc'|by apply elem_of_union_l, elem_of_singleton| |exact Hslot|].
  - intros Hb. destruct (pi_blocks _ _ _ _ _ _ Hc p Hb) as [HpB _]. apply Hp. by apply elem_of_union_l.
  - intros a Ha. apply zero_bytes_out; lia.
Qed.

Lemma proc_kfree c B P h p : proc_live c B P h → p ∈ B → p ∉ pr_blocks c →
  returns (heap_kfree p h) (λ h', proc_live c (B ∖ {[p]}) P h').
Proof.
  intros (pools & fl & Hc) Hp Hnb. pose proof (pi_heap _ _ _ _ _ _ Hc) as Hinv. destruct (hi_used _ _ _ _ Hinv _ Hp) as [t Hs].
  pose proof (slot_page _ _ _ (hi_pages _ _ _ _ Hinv) Hs) as (Hpg & _ & _ & _ & Ht). destruct (hi_hdr _ _ _ _ Hinv _ _ Hpg) as [Hmagic _].
  unfold heap_kfree, kfree. cbn [kfree_rec]. rewrite Hmagic, Z.eqb_refl.
  pose proof (kfree_small_spec _ _ _ _ _ _ Hinv Hp Hs) as Hf.
  assert (∀ h', kfree_small p h = Ok h' → pmm_size (kframes h') = pmm_size (kframes h)) as Hsz.
  { intros h' E. unfold kfree_small in E. res_inv E. by subst. }
  destruct (kfree_small p h) as [h'| | |]; try done. destruct Hf as [Hinv' Hkeep]. eexists _, _.
  eapply proc_keeps; [exact Hc|exact Hinv'|exact Hkeep|by apply Hsz| |].
  - intros a Ha. destruct (pi_blocks _ _ _ _ _ _ Hc a Ha). set_solver.
  - etrans; [apply Hc|]. pose proof (spare_slots _ _ _ _ _ _ _ _ [] Hinv Hinv' (proj1 Hkeep)) as Hsp. cbn in Hsp. rewrite Nat.add_0_r in Hsp. apply Hsp. set_solver.
Qed.

(** ** Whole pages *)

Lemma proc_alloc_page c B P h : proc_live c B P h →
  returns (heap_alloc_page h) (λ '(p, h'), (p = NULL ∧ proc_live c B P h') ∨ (p ≠ NULL ∧ p ∉ B ∪ P ∧ proc_live c B ({[p]} ∪ P) h')).
Proof.
  intros (pools & fl & Hc). pose proof (pi_heap _ _ _ _ _ _ Hc) as Hinv. destruct (hi_pmm _ _ _ _ Hinv) as [Hfa Hsmall].
  eapply returns_mono; [by eapply alloc_page_inv; [|apply Hc]|].
  intros [p h'] (fr & -> & Hinv' & HP' & Hav & Hp). destruct Hp as [->|(HpB & Hlive & f & -> & Hf)].
  - left. split; [done|]. exists pools, fl.
    eapply proc_inv_step; [exact Hc|exact Hinv'|done|intros a Ha; by apply (pi_blocks _ _ _ _ _ _ Hc)|done|by intros f ?%Hav; left| |intros f Hf; by apply (pi_user _ _ _ _ _ _ Hc)|done|by apply Hc].
    intros t Ht. destruct (pi_tables _ _ _ _ _ _ Hc t Ht) as (_ & ? & ?). done.
  - right. destruct (fa_avail_frame _ _ Hfa Hf) as [_ Hf0]. pose proof (Hsmall _ Hf).
    split; [rewrite PHYS_TO_VIRT_small by lia; unfold ID_VIRT_REGION_START, NULL; lia|]. split; [done|]. exists pools, fl.
    eapply proc_inv_step; [exact Hc|exact Hinv'|done|intros a Ha; by apply (pi_blocks _ _ _ _ _ _ Hc)|done|by intros g ?%Hav; left| | | |by apply Hc].
    + intros t Ht. destruct (pi_tables _ _ _ _ _ _ Hc t Ht) as (Hlt & ? & HtP). split; [done|].
      destruct (proc_table_frames _ _ _ _ _ _ Hc t Ht) as [(_ & ? & _) _]. intros [E%elem_of_singleton|?]%elem_of_union; [|done].
      apply PHYS_TO_VIRT_inj in E as ->; [|lia..]. destruct (pi_mmu _ _ _ _ _ _ Hc) as (_ & _ & Hdis). destruct Ht as [x Hx]. specialize (Hdis f Hf). congruence.
    + intros g Hg. destruct (pi_user _ _ _ _ _ _ Hc g Hg) as (? & Hna & HgP). intros [E%elem_of_singleton|?]%elem_of_union; [|done].
      apply PHYS_TO_VIRT_inj in E as ->; [done|lia..].
    + intros q [->%elem_of_singleton|Hq]%elem_of_union; [done|by apply HP'].
Qed.

Lemma proc_free_page c B P h p : proc_live c B P h → p ∈ P → returns (heap_free_page p h) (λ h', proc_live c B (P ∖ {[p]}) h').
Proof.
  intros (pools & fl & Hc) Hp. pose proof (pi_heap _ _ _ _ _ _ Hc) as Hinv.
  eapply returns_mono; [by eapply free_page_inv; [|apply Hc|]|]. intros h' (fr & -> & Hinv' & HP' & Hav). exists pools, fl.
  eapply proc_inv_step; [exact Hc|exact Hinv'|done|intros a Ha; by apply (pi_blocks _ _ _ _ _ _ Hc)|done| | | |done|by apply Hc].
  - intros f [<-|?]%Hav; [by right|by left].
  - intros t Ht. destruct (pi_tables _ _ _ _ _ _ Hc t Ht) as (_ & ? & ?). set_solver.
  - intros f Hf. destruct (pi_user _ _ _ _ _ _ Hc f Hf) as (_ & _ & ?). set_solver.
Qed.

(** ** Backing a range of user pages *)

(** Page tables and frames change, the heap's own words do not. *)
Lemma heap_inv_agree h pools fl B m fr : heap_inv h pools fl B → fa_inv fr → (∀ f, fa_avail fr f → fa_avail (kframes h) f) →
  (∀ a, pool_word pools a → ld m a = ld (kmem h) a) → heap_inv (Kheap m fr (free_heads h) (big_alloc_head h)) pools fl B.
Proof.
  intros [Hlen [Hfa Hsmall] Hpages Htaken Hhdr Hchain Hfree Hused] Hfr Hav Hm. split; cbn [kmem kframes free_heads]; try done.
  - split; [done|]. by intros f ?%Hav%Hsmall.
  - intros pg t Hpg. destruct (Htaken _ _ Hpg) as (f & ? & ? & Hna). exists f. split; [done|]. split; [done|]. by intros ?%Hav.
  - intros pg t Hpg. rewrite Hm; [by apply Hhdr|]. exists pg, t. split; [done|unfold PAGE_SIZE; lia].
  - intros t Ht. destruct (Hchain t Ht) as [Hch Hnd]. split; [|done]. apply (chain_agree (kmem h)); [|done].
    intros x Hx. apply Hfree in Hx as [Hx _]; [|done]. apply Hm. destruct (slot_page _ _ _ Hpages Hx) as (Hpg & Hlo & Hhi & _ & _).
    destruct (slot_size_facts t Ht) as (_ & _ & _ & ?). eexists _, t. split; [done|lia].
Qed.

(** ** Properties of the frame allocator kept by the paging code *)

Section frames.
Context {F : Type} `{!FrameAllocator F} (cpu_has_1g_pages : bool).
Context (Q : F → Prop) (HQ : ∀ s p s', Q s → fa_alloc s = Ok (p, s') → Q s').

Ltac run_inv E := repeat (progress (res_inv E; repeat match type of E with (match ?x with _ => _ end) = Ok _ => is_var x; destruct x end)).

Lemma mmu_alloc_table_frames entry (s s' : mmu F) : Q (frames s) → mmu_alloc_table entry s = Ok s' → Q (frames s').
Proof.
  intros Hs E. unfold mmu_alloc_table in E. apply bind_Ok_inv in E as ([f fr] & Hf & E). destruct (f =? NULL); [done|].
  assert (∀ m, Ok (Mmu m fr (flushed s)) = Ok s' → Q (frames s')) as Hg by (intros m [= <-]; by eapply HQ). exact (Hg _ E).
Qed.

Lemma table_opt_frames (b : bool) entry (s s' : mmu F) : Q (frames s) → (if b then Ok s else mmu_alloc_table entry s) = Ok s' → Q (frames s').
Proof. destruct b; [by intros ? [= <-]|apply mmu_alloc_table_frames]. Qed.

Lemma mmu_walk_frames pgd vaddr level (s : mmu F) e hit s' : Q (frames s) → mmu_walk pgd vaddr level s = Ok (e, hit, s') → Q (frames s').
Proof.
  intros Hs E. unfold mmu_walk in E. run_inv E; repeat match goal with
  | H : (if _ then _ else mmu_alloc_table _ _) = Ok _ |- _ => apply table_opt_frames in H; [|done]
  end; by subst.
Qed.

Lemma map_range_loop_frames fuel pgd vaddr paddr len opts (s s' : mmu F) : Q (frames s) →
  map_range_loop cpu_has_1g_pages fuel pgd vaddr paddr len opts s = Ok s' → Q (frames s').
Proof.
  revert vaddr paddr len s. induction fuel as [|fuel IH]; intros vaddr paddr len s Hs E; [done|]. cbn [map_range_loop] in E.
  destruct (0 <? len); [|by injection E as <-]. destruct (chunk_of _ _ _ _) as [size chunk]. apply bind_Ok_inv in E as (s1 & H1 & E).
  eapply IH; [|exact E]. unfold mmu_map_one in H1. run_inv H1. subst. cbn. by eapply mmu_walk_frames.
Qed.

Lemma alloc_range_loop_frames fuel pgd vaddr size count prot (s : mmu F) r s' : Q (frames s) →
  alloc_range_loop cpu_has_1g_pages fuel pgd vaddr size count prot s = Ok (r, s') → Q (frames s').
Proof.
  revert vaddr size count s. induction fuel as [|fuel IH]; intros vaddr size count s Hs E; [done|]. cbn [alloc_range_loop] in E.
  destruct (size =? 0); [by injection E as _ <-|]. apply bind_Ok_inv in E as ([r1 s1] & H1 & E).
  assert (Q (frames s1)) as Hs1.
  { unfold vmm_alloc_page, vmm_map_page, mmu_map_range in H1. run_inv H1; subst; [by eapply HQ|].
    res_inv Hx0. eapply map_range_loop_frames; [|exact Hx0]. cbn. by eapply HQ. }
  destruct (r1 <? 0); [by injection E as _ <-|by eapply IH].
Qed.

Lemma vmm_alloc_range_frames pgd vaddr size prot (s : mmu F) r s' : Q (frames s) →
  vmm_alloc_range cpu_has_1g_pages pgd vaddr size prot s = Ok (r, s') → Q (frames s').
Proof. intros Hs E. unfold vmm_alloc_range in E. res_inv E. by eapply alloc_range_loop_frames. Qed.
End frames.

Lemma vmm_alloc_range_size b pgd vaddr size prot (s : mmu pmm) r s' : fa_inv (frames s) →
  vmm_alloc_range b pgd vaddr size prot s = Ok (r, s') → pmm_size (frames s') = pmm_size (frames s).
Proof.
  intros Hs E. eapply (vmm_alloc_range_frames b (λ f, fa_inv f ∧ pmm_size f = pmm_size (frames s))) in E; [by destruct E|..|done].
  intros f p f' [Hf Hz] Ef. pose proof (fa_alloc_spec f Hf) as Hsp. rewrite Ef in Hsp. destruct Hsp as [Hf' _]. split; [done|]. rewrite <- Hz.
  destruct Hf as [Hok Hmax]. pose proof (pmm_alloc_frame_spec f (proj1 Hok) ltac:(lia)) as Hsp. cbn [fa_alloc pmm_frame_allocator] in Ef. rewrite Ef in Hsp. cbn in Hsp.
  destruct Hsp as [(_ & -> & _)|(g & _ & _ & Hl & _)]; [done|]. unfold pmm_size. by rewrite Hl.
Qed.

(** The same process with [fs] backing new pages. *)
Definition proc_backed (c : proc) (T : gmap Z (nat * Z)) (tr : Z → option (Z * Z)) (fs : list Z) : proc :=
  Proc (pr_root c) (pr_mm c) T tr (list_to_set fs ∪ pr_user c) (pr_ranges c) (pr_spare c).

Lemma proc_backed_inv c B P h vaddr prot fs s' T' : proc_live c B P h →
  backed (pr_root c) vaddr prot fs (as_mmu h) (pr_tables c) s' T' → pmm_size (frames s') = pmm_size (kframes h) →
  proc_live (proc_backed c T' (translate (mem s') (pr_root c)) fs) B P (with_mmu s' h).
Proof.
  intros (pools & fl & Hc) (Hwf & HT & Hnd & Hfs & _ & Hav & Hnew & Hmem) Hsize. cbn [as_mmu frames mem] in *.
  pose proof (pi_heap _ _ _ _ _ _ Hc) as Hinv. pose proof (hi_pages _ _ _ _ Hinv) as Hok. destruct (hi_pmm _ _ _ _ Hinv) as [Hfa Hsmall].
  (* an available frame is neither a pool page nor a live page *)
  assert (∀ f, fa_avail (kframes h) f → 0 < f < 2 ^ 46 ∧ pools !! PHYS_TO_VIRT f = None ∧ PHYS_TO_VIRT f ∉ P) as Hfresh.
  { intros f Hf. destruct (fa_avail_frame _ _ Hfa Hf) as [_ ?]. pose proof (Hsmall _ Hf). split; [lia|]. split.
    - destruct (pools !! PHYS_TO_VIRT f) as [t|] eqn:E; [|done]. destruct (hi_taken _ _ _ _ Hinv _ _ E) as (g & Hg & ? & Hna).
      apply PHYS_TO_VIRT_inj in Hg as ->; [done|lia..].
    - intros HfP. destruct (pi_pages _ _ _ _ _ _ Hc _ HfP) as (g & Hg & _ & ? & _ & Hna & _). apply PHYS_TO_VIRT_inj in Hg as ->; [done|lia..]. }
  assert (∀ t, is_Some (T' !! t) → t < 2 ^ 46 ∧ pools !! PHYS_TO_VIRT t = None ∧ PHYS_TO_VIRT t ∉ P) as HT'.
  { intros t Ht. destruct (pr_tables c !! t) as [x|] eqn:E; [apply Hc; by eexists|]. destruct (Hfresh t) as (? & ? & ?); [by apply Hnew|]. split; [lia|done]. }
  assert (∀ a, pool_word pools a → ld (mem s') a = ld (kmem h) a) as Hpool.
  { intros a Ha. apply Hmem. intros Hta. revert Ha.
    assert (∀ t, is_Some (T' !! t) → table_frame t ∧ t < 2 ^ 46) as Htf.
    { intros t Ht. split; [|by apply HT']. destruct Ht as [[n k] Ht]. by apply (proj1 (proj2 (proj1 Hwf)) _ _ _ Ht). }
    intros (pg & t' & Hpg & Hr). destruct (table_word_page _ _ Hta Htf) as (t & Ht & Hra & Hal). destruct (Hok _ _ Hpg) as (_ & Hpal & _).
    assert (pg = PHYS_TO_VIRT t) as -> by (unfold PAGE_SIZE in *; zlia). destruct (HT' t Ht) as (_ & ? & _). congruence. }
  assert (heap_inv (with_mmu s' h) pools fl B) as Hinv' by (apply heap_inv_agree; [done|apply Hwf|done|done]).
  destruct (ranges_words _ _ _ _ _ _ Hc (mem s')) as [Hpgd Hrg].
  { intros a (b & Hb & Ha). apply Hpool. destruct (pi_blocks _ _ _ _ _ _ Hc b Hb) as [_ Hbs]. destruct (slot_page _ _ _ Hok Hbs) as (Hpg & Hlo & Hhi & _).
    change (slot_size 0) with 32 in *. eexists _, 0. split; [done|lia]. }
  exists pools, fl. split; try done; try apply Hc.
  - intros f [Hf%elem_of_list_to_set|Hf]%elem_of_union.
    + rewrite Forall_forall in Hfs. destruct (Hfs f Hf) as (Hf1 & Hf2 & _). destruct (Hfresh f Hf1) as (? & _ & ?). split; [lia|done].
    + destruct (pi_user _ _ _ _ _ _ Hc f Hf) as (? & Hna & ?). split; [done|]. split; [|done]. by intros ?%Hav.
  - intros p Hp. destruct (pi_pages _ _ _ _ _ _ Hc p Hp) as (f & -> & ? & ? & Hsz & Hna & ?). exists f. cbn [with_mmu kframes].
    rewrite Hsize. split_and!; try done; [lia|lia|]. by intros ?%Hav.
Qed.

(** [vmm_alloc_range] in the table of the process. *)
Lemma proc_alloc_range b c B P h vaddr size prot : proc_live c B P h → prot_ok prot → vaddr mod PAGE_SIZE = 0 → 0 <= size →
  lin vaddr + PAGE_ALIGN_UP size <= 2 ^ 48 → size + PAGE_SIZE <= 2 ^ 64 →
  runs (vmm_alloc_range b (PHYS_TO_VIRT (pr_root c)) vaddr size prot (as_mmu h)) (λ '(r, s'), ∃ T' fs,
    backed (pr_root c) vaddr prot fs (as_mmu h) (pr_tables c) s' T' ∧ (∀ f, f ∈ fs → 0 <= f < 2 ^ 46 ∧ f mod PAGE_SIZE = 0 ∧ f ∉ pr_user c) ∧
    proc_live (proc_backed c T' (translate (mem s') (pr_root c)) fs) B P (with_mmu s' h) ∧
    ((r = PAGE_ALIGN_UP size / PAGE_SIZE ∧ Z.of_nat (length fs) = r) ∨ (r = - ENOMEM ∧ Z.of_nat (length fs) < PAGE_ALIGN_UP size / PAGE_SIZE))) (map_panic prot).
Proof.
  intros Hc Hp Hv Hs Hlin Hsz. pose proof Hc as (pools & fl & Hci). pose proof (pi_mmu _ _ _ _ _ _ Hci) as Hwf.
  pose proof (vmm_alloc_range_spec (pr_root c) b (as_mmu h) _ vaddr size prot Hwf Hp Hv Hs Hsz Hlin) as Hr.
  destruct (vmm_alloc_range b _ _ _ _ _) as [[r s']| | |] eqn:E; try done. cbn [runs] in *. destruct Hr as (T' & fs & Hb & Hcase).
  exists T', fs. split; [done|]. apply vmm_alloc_range_size in E; [|apply Hwf]. cbn in E.
  destruct (hi_pmm _ _ _ _ (pi_heap _ _ _ _ _ _ Hci)) as [Hfa Hsmall]. split; [|split; [by eapply proc_backed_inv|]].
  - intros f Hf. destruct Hb as (_ & _ & _ & Hfs & _). rewrite Forall_forall in Hfs. destruct (Hfs f Hf) as (Hav & _).
    destruct (fa_avail_frame _ _ Hfa Hav) as [? ?]. pose proof (Hsmall _ Hav). split; [lia|]. split; [done|].
    intros Hu. by destruct (pi_user _ _ _ _ _ _ Hci f Hu) as (_ & [] & _).
  - destruct Hcase as [[-> Hl]|(-> & Hl & _)]; [left|by right]. rewrite Z.add_0_l. done.
Qed.

(** ** The list of ranges *)

Lemma add_range_submseteq x l : add_range x l ⊆+ x :: l.
Proof.
  destruct l as [|h t]; cbn [add_range]; [done|]. case_match; [done|]. rewrite (Permutation_swap h x). do 2 apply submseteq_skip.
  apply sublist_submseteq, skip_below_sublist.
Qed.

Lemma add_range_NoDup mm a addr l : NoDup (mm :: a :: l.*1) → NoDup (mm :: (add_range (a, addr) l).*1).
Proof.
  intros Hnd. destruct (submseteq_Permutation _ _ (add_range_submseteq (a, addr) l)) as [k Hk].
  apply (fmap_Permutation fst) in Hk. rewrite fmap_app in Hk. cbn [fmap list_fmap fst] in Hk.
  change (a :: list_fmap (Z * Z)%type Z fst l) with (a :: l.*1) in Hk. rewrite Hk in Hnd. rewrite app_comm_cons in Hnd. by apply NoDup_app in Hnd as [? _].
Qed.

Lemma add_range_elem a addr l b : b ∈ (add_range (a, addr) l).*1 → b = a ∨ b ∈ l.*1.
Proof.
  intros Hb. assert (b ∈ ((a, addr) :: l).*1) as Hb'.
  { apply list_elem_of_fmap in Hb as (y & -> & Hy). apply list_elem_of_fmap. exists y. split; [done|]. eapply elem_of_submseteq; [exact Hy|]. apply add_range_submseteq. }
  by apply elem_of_cons in Hb'.
Qed.

(** Words of distinct first-tier slots. *)
Lemma slots_words_apart pools mm l : pages_ok pools → NoDup (mm :: l.*1) → (∀ b, b ∈ mm :: l.*1 → is_slot pools 0 b) → words_apart mm l.
Proof.
  intros Hok Hnd Hs. assert (∀ b, b ∈ mm :: l.*1 → u64 (b + 16) = b + 16) as Hu.
  { intros b Hb. destruct (slot_page _ _ _ Hok (Hs b Hb)) as (Hpg & Hlo & Hhi & _). destruct (Hok _ _ Hpg) as (_ & _ & ? & ?).
    change (slot_size 0) with 32 in *. apply u64_small. lia. }
  assert (∀ b b', b ∈ mm :: l.*1 → b' ∈ mm :: l.*1 → b ≠ b' → b + 32 <= b' ∨ b' + 32 <= b) as Hd.
  { intros b b' Hb Hb' Hne. apply (slots_disjoint pools 0 b 0 b'); auto. }
  unfold words_apart, mm_allocs_head, alloc_addr, alloc_next. revert Hnd Hs Hu Hd. generalize (l.*1). clear. intros k Hnd _ Hu Hd.
  rewrite Hu by by left. apply NoDup_cons in Hnd as [Hm Hnd]. apply NoDup_cons. split.
  - intros (b & Hb & Hbk)%list_elem_of_bind. assert (b ∈ mm :: k) as Hbm by by right. rewrite Hu in Hb by done.
    assert (b ≠ mm) as Hne by (by intros ->). destruct (Hd b mm Hbm ltac:(by left) Hne); apply elem_of_cons in Hb as [?|[?|[]%elem_of_nil]%elem_of_cons]; lia.
  - assert (∀ b, b ∈ k → u64 (b + 16) = b + 16) as Hu' by (intros b Hb; apply Hu; by right).
    assert (∀ b b', b ∈ k → b' ∈ k → b ≠ b' → b + 32 <= b' ∨ b' + 32 <= b) as Hd' by (intros b b' Hb Hb'; apply Hd; by right).
    clear -Hnd Hu' Hd'. induction k as [|a k IH]; cbn [mbind list_bind app]; [by apply NoDup_nil|]. apply NoDup_cons in Hnd as [Ha Hnd].
    assert (∀ x, x = a ∨ x = a + 16 → x ∉ (k ≫= λ b, [b; u64 (b + 16)])) as Hnot.
    { intros x Hx (b & Hb & Hbk)%list_elem_of_bind. assert (b ≠ a) as Hne by (by intros ->). rewrite Hu' in Hb by by right.
      destruct (Hd' b a ltac:(by right) ltac:(by left) Hne); apply elem_of_cons in Hb as [?|[?|[]%elem_of_nil]%elem_of_cons]; lia. }
    rewrite (Hu' a) by by left. apply NoDup_cons. split.
    + intros [?|Hin]%elem_of_cons; [lia|]. revert Hin. apply Hnot. by left.
    + apply NoDup_cons. split; [apply Hnot; by right|]. apply IH; [done|intros b Hb; apply Hu'; by right|intros b b' Hb Hb'; apply Hd'; by right].
Qed.

(** Linking a node writes the head pointer and next pointers only. *)
Lemma mm_insert_frame fuel mm alloc addr m m' l : ranges m (ld m (mm_allocs_head mm)) l → mm_insert fuel mm alloc addr m = Ok m' → IS_ERR alloc = false →
  ∀ a, a ≠ mm_allocs_head mm → (∀ b, b = alloc ∨ b ∈ l.*1 → a ≠ alloc_next b) → ld m' a = ld m a.
Proof.
  intros Hl E He a Ham Hnx. unfold mm_insert in E. destruct (Z.eqb_spec (ld m (mm_allocs_head mm)) NULL) as [Hz|Hnz].
  { injection E as <-. by rewrite ld_st_ne. }
  destruct l as [|[h x] l]; [done|]. cbn [ranges] in Hl. destruct Hl as (Hh & _ & _ & Hr). rewrite He in E.
  destruct (addr <=? _).
  { injection E as <-. rewrite !ld_st_ne; [done|apply not_eq_sym, Hnx; by left|done]. }
  rewrite Hh in E. assert (alloc_next h ≠ a) as Hna by (apply not_eq_sym, Hnx; right; by left).
  clear -E Hna Hnx He. revert E. generalize (ld m (alloc_next h)). induction fuel as [|fuel IH]; intros cur E; [done|]. cbn [insert_loop] in E. rewrite He in E.
  destruct (cur =? NULL); [injection E as <-; by rewrite ld_st_ne|]. destruct (addr <=? _); [|by eapply IH].
  injection E as <-. rewrite !ld_st_ne; [done|done|]. apply not_eq_sym, Hnx. by left.
Qed.

(** The same process with a range added. *)
Definition proc_ranged (c : proc) (a addr : Z) : proc :=
  Proc (pr_root c) (pr_mm c) (pr_tables c) (pr_tr c) (pr_user c) (add_range (a, addr) (pr_ranges c)) (pred (pr_spare c)).

(** The node: a first-tier slot that is at hand, filled in. *)
Lemma proc_create_alloc c B P h addr pages : proc_live c B P h → (0 < pr_spare c)%nat →
  returns (mm_create_alloc addr pages h) (λ '(a, h'), a ∉ B ∪ P ∧ ∃ pools fl,
    proc_inv (Proc (pr_root c) (pr_mm c) (pr_tables c) (pr_tr c) (pr_user c) (pr_ranges c) (pred (pr_spare c))) ({[a]} ∪ B) P h' pools fl ∧
    is_slot pools 0 a ∧ ld (kmem h') (alloc_addr a) = addr ∧ ld (kmem h') (alloc_next a) = NULL).
Proof.
  intros (pools & fl & Hc) Hn. pose proof (pi_heap _ _ _ _ _ _ Hc) as Hinv. pose proof (pi_spare _ _ _ _ _ _ Hc) as Hsp.
  destruct (znth [] fl 0) as [|a l] eqn:Hfl; [cbn in Hsp; lia|].
  unfold mm_create_alloc, kmalloc. cbn [kmalloc_rec]. change (size_to_tier_idx MM_ALLOCATION_SIZE) with 0. change (negb (0 =? TOO_BIG_SIZE)) with true. cbv iota.
  pose proof (kmalloc_small_head 1 0 _ _ _ _ _ _ Hinv ltac:(lia) Hfl) as Hk. destruct (kmalloc_small 2 0 h) as [[a' h']| | |] eqn:E; try done.
  cbn in Hk. destruct Hk as (-> & Han & pools' & fl' & Hkeep & Hcase). apply kmalloc_small_size in E; [|apply Hinv].
  destruct Hcase as [(-> & _)|(_ & HaB & Has & Hinv')]; [done|]. rewrite bind_Ok. rewrite (proj2 (Z.eqb_neq a NULL)) by done. cbn [returns runs].
  set (c1 := Proc _ _ _ _ _ _ _). assert (proc_inv c1 B P h pools fl) as Hc1.
  { destruct Hc. split; try done. unfold c1. cbn [pr_spare]. lia. }
  assert (proc_inv c1 ({[a]} ∪ B) P h' pools' fl') as Hc2.
  { eapply proc_keeps; [exact Hc1|exact Hinv'|exact Hkeep|done| |].
    - intros b Hb. destruct (pi_blocks _ _ _ _ _ _ Hc1 b Hb). split; [done|set_solver].
    - pose proof (spare_slots _ _ _ _ _ _ _ _ [a] Hinv Hinv' (proj1 Hkeep)) as Hs. rewrite Hfl in Hs. cbn [length] in *. unfold c1. cbn [pr_spare].
      assert (S (length l) <= length (znth [] fl' 0) + 1)%nat; [|lia]. apply Hs.
      intros q [->%elem_of_singleton|?]%elem_of_union; [right; left; by left|by left]. }
  pose proof (hi_pages _ _ _ _ Hinv') as Hok. destruct (slot_page _ _ _ Hok Has) as (Hpg & Hlo & Hhi & _). destruct (Hok _ _ Hpg) as (_ & _ & ? & ?).
  change (slot_size 0) with 32 in *.
  assert (alloc_page_count a = a + 8 ∧ alloc_next a = a + 16) as [E8 E16] by (unfold alloc_page_count, alloc_next; rewrite !u64_small by lia; done).
  split.
  - intros [?|HaP]%elem_of_union; [done|]. eapply (slot_not_page h' pools'); [done|exact Has|by apply (pi_pages _ _ _ _ _ _ Hc2)|done].
  - exists pools', fl'. split; [|split; [done|]].
    + eapply proc_write; [exact Hc2|by apply elem_of_union_l, elem_of_singleton| |exact Has|].
      * intros Hb. by destruct (pi_blocks _ _ _ _ _ _ Hc1 a Hb).
      * change (slot_size 0) with 32. intros x Hx. unfold alloc_addr. rewrite E8, E16, !ld_st_ne by lia. done.
    + cbn [with_mem kmem]. unfold alloc_addr. rewrite E8, E16. rewrite ld_st_eq, !ld_st_ne by lia. by rewrite ld_st_eq.
Qed.

Lemma proc_add_alloc fuel c B P h addr pages : proc_live c B P h → (0 < pr_spare c)%nat → (length (pr_ranges c) < fuel)%nat →
  returns (mm_add_alloc fuel (pr_mm c) addr pages h) (λ '(r, h'), r = 0 ∧ ∃ a, a ∉ B ∪ P ∧ proc_live (proc_ranged c a addr) ({[a]} ∪ B) P h').
Proof.
  intros Hlive Hn Hf. unfold mm_add_alloc. eapply returns_bind; [by apply proc_create_alloc|].
  intros [a h1] (HaB & pools & fl & Hc & Has & Haddr & Hnext). set (c1 := Proc _ _ _ _ _ _ _) in Hc.
  pose proof (pi_heap _ _ _ _ _ _ Hc) as Hinv. pose proof (hi_pages _ _ _ _ Hinv) as Hok.
  destruct (slot_page _ _ _ Hok Has) as (Hpg & Hlo & Hhi & _). destruct (hi_taken _ _ _ _ Hinv _ _ Hpg) as (g & Hg & Hgr & _). change (slot_size 0) with 32 in *.
  destruct (direct_ptr g a) as [Han Herr]; [lia|rewrite <- Hg; unfold PAGE_SIZE in *; lia|]. rewrite (proj2 (Z.eqb_neq a NULL)) by done.
  assert (a ∉ pr_blocks c1) as Hnb.
  { intros Hb. destruct Hlive as (pools0 & fl0 & Hc0). destruct (pi_blocks _ _ _ _ _ _ Hc0 a Hb) as [? _]. apply HaB. by apply elem_of_union_l. }
  pose proof (pi_nodup _ _ _ _ _ _ Hc) as Hnd. change (pr_blocks c1) with (pr_mm c :: (pr_ranges c).*1) in Hnd, Hnb.
  assert (NoDup (pr_mm c :: a :: (pr_ranges c).*1)) as Hnd'.
  { apply not_elem_of_cons in Hnb as [Hne Hni]. apply NoDup_cons in Hnd as [Hm Hnd]. apply NoDup_cons. split; [by apply not_elem_of_cons|]. by apply NoDup_cons. }
  assert (∀ b, b ∈ pr_mm c :: a :: (pr_ranges c).*1 → b ∈ {[a]} ∪ B ∧ is_slot pools 0 b) as Hbs.
  { intros b [->|[->|Hb]%elem_of_cons]%elem_of_cons; [apply (pi_blocks _ _ _ _ _ _ Hc); by left|split; [by apply elem_of_union_l, elem_of_singleton|done]|].
    apply (pi_blocks _ _ _ _ _ _ Hc). by right. }
  pose proof (slots_words_apart pools (pr_mm c) ((a, addr) :: pr_ranges c) Hok Hnd' ltac:(intros b Hb; by apply Hbs)) as Hap.
  destruct (mm_insert_spec fuel (kmem h1) (pr_mm c) a addr (pr_ranges c) (pi_ranges _ _ _ _ _ _ Hc) Hap Han Herr Haddr Hnext Hf) as (m' & Hm' & Hr').
  rewrite Hm', bind_Ok. split; [done|]. exists a. split; [done|].
  assert (∀ b, b ∈ pr_mm c :: a :: (pr_ranges c).*1 → u64 (b + 16) = b + 16) as Hu.
  { intros b Hb. destruct (slot_page _ _ _ Hok (proj2 (Hbs b Hb))) as (Hpg' & Hlo' & Hhi' & _). destruct (Hok _ _ Hpg') as (_ & _ & ? & ?).
    change (slot_size 0) with 32 in *. apply u64_small. lia. }
  assert (∀ x, (∀ b, b ∈ pr_mm c :: a :: (pr_ranges c).*1 → x ≠ b + 16) → ld m' x = ld (kmem h1) x) as Hframe.
  { intros x Hx. eapply mm_insert_frame; [apply (pi_ranges _ _ _ _ _ _ Hc)|exact Hm'|done|..].
    - change (pr_mm c1) with (pr_mm c). unfold mm_allocs_head. rewrite Hu by by left. apply Hx. by left.
    - change (pr_ranges c1) with (pr_ranges c). intros b Hb. unfold alloc_next. assert (b ∈ pr_mm c :: a :: (pr_ranges c).*1) as Hb' by (right; by apply elem_of_cons). rewrite Hu by done. by apply Hx. }
  assert (∀ x, ¬ used_word pools ({[a]} ∪ B) x → ld m' x = ld (kmem h1) x) as Hout.
  { intros x Hx. apply Hframe. intros b Hb ->. apply Hx. destruct (Hbs b Hb) as [HbB Hbslot]. exists b, 0. change (slot_size 0) with 32. split; [done|]. split; [done|lia]. }
  assert (pr_mm c ∈ pr_mm c :: a :: (pr_ranges c).*1) as Hmm by by left.
  assert (ld m' (mm_pgd (pr_mm c)) = PHYS_TO_VIRT (pr_root c)) as Hpgd.
  { rewrite Hframe; [apply (pi_pgd _ _ _ _ _ _ Hc)|]. unfold mm_pgd. intros b Hb. destruct (decide (b = pr_mm c)) as [->|Hne]; [lia|].
    destruct (slots_disjoint pools 0 b 0 (pr_mm c) Hok (proj2 (Hbs b Hb)) (proj2 (Hbs _ Hmm)) Hne); change (slot_size 0) with 32 in *; lia. }
  destruct (pi_mmu _ _ _ _ _ _ Hc) as (Hpt & Hfa & Hdis). destruct (pt_wf_agree (kmem h1) m' _ _ Hpt) as [Hpt' Htr].
  { intros x Hx. apply Hout. intros (q & t & _ & Hqs & Hxq). eapply (table_not_pool _ _ _ _ _ _ Hc pools x Hok); [|exact Hx|].
    - intros t' Ht'. by apply (pi_tables _ _ _ _ _ _ Hc).
    - by apply (slot_pool_word pools t q). }
  exists pools, fl. split; try apply Hc; try done.
  - by apply heap_inv_write_used.
  - intros va. cbn [with_mem kmem proc_ranged pr_root pr_tr]. change (pr_root c1) with (pr_root c) in Htr. rewrite Htr. apply (pi_tr _ _ _ _ _ _ Hc).
  - intros b Hb. apply Hbs. apply elem_of_cons in Hb as [->|Hb]; [by left|]. apply add_range_elem in Hb as [->|Hb]; [right; by left|right; by right].
  - by apply add_range_NoDup.
Qed.

(** ** A new process: an [mm_struct] with an empty table and no ranges *)
Lemma fresh_proc_live h pools fl mm root : heap_inv h pools fl {[ mm ]} → is_slot pools 0 mm → table_frame root → root < 2 ^ 46 →
  pools !! PHYS_TO_VIRT root = None → ¬ fa_avail (kframes h) root → (∀ i, 0 <= i < 512 → present (ld (kmem h) (entry_addr root i)) = false) →
  ld (kmem h) (mm_pgd mm) = PHYS_TO_VIRT root → ld (kmem h) (mm_allocs_head mm) = NULL → znth 0 (free_heads h) 0 ≠ NULL →
  proc_live (Proc root mm {[ root := (3%nat, 0) ]} (translate (kmem h) root) ∅ [] 1) {[ mm ]} ∅ h.
Proof.
  intros Hinv Hs Hroot Hlt Hpool Hav Hent Hpgd Hhead Hfree. exists pools, fl.
  split; cbn [pr_root pr_mm pr_tables pr_tr pr_user pr_ranges pr_spare]; try done.
  - split; [|split; [apply Hinv|]].
    + split_and!; [apply lookup_singleton_eq|intros t n k [<- [= <- <-]]%lookup_singleton_Some; split; [done|lia]|].
      intros t n k i [<- _]%lookup_singleton_Some Hi Hpr. by rewrite Hent in Hpr.
    + intros f Hf. apply lookup_singleton_None. by intros <-.
  - intros t [x [<- _]%lookup_singleton_Some]. split; [done|]. split; [done|set_solver].
  - intros a [->|[]%elem_of_nil]%elem_of_cons. split; [by apply elem_of_singleton|done].
  - cbn. apply NoDup_singleton.
  - destruct (hi_chain _ _ _ _ Hinv 0 ltac:(lia)) as [Hch _]. destruct (znth [] fl 0); [done|cbn; lia].
Qed.

(** ** The heap at work beside a process

    One call of the allocator by anybody else: it does not release blocks of
    the process. *)
Definition heap_state : Type := kheap * gset Z * gset Z.

Inductive heap_step (c : proc) : heap_state → heap_state → Prop :=
| step_kmalloc h B P size p h' : request_ok c size → kmalloc size h = Ok (p, h') → heap_step c (h, B, P) (h', if p =? NULL then B else {[p]} ∪ B, P)
| step_kzalloc h B P size p h' : request_ok c size → kzalloc size h = Ok (p, h') → heap_step c (h, B, P) (h', if p =? NULL then B else {[p]} ∪ B, P)
| step_kfree h B P p h' : p ∈ B → p ∉ pr_blocks c → heap_kfree p h = Ok h' → heap_step c (h, B, P) (h', B ∖ {[p]}, P)
| step_alloc_page h B P p h' : heap_alloc_page h = Ok (p, h') → heap_step c (h, B, P) (h', B, if p =? NULL then P else {[p]} ∪ P)
| step_free_page h B P p h' : p ∈ P → heap_free_page p h = Ok h' → heap_step c (h, B, P) (h', B, P ∖ {[p]}).

Definition state_live (c : proc) (x : heap_state) : Prop := let '(h, B, P) := x in proc_live c B P h.

Lemma heap_step_live c x y : heap_step c x y → state_live c x → state_live c y.
Proof.
  intros [h B P size p h' Hs E|h B P size p h' Hs E|h B P p h' Hp Hb E|h B P p h' E|h B P p h' Hp E] Hl; cbn [state_live] in *.
  - pose proof (proc_kmalloc c B P h size Hl Hs) as Hx. rewrite E in Hx. cbn in Hx. destruct (Z.eqb_spec p NULL); naive_solver.
  - pose proof (proc_kzalloc c B P h size Hl Hs) as Hx. rewrite E in Hx. cbn in Hx. destruct (Z.eqb_spec p NULL); naive_solver.
  - pose proof (proc_kfree c B P h p Hl Hp Hb) as Hx. by rewrite E in Hx.
  - pose proof (proc_alloc_page c B P h Hl) as Hx. rewrite E in Hx. cbn in Hx. destruct (Z.eqb_spec p NULL); naive_solver.
  - pose proof (proc_free_page c B P h p Hl Hp) as Hx. by rewrite E in Hx.
Qed.

Lemma heap_steps_live c x y : rtc (heap_step c) x y → state_live c x → state_live c y.
Proof. induction 1; [done|]. intros ?. by apply IHrtc, (heap_step_live c x). Qed.


(** The [mm_struct] at the first 32-byte slot, its table at frame 1. *)
Definition demo_mm : Z := 0xffff88800000d020.
Definition demo_proc_heap : kheap :=
  match kmalloc 32 demo_heap with
  | Ok (mm, h) => with_mem (st (st (kmem h) (mm_pgd mm) (PHYS_TO_VIRT 0x1000)) (mm_allocs_head mm) NULL) h
  | _ => demo_heap
  end.

Definition demo_proc : proc := Proc 0x1000 demo_mm {[ 0x1000 := (3%nat, 0) ]} (translate (kmem demo_proc_heap) 0x1000) ∅ [] 1.

Lemma demo_proc_live : proc_live demo_proc {[ demo_mm ]} ∅ demo_proc_heap.
Proof.
  pose proof demo_heap_inv as Hinv0. pose proof (kmalloc_small_spec 0 demo_heap _ _ ∅ Hinv0 ltac:(lia)) as Hk.
  assert (match kmalloc_small 2 0 demo_heap with Ok (p, h) => p =? demo_mm | _ => false end = true) as Hp by (vm_compute; reflexivity).
  assert (match kmalloc_small 2 0 demo_heap with Ok (p, h) => demo_proc_heap = with_mem (st (st (kmem h) (mm_pgd p) (PHYS_TO_VIRT 0x1000)) (mm_allocs_head p) NULL) h | _ => True end) as Hh.
  { unfold demo_proc_heap, kmalloc. cbn [kmalloc_rec]. change (size_to_tier_idx 32) with 0. change (negb (0 =? TOO_BIG_SIZE)) with true. cbv iota.
    by destruct (kmalloc_small 2 0 demo_heap) as [[p h]| | |]. }
  destruct (kmalloc_small 2 0 demo_heap) as [[p h]| | |]; [|discriminate Hp..]. apply Z.eqb_eq in Hp as ->.
  destruct Hk as (pools & fl & Hkeep & [(He & _)|(_ & _ & Hs & Hinv)]); [discriminate He|]. rewrite union_empty_r_L in Hinv.
  assert (heap_inv demo_proc_heap pools fl {[ demo_mm ]}) as Hinv'.
  { rewrite Hh. eapply heap_inv_write; [exact Hinv|by apply elem_of_singleton|exact Hs|]. intros a Ha. change (slot_size 0) with 32 in Ha.
    change (mm_allocs_head demo_mm) with (demo_mm + 16). unfold mm_pgd. by rewrite !ld_st_ne by lia. }
  assert (¬ fa_avail demo_pmm 0x1000) as Hna by (intros (_ & _ & Hf); vm_compute in Hf; discriminate).
  assert (pools !! PHYS_TO_VIRT 0x1000 = None) as Hpool.
  { destruct (pools !! PHYS_TO_VIRT 0x1000) as [t|] eqn:E; [|reflexivity]. exfalso. destruct Hkeep as (_ & _ & _ & _ & Hnew).
    destruct (Hnew _ _ E) as [E0|(f & Hf & Hfa)].
    - by rewrite lookup_empty in E0.
    - destruct (hi_pmm _ _ _ _ Hinv0) as [Hfi Hsm]. destruct (fa_avail_frame _ _ Hfi Hfa). pose proof (Hsm _ Hfa).
      apply PHYS_TO_VIRT_inj in Hf as <-; [by apply Hna|lia..]. }
  apply (fresh_proc_live _ pools fl); [exact Hinv'|exact Hs|split; [reflexivity|lia]|lia|exact Hpool| | | | |].
  - rewrite Hh. cbn. intros Hf. apply Hna. by apply Hkeep.
  - intros i Hi.
    assert (forallb (λ i, negb (present (ld (kmem demo_proc_heap) (entry_addr 0x1000 i)))) (seqZ 0 512) = true) as Hall by (vm_compute; reflexivity).
    rewrite forallb_forall in Hall. apply negb_true_iff, Hall, list_elem_of_In, elem_of_seqZ. lia.
  - vm_compute. reflexivity.
  - vm_compute. reflexivity.
  - vm_compute. discriminate.
Qed.

