(* ===== verification/Elf.v ===== *)
(** * Executables (fs/elf.c)

    [elf_load] opens a file, checks its header, reads the program headers and
    loads every loadable segment into the address space of a task: it backs the
    pages of the segment with fresh frames, reads the file into them through
    the user's virtual addresses, and clears the rest.

    The loader runs on the file system with the kernel's own heap, whose memory
    and frames are those of the page tables.  The bytes of user pages are kept
    apart, by physical address; the kernel reaches them through the page table
    in CR3.  (The boot code does not set CR0.WP, so a supervisor write only
    needs a present page.) *)

From S2P Require Import Prelude Types FrameAlloc EarlyPmm Pmm Paging Vmm Kmalloc Mm HeapApi StateMonad Layout ByteMem Block FsTypes Dcache Ext2File Ext2Dir Ext2Super Vfs ProcMem.

Definition ELF_MAGIC_0 : Z := 0x7F.
Definition ELF_MAGIC_1 : Z := 69.
Definition ELF_MAGIC_2 : Z := 76.
Definition ELF_MAGIC_3 : Z := 70.
Definition ELF_MACHINE_X86_64 : Z := 0x3E.
Definition ELF_TYPE_EXEC : Z := 2.
Definition ELF_CLASS64 : Z := 2.
Definition ELF_DATA2LSB : Z := 1.
Definition ELF_VERSION_CURRENT : Z := 1.
Definition ELF_PHDR_LOAD : Z := 1.
Definition ELF_PHDR_FLAG_EXEC : Z := 0x01.
Definition ELF_PHDR_FLAG_WRITE : Z := 0x02.
Definition ELF_TARGET_MACHINE : Z := ELF_MACHINE_X86_64.
Definition ELF_TARGET_CLASS : Z := ELF_CLASS64.
Definition ELF_TARGET_DATA : Z := ELF_DATA2LSB.

(** The four bytes of [magic] have names of their own here. *)
Definition elf_ident_layout : layout :=
  [("magic0", 1); ("magic1", 1); ("magic2", 1); ("magic3", 1); ("class", 1); ("data", 1); ("version", 1); ("pad", 9)]%string.

Definition elf_header_64_layout : layout :=
  [("ident", size_of elf_ident_layout); ("type", 2); ("machine", 2); ("version", 4); ("entry", 8); ("phoff", 8); ("shoff", 8); ("flags", 4);
   ("ehsize", 2); ("phentsize", 2); ("phnum", 2); ("shentsize", 2); ("shnum", 2); ("shstrndx", 2)]%string.

Definition elf_program_header_64_layout : layout :=
  [("type", 4); ("flags", 4); ("offset", 8); ("vaddr", 8); ("paddr", 8); ("file_size", 8); ("mem_size", 8); ("align", 8)]%string.

Record elf_program_header_64 := Phdr { ph_type : Z; ph_flags : Z; ph_offset : Z; ph_vaddr : Z; ph_paddr : Z; ph_file_size : Z; ph_mem_size : Z; ph_align : Z }.

(** The program header at an offset of a buffer. *)
Definition phdr_at (buf : list Z) (base : Z) : res elf_program_header_64 :=
  let f name := field elf_program_header_64_layout name buf base in
  type ← f "type"%string; flags ← f "flags"%string; offset ← f "offset"%string; vaddr ← f "vaddr"%string; paddr ← f "paddr"%string;
  file_size ← f "file_size"%string; mem_size ← f "mem_size"%string; align ← f "align"%string;
  Ok (Phdr type flags offset vaddr paddr file_size mem_size align).

(** The identification at the start of a header. *)
Definition validate_ident (eh : list Z) : res bool :=
  let f name := field elf_ident_layout name eh 0 in
  m0 ← f "magic0"%string; m1 ← f "magic1"%string; m2 ← f "magic2"%string; m3 ← f "magic3"%string;
  if negb (m0 =? ELF_MAGIC_0) || negb (m1 =? ELF_MAGIC_1) || negb (m2 =? ELF_MAGIC_2) || negb (m3 =? ELF_MAGIC_3) then Ok false else
  class ← f "class"%string;
  if negb (class =? ELF_CLASS64) then Ok false else
  data ← f "data"%string; version ← f "version"%string;
  Ok ((class =? ELF_TARGET_CLASS) && (data =? ELF_TARGET_DATA) && (version =? ELF_VERSION_CURRENT)).

(** File system and kernel memory, the bytes of user pages, and CR3. *)
Record loader (D : Type) := Loader { l_fs : fs kheap D; l_user : gmap Z Z; l_cr3 : Z }.
Arguments Loader {D} _ _ _.
Arguments l_fs {D} _.
Arguments l_user {D} _.
Arguments l_cr3 {D} _.

Section loader.
Context {D : Type} `{!DiskDriver D} (cpu_has_1g_pages : bool) (list_fuel : nat).
Implicit Types s : loader D.

Definition l_heap s : kheap := heap (fblk (l_fs s)).
Definition set_l_fs x s : loader D := Loader x (l_user s) (l_cr3 s).
Definition set_l_user x s : loader D := Loader (l_fs s) x (l_cr3 s).
Definition set_l_heap h s : loader D := set_l_fs (set_fblk (set_heap h (fblk (l_fs s))) (l_fs s)) s.

Definition on_fs {A} (m : M (fs kheap D) A) : M (loader D) A := zoom l_fs set_l_fs m.
Definition on_heap {A} (m : M kheap A) : M (loader D) A := zoom l_heap set_l_heap m.

(** A kernel store of bytes at a virtual address of the current table. *)
Fixpoint put_user (va : Z) (bs : list Z) : M (loader D) () :=
  match bs with
  | [] => mret ()
  | b :: bs' => λ s,
      match translate (kmem (l_heap s)) (l_cr3 s) va with
      | Some (pa, _) => put_user (u64 (va + 1)) bs' (set_l_user (<[pa := b]> (l_user s)) s)
      | None => Fault
      end
  end.

(** [vfs_read] into a buffer at a virtual address. *)
Definition read_user (f va count : Z) : M (loader D) Z :=
  '(r, out) ← on_fs (vfs_read f count);
  put_user va out;;
  mret r.

Definition alloc_range (pgd vaddr size : Z) (prot : pgprot) : M (loader D) Z := on_heap (λ h,
  '(r, s) ← vmm_alloc_range cpu_has_1g_pages pgd vaddr size prot (as_mmu h); Ok (r, with_mmu s h)).

(** The second half of [load_program_header], once the pages are there: the
    file's part, the zeros, and the range of the process. *)
Definition fill_segment (mm f : Z) (phdr : elf_program_header_64) (page_count : Z) : M (loader D) Z :=
  pos ← on_fs (vfs_seek f (s64 (ph_offset phdr)) SEEK_SET);
  if negb (u64 pos =? ph_offset phdr) then mret (- EINVAL) else
  r ← read_user f (ph_vaddr phdr) (ph_file_size phdr);
  if r <? 0 then mret (s32 r) else
  (if ph_file_size phdr <? ph_mem_size phdr then
     put_user (u64 (ph_vaddr phdr + ph_file_size phdr)) (replicate (Z.to_nat (ph_mem_size phdr - ph_file_size phdr)) 0)
   else mret ());;
  on_heap (mm_add_alloc list_fuel mm (PAGE_ALIGN_DOWN (ph_vaddr phdr)) (u64 page_count));;
  mret 0.

(** [mm] is [t->mm]. *)
Definition load_program_header (mm f : Z) (phdr : elf_program_header_64) : M (loader D) Z :=
  if negb (ph_type phdr =? ELF_PHDR_LOAD) then mret 0 else
  let mask := u64 (ph_align phdr - 1) in
  if negb (Z.land (ph_vaddr phdr) mask =? 0) || negb (Z.land (ph_paddr phdr) mask =? 0) then mret 0 else
  let flags := Z.lor PAGE_USER PAGE_RW in
  let flags := if Z.land (ph_flags phdr) ELF_PHDR_FLAG_EXEC =? 0 then Z.lor flags PAGE_NO_EXECUTE else flags in
  let flags := if negb (Z.land (ph_flags phdr) ELF_PHDR_FLAG_WRITE =? 0) then Z.lor flags PAGE_RW else flags in
  let prot := PgProt flags false in
  let mem_size := u64 (ph_mem_size phdr + Z.land (ph_vaddr phdr) (PAGE_SIZE - 1)) in
  pgd ← gets (λ s, ld (kmem (l_heap s)) (mm_pgd mm));
  page_count ← alloc_range pgd (PAGE_ALIGN_DOWN (ph_vaddr phdr)) mem_size prot;
  if page_count <? 0 then mret (s32 page_count) else fill_segment mm f phdr page_count.

(** The loop over the program headers: the first negative result. *)
Fixpoint load_headers (n : nat) (i : Z) (mm f : Z) (phdr_base : list Z) : M (loader D) Z :=
  match n with
  | O => mret 0
  | S n' =>
      phdr ← lift (phdr_at phdr_base (i * size_of elf_program_header_64_layout));
      r ← load_program_header mm f phdr;
      if r <? 0 then mret r else load_headers n' (i + 1) mm f phdr_base
  end.

Definition elf_load (path : list Z) (mm : Z) : M (loader D) Z :=
  f ← on_fs (vfs_open path);
  if IS_ERR f then mret f else
  '(ret, eh) ← on_fs (vfs_read f (size_of elf_header_64_layout));
  if negb (ret =? size_of elf_header_64_layout) then on_fs (vfs_close f);; mret (ERR_PTR (- EINVAL)) else
  ident ← lift (validate_ident eh);
  machine ← lift (field elf_header_64_layout "machine" eh 0);
  type ← lift (field elf_header_64_layout "type" eh 0);
  if negb ident || negb (machine =? ELF_TARGET_MACHINE) || negb (type =? ELF_TYPE_EXEC) then
    on_fs (vfs_close f);; mret (ERR_PTR (- EINVAL))
  else
  phoff ← lift (field elf_header_64_layout "phoff" eh 0);
  res ← on_fs (vfs_seek f (s64 phoff) SEEK_SET);
  if res <? 0 then on_fs (vfs_close f);; mret (ERR_PTR res) else
  phnum ← lift (field elf_header_64_layout "phnum" eh 0);
  let size := size_of elf_program_header_64_layout * phnum in
  phdr_base ← on_heap (h_kmalloc size);
  if phdr_base =? NULL then on_fs (vfs_close f);; mret (ERR_PTR (- ENOMEM)) else
  '(ret, phdrs) ← on_fs (vfs_read f size);
  if negb (u64 ret =? size) then
    on_fs (vfs_close f);;
    on_fs (fkfree phdr_base);;
    mret (ERR_PTR ret)
  else
  res ← load_headers (Z.to_nat phnum) 0 mm f phdrs;
  if res <? 0 then
    on_fs (vfs_close f);;
    on_fs (fkfree phdr_base);;
    mret (ERR_PTR res)
  else
  on_fs (fkfree phdr_base);;
  on_fs (vfs_close f);;
  entry ← lift (field elf_header_64_layout "entry" eh 0);
  mret entry.
End loader.
