(* ===== verification/ElfLoad.v ===== *)
(** * Loading an executable

    The specification of [elf_load] and its proof: after a successful load
    every loadable segment of the file is in memory at its address. *)

From S2P Require Import Prelude Types FrameAlloc EarlyPmm Pmm Paging Vmm Kmalloc Mm HeapApi StateMonad Layout ByteMem Block FsTypes Dcache Ext2File Ext2Dir Ext2Super Vfs ProcMem Elf.

(** ** Operations that may panic *)

Definition steps {S A} (m : M S A) (s : S) (Q : A → S → Prop) (E : string → Prop) : Prop := runs (m s) (λ '(x, s'), Q x s') E.

Section steps.
Context {S : Type}.
Implicit Types s : S.

Lemma steps_holds {A} (m : M S A) s Q E : holds m s Q → steps m s Q E.
Proof. intros Hm. eapply runs_mono; [exact Hm|by intros [x s']|done]. Qed.

Lemma steps_bind {A B} (m : M S A) (f : A → M S B) s R Q E : steps m s R E → (∀ x s', R x s' → steps (f x) s' Q E) → steps (m ≫= f) s Q E.
Proof. intros Hm Hf. unfold steps. rewrite bind_run. eapply runs_bind; [exact Hm|]. by intros [x s'] ?%Hf. Qed.

Lemma steps_mono {A} (m : M S A) s (Q Q' : A → S → Prop) E : steps m s Q E → (∀ x s', Q x s' → Q' x s') → steps m s Q' E.
Proof. intros Hm HQ. eapply runs_mono; [exact Hm| |done]. intros [x s']. apply HQ. Qed.

Lemma steps_ret {A} (x : A) s (Q : A → S → Prop) E : Q x s → steps (mret x) s Q E.
Proof. done. Qed.

(** A bind whose first part always returns. *)
Lemma steps_bind_holds {A B} (m : M S A) (f : A → M S B) s R Q E : holds m s R → (∀ x s', R x s' → steps (f x) s' Q E) → steps (m ≫= f) s Q E.
Proof. intros Hm. apply steps_bind. by apply steps_holds. Qed.

Lemma steps_lift {A B} (m : res A) (f : A → M S B) s x Q E : m = Ok x → steps (f x) s Q E → steps (lift m ≫= f) s Q E.
Proof. by intros ->. Qed.

Lemma steps_gets {A B} (g : S → A) (f : A → M S B) s Q E : steps (f (g s)) s Q E → steps (gets g ≫= f) s Q E.
Proof. done. Qed.
End steps.

(** ** An open file *)

Section files.
Context {D : Type} `{!DiskDriver D}.
Implicit Types s : fs kheap D.

(** The regular file at dentry [d]: its volume, inode and indirect block. *)
Record file_ready s (d : Z) (sb : superblock) (ii : ext2_inode_info) (inode tbl : list Z) : Prop := {
  fr_dentry : ∃ x ino, dentries s !! d = Some x ∧ inodes s !! d_inode x = Some ino ∧ sbs s !! d_sb x = Some sb ∧ S_ISREG (i_mode ino) = true ∧
    i_fops ino = ext2_file_fops ∧ i_size ino = ii_size ii ∧ i_infos s !! i_priv_data ino = Some ii ∧
    (∀ k, k * sb_block_size sb < ii_size ii → tbl_ready s (i_priv_data ino) tbl (sb_block_size sb) k);
  fr_inode : bufs s !! ii_inode ii = Some inode;
  fr_len : 128 <= Z.of_nat (length inode);
  fr_vol : vol_ok s sb;
  fr_size : 0 <= ii_size ii < 2 ^ 41
}.

(** [s] is [s0] with the file at [f] open at [pos]; only the heap and the
    device have moved. *)
Definition opened s0 (f d pos : Z) s : Prop := only_blk (set_ofiles (<[f := File d pos 1 ext2_file_fops]> (ofiles s0)) s0) s.

Lemma only_blk_heap s s' h : only_blk s s' → only_blk s (set_fblk (set_heap h (fblk s')) s').
Proof. intros (E & Hd & Hr). split; [by rewrite E|]. split; [|done]. done. Qed.

Lemma opened_heap s0 f d pos s h : opened s0 f d pos s → opened s0 f d pos (set_fblk (set_heap h (fblk s)) s).
Proof. apply only_blk_heap. Qed.

(** What a lookup in [s] gives. *)
Lemma opened_fields s0 f d pos s : opened s0 f d pos s →
  ofiles s !! f = Some (File d pos 1 ext2_file_fops) ∧ dentries s = dentries s0 ∧ inodes s = inodes s0 ∧ sbs s = sbs s0 ∧ i_infos s = i_infos s0 ∧ bufs s = bufs s0.
Proof. intros (-> & _). cbn. by rewrite lookup_insert_eq. Qed.

Lemma only_blk_tbl_ready s s' p tbl bs k : only_blk s s' → tbl_ready s p tbl bs k → tbl_ready s' p tbl bs k.
Proof. by intros (-> & _). Qed.

(** Moving the position. *)
Lemma opened_pos s0 f d pos s pos' : opened s0 f d pos s → opened s0 f d pos' (set_ofiles (<[f := File d pos' 1 ext2_file_fops]> (ofiles s)) s).
Proof.
  intros (E & Hd & Hr). rewrite E. split; [|by split]. cbn. unfold set_ofiles, set_fblk. cbn. by rewrite insert_insert_eq.
Qed.

Context (s0 : fs kheap D) (d : Z) (sb : superblock) (ii : ext2_inode_info) (inode tbl : list Z) (Hfile : file_ready s0 d sb ii inode tbl).

Definition content (o : Z) : Z := file_byte s0 sb inode tbl o.

Lemma opened_content f pos s : opened s0 f d pos s → ∀ o, file_byte s sb inode tbl o = content o.
Proof. intros Ho o. unfold content, file_byte. by rewrite (file_block_only _ s sb inode tbl _ Ho). Qed.

Lemma vfs_seek_spec f pos s off : opened s0 f d pos s → 0 <= off < 2 ^ 63 →
  holds (vfs_seek f off SEEK_SET) s (λ r s', r = Z.min off (ii_size ii) ∧ opened s0 f d r s' ∧ fblk s' = fblk s).
Proof.
  intros Ho Hoff. destruct (opened_fields _ _ _ _ _ Ho) as (Hf & Ed & Ei & _). destruct Hfile as [(x & ino & Hx & Hino & _ & Hreg & _ & Hsz & _) _ _ _ Hsize].
  unfold vfs_seek, holds. rewrite (at_ptr_step _ _ _ _ _ Hf). cbn [f_dentry]. rewrite (at_ptr_step dentries d x) by by rewrite Ed.
  rewrite (at_ptr_step inodes (d_inode x) ino) by by rewrite Ei. rewrite Hreg. cbn [negb]. rewrite Z.eqb_refl. rewrite (proj2 (Z.ltb_ge off 0)) by lia.
  rewrite Hsz, s64_small by lia. cbn [f_ref_count f_fops].
  assert ((if ii_size ii <? off then ii_size ii else off) = Z.min off (ii_size ii)) as -> by (destruct (Z.ltb_spec (ii_size ii) off); lia).
  rewrite puts_step. cbn. split; [done|]. rewrite u64_small by lia. split; [by apply (opened_pos _ _ _ pos)|done].
Qed.

Lemma vfs_read_spec (I : kheap → Prop) (J : Z → kheap → Prop) f pos s count : buffers (sb_block_size sb) I J →
  opened s0 f d pos s → I (heap (fblk s)) → 0 <= pos <= ii_size ii → 0 <= count < 2 ^ 32 →
  holds (vfs_read f count) s (λ '(r, out) s', I (heap (fblk s')) ∧
    ((- MAX_ERRNO <= r < 0 ∧ opened s0 f d pos s' ∧ ∃ k, 0 <= k <= readable ii count pos ∧ out = content <$> seqZ pos k) ∨
     (r = readable ii count pos ∧ out = content <$> seqZ pos r ∧ opened s0 f d (pos + r) s'))).
Proof.
  intros Hbuf Ho HI Hpos Hc. destruct (opened_fields _ _ _ _ _ Ho) as (Hf & Ed & Ei & Es & Eii & Eb).
  destruct Hfile as [(x & ino & Hx & Hino & Hsb & Hreg & Hfops & Hsz & Hii & Htbl) Hinode Hlen Hvol Hsize].
  unfold vfs_read, holds. rewrite (at_ptr_step _ _ _ _ _ Hf). cbn [f_dentry]. rewrite (at_ptr_step dentries d x) by by rewrite Ed.
  rewrite (at_ptr_step inodes (d_inode x) ino) by by rewrite Ei. rewrite Hreg. cbn [negb f_ref_count]. change (1 =? 0) with false. cbv iota.
  rewrite (proj2 (Z.ltb_ge SSIZE_MAX count)) by (unfold SSIZE_MAX; lia). unfold call_read. cbn [f_fops f_pos].
  pose proof (ext2_read_file_inv s I J f sb (i_priv_data ino) ii inode tbl count pos HI Hbuf) as Hrd.
  eapply holds_bind; [apply Hrd|]; clear Hrd; try done.
  - exists (File d pos 1 ext2_file_fops), x, ino. rewrite Ed, Ei, Es, Eii, Eb. split_and!; done.
  - eapply vol_ok_only; [exact Ho|]. exact Hvol.
  - lia.
  - intros k _ Hk. eapply only_blk_tbl_ready; [exact Ho|]. apply Htbl. unfold readable in Hk. lia.
  - intros [[r out] pos'] s1 (Ho1 & HI1 & Hcase). unfold holds. rewrite puts_step. cbn [f_dentry f_ref_count f_fops]. split; [done|].
    assert (only_blk (set_ofiles (<[f := File d pos 1 ext2_file_fops]> (ofiles s0)) s0) s1) as Ho2 by (by eapply only_blk_trans).
    destruct Hcase as [(Hr & -> & k & Hk & ->)|(-> & -> & ->)].
    + left. split; [done|]. split; [by apply (opened_pos _ _ _ pos)|]. exists k. split; [done|]. apply list_fmap_ext. intros i o _. by eapply opened_content.
    + right. split; [done|]. split; [|by apply (opened_pos _ _ _ pos)]. apply list_fmap_ext. intros i o _. by eapply opened_content.
Qed.
End files.

Section heap.
Context {D : Type} `{!DiskDriver D}.
Implicit Types s : fs kheap D.

Lemma on_blk_heap_holds {A} (m : M kheap A) s (Q : A → kheap → Prop) : returns (m (heap (fblk s))) (λ '(x, h), Q x h) →
  holds (on_blk (zoom heap set_heap m)) s (λ x s', ∃ h, s' = set_fblk (set_heap h (fblk s)) s ∧ Q x h).
Proof.
  intros Hm. unfold holds, on_blk, zoom. destruct (m (heap (fblk s))) as [[x h]| | |]; try done. cbn. by exists h.
Qed.

Lemma fkfree_holds s p Q : returns (heap_kfree p (heap (fblk s))) Q → holds (fkfree p) s (λ _ s', ∃ h, s' = set_fblk (set_heap h (fblk s)) s ∧ Q h).
Proof.
  intros Hm. unfold fkfree, on_blk, zoom, holds, bkfree. apply returns_Ok in Hm as (h & E & HQ). change (h_kfree p (heap (fblk s))) with (heap_kfree p (heap (fblk s))).
  rewrite E. cbn. by exists h.
Qed.

Lemma ffree_page_holds s p Q : returns (heap_free_page p (heap (fblk s))) Q → holds (ffree_page p) s (λ _ s', ∃ h, s' = set_fblk (set_heap h (fblk s)) s ∧ Q h).
Proof.
  intros Hm. unfold ffree_page, on_blk, zoom, holds, bfree_page. apply returns_Ok in Hm as (h & E & HQ).
  change (h_free_page p (heap (fblk s))) with (heap_free_page p (heap (fblk s))). rewrite E. cbn. by exists h.
Qed.

(** Block buffers of the file system leave the process alone. *)
Lemma proc_buffers c (B P : gset Z) bs : bs = 1024 ∨ bs = PAGE_SIZE →
  buffers (D := D) bs (proc_live c B P) (λ p h, p ∉ B ∪ P ∧ if bs =? PAGE_SIZE then proc_live c B ({[p]} ∪ P) h else p ∉ pr_blocks c ∧ proc_live c ({[p]} ∪ B) P h).
Proof.
  intros Hbs. unfold buffers, ext2_alloc_block, ext2_free_block. split.
  - intros s Hl. destruct (Z.eqb_spec bs PAGE_SIZE) as [->|Hne].
    + unfold falloc_page, balloc_page. eapply holds_mono; [apply (on_blk_heap_holds _ s _ (proc_alloc_page c B P _ Hl))|].
      intros p s' (h & -> & Hp). split; [by apply only_blk_heap, only_blk_refl|]. cbn. destruct Hp as [?|(? & ? & ?)]; [by left|by right].
    + unfold fkmalloc, bkmalloc. eapply holds_mono; [apply (on_blk_heap_holds _ s _ (proc_kmalloc c B P _ bs Hl (request_above c bs ltac:(lia))))|].
      intros p s' (h & -> & Hp). split; [by apply only_blk_heap, only_blk_refl|]. cbn. destruct Hp as [?|(? & ? & ?)]; [by left|right].
      split; [done|]. split; [done|]. split; [|done]. intros Hb. destruct Hl as (pools & fl & Hc). destruct (pi_blocks _ _ _ _ _ _ Hc p Hb). set_solver.
  - intros s p [Hp Hl]. destruct (Z.eqb_spec bs PAGE_SIZE) as [->|Hne].
    + eapply holds_mono; [apply ffree_page_holds, (proc_free_page c B ({[p]} ∪ P) _ p Hl); set_solver|].
      intros _ s' (h & -> & Hh). split; [by apply only_blk_heap, only_blk_refl|]. cbn. by replace (({[p]} ∪ P) ∖ {[p]}) with P in Hh by set_solver.
    + destruct Hl as [Hnb Hl]. eapply holds_mono; [apply fkfree_holds, (proc_kfree c ({[p]} ∪ B) P _ p Hl); [set_solver|done]|].
      intros _ s' (h & -> & Hh). split; [by apply only_blk_heap, only_blk_refl|]. cbn. by replace (({[p]} ∪ B) ∖ {[p]}) with B in Hh by set_solver.
Qed.

(** Opening and closing. *)
Lemma vfs_open_spec path s s0 d sb ii inode tbl c (B P : gset Z) : vfs_lookup path s = Ok (d, s0) → IS_ERR d = false → file_ready s0 d sb ii inode tbl →
  proc_live c B P (heap (fblk s0)) → (∀ x, is_Some (ofiles s0 !! x) → x ∈ B) →
  holds (vfs_open path) s (λ f s', (f = ERR_PTR (- ENOMEM) ∧ only_blk s0 s' ∧ proc_live c B P (heap (fblk s'))) ∨
    (IS_ERR f = false ∧ f ≠ NULL ∧ f ∉ B ∪ P ∧ f ∉ pr_blocks c ∧ opened s0 f d 0 s' ∧ proc_live c ({[f]} ∪ B) P (heap (fblk s')))).
Proof.
  intros Hlk He Hfile Hl HB. destruct Hfile as [(x & ino & Hx & Hino & _ & Hreg & Hfops & _) _ _ _ _]. unfold vfs_open, holds.
  rewrite (bind_step _ _ _ _ _ Hlk), He. rewrite (at_ptr_step _ _ _ _ _ Hx), (at_ptr_step _ _ _ _ _ Hino), Hreg. cbn [negb].
  eapply holds_bind.
  { unfold fkzalloc, bkzalloc. apply (on_blk_heap_holds _ s0 _ (proc_kzalloc c B P _ FILE_SIZE Hl (request_above c FILE_SIZE ltac:(unfold FILE_SIZE; lia)))). }
  intros f s1 (h & -> & [(-> & Hl1)|(Hfn & Hf & Hl1)]).
  { left. split; [done|]. split; [by apply only_blk_heap, only_blk_refl|done]. }
  rewrite (proj2 (Z.eqb_neq f NULL)) by done. unfold holds. rewrite puts_step. right.
  assert (kheap_live h ({[f]} ∪ B) P) as Hk by (destruct Hl1 as (pools & fl & Hc); exists pools, fl; split; apply Hc).
  destruct (kheap_live_ptr h ({[f]} ∪ B) P f Hk ltac:(set_solver)) as [_ Herr]. split; [done|]. split; [done|]. split; [done|].
  split; [intros Hb; destruct Hl as (pools & fl & Hc); destruct (pi_blocks _ _ _ _ _ _ Hc f Hb); set_solver|].
  split; [|done]. rewrite Hfops. split; [done|]. by split.
Qed.

Lemma vfs_close_spec s0 f d pos s c (B P : gset Z) : opened s0 f d pos s → f ≠ NULL → f ∉ B → f ∉ pr_blocks c → ofiles s0 !! f = None →
  proc_live c ({[f]} ∪ B) P (heap (fblk s)) → holds (vfs_close f) s (λ _ s', only_blk s0 s' ∧ proc_live c B P (heap (fblk s'))).
Proof.
  intros Ho Hf HfB Hnb Hnone Hl. unfold vfs_close. rewrite (proj2 (Z.eqb_neq f NULL)) by done. destruct (opened_fields _ _ _ _ _ Ho) as (E & _).
  unfold holds. rewrite (at_ptr_step _ _ _ _ _ E). cbn [f_ref_count f_dentry f_pos f_fops]. change (u32 (1 - 1)) with 0. rewrite puts_step. change (0 =? 0) with true. cbv iota.
  rewrite !bind_assoc_run. eapply holds_bind; [apply fkfree_holds, (proc_kfree c ({[f]} ∪ B) P _ f Hl); [set_solver|done]|].
  intros _ s' (h & -> & Hh). unfold holds. rewrite puts_step. split; [|cbn; by replace (({[f]} ∪ B) ∖ {[f]}) with B in Hh by set_solver].
  destruct Ho as (-> & Hd & Hr). split; [|by split]. cbn. unfold set_ofiles, set_fblk. cbn. rewrite !delete_insert_eq, delete_id by done. by destruct s0.
Qed.
End heap.

(** ** Bytes at virtual addresses *)

Lemma ldb_scatter_in addrs data m i a x : NoDup addrs → addrs !! i = Some a → data !! i = Some x → ldb (scatter addrs data m) a = x.
Proof.
  revert addrs data m. induction i as [|i IH]; intros [|a' addrs] [|x' data] m Hnd Ha Hx; try done; apply NoDup_cons in Hnd as [Hni Hnd]; cbn [scatter].
  - injection Ha as ->. injection Hx as ->. rewrite scatter_out by done. by rewrite ldb_insert, Z.eqb_refl.
  - by eapply IH.
Qed.

Section put.
Context {D : Type} `{!DiskDriver D}.
Implicit Types s : loader D.

Lemma put_user_run bs : ∀ va s (pa : Z → Z), 0 <= va → va + Z.of_nat (length bs) < 2 ^ 64 →
  (∀ i, 0 <= i < Z.of_nat (length bs) → ∃ e, translate (kmem (l_heap s)) (l_cr3 s) (va + i) = Some (pa i, e)) →
  put_user va bs s = Ok ((), set_l_user (scatter (pa <$> seqZ 0 (Z.of_nat (length bs))) bs (l_user s)) s).
Proof.
  induction bs as [|b bs IH]; intros va s pa Hva Hlen Htr; cbn [put_user length].
  - cbn. by destruct s.
  - cbn [length] in *. destruct (Htr 0 ltac:(lia)) as [e He]. rewrite Z.add_0_r in He. rewrite He, u64_small by lia.
    rewrite (IH (va + 1) _ (λ i, pa (i + 1))); [|lia|lia|].
    + unfold set_l_user. cbn [l_user l_fs l_cr3]. rewrite (seqZ_cons 0 (Z.of_nat (S (length bs)))) by lia. cbn [fmap list_fmap scatter]. do 3 f_equal.
      replace (Z.pred (Z.of_nat (S (length bs)))) with (Z.of_nat (length bs)) by lia. f_equal. apply list_eq. intros i. rewrite !list_lookup_fmap.
      destruct (decide (i < length bs)%nat) as [Hi|Hi].
      * rewrite !lookup_seqZ_lt by lia. cbn [fmap option_fmap option_map]. do 2 f_equal. lia.
      * rewrite !lookup_seqZ_ge by lia. done.
    + intros i Hi. change (l_heap (set_l_user _ s)) with (l_heap s). change (l_cr3 (set_l_user _ s)) with (l_cr3 s).
      destruct (Htr (i + 1) ltac:(lia)) as [e' He']. exists e'. rewrite <- He'. f_equal. lia.
Qed.
End put.

(** ** Segments *)

(** The protection [load_program_header] asks for: every segment is writable. *)
Definition seg_prot (ph : elf_program_header_64) : pgprot :=
  PgProt (if Z.land (ph_flags ph) ELF_PHDR_FLAG_EXEC =? 0 then Z.lor (Z.lor PAGE_USER PAGE_RW) PAGE_NO_EXECUTE else Z.lor PAGE_USER PAGE_RW) false.

(** The pages of a segment. *)
Definition seg_lo (ph : elf_program_header_64) : Z := PAGE_ALIGN_DOWN (ph_vaddr ph).
Definition seg_len (ph : elf_program_header_64) : Z := PAGE_ALIGN_UP (ph_mem_size ph + ph_vaddr ph mod PAGE_SIZE).

Definition loadable (ph : elf_program_header_64) : bool :=
  (ph_type ph =? ELF_PHDR_LOAD) && (Z.land (ph_vaddr ph) (u64 (ph_align ph - 1)) =? 0) && (Z.land (ph_paddr ph) (u64 (ph_align ph - 1)) =? 0).

(** A segment in the lower half, inside the file. *)
Definition seg_ok (size : Z) (ph : elf_program_header_64) : Prop :=
  0 <= ph_vaddr ph ∧ ph_vaddr ph + ph_mem_size ph + PAGE_SIZE <= 2 ^ 47 ∧ 0 <= ph_file_size ph <= ph_mem_size ph ∧ ph_file_size ph < 2 ^ 32 ∧
  0 <= ph_offset ph ∧ ph_offset ph + ph_file_size ph <= size.

(** The segment is in memory: each of its addresses is mapped for the user with
    the segment's protection, in frames of the process, and holds the byte of
    the file, or zero past the file's part. *)
Definition seg_loaded (fb : Z → Z) (c : proc) (user : gmap Z Z) (ph : elf_program_header_64) : Prop :=
  ∀ i, 0 <= i < ph_mem_size ph → ∃ pa, mapped_as (seg_prot ph) pa (pr_tr c (ph_vaddr ph + i)) ∧ pa - pa mod PAGE_SIZE ∈ pr_user c ∧
    ldb user pa = (if i <? ph_file_size ph then fb (ph_offset ph + i) else 0).

Lemma seg_prot_ok ph : prot_ok (seg_prot ph).
Proof. unfold prot_ok, seg_prot. cbn [prot_flags]. destruct (_ =? 0); vm_compute; done. Qed.

(** Physical addresses of a run of frames. *)
Definition frame_pa (fs : list Z) (o : Z) : Z := znth 0 fs (o / PAGE_SIZE) + o mod PAGE_SIZE.

Lemma frame_pa_frame fs o : (∀ f, f ∈ fs → f mod PAGE_SIZE = 0) → 0 <= o < PAGE_SIZE * Z.of_nat (length fs) →
  ∃ f, f ∈ fs ∧ fs !! Z.to_nat (o / PAGE_SIZE) = Some f ∧ frame_pa fs o = f + o mod PAGE_SIZE ∧ frame_pa fs o - frame_pa fs o mod PAGE_SIZE = f.
Proof.
  intros Hal Ho. destruct (lookup_lt_is_Some_2 fs (Z.to_nat (o / PAGE_SIZE))) as [f Hf]; [unfold PAGE_SIZE in *; zlia|]. exists f.
  pose proof (list_elem_of_lookup_2 _ _ _ Hf) as Hin. split; [done|]. split; [done|].
  assert (frame_pa fs o = f + o mod PAGE_SIZE) as E by (unfold frame_pa, znth; by rewrite Hf). split; [done|]. rewrite E.
  specialize (Hal f Hin). unfold PAGE_SIZE in *. zlia.
Qed.

Lemma frame_pa_inj fs o o' : NoDup fs → (∀ f, f ∈ fs → f mod PAGE_SIZE = 0) → 0 <= o < PAGE_SIZE * Z.of_nat (length fs) →
  0 <= o' < PAGE_SIZE * Z.of_nat (length fs) → frame_pa fs o = frame_pa fs o' → o = o'.
Proof.
  intros Hnd Hal Ho Ho' E. destruct (frame_pa_frame fs o Hal Ho) as (f & Hin & Hf & E1 & E2), (frame_pa_frame fs o' Hal Ho') as (f' & Hin' & Hf' & E1' & E2').
  assert (f = f') as -> by congruence. pose proof (NoDup_lookup _ _ _ _ Hnd Hf Hf') as Hd. pose proof (Hal f' Hin'). unfold PAGE_SIZE in *. zlia.
Qed.

Lemma NoDup_frame_pa fs o n : NoDup fs → (∀ f, f ∈ fs → f mod PAGE_SIZE = 0) → 0 <= o → o + n <= PAGE_SIZE * Z.of_nat (length fs) →
  NoDup ((λ i, frame_pa fs (o + i)) <$> seqZ 0 n).
Proof.
  intros Hnd Hal Ho Hn. apply NoDup_fmap_2_strong; [|apply NoDup_seqZ]. intros x y Hx%elem_of_seqZ Hy%elem_of_seqZ E.
  apply frame_pa_inj in E; [lia|done..|lia|lia].
Qed.

(** A store inside the run of frames. *)
Lemma frame_put fs o bs m : NoDup fs → (∀ f, f ∈ fs → f mod PAGE_SIZE = 0) → 0 <= o → o + Z.of_nat (length bs) <= PAGE_SIZE * Z.of_nat (length fs) →
  let m' := scatter ((λ i, frame_pa fs (o + i)) <$> seqZ 0 (Z.of_nat (length bs))) bs m in
  (∀ i, 0 <= i < Z.of_nat (length bs) → ldb m' (frame_pa fs (o + i)) = znth 0 bs i) ∧
  (∀ x, 0 <= x < PAGE_SIZE * Z.of_nat (length fs) → x < o ∨ o + Z.of_nat (length bs) <= x → ldb m' (frame_pa fs x) = ldb m (frame_pa fs x)) ∧
  (∀ pa, pa - pa mod PAGE_SIZE ∉ fs → ldb m' pa = ldb m pa).
Proof.
  intros Hnd Hal Ho Hn m'. split_and!.
  - intros i Hi. destruct (lookup_lt_is_Some_2 bs (Z.to_nat i)) as [x Hx]; [lia|].
    apply (ldb_scatter_in _ _ _ (Z.to_nat i)); [by apply NoDup_frame_pa| |unfold znth; by rewrite Hx].
    rewrite list_lookup_fmap, lookup_seqZ_lt by lia. cbn. do 2 f_equal. lia.
  - intros x Hx Hout. apply scatter_out. intros (i & E & Hi%elem_of_seqZ)%list_elem_of_fmap.
    apply frame_pa_inj in E; [lia|done|done|lia|lia].
  - intros pa Hpa. apply scatter_out. intros (i & -> & Hi%elem_of_seqZ)%list_elem_of_fmap. apply Hpa.
    destruct (frame_pa_frame fs (o + i) Hal ltac:(lia)) as (f & Hin & _ & _ & E). by rewrite E.
Qed.

(** The panics of the mapping code. *)
Definition load_panic (msg : string) : Prop := msg = no_frames_msg ∨ msg = huge_msg ∨ msg = mapped_msg.

(** What loading the segments [l] changes of the process, whatever its result:
    only addresses in the pages of the segments may have got a mapping. *)
Record grown (c c' : proc) (B : gset Z) (l : list elf_program_header_64) : Prop := {
  gr_root : pr_root c' = pr_root c;
  gr_mm : pr_mm c' = pr_mm c;
  gr_user : pr_user c ⊆ pr_user c';
  gr_tr : ∀ va, Forall (λ ph, upto (seg_len ph) (lin va - seg_lo ph) = false) l → pr_tr c' va = pr_tr c va;
  gr_spare : (pr_spare c <= pr_spare c' + length l)%nat;
  gr_ranges : (length (pr_ranges c') <= length (pr_ranges c) + length l)%nat;
  gr_blocks : ∀ x, x ∈ B → x ∉ pr_blocks c → x ∉ pr_blocks c'
}.

Lemma grown_refl c B : grown c c B [].
Proof. split; try done; cbn; lia. Qed.

Lemma grown_trans c c1 c2 (B N : gset Z) l1 l2 : grown c c1 B l1 → grown c1 c2 (N ∪ B) l2 → grown c c2 B (l1 ++ l2).
Proof.
  intros [Hr Hm Hu Ht Hs Hl Hb] [Hr' Hm' Hu' Ht' Hs' Hl' Hb']. split; try congruence; rewrite ?length_app; try lia.
  - by etrans.
  - intros va [H1 H2]%Forall_app. by rewrite Ht', Ht.
  - intros x Hx Hnb. apply Hb'; [set_solver|]. by apply Hb.
Qed.

Section segment.
Context {D : Type} `{!DiskDriver D} (cpu_has_1g_pages : bool) (list_fuel : nat).
Implicit Types s : loader D.

Lemma on_fs_holds {A} (m : M (fs kheap D) A) s Q : holds m (l_fs s) Q → holds (on_fs m) s (λ x s', ∃ t, s' = set_l_fs t s ∧ Q x t).
Proof. intros Hm. unfold on_fs. eapply zoom_holds; [exact Hm|]. intros x t Hx. by exists t. Qed.

Lemma on_heap_returns {A} (m : M kheap A) s Q : returns (m (l_heap s)) (λ '(x, h), Q x h) → holds (on_heap m) s (λ x s', ∃ h, s' = set_l_heap h s ∧ Q x h).
Proof. intros Hm. unfold holds, on_heap, zoom. destruct (m (l_heap s)) as [[x h]| | |]; try done. cbn. by exists h. Qed.

Lemma alloc_range_steps c (B P : gset Z) s vaddr size prot : proc_live c B P (l_heap s) → prot_ok prot → allow_overwrite prot = false → vaddr mod PAGE_SIZE = 0 → 0 <= size →
  lin vaddr + PAGE_ALIGN_UP size <= 2 ^ 48 → size + PAGE_SIZE <= 2 ^ 64 →
  steps (alloc_range cpu_has_1g_pages (PHYS_TO_VIRT (pr_root c)) vaddr size prot) s (λ r s', ∃ u T' fs, s' = set_l_heap (with_mmu u (l_heap s)) s ∧
    backed (pr_root c) vaddr prot fs (as_mmu (l_heap s)) (pr_tables c) u T' ∧ (∀ f, f ∈ fs → 0 <= f < 2 ^ 46 ∧ f mod PAGE_SIZE = 0 ∧ f ∉ pr_user c) ∧
    proc_live (proc_backed c T' (translate (mem u) (pr_root c)) fs) B P (l_heap s') ∧
    ((r = PAGE_ALIGN_UP size / PAGE_SIZE ∧ Z.of_nat (length fs) = r) ∨ (r = - ENOMEM ∧ Z.of_nat (length fs) < PAGE_ALIGN_UP size / PAGE_SIZE))) load_panic.
Proof.
  intros Hc Hp Hno Hv Hs Hlin Hsz. pose proof (proc_alloc_range cpu_has_1g_pages c B P (l_heap s) vaddr size prot Hc Hp Hv Hs Hlin Hsz) as Hr.
  unfold steps, alloc_range, on_heap, zoom. destruct (vmm_alloc_range _ _ _ _ _ _) as [[r u]|msg| |]; try done.
  - cbn. cbn in Hr. destruct Hr as (T' & fs & Hb & Hf & Hl & Hcase). exists u, T', fs. split_and!; done.
  - cbn. cbn in Hr. destruct Hr as [->|[->|[-> _]]]; unfold load_panic; auto.
Qed.

(** Loading keeps the translation outside the pages of the segment. *)
Lemma proc_backed_grown c (B : gset Z) ph fs (h : kheap) u T' : (∀ va, translate (kmem h) (pr_root c) va = pr_tr c va) →
  backed (pr_root c) (seg_lo ph) (seg_prot ph) fs (as_mmu h) (pr_tables c) u T' → PAGE_SIZE * Z.of_nat (length fs) <= seg_len ph → lin (seg_lo ph) = seg_lo ph →
  grown c (proc_backed c T' (translate (mem u) (pr_root c)) fs) B [ph].
Proof.
  intros Htr (_ & _ & _ & _ & Hmap & _) Hlen Hlin. split; try done; cbn [proc_backed pr_tr pr_user pr_spare pr_ranges]; [set_solver| |cbn [length]; lia|cbn [length]; lia].
  intros va [Hva _]%Forall_cons. specialize (Hmap va). cbv zeta in Hmap. rewrite Hlin in Hmap. apply upto_false in Hva.
  rewrite (proj2 (upto_false _ _)) in Hmap by lia. rewrite Hmap. apply Htr.
Qed.

Context (s0 : fs kheap D) (d : Z) (sb : superblock) (ii : ext2_inode_info) (inode tbl : list Z) (Hfile : file_ready s0 d sb ii inode tbl).
Local Notation fb := (content s0 sb inode tbl).

(** The state between the steps of a load. *)
Record loading (c : proc) (B P : gset Z) (f : Z) s : Prop := {
  ld_proc : proc_live c B P (l_heap s);
  ld_file : ∃ pos, 0 <= pos <= ii_size ii ∧ opened s0 f d pos (l_fs s);
  ld_cr3 : l_cr3 s = pr_root c
}.

Lemma loading_tr c B P f s va : loading c B P f s → translate (kmem (l_heap s)) (l_cr3 s) va = pr_tr c va.
Proof. intros [(pools & fl & Hc) _ Hcr]. rewrite Hcr. apply Hc. Qed.

Lemma loading_user c B P f s U : loading c B P f s → loading c B P f (set_l_user U s).
Proof. by intros [? ? ?]. Qed.

(** A store at the mapped addresses of a segment. *)
Lemma put_user_loading c B P f s (va : Z) bs (pa : Z → Z) : loading c B P f s → 0 <= va → va + Z.of_nat (length bs) < 2 ^ 64 →
  (∀ i, 0 <= i < Z.of_nat (length bs) → ∃ e, pr_tr c (va + i) = Some (pa i, e)) →
  put_user va bs s = Ok ((), set_l_user (scatter (pa <$> seqZ 0 (Z.of_nat (length bs))) bs (l_user s)) s).
Proof. intros Hl Hva Hlen Htr. apply put_user_run; [done..|]. intros i Hi. rewrite (loading_tr _ _ _ _ _ _ Hl). by apply Htr. Qed.

(** Reading the file's part of a segment. *)
Lemma read_user_holds c B P f s pos va count (pa : Z → Z) : loading c B P f s → opened s0 f d pos (l_fs s) → 0 <= pos → pos + count <= ii_size ii → 0 <= count < 2 ^ 32 →
  0 <= va → va + count < 2 ^ 64 → (∀ i, 0 <= i < count → ∃ e, pr_tr c (va + i) = Some (pa i, e)) →
  holds (read_user f va count) s (λ r s', loading c B P f s' ∧ ∃ k, 0 <= k <= count ∧ (- MAX_ERRNO <= r < 0 ∨ (r = count ∧ k = count)) ∧
    l_user s' = scatter (pa <$> seqZ 0 k) (fb <$> seqZ pos k) (l_user s)).
Proof.
  intros Hl Ho Hpos Hend Hc Hva Hvc Htr. pose proof (fr_vol _ _ _ _ _ _ Hfile) as (Hbs & _).
  unfold read_user. eapply holds_bind.
  { apply on_fs_holds, (vfs_read_spec s0 d sb ii inode tbl Hfile _ _ f pos (l_fs s) count (proc_buffers c B P _ Hbs) Ho (ld_proc _ _ _ _ _ Hl)); lia. }
  assert (readable ii count pos = count) as Hrd by (unfold readable; lia). rewrite Hrd.
  intros [r out] s1 (t & -> & HI & Hcase).
  assert (∃ k pos', 0 <= k <= count ∧ (- MAX_ERRNO <= r < 0 ∨ (r = count ∧ k = count)) ∧ out = fb <$> seqZ pos k ∧ 0 <= pos' <= ii_size ii ∧ opened s0 f d pos' t) as (k & pos' & Hk & Hr & -> & Hp' & Ho').
  { destruct Hcase as [(Hr & Ho' & k & Hk & ->)|(-> & -> & Ho')]; [exists k, pos|exists count, (pos + count)]; (split; [lia|]); (split; [lia|]); (split; [done|]); (split; [lia|done]). }
  assert (loading c B P f (set_l_fs t s)) as Hl1 by (split; [exact HI|by exists pos'|apply Hl]).
  assert (Z.of_nat (length (fb <$> seqZ pos k)) = k) as Hlen by (rewrite length_fmap, length_seqZ; lia).
  unfold holds. erewrite bind_step; [|eapply (put_user_loading c B P f _ va _ pa Hl1); [done|lia|]].
  2: { intros i Hi. apply Htr. lia. }
  rewrite Hlen. split; [by apply loading_user|]. exists k. split; [done|]. split; [done|]. done.
Qed.

Lemma s32_errno r : - MAX_ERRNO <= r < 0 → s32 r = r.
Proof. unfold MAX_ERRNO, s32, u32. intros Hr. replace (r mod 2 ^ 32) with (r + 2 ^ 32) by zlia. rewrite (proj2 (Z.ltb_ge _ _)) by lia. lia. Qed.

(** The pages of a segment are there and backed by [fs]. *)
Record seg_pages (c : proc) (fs : list Z) (ph : elf_program_header_64) : Prop := {
  sp_nodup : NoDup fs;
  sp_al : ∀ f, f ∈ fs → f mod PAGE_SIZE = 0;
  sp_len : ph_vaddr ph mod PAGE_SIZE + ph_mem_size ph <= PAGE_SIZE * Z.of_nat (length fs);
  sp_user : ∀ f, f ∈ fs → f ∈ pr_user c;
  sp_map : ∀ i, 0 <= i < ph_mem_size ph → mapped_as (seg_prot ph) (frame_pa fs (ph_vaddr ph mod PAGE_SIZE + i)) (pr_tr c (ph_vaddr ph + i))
}.

Lemma seg_pages_tr c fs ph i : seg_pages c fs ph → 0 <= i < ph_mem_size ph →
  ∃ e, pr_tr c (ph_vaddr ph + i) = Some (frame_pa fs (ph_vaddr ph mod PAGE_SIZE + i), e).
Proof. intros Hs Hi. destruct (sp_map _ _ _ Hs i Hi) as (e & He & _). by exists e. Qed.

(** The memory after both stores. *)
Lemma seg_filled c fs ph m m1 m2 : seg_pages c fs ph → seg_ok (ii_size ii) ph →
  let o := ph_vaddr ph mod PAGE_SIZE in
  m1 = scatter ((λ i, frame_pa fs (o + i)) <$> seqZ 0 (ph_file_size ph)) (fb <$> seqZ (ph_offset ph) (ph_file_size ph)) m →
  m2 = scatter ((λ i, frame_pa fs (o + ph_file_size ph + i)) <$> seqZ 0 (ph_mem_size ph - ph_file_size ph)) (replicate (Z.to_nat (ph_mem_size ph - ph_file_size ph)) 0) m1 →
  seg_loaded fb c m2 ph ∧ ∀ pa, pa - pa mod PAGE_SIZE ∉ fs → ldb m2 pa = ldb m pa.
Proof.
  intros Hs (Hv & _ & Hfm & _ & Hoff & _) o -> ->. destruct Hs as [Hnd Hal Hlen Hu Hmap].
  assert (0 <= o < PAGE_SIZE) as Ho by (apply Z.mod_pos_bound; unfold PAGE_SIZE; lia). fold o in Hlen, Hmap.
  set (bs := fb <$> seqZ (ph_offset ph) (ph_file_size ph)). set (zs := replicate _ 0).
  assert (Z.of_nat (length bs) = ph_file_size ph) as Lb by (unfold bs; rewrite length_fmap, length_seqZ; lia).
  assert (Z.of_nat (length zs) = ph_mem_size ph - ph_file_size ph) as Lz by (unfold zs; rewrite length_replicate; lia).
  destruct (frame_put fs o bs m Hnd Hal ltac:(lia) ltac:(lia)) as (Hin1 & Hx1 & Hout1). rewrite Lb in *.
  set (m1 := scatter _ bs m) in *. destruct (frame_put fs (o + ph_file_size ph) zs m1 Hnd Hal ltac:(lia) ltac:(lia)) as (Hin2 & Hx2 & Hout2). rewrite Lz in *.
  set (m2 := scatter _ zs m1) in *. split; [|intros pa Hpa; by rewrite Hout2, Hout1].
  intros i Hi. exists (frame_pa fs (o + i)). split; [by apply Hmap|].
  destruct (frame_pa_frame fs (o + i) Hal ltac:(lia)) as (f & Hf & _ & _ & E). split; [rewrite E; by apply Hu|].
  destruct (Z.ltb_spec i (ph_file_size ph)).
  - rewrite Hx2, Hin1 by lia. unfold bs, znth. rewrite list_lookup_fmap, lookup_seqZ_lt by lia. cbn. f_equal. lia.
  - specialize (Hin2 (i - ph_file_size ph) ltac:(lia)). replace (o + ph_file_size ph + (i - ph_file_size ph)) with (o + i) in Hin2 by lia. rewrite Hin2.
    unfold zs, znth. by rewrite lookup_replicate_2 by lia.
Qed.

Lemma seg_loaded_tr c c' m ph : pr_tr c' = pr_tr c → pr_user c' = pr_user c → seg_loaded fb c m ph → seg_loaded fb c' m ph.
Proof. unfold seg_loaded. by intros -> ->. Qed.

Lemma fill_segment_holds c (B P : gset Z) f s fs ph n : loading c B P f s → seg_pages c fs ph → seg_ok (ii_size ii) ph → (0 < pr_spare c)%nat → (length (pr_ranges c) < list_fuel)%nat →
  holds (fill_segment list_fuel (pr_mm c) f ph n) s (λ r s', ∃ c' N, loading c' (N ∪ B) P f s' ∧ N ## B ∪ P ∧
    (c' = c ∨ ∃ a, a ∉ B ∧ c' = proc_ranged c a (seg_lo ph)) ∧ (∀ pa, pa - pa mod PAGE_SIZE ∉ fs → ldb (l_user s') pa = ldb (l_user s) pa) ∧
    (- MAX_ERRNO <= r < 0 ∨ (r = 0 ∧ seg_loaded fb c' (l_user s') ph))).
Proof.
  intros Hl Hs Hok Hsp Hrg. pose proof Hok as (Hv & Hvm & Hfm & Hf32 & Hoff & Hend). destruct (ld_file _ _ _ _ _ Hl) as (pos & Hpos & Ho).
  pose proof (fr_size _ _ _ _ _ _ Hfile) as Hsz. unfold fill_segment. rewrite s64_small by lia.
  assert (ph_vaddr ph + ph_mem_size ph < 2 ^ 47) as Hvm' by (unfold PAGE_SIZE in Hvm; lia).
  eapply holds_bind; [apply on_fs_holds, (vfs_seek_spec s0 d sb ii inode tbl Hfile f pos); [done|lia]|].
  intros r0 s1 (t & -> & -> & Ho1 & Hblk). rewrite Z.min_l, u64_small, Z.eqb_refl by lia. cbn [negb]. rewrite Z.min_l in Ho1 by lia.
  assert (loading c B P f (set_l_fs t s)) as Hl1.
  { split; [unfold l_heap; cbn [set_l_fs l_fs]; rewrite Hblk; apply Hl| |apply Hl]. exists (ph_offset ph). split; [lia|done]. }
  eapply holds_bind; [apply (read_user_holds c B P f _ (ph_offset ph) (ph_vaddr ph) (ph_file_size ph) (λ i, frame_pa fs (ph_vaddr ph mod PAGE_SIZE + i)) Hl1 Ho1); try lia|].
  { intros i Hi. apply seg_pages_tr; [done|lia]. }
  cbn [set_l_fs l_user]. intros r s2 (Hl2 & k & Hk & Hr & Hu2). pose proof (sp_len _ _ _ Hs) as Hlen. destruct Hr as [Hr|[-> ->]].
  { rewrite (proj2 (Z.ltb_lt r 0)) by lia. exists c, ∅. rewrite (left_id_L ∅ (∪) B). split; [done|]. split; [set_solver|]. split; [by left|].
    split; [|left; by rewrite s32_errno]. intros pa Hpa. rewrite Hu2. apply scatter_out. intros (i & -> & Hi%elem_of_seqZ)%list_elem_of_fmap. apply Hpa.
    destruct (frame_pa_frame fs (ph_vaddr ph mod PAGE_SIZE + i) (sp_al _ _ _ Hs)) as (g & Hg & _ & _ & E); [|by rewrite E].
    pose proof (Z.mod_pos_bound (ph_vaddr ph) PAGE_SIZE ltac:(unfold PAGE_SIZE; lia)). lia. }
  rewrite (proj2 (Z.ltb_ge (ph_file_size ph) 0)) by lia. set (zs := replicate (Z.to_nat (ph_mem_size ph - ph_file_size ph)) 0).
  assert (Z.of_nat (length zs) = ph_mem_size ph - ph_file_size ph) as Lz by (unfold zs; rewrite length_replicate; lia).
  set (m2 := scatter ((λ i, frame_pa fs (ph_vaddr ph mod PAGE_SIZE + ph_file_size ph + i)) <$> seqZ 0 (ph_mem_size ph - ph_file_size ph)) zs (l_user s2)).
  assert ((if ph_file_size ph <? ph_mem_size ph then put_user (u64 (ph_vaddr ph + ph_file_size ph)) zs else mret ()) s2 = Ok ((), set_l_user m2 s2)) as Hput.
  { destruct (Z.ltb_spec (ph_file_size ph) (ph_mem_size ph)) as [Hlt|Hge].
    - rewrite u64_small by lia. rewrite (put_user_loading c B P f s2 (ph_vaddr ph + ph_file_size ph) zs (λ i, frame_pa fs (ph_vaddr ph mod PAGE_SIZE + ph_file_size ph + i)) Hl2); [|lia|lia|].
      + by rewrite Lz.
      + intros i Hi. rewrite <- !Z.add_assoc. apply seg_pages_tr; [done|lia].
    - unfold m2, zs. replace (ph_mem_size ph - ph_file_size ph) with 0 by lia. cbn. by destruct s2. }
  unfold holds. rewrite (bind_step _ _ _ _ _ Hput). destruct (seg_filled c fs ph (l_user s) (l_user s2) m2 Hs Hok Hu2 eq_refl) as [Hload Hout].
  eapply holds_bind; [apply on_heap_returns, (proc_add_alloc list_fuel c B P _ _ _ (ld_proc _ _ _ _ _ Hl2) Hsp Hrg)|].
  intros _ s3 (h & -> & _ & a & Ha & Hlive). apply holds_ret. exists (proc_ranged c a (seg_lo ph)), {[a]}. destruct Hl2 as [Hp2 (pos2 & Hpos2 & Ho2) Hcr2].
  split; [split; [exact Hlive|exists pos2; split; [done|by apply opened_heap]|exact Hcr2]|]. split; [set_solver|]. split; [right; exists a; split; [set_solver|done]|].
  split; [exact Hout|]. right. split; [done|]. by eapply seg_loaded_tr.
Qed.

(** The result of loading one segment. *)
Definition seg_result (c : proc) (B P : gset Z) (f : Z) s (ph : elf_program_header_64) (r : Z) s' : Prop :=
  ∃ c' N, loading c' (N ∪ B) P f s' ∧ N ## B ∪ P ∧ grown c c' B [ph] ∧
    (∀ pa, pa - pa mod PAGE_SIZE ∈ pr_user c → ldb (l_user s') pa = ldb (l_user s) pa) ∧
    (- MAX_ERRNO <= r < 0 ∨ (r = 0 ∧ seg_loaded fb c' (l_user s') ph)).

Lemma grown_ranged c c1 (B : gset Z) ph a addr : grown c c1 B [ph] → a ∉ B → pr_spare c1 = pr_spare c → length (pr_ranges c1) = length (pr_ranges c) → grown c (proc_ranged c1 a addr) B [ph].
Proof.
  intros [Hr Hm Hu Ht Hs Hl Hb] Ha Es El. split; try done; cbn [proc_ranged pr_spare pr_ranges].
  - rewrite Es. cbn [length]. lia.
  - pose proof (submseteq_length _ _ (add_range_submseteq (a, addr) (pr_ranges c1))) as Hle. cbn [length] in *. lia.
  - intros x Hx Hxb Hin. unfold pr_blocks in Hin. cbn [proc_ranged pr_mm pr_ranges] in Hin. apply (Hb x Hx Hxb). unfold pr_blocks.
    apply elem_of_cons in Hin as [->|[->|Hin]%add_range_elem]; [by left|done|by right].
Qed.

Lemma seg_flags ph : (let flags := Z.lor PAGE_USER PAGE_RW in
  let flags := if Z.land (ph_flags ph) ELF_PHDR_FLAG_EXEC =? 0 then Z.lor flags PAGE_NO_EXECUTE else flags in
  if negb (Z.land (ph_flags ph) ELF_PHDR_FLAG_WRITE =? 0) then Z.lor flags PAGE_RW else flags) = prot_flags (seg_prot ph).
Proof. unfold seg_prot. cbn [prot_flags]. destruct (Z.land _ ELF_PHDR_FLAG_EXEC =? 0), (Z.land _ ELF_PHDR_FLAG_WRITE =? 0); vm_compute; done. Qed.

(** The geometry of a segment in the lower half. *)
Lemma seg_geometry ph : seg_ok (ii_size ii) ph → u64 (ph_mem_size ph + Z.land (ph_vaddr ph) (PAGE_SIZE - 1)) = ph_mem_size ph + ph_vaddr ph mod PAGE_SIZE ∧
  seg_lo ph = ph_vaddr ph - ph_vaddr ph mod PAGE_SIZE ∧ lin (seg_lo ph) = seg_lo ph ∧ seg_lo ph mod PAGE_SIZE = 0 ∧ 0 <= ph_vaddr ph mod PAGE_SIZE < PAGE_SIZE ∧
  ph_mem_size ph + ph_vaddr ph mod PAGE_SIZE <= seg_len ph ∧ seg_len ph mod PAGE_SIZE = 0 ∧ 0 <= seg_lo ph ∧ seg_lo ph + seg_len ph <= 2 ^ 47 + PAGE_SIZE.
Proof.
  intros (Hv & Hvm & Hfm & _). assert (Z.land (ph_vaddr ph) (PAGE_SIZE - 1) = ph_vaddr ph mod PAGE_SIZE) as ->.
  { change (PAGE_SIZE - 1) with (Z.ones 12). by rewrite Z.land_ones by lia. }
  unfold seg_lo, seg_len. rewrite PAGE_ALIGN_DOWN_spec by (unfold PAGE_SIZE in *; lia).
  destruct (PAGE_ALIGN_UP_bounds (ph_mem_size ph + ph_vaddr ph mod PAGE_SIZE)) as [Hb1 Hb2]; [unfold PAGE_SIZE in *; zlia|unfold PAGE_SIZE in *; zlia|].
  rewrite u64_small by (unfold PAGE_SIZE in *; zlia). unfold lin. unfold PAGE_SIZE in *. split_and!; try done; zlia.
Qed.

Lemma load_program_header_steps c (B P : gset Z) f s ph : loading c B P f s → loadable ph = true → seg_ok (ii_size ii) ph → (0 < pr_spare c)%nat → (length (pr_ranges c) < list_fuel)%nat →
  steps (load_program_header cpu_has_1g_pages list_fuel (pr_mm c) f ph) s (seg_result c B P f s ph) load_panic.
Proof.
  intros Hl Hld Hok Hsp Hrg. unfold loadable in Hld. apply andb_true_iff in Hld as [[Ht Ha1]%andb_true_iff Ha2].
  unfold load_program_header. rewrite Ht. cbn [negb]. rewrite Ha1, Ha2. cbn [negb orb]. cbv iota.
  pose proof (seg_flags ph) as Efl. cbv zeta in Efl. rewrite Efl. change (PgProt (prot_flags (seg_prot ph)) false) with (seg_prot ph). clear Efl.
  destruct (seg_geometry ph Hok) as (-> & Elo & Hlin & Hal & Ho & Hlen & Hlal & Hlo & Hhi). fold (seg_lo ph).
  destruct (ld_proc _ _ _ _ _ Hl) as (pools & fl & Hc). apply steps_gets. rewrite (pi_pgd _ _ _ _ _ _ Hc).
  pose proof Hok as (Hv & Hvm & Hfm & _). unfold seg_len in Hlen, Hlal, Hhi.
  eapply steps_bind; [apply (alloc_range_steps c B P s (seg_lo ph) _ (seg_prot ph) (ld_proc _ _ _ _ _ Hl) (seg_prot_ok ph) eq_refl Hal); unfold PAGE_SIZE in *; lia|].
  intros r s1 (u & T' & fs & -> & Hb & Hfs & Hlive & Hr). set (c1 := proc_backed c T' _ fs) in *.
  assert (PAGE_SIZE * Z.of_nat (length fs) <= seg_len ph) as Hfl.
  { unfold seg_len. destruct Hr as [[-> Hlf]|[_ Hr]]; [rewrite Hlf|]; unfold PAGE_SIZE in *; zlia. }
  assert (grown c c1 B [ph]) as Hg by (eapply proc_backed_grown; [apply Hc|done..]).
  assert (loading c1 B P f (set_l_heap (with_mmu u (l_heap s)) s)) as Hl1.
  { destruct (ld_file _ _ _ _ _ Hl) as (pos & Hpos & Hop). split; [exact Hlive|exists pos; split; [done|by apply opened_heap]|apply Hl]. }
  destruct Hr as [[-> Hlf]|[-> _]].
  2: { rewrite (proj2 (Z.ltb_lt _ 0)) by (unfold ENOMEM; lia). rewrite s32_errno by (unfold ENOMEM, MAX_ERRNO; lia). exists c1, ∅. rewrite (left_id_L ∅ (∪) B).
    split; [done|]. split; [set_solver|]. split; [done|]. split; [done|]. left. unfold ENOMEM, MAX_ERRNO. lia. }
  rewrite (proj2 (Z.ltb_ge _ 0)) by lia.
  assert (seg_pages c1 fs ph) as Hpg.
  { destruct Hb as (_ & _ & Hnd & _ & Hmap & _). split; [done|intros g Hg'; by apply Hfs|unfold PAGE_SIZE in *; zlia|intros g Hg'; cbn; set_solver|].
    intros i Hi. specialize (Hmap (ph_vaddr ph + i)). cbv zeta in Hmap. rewrite Hlin in Hmap.
    assert (lin (ph_vaddr ph + i) = ph_vaddr ph + i) as El by (unfold lin; apply Z.mod_small; unfold PAGE_SIZE in *; lia). rewrite El in Hmap.
    replace (ph_vaddr ph + i - seg_lo ph) with (ph_vaddr ph mod PAGE_SIZE + i) in Hmap by lia.
    rewrite (proj2 (upto_true _ _)) in Hmap by (unfold PAGE_SIZE in *; zlia). exact Hmap. }
  apply steps_holds. eapply holds_mono; [apply (fill_segment_holds c1 B P f _ fs ph); done|].
  intros r s' (c' & N & Hl' & HN & Hc' & Hout & Hres). exists c', N. split; [done|]. split; [done|].
  assert (∀ pa, pa - pa mod PAGE_SIZE ∈ pr_user c → pa - pa mod PAGE_SIZE ∉ fs) as Hnot by (intros pa Hpa Hin; by destruct (Hfs _ Hin) as (_ & _ & [])).
  split; [|split; [intros pa Hpa; apply Hout; by apply Hnot|done]].
  destruct Hc' as [->|(a & Ha & ->)]; [done|]. by apply grown_ranged.
Qed.

(** *** All segments *)

Definition apart (p q : elf_program_header_64) : Prop := seg_lo p + seg_len p <= seg_lo q ∨ seg_lo q + seg_len q <= seg_lo p.

Fixpoint all_apart (l : list elf_program_header_64) : Prop :=
  match l with [] => True | p :: l' => Forall (apart p) l' ∧ all_apart l' end.

Definition segments (phs : list elf_program_header_64) : list elf_program_header_64 := filter (λ ph, loadable ph = true) phs.

(** A loaded segment stays loaded while segments apart from it are loaded. *)
Lemma seg_loaded_stable c c' (B : gset Z) m m' ph l : seg_ok (ii_size ii) ph → grown c c' B l → Forall (apart ph) l →
  (∀ pa, pa - pa mod PAGE_SIZE ∈ pr_user c → ldb m' pa = ldb m pa) → seg_loaded fb c m ph → seg_loaded fb c' m' ph.
Proof.
  intros Hok Hg Hap Hm Hs i Hi. destruct (Hs i Hi) as (pa & Hmap & Hin & Hld). destruct (seg_geometry ph Hok) as (_ & Elo & _ & _ & Ho & Hlen & _).
  pose proof Hok as (Hv & Hvm & _). exists pa. split; [|split; [by apply (gr_user _ _ _ _ Hg)|by rewrite Hm]].
  rewrite (gr_tr _ _ _ _ Hg); [done|]. eapply Forall_impl; [exact Hap|]. intros q Hq. cbn beta.
  assert (lin (ph_vaddr ph + i) = ph_vaddr ph + i) as -> by (unfold lin; apply Z.mod_small; unfold PAGE_SIZE in *; lia).
  apply upto_false. destruct Hq; lia.
Qed.

Definition load_result (c : proc) (B P : gset Z) (f : Z) s (l : list elf_program_header_64) (r : Z) s' : Prop :=
  ∃ c' N, loading c' (N ∪ B) P f s' ∧ N ## B ∪ P ∧ grown c c' B l ∧
    (∀ pa, pa - pa mod PAGE_SIZE ∈ pr_user c → ldb (l_user s') pa = ldb (l_user s) pa) ∧
    (- MAX_ERRNO <= r < 0 ∨ (r = 0 ∧ Forall (seg_loaded fb c' (l_user s')) l)).

Lemma segments_cons ph phs : segments (ph :: phs) = if loadable ph then ph :: segments phs else segments phs.
Proof. unfold segments. destruct (loadable ph) eqn:E; [by rewrite filter_cons_True|rewrite filter_cons_False; [done|congruence]]. Qed.

(** A header that is not loaded is skipped. *)
Lemma skip_header mm f ph s : loadable ph = false → load_program_header cpu_has_1g_pages list_fuel mm f ph s = Ok (0, s).
Proof.
  unfold loadable, load_program_header. intros E. destruct (ph_type ph =? ELF_PHDR_LOAD); [|done]. cbn [negb andb] in *. cbv zeta.
  destruct (Z.land (ph_vaddr ph) _ =? 0), (Z.land (ph_paddr ph) _ =? 0); cbn in *; done.
Qed.

(** The headers lie one after the other in the buffer. *)
Definition headers_at (buf : list Z) (i : Z) (phs : list elf_program_header_64) : Prop :=
  ∀ j ph, phs !! j = Some ph → phdr_at buf ((i + Z.of_nat j) * size_of elf_program_header_64_layout) = Ok ph.

Lemma headers_at_cons buf i ph phs : headers_at buf i (ph :: phs) → phdr_at buf (i * size_of elf_program_header_64_layout) = Ok ph ∧ headers_at buf (i + 1) phs.
Proof.
  intros Hh. split; [rewrite <- (Z.add_0_r i); by apply (Hh 0%nat)|]. intros j q Hq. replace (i + 1 + Z.of_nat j) with (i + Z.of_nat (S j)) by lia. by apply Hh.
Qed.

Lemma load_headers_steps mm f buf (P : gset Z) phs : ∀ i c (B : gset Z) s, headers_at buf i phs → loading c B P f s → pr_mm c = mm →
  Forall (seg_ok (ii_size ii)) (segments phs) → all_apart (segments phs) → (length (segments phs) <= pr_spare c)%nat →
  (length (pr_ranges c) + length (segments phs) < S list_fuel)%nat →
  steps (load_headers cpu_has_1g_pages list_fuel (length phs) i mm f buf) s (load_result c B P f s (segments phs)) load_panic.
Proof.
  induction phs as [|ph phs IH]; intros i c B s Hh Hl Emm Hok Hap Hsp Hrg; cbn [load_headers length].
  { exists c, ∅. rewrite (left_id_L ∅ (∪) B). split; [done|]. split; [set_solver|]. split; [apply grown_refl|]. split; [done|]. by right. }
  apply headers_at_cons in Hh as [Hph Hh]. apply (steps_lift _ _ _ _ _ _ Hph). rewrite segments_cons in *.
  destruct (loadable ph) eqn:Hld.
  2: { unfold steps. rewrite (bind_step _ _ _ _ _ (skip_header mm f ph s Hld)). change (0 <? 0) with false. cbv iota. by apply IH. }
  apply Forall_cons in Hok as [Hph_ok Hok]. destruct Hap as [Hap1 Hap]. cbn [length] in *.
  eapply steps_bind; [rewrite <- Emm; apply (load_program_header_steps c B P f s ph Hl Hld Hph_ok); lia|].
  intros r s1 (c1 & N1 & Hl1 & HN1 & Hg1 & Hu1 & Hr1). destruct Hr1 as [Hr1|[-> Hs1]].
  { rewrite (proj2 (Z.ltb_lt r 0)) by lia. exists c1, N1. split; [done|]. split; [done|]. split; [|split; [done|by left]].
    destruct Hg1 as [? ? ? Ht Hs Hlr ?]. split; try done; cbn [length] in *; try lia. intros va [Hva _]%Forall_cons. apply Ht. by apply Forall_singleton. }
  change (0 <? 0) with false. cbv iota.
  assert (length (segments phs) <= pr_spare c1)%nat as Hsp1 by (pose proof (gr_spare _ _ _ _ Hg1) as Hx; cbn [length] in Hx; lia).
  assert (length (pr_ranges c1) + length (segments phs) < S list_fuel)%nat as Hrg1 by (pose proof (gr_ranges _ _ _ _ Hg1) as Hx; cbn [length] in Hx; lia).
  eapply steps_mono; [apply (IH (i + 1) c1 (N1 ∪ B)); [done|done|by rewrite (gr_mm _ _ _ _ Hg1)|done|done|done|done]|].
  intros r s2 (c2 & N2 & Hl2 & HN2 & Hg2 & Hu2 & Hr2). exists c2, (N2 ∪ N1). rewrite <- (assoc_L (∪)). split; [done|]. split; [set_solver|].
  split; [by eapply (grown_trans c c1 c2 B N1 [ph])|]. split.
  - intros pa Hpa. rewrite Hu2, Hu1; [done|done|]. by apply (gr_user _ _ _ _ Hg1).
  - destruct Hr2 as [Hr2|[-> Hs2]]; [by left|right]. split; [done|]. apply Forall_cons. split; [|done].
    by eapply (seg_loaded_stable c1 c2 (N1 ∪ B) (l_user s1)).
Qed.

(** *** The whole file *)

Lemma close_then {A} c (B P : gset Z) f pos s (k : M (loader D) A) Q E : opened s0 f d pos (l_fs s) → proc_live c ({[f]} ∪ B) P (l_heap s) →
  f ∉ B → f ≠ NULL → f ∉ pr_blocks c → ofiles s0 !! f = None →
  (∀ t, only_blk s0 t → proc_live c B P (heap (fblk t)) → steps k (set_l_fs t s) Q E) → steps (on_fs (vfs_close f);; k) s Q E.
Proof.
  intros Ho Hl HfB Hf Hnb Hnone Hk. eapply steps_bind_holds; [apply on_fs_holds, (vfs_close_spec s0 f d pos _ c B P Ho Hf HfB Hnb Hnone Hl)|].
  intros _ s' (t & -> & Ht & Hlt). by apply Hk.
Qed.

Lemma free_then {A} c (B P : gset Z) p s (k : M (loader D) A) Q E : proc_live c ({[p]} ∪ B) P (l_heap s) → p ∉ B → p ∉ pr_blocks c →
  (∀ h, proc_live c B P h → steps k (set_l_heap h s) Q E) → steps (on_fs (fkfree p);; k) s Q E.
Proof.
  intros Hl HpB Hnb Hk. eapply steps_bind_holds; [apply on_fs_holds, fkfree_holds, (proc_kfree c ({[p]} ∪ B) P _ p Hl); [set_solver|done]|].
  intros _ s' (t & -> & h & -> & Hh). apply Hk. by replace (({[p]} ∪ B) ∖ {[p]}) with B in Hh by set_solver.
Qed.

(** An executable file: its bytes [fb], its size, the entry point and the
    program headers. *)
Record executable (bytes : Z → Z) (size entry : Z) (phs : list elf_program_header_64) : Prop := {
  ex_ident : validate_ident (bytes <$> seqZ 0 64) = Ok true;
  ex_machine : field elf_header_64_layout "machine" (bytes <$> seqZ 0 64) 0 = Ok ELF_TARGET_MACHINE;
  ex_type : field elf_header_64_layout "type" (bytes <$> seqZ 0 64) 0 = Ok ELF_TYPE_EXEC;
  ex_entry : field elf_header_64_layout "entry" (bytes <$> seqZ 0 64) 0 = Ok entry;
  ex_size : 64 <= size;
  ex_phs : ∃ phoff, field elf_header_64_layout "phoff" (bytes <$> seqZ 0 64) 0 = Ok phoff ∧
    field elf_header_64_layout "phnum" (bytes <$> seqZ 0 64) 0 = Ok (Z.of_nat (length phs)) ∧
    0 <= phoff ∧ phoff + 56 * Z.of_nat (length phs) <= size ∧ (1 <= length phs <= 18)%nat ∧
    headers_at (bytes <$> seqZ phoff (56 * Z.of_nat (length phs))) 0 phs;
  ex_segs : Forall (seg_ok size) (segments phs) ∧ all_apart (segments phs)
}.

(** The result of [elf_load]. *)
Definition elf_result (c : proc) (B P : gset Z) s entry phs (r : Z) s' : Prop :=
  ∃ c' N, proc_live c' (N ∪ B) P (l_heap s') ∧ N ## B ∪ P ∧ only_blk s0 (l_fs s') ∧ l_cr3 s' = l_cr3 s ∧ grown c c' B (segments phs) ∧
    (∀ pa, pa - pa mod PAGE_SIZE ∈ pr_user c → ldb (l_user s') pa = ldb (l_user s) pa) ∧
    ((∃ e, - MAX_ERRNO <= e < 0 ∧ r = ERR_PTR e) ∨ (r = entry ∧ Forall (seg_loaded fb c' (l_user s')) (segments phs))).

Lemma elf_error c (B P : gset Z) s entry phs e s' : - MAX_ERRNO <= e < 0 → only_blk s0 (l_fs s') → proc_live c B P (l_heap s') → l_cr3 s' = l_cr3 s → l_user s' = l_user s →
  elf_result c B P s entry phs (ERR_PTR e) s'.
Proof.
  intros He Ho Hl Hcr Hu. exists c, ∅. rewrite (left_id_L ∅ (∪) B). split; [done|]. split; [set_solver|]. split; [done|]. split; [done|].
  split; [split; try done; lia|]. split; [by rewrite Hu|]. left. by exists e.
Qed.

Lemma fresh_pair (p f : Z) (B P : gset Z) : p ∉ {[f]} ∪ B ∪ P → p ≠ f ∧ p ∉ B.
Proof. set_solver. Qed.

Lemma fresh_block (f : Z) (B P : gset Z) : f ∉ B ∪ P → f ∉ B.
Proof. set_solver. Qed.

Lemma union_swap (p f : Z) (B : gset Z) : {[p]} ∪ ({[f]} ∪ B) = {[f]} ∪ ({[p]} ∪ B).
Proof. set_solver. Qed.

(** The last part: the segments, then the buffer and the file are released. *)
Lemma elf_segments_steps c (B P : gset Z) f p s s1 eh buf entry phs : loading c ({[p]} ∪ ({[f]} ∪ B)) P f s1 → l_cr3 s1 = l_cr3 s → l_user s1 = l_user s →
  f ∉ B ∪ P → p ∉ {[f]} ∪ B ∪ P → f ≠ NULL → f ∉ pr_blocks c → p ∉ pr_blocks c → ofiles s0 !! f = None →
  headers_at buf 0 phs → Forall (seg_ok (ii_size ii)) (segments phs) → all_apart (segments phs) → field elf_header_64_layout "entry" eh 0 = Ok entry →
  (length (segments phs) <= pr_spare c)%nat → (length (pr_ranges c) + length (segments phs) < S list_fuel)%nat →
  steps (res ← load_headers cpu_has_1g_pages list_fuel (length phs) 0 (pr_mm c) f buf;
    if res <? 0 then on_fs (vfs_close f);; on_fs (fkfree p);; mret (ERR_PTR res) else
    on_fs (fkfree p);; on_fs (vfs_close f);; entry ← lift (field elf_header_64_layout "entry" eh 0); mret entry) s1 (elf_result c B P s entry phs) load_panic.
Proof.
  intros Hld Hcr1 Hus HfB Hp Hfn Hfb Hpb Hnone Hh Hsegs Hap Hen Hsp Hrg. destruct (fresh_pair p f B P Hp) as [Hpf HpB].
  eapply steps_bind; [apply (load_headers_steps (pr_mm c) f _ P phs 0 c _ _ Hh Hld eq_refl Hsegs Hap Hsp Hrg)|].
  intros r s6 (c' & N & Hl6 & HN & Hg & Hu & Hres). destruct (ld_file _ _ _ _ _ Hl6) as (pos & _ & Ho6). pose proof (ld_proc _ _ _ _ _ Hl6) as Hlive.
  assert (f ∉ pr_blocks c' ∧ p ∉ pr_blocks c') as [Hfb' Hpb'] by (split; apply (gr_blocks _ _ _ _ Hg); [set_solver|done|set_solver|done]).
  assert (l_cr3 s6 = l_cr3 s) as Hcr6 by (rewrite (ld_cr3 _ _ _ _ _ Hl6), (gr_root _ _ _ _ Hg), <- Hcr1; symmetry; apply Hld).
  assert (grown c c' B (segments phs)) as Hg' by (destruct Hg; split; try done; intros x Hx; apply gr_blocks0; set_solver).
  assert (N ## B ∪ P) as HN' by set_solver.
  rewrite Hus in Hu. destruct Hres as [Hr|[-> Hloaded]].
  - rewrite (proj2 (Z.ltb_lt r 0)) by lia. assert (N ∪ ({[p]} ∪ ({[f]} ∪ B)) = {[f]} ∪ ({[p]} ∪ (N ∪ B)) :> gset Z) as E6 by set_solver. rewrite E6 in Hlive.
    eapply close_then; [exact Ho6|exact Hlive|set_solver|done..|]. intros t Ht Hlt.
    eapply free_then; [exact Hlt|set_solver|done|]. intros h' Hh'. apply steps_ret. exists c', N. split; [exact Hh'|]. split; [done|].
    split; [by apply only_blk_heap|]. split; [done|]. split; [done|]. split; [done|]. left. by exists r.
  - change (0 <? 0) with false. cbv iota. assert (N ∪ ({[p]} ∪ ({[f]} ∪ B)) = {[p]} ∪ ({[f]} ∪ (N ∪ B)) :> gset Z) as E6 by set_solver. rewrite E6 in Hlive.
    eapply free_then; [exact Hlive|set_solver|done|]. intros h' Hh'.
    eapply close_then; [exact (opened_heap _ _ _ _ _ h' Ho6)|exact Hh'|set_solver|done..|]. intros t Ht Hlt.
    apply (steps_lift _ _ _ _ _ _ Hen). apply steps_ret. exists c', N. split; [exact Hlt|]. split; [done|]. split; [done|]. split; [done|]. split; [done|]. split; [done|]. by right.
Qed.

Lemma elf_load_steps path c (B P : gset Z) s entry phs : vfs_lookup path (l_fs s) = Ok (d, s0) → IS_ERR d = false → proc_live c B P (heap (fblk s0)) →
  (∀ x, is_Some (ofiles s0 !! x) → x ∈ B) → l_cr3 s = pr_root c → executable fb (ii_size ii) entry phs →
  (length (segments phs) <= pr_spare c)%nat → (length (pr_ranges c) + length (segments phs) < S list_fuel)%nat →
  steps (elf_load cpu_has_1g_pages list_fuel path (pr_mm c)) s (elf_result c B P s entry phs) load_panic.
Proof.
  intros Hlk He Hl HB Hcr [Hid Hma Hty Hen Hsz (phoff & Hoff & Hnum & Hpo & Hpe & Hn & Hh) [Hsegs Hap]] Hsp Hrg. unfold elf_load.
  pose proof (fr_vol _ _ _ _ _ _ Hfile) as (Hbs & _). pose proof (fr_size _ _ _ _ _ _ Hfile) as Hsize.
  eapply steps_bind_holds; [apply on_fs_holds, (vfs_open_spec path _ s0 d sb ii inode tbl c B P Hlk He Hfile Hl HB)|].
  intros f s1 (t1 & -> & [(-> & Ho1 & Hl1)|(Hfe & Hfn & HfB & Hfb & Ho1 & Hl1)]).
  { change (IS_ERR (ERR_PTR (- ENOMEM))) with true. cbv iota. apply steps_ret. by apply elf_error. }
  rewrite Hfe. assert (ofiles s0 !! f = None) as Hnone by (destruct (ofiles s0 !! f) eqn:E; [|done]; destruct HfB; apply elem_of_union_l, HB; by eexists).
  pose proof (fresh_block f B P HfB) as HfB'.
  (* the header *)
  eapply steps_bind_holds.
  { apply on_fs_holds, (vfs_read_spec s0 d sb ii inode tbl Hfile _ _ f 0 t1 (size_of elf_header_64_layout) (proc_buffers c ({[f]} ∪ B) P _ Hbs) Ho1 Hl1); [lia|by vm_compute]. }
  change (size_of elf_header_64_layout) with 64. assert (readable ii 64 0 = 64) as -> by (unfold readable; lia).
  cbn [set_l_fs l_fs]. intros [r eh] s2 (t2 & -> & Hl2 & Hcase). change (set_l_fs t2 (set_l_fs t1 s)) with (set_l_fs t2 s).
  destruct Hcase as [(Hr & Ho2 & _)|(-> & -> & Ho2)].
  { rewrite (proj2 (Z.eqb_neq r 64)) by lia. cbn [negb]. eapply close_then; [exact Ho2|exact Hl2|done..|]. intros t Ht Hlt. apply steps_ret.
    by apply elf_error. }
  rewrite Z.eqb_refl. cbn [negb]. apply (steps_lift _ _ _ _ _ _ Hid), (steps_lift _ _ _ _ _ _ Hma), (steps_lift _ _ _ _ _ _ Hty).
  rewrite !Z.eqb_refl. cbn [negb orb]. apply (steps_lift _ _ _ _ _ _ Hoff). rewrite s64_small by lia.
  (* the program headers *)
  eapply steps_bind_holds; [apply on_fs_holds, (vfs_seek_spec s0 d sb ii inode tbl Hfile f _ t2 phoff Ho2); lia|].
  cbn [set_l_fs l_fs]. intros r s3 (t3 & -> & -> & Ho3 & Eb). change (set_l_fs t3 (set_l_fs t2 s)) with (set_l_fs t3 s).
  rewrite Z.min_l in * by lia. rewrite (proj2 (Z.ltb_ge phoff 0)) by lia. apply (steps_lift _ _ _ _ _ _ Hnum).
  change (size_of elf_program_header_64_layout) with 56. set (n := 56 * Z.of_nat (length phs)) in *.
  assert (proc_live c ({[f]} ∪ B) P (heap (fblk t3))) as Hl3 by (by rewrite Eb).
  eapply steps_bind_holds; [apply on_heap_returns, (proc_kmalloc c ({[f]} ∪ B) P _ n Hl3), request_above; unfold n; lia|].
  intros p s4 (h & -> & [(-> & Hl4)|(Hpn & Hp & Hl4)]).
  { change (NULL =? NULL) with true. cbv iota. eapply close_then; [exact (opened_heap _ _ _ _ _ h Ho3)|exact Hl4|done..|]. intros t Ht Hlt. apply steps_ret.
    by apply elf_error. }
  rewrite (proj2 (Z.eqb_neq p NULL)) by done. set (s4 := set_l_heap h (set_l_fs t3 s)).
  assert (opened s0 f d phoff (l_fs s4)) as Ho4 by exact (opened_heap _ _ _ _ _ h Ho3).
  assert (p ∉ pr_blocks c) as Hpb.
  { destruct Hl as (pools & fl & Hc). intros Hin. by destruct (fresh_pair p f B P Hp) as [_ []]; apply (pi_blocks _ _ _ _ _ _ Hc p Hin). }
  eapply steps_bind_holds.
  { apply on_fs_holds, (vfs_read_spec s0 d sb ii inode tbl Hfile _ _ f phoff (l_fs s4) n (proc_buffers c ({[p]} ∪ ({[f]} ∪ B)) P _ Hbs) Ho4 Hl4); unfold n; lia. }
  assert (readable ii n phoff = n) as -> by (unfold readable; lia).
  intros [r buf] s5 (t5 & -> & Hl5 & Hcase). destruct (fresh_pair p f B P Hp) as [Hpf HpB].
  destruct Hcase as [(Hr & Ho5 & _)|(-> & -> & Ho5)].
  { rewrite (proj2 (Z.eqb_neq (u64 r) n)) by (unfold u64, n, MAX_ERRNO in *; zlia). cbn [negb]. rewrite union_swap in Hl5.
    eapply close_then; [exact Ho5|exact Hl5|by apply not_elem_of_union; split; [apply not_elem_of_singleton|]|done..|]. intros t Ht Hlt.
    eapply free_then; [exact Hlt|done..|]. intros h' Hh'. apply steps_ret. apply elf_error; try done. by apply only_blk_heap. }
  rewrite (u64_small n) by (unfold n in *; lia). rewrite Z.eqb_refl. cbn [negb]. rewrite Nat2Z.id.
  apply elf_segments_steps; try done.
  split; [exact Hl5|exists (phoff + n); split; [unfold n in *; lia|exact Ho5]|exact Hcr].
Qed.
End segment.


(** *** A small executable on a small volume *)

Definition demo_elf : list Z :=
  [0x7F; 69; 76; 70; 2; 1; 1] ++ replicate 9 0 ++ le_enc 2 2 ++ le_enc 2 0x3E ++ le_enc 4 1 ++ le_enc 8 0x400010 ++ le_enc 8 64 ++ le_enc 8 0 ++
  le_enc 4 0 ++ le_enc 2 64 ++ le_enc 2 56 ++ le_enc 2 1 ++ le_enc 6 0 ++
  le_enc 4 1 ++ le_enc 4 5 ++ le_enc 8 120 ++ le_enc 8 0x400000 ++ le_enc 8 0x400000 ++ le_enc 8 80 ++ le_enc 8 100 ++ le_enc 8 0x1000 ++
  seqZ 1 80 ++ replicate 312 0.

Definition demo_phdr : elf_program_header_64 := Phdr 1 5 120 0x400000 0x400000 80 100 0x1000.

Definition demo_elf_ii : ext2_inode_info := Ext2InodeInfo 0x500 200 0x200 0.
Definition demo_elf_fs : fs kheap (gmap Z (list Z)) :=
  Fs (Blk demo_proc_heap {[ 10 := demo_elf ]} {[ 0x100 := BlockDev [115; 100; 97] 512 4096 0 READ_DRIVER ]} ∅ [0x100])
    {[ 0x200 := demo_sb ]} ∅
    {[ 0x300 := Inode 12 200 S_IFREG 0x200 ext2_file_iops ext2_file_fops 0x400; 0x310 := Inode 2 1024 S_IFDIR 0x200 ext2_dir_iops ext2_dir_fops 0x410 ]}
    {[ 0x400 := demo_elf_ii ]}
    {[ 0x600 := Dentry 0 (Qstr [47] 1 (vfs_hash_name [47])) 0x310 0 0x610 0 0x200; 0x610 := Dentry 0x700 demo_name 0x300 0x600 0 0 0x200 ]}
    ∅ {[ 0x500 := demo_inode ]} 0x600.

Definition demo_loader : loader (gmap Z (list Z)) := Loader demo_elf_fs ∅ 0x1000.

Definition byte_at (s : loader (gmap Z (list Z))) (va : Z) : option Z :=
  match translate (kmem (l_heap s)) (l_cr3 s) va with Some (pa, _) => Some (ldb (l_user s) pa) | None => None end.

Example elf_load_demo :
  match elf_load false 2 [47; 97; 98] demo_mm demo_loader with
  | Ok (r, s) => (r, byte_at s 0x400000, byte_at s 0x40004f, byte_at s 0x400050, byte_at s 0x401000, ofiles (l_fs s))
  | _ => (0, None, None, None, None, ∅)
  end = (0x400010, Some 1, Some 80, Some 0, None, ∅).
Proof. vm_compute. reflexivity. Qed.

Lemma demo_elf_ready : file_ready demo_elf_fs 0x610 demo_sb demo_elf_ii demo_inode [].
Proof.
  split.
  - do 2 eexists. split; [reflexivity|]. split; [reflexivity|]. do 5 (split; [reflexivity|]). intros k Hk. left. change (k * 1024 < 200) in Hk. lia.
  - reflexivity.
  - vm_compute. discriminate.
  - split; [by left|]. split; [cbn; lia|]. exists 512. by split.
  - cbn. lia.
Qed.

Lemma demo_executable : executable (content demo_elf_fs demo_sb demo_inode []) 200 0x400010 [demo_phdr].
Proof.
  split; [vm_compute; reflexivity|vm_compute; reflexivity|vm_compute; reflexivity|vm_compute; reflexivity|lia| |].
  - exists 64. split; [vm_compute; reflexivity|]. split; [vm_compute; reflexivity|]. split; [lia|]. split; [cbn; lia|]. split; [cbn; lia|].
    intros [|j] ph Hj; [|destruct j; discriminate Hj]. injection Hj as <-. vm_compute. reflexivity.
  - assert (segments [demo_phdr] = [demo_phdr]) as -> by (vm_compute; reflexivity). split; [|repeat constructor].
    repeat constructor; cbn; unfold PAGE_SIZE; lia.
Qed.

