(* ===== verification/Pic.v ===== *)
(** * Legacy interrupt controllers and timer (arch/x86_64/apic/pic.c)

    The functions write to I/O ports, and [pit_sleep] polls one: the state is
    what was written and the values the timer will return.  The pair of 8259
    controllers behind the ports is modelled as a state machine, so that the
    theorems say what the sequences of writes achieve. *)

From S2P Require Import Prelude Types.

Definition PIC1_COMMAND : Z := 0x20.
Definition PIC1_DATA : Z := 0x21.
Definition PIC2_COMMAND : Z := 0xA0.
Definition PIC2_DATA : Z := 0xA1.
Definition PIC_EOI : Z := 0x20.
Definition ICW1_INIT : Z := 0x10.
Definition ICW1_ICW4_PRESENT : Z := 0x01.
Definition CASCADE_IRQ : Z := 2.
Definition ICW4_8086 : Z := 0x01.
Definition PIC1_OFFSET : Z := 0x20.
Definition PIC2_OFFSET : Z := PIC1_OFFSET + 8.
Definition PIT_CH0_PORT : Z := 0x40.
Definition PIT_CMD_PORT : Z := 0x43.
Definition UNUSED_PORT : Z := 0x80.

(** What was written, and what the timer's channel 0 will answer. *)
Record io_ports := IoPorts { io_out : list (Z * Z); pit_status : list Z }.

Definition outb (port v : Z) (io : io_ports) : io_ports := IoPorts (io_out io ++ [(port, u8 v)]) (pit_status io).
Definition io_wait (io : io_ports) : io_ports := outb UNUSED_PORT 0 io.

Definition picEIO (irq : Z) (io : io_ports) : io_ports :=
  let io := if 8 <=? irq then outb PIC2_COMMAND PIC_EOI io else io in
  outb PIC1_COMMAND PIC_EOI io.

Definition remap_pic (offset1 offset2 : Z) (io : io_ports) : io_ports :=
  let io := io_wait (outb PIC1_COMMAND (Z.lor ICW1_INIT ICW1_ICW4_PRESENT) io) in
  let io := io_wait (outb PIC2_COMMAND (Z.lor ICW1_INIT ICW1_ICW4_PRESENT) io) in
  let io := io_wait (outb PIC1_DATA offset1 io) in
  let io := outb PIC2_DATA offset2 io in
  let io := io_wait (outb PIC1_DATA (Z.shiftl 1 CASCADE_IRQ) io) in
  let io := io_wait (outb PIC2_DATA CASCADE_IRQ io) in
  let io := io_wait (outb PIC1_DATA ICW4_8086 io) in
  io_wait (outb PIC2_DATA ICW4_8086 io).

Definition disable_pic (io : io_ports) : io_ports := outb PIC2_DATA 0xff (outb PIC1_DATA 0xff io).
Definition enable_pic (io : io_ports) : io_ports := outb PIC2_DATA 0 (outb PIC1_DATA 0 io).

(** The [do] loop: a timer that stops answering leaves it running. *)
Fixpoint pit_poll (sts : list Z) (out : list (Z * Z)) : res io_ports :=
  match sts with
  | [] => OutOfFuel
  | status :: sts' =>
      let out := out ++ [(PIT_CMD_PORT, 0xE2)] in
      if Z.land status 0x80 =? 0 then pit_poll sts' out else Ok (IoPorts out sts')
  end.

Definition pit_sleep (count : Z) (io : io_ports) : res io_ports :=
  let io := outb PIT_CMD_PORT 0x30 io in
  let io := outb PIT_CH0_PORT (u8 count) io in
  let io := outb PIT_CH0_PORT (u8 (Z.shiftr count 8)) io in
  pit_poll (pit_status io) (io_out io).

Definition pit_sleep_10ms (io : io_ports) : res io_ports := pit_sleep 11932 io.

(** ** The 8259

    ICW1 starts the initialisation: the mask is cleared and the next words on
    the data port are the vector offset, the cascade word and, when ICW1 asked
    for it, the mode.  Otherwise a word on the data port is the mask, and an
    end of interrupt clears the highest-priority interrupt in service. *)

Inductive icw_state := ICW_DONE | ICW_2 (icw4 : bool) | ICW_3 (icw4 : bool) | ICW_4.

Record pic8259 := Pic8259 { pic_icw : icw_state; pic_offset : Z; pic_cascade : Z; pic_mode : Z; pic_mask : Z; pic_service : list Z }.

Definition pic_command (v : Z) (p : pic8259) : pic8259 :=
  if Z.testbit v 4 then Pic8259 (ICW_2 (Z.testbit v 0)) (pic_offset p) (pic_cascade p) 0 0 []
  else if v =? PIC_EOI then Pic8259 (pic_icw p) (pic_offset p) (pic_cascade p) (pic_mode p) (pic_mask p) (tail (pic_service p))
  else p.

Definition pic_data (v : Z) (p : pic8259) : pic8259 :=
  match pic_icw p with
  | ICW_DONE => Pic8259 ICW_DONE (pic_offset p) (pic_cascade p) (pic_mode p) v (pic_service p)
  | ICW_2 b => Pic8259 (ICW_3 b) (Z.land v 0xF8) (pic_cascade p) (pic_mode p) (pic_mask p) (pic_service p)
  | ICW_3 b => Pic8259 (if b then ICW_4 else ICW_DONE) (pic_offset p) v (pic_mode p) (pic_mask p) (pic_service p)
  | ICW_4 => Pic8259 ICW_DONE (pic_offset p) (pic_cascade p) v (pic_mask p) (pic_service p)
  end.

(** The pair, on its four ports. *)
Definition pics_step (p : pic8259 * pic8259) (w : Z * Z) : pic8259 * pic8259 :=
  let '(port, v) := w in
  if port =? PIC1_COMMAND then (pic_command v p.1, p.2)
  else if port =? PIC1_DATA then (pic_data v p.1, p.2)
  else if port =? PIC2_COMMAND then (p.1, pic_command v p.2)
  else if port =? PIC2_DATA then (p.1, pic_data v p.2)
  else p.

Definition pics_after (p : pic8259 * pic8259) (l : list (Z * Z)) : pic8259 * pic8259 := foldl pics_step p l.

(** What a function writes. *)
Definition writes (f : io_ports → io_ports) : list (Z * Z) := io_out (f (IoPorts [] [])).

Lemma outb_app port v io : outb port v io = IoPorts (io_out io ++ writes (outb port v)) (pit_status io).
Proof. done. Qed.

(** An interrupt of line [i] of a controller is delivered as a vector unless it is masked. *)
Definition pic_vector (p : pic8259) (i : Z) : option Z := if Z.testbit (pic_mask p) i then None else Some (pic_offset p + i).

Lemma pic_offset_mask o : 0 <= o < 256 → o mod 8 = 0 → Z.land (u8 o) 0xF8 = o.
Proof.
  intros Ho Hm. assert (o = 8 * (o / 8)) as E by zlia. assert (0 <= o / 8 < 32) as Hq by zlia. rewrite E. generalize dependent (o / 8). intros q _ Hq.
  assert (Forall (λ q, Z.land (u8 (8 * q)) 0xF8 = 8 * q) (seqZ 0 32)) as HF by (repeat constructor). rewrite Forall_forall in HF. apply HF, elem_of_seqZ. lia.
Qed.

Lemma remap_pic_spec p o1 o2 : 0 <= o1 < 256 → 0 <= o2 < 256 → o1 mod 8 = 0 → o2 mod 8 = 0 →
  pics_after p (writes (λ io, disable_pic (remap_pic o1 o2 io))) =
    (Pic8259 ICW_DONE o1 4 1 0xff [], Pic8259 ICW_DONE o2 2 1 0xff []) ∧
  (∀ i, 0 <= i < 8 → let q := pics_after p (writes (λ io, disable_pic (remap_pic o1 o2 io))) in pic_vector q.1 i = None ∧ pic_vector q.2 i = None) ∧
  (∀ i, 0 <= i < 8 → let q := pics_after p (writes (λ io, enable_pic (remap_pic o1 o2 io))) in
     pic_vector q.1 i = Some (o1 + i) ∧ pic_vector q.2 i = Some (o2 + i)).
Proof.
  intros H1 H2 M1 M2. destruct p as [p1 p2].
  assert (pics_after (p1, p2) (writes (λ io, disable_pic (remap_pic o1 o2 io))) =
    (Pic8259 ICW_DONE (Z.land (u8 o1) 0xF8) 4 1 0xff [], Pic8259 ICW_DONE (Z.land (u8 o2) 0xF8) 2 1 0xff [])) as Ed by reflexivity.
  assert (pics_after (p1, p2) (writes (λ io, enable_pic (remap_pic o1 o2 io))) =
    (Pic8259 ICW_DONE (Z.land (u8 o1) 0xF8) 4 1 0 [], Pic8259 ICW_DONE (Z.land (u8 o2) 0xF8) 2 1 0 [])) as Ee by reflexivity.
  rewrite Ed, Ee, !pic_offset_mask by done. split; [done|]. split; intros i Hi; cbn [fst snd]; unfold pic_vector; cbn [pic_mask pic_offset].
  - change 0xff with (Z.ones 8). by rewrite Z.ones_spec_low by lia.
  - by rewrite Z.bits_0.
Qed.

(** The legacy controllers.  From any state, even in the middle of an
    initialisation, [remap_pic] leaves both controllers initialised in 8086
    mode with the given offsets and wired as master and slave on line 2; a
    following [disable_pic] masks all sixteen lines, so no legacy interrupt
    reaches a vector, and [enable_pic] instead delivers line [i] as vector
    [offset1 + i] or [offset2 + i - 8]. *)
Theorem remap_pic_correct p o1 o2 : 0 <= o1 < 256 → 0 <= o2 < 256 → o1 mod 8 = 0 → o2 mod 8 = 0 →
  pics_after p (writes (λ io, disable_pic (remap_pic o1 o2 io))) =
    (Pic8259 ICW_DONE o1 4 1 0xff [], Pic8259 ICW_DONE o2 2 1 0xff []) ∧
  (∀ i, 0 <= i < 8 → let q := pics_after p (writes (λ io, disable_pic (remap_pic o1 o2 io))) in pic_vector q.1 i = None ∧ pic_vector q.2 i = None) ∧
  (∀ i, 0 <= i < 8 → let q := pics_after p (writes (λ io, enable_pic (remap_pic o1 o2 io))) in
     pic_vector q.1 i = Some (o1 + i) ∧ pic_vector q.2 i = Some (o2 + i)).
Proof. apply remap_pic_spec. Qed.

Lemma remap_pic_correct_witness :
  pics_after (Pic8259 ICW_4 8 0 0 0 [], Pic8259 (ICW_3 false) 112 0 0 0 []) (writes (λ io, disable_pic (remap_pic PIC1_OFFSET PIC2_OFFSET io))) =
    (Pic8259 ICW_DONE 0x20 4 1 0xff [], Pic8259 ICW_DONE 0x28 2 1 0xff []).
Proof. apply (remap_pic_correct (Pic8259 ICW_4 8 0 0 0 [], Pic8259 (ICW_3 false) 112 0 0 0 []) PIC1_OFFSET PIC2_OFFSET); vm_compute; (done || split; done). Defined.

(** The end of an interrupt reaches the master, and the slave for its lines. *)
Lemma picEIO_spec p irq : pics_after p (writes (picEIO irq)) =
  (pic_command PIC_EOI p.1, if 8 <=? irq then pic_command PIC_EOI p.2 else p.2).
Proof. destruct p. unfold picEIO. by destruct (8 <=? irq). Qed.

(** The sleep ends with the first status whose output bit is set. *)
Lemma pit_poll_spec sts a rest out : Forall (λ x, Z.land x 0x80 = 0) sts → Z.land a 0x80 ≠ 0 →
  pit_poll (sts ++ a :: rest) out = Ok (IoPorts (out ++ replicate (S (length sts)) (PIT_CMD_PORT, 0xE2)) rest).
Proof.
  intros Hs Ha. revert out. induction Hs as [|x sts Hx _ IH]; intros out; cbn [pit_poll app length replicate].
  - by rewrite (proj2 (Z.eqb_neq _ _) Ha).
  - rewrite Hx, Z.eqb_refl, IH. cbn [length replicate]. by rewrite <- app_assoc.
Qed.

Lemma pit_sleep_spec count out sts a rest : 0 <= count < 2 ^ 16 → Forall (λ x, Z.land x 0x80 = 0) sts → Z.land a 0x80 ≠ 0 →
  pit_sleep count (IoPorts out (sts ++ a :: rest)) =
    Ok (IoPorts ((((out ++ [(PIT_CMD_PORT, 0x30)]) ++ [(PIT_CH0_PORT, count mod 256)]) ++ [(PIT_CH0_PORT, count / 256)]) ++ replicate (S (length sts)) (PIT_CMD_PORT, 0xE2)) rest).
Proof.
  intros Hc Hs Ha. unfold pit_sleep. cbn [outb io_out pit_status]. rewrite pit_poll_spec by done. rewrite Z.shiftr_div_pow2 by lia. change (2 ^ 8) with 256.
  unfold u8. change (2 ^ 8) with 256. rewrite !Zmod_mod. by rewrite (Z.mod_small (count / 256)) by zlia.
Qed.
