(* ===== verification/Acpi.v ===== *)
(** * Firmware tables (arch/x86_64/acpi/acpi.c and acpi.h)

    The RSDP is searched in the BIOS area and leads to the RSDT or XSDT, an
    array of physical addresses of further tables.  The firmware's bytes are
    a function [fw] of the physical address; the code reaches them through
    the direct map it extends with [ioremap], so a read is a translation by
    the current page tables, and a read of an unmapped address is a fault. *)

From S2P Require Import Prelude Types FrameAlloc EarlyPmm Pmm Paging Vmm Kmalloc Mm Layout Apic Madt.

Definition RSDP_SIGNATURE : list Z := codes "RSD PTR ".
Definition RSDP_REGION_START : Z := 0xE0000.
Definition RSDP_REGION_END : Z := 0xFFFFF.
Definition RSDP_SIZE : Z := 20.
Definition XSDP_SIZE : Z := RSDP_SIZE + 16.
Definition RSDT_SIGNATURE : list Z := codes "RSDT".
Definition XSDT_SIGNATURE : list Z := codes "XSDT".
Definition MADT_SIGNATURE : list Z := codes "APIC".

Definition rsdp_layout : layout :=
  [("signature", 8); ("checksum", 1); ("OEMID", 6); ("revision", 1); ("rsdt_addr", 4)]%string.
Definition xsdp_layout : layout :=
  rsdp_layout ++ [("length", 4); ("xsdt_addr", 8); ("extended_checksum", 1); ("rsv", 3)]%string.

(** The static variables of [get_rsdp] beside the paging state. *)
Record acpi (F : Type) := Acpi { acpi_mmu : mmu F; rsdp_static : Z; searched : bool }.
Arguments Acpi {F}.
Arguments acpi_mmu {F}.
Arguments rsdp_static {F}.
Arguments searched {F}.

Section acpi.
Context {F} `{FrameAllocator F} (cpu_has_1g_pages : bool) (root : Z) (fw : Z → Z).
Notation acpi := (acpi F).

Definition set_mmu (m : mmu F) (s : acpi) : acpi := Acpi m (rsdp_static s) (searched s).

(** A byte through the page tables. *)
Definition read_byte (s : acpi) (va : Z) : res Z :=
  match translate (mem (acpi_mmu s)) root va with Some (pa, _) => Ok (u8 (fw pa)) | None => Fault end.

Fixpoint read_bytes (n : nat) (s : acpi) (va : Z) : res (list Z) :=
  match n with
  | O => Ok []
  | S n' => b ← read_byte s va; bs ← read_bytes n' s (va + 1); Ok (b :: bs)
  end.

(** A field of a packed struct at [p]. *)
Definition read_field (l : layout) (f : string) (s : acpi) (p : Z) : res Z :=
  bs ← read_bytes (Z.to_nat (field_size f l)) s (p + offset_of f l); Ok (le bs).

(** [memcmp(p, sig, sizeof sig) == 0]: the comparison stops at a difference. *)
Fixpoint sig_matches (sig : list Z) (s : acpi) (p : Z) : res bool :=
  match sig with
  | [] => Ok true
  | c :: sig' => b ← read_byte s p; if negb (b =? c) then Ok false else sig_matches sig' s (p + 1)
  end.

Fixpoint checksum_loop (n : nat) (sum : Z) (s : acpi) (p : Z) : res Z :=
  match n with
  | O => Ok sum
  | S n' => b ← read_byte s p; checksum_loop n' (u8 (sum + b)) s (p + 1)
  end.

Definition verify_checksum (ptr len : Z) (s : acpi) : res bool :=
  sum ← checksum_loop (Z.to_nat len) 0 s ptr; Ok (sum =? 0).

Fixpoint rsdp_loop (fuel : nat) (ptr : Z) (s : acpi) : res (Z * acpi) :=
  match fuel with
  | O => OutOfFuel
  | S fuel' =>
      if negb (ptr <? PHYS_TO_VIRT RSDP_REGION_END) then Ok (NULL, Acpi (acpi_mmu s) NULL true) else
      eq ← sig_matches RSDP_SIGNATURE s ptr;
      if negb eq then rsdp_loop fuel' (ptr + 16) s else
      ok ← verify_checksum ptr RSDP_SIZE s;
      if negb ok then rsdp_loop fuel' (ptr + 16) s else
      let s := Acpi (acpi_mmu s) ptr (searched s) in
      rev ← read_field rsdp_layout "revision" s ptr;
      ok ← (if rev =? 2 then verify_checksum ptr XSDP_SIZE s else Ok true);
      if negb ok then rsdp_loop fuel' (ptr + 16) s else
      Ok (ptr, Acpi (acpi_mmu s) (rsdp_static s) true)
  end.

(** The 8192 paragraphs of the BIOS area and the final test. *)
Definition rsdp_fuel : nat := Z.to_nat 8193.

Definition get_rsdp (s : acpi) : res (Z * acpi) :=
  if searched s then Ok (rsdp_static s, s) else
  '(ptr, m) ← ioremap cpu_has_1g_pages (PHYS_TO_VIRT root) RSDP_REGION_START (RSDP_REGION_END - RSDP_REGION_START) (acpi_mmu s);
  rsdp_loop rsdp_fuel ptr (set_mmu m s).

Definition validate_sdt_header (header : Z) (xsdt : bool) (s : acpi) : res bool :=
  eq ← sig_matches (if xsdt then XSDT_SIGNATURE else RSDT_SIGNATURE) s (header + offset_of "signature" acpi_header_layout);
  if negb eq then Ok false else
  len ← read_field acpi_header_layout "length" s header;
  verify_checksum header len s.

(** The loop over the entries; [es] is [entry_size]. *)
Fixpoint sdt_loop (n : nat) (ptr es : Z) (sig : list Z) (s : acpi) : res (Z * acpi) :=
  match n with
  | O => Ok (NULL, s)
  | S n' =>
      bs ← read_bytes (Z.to_nat es) s ptr;
      let entry_phys_addr := le bs in
      '(entry, m) ← ioremap cpu_has_1g_pages (PHYS_TO_VIRT root) entry_phys_addr (size_of acpi_header_layout) (acpi_mmu s);
      let s := set_mmu m s in
      eq ← sig_matches sig s (entry + offset_of "signature" acpi_header_layout);
      if negb eq then sdt_loop n' (ptr + es) es sig s else
      len ← read_field acpi_header_layout "length" s entry;
      '(_, m) ← ioremap cpu_has_1g_pages (PHYS_TO_VIRT root) entry_phys_addr len (acpi_mmu s);
      let s := set_mmu m s in
      len ← read_field acpi_header_layout "length" s entry;
      ok ← verify_checksum entry len s;
      if ok : bool then Ok (entry, s) else sdt_loop n' (ptr + es) es sig s
  end.

Definition sdt_find (rsdp : Z) (sig : list Z) (s : acpi) : res (Z * acpi) :=
  rev ← read_field rsdp_layout "revision" s rsdp;
  let xsdt := rev =? 2 in
  sdt ← (if xsdt then read_field xsdp_layout "xsdt_addr" s rsdp else read_field rsdp_layout "rsdt_addr" s rsdp);
  '(sdt_header, m) ← ioremap cpu_has_1g_pages (PHYS_TO_VIRT root) sdt (size_of acpi_header_layout) (acpi_mmu s);
  let s := set_mmu m s in
  ok ← validate_sdt_header sdt_header xsdt s;
  if negb ok then Ok (NULL, s) else
  len ← read_field acpi_header_layout "length" s sdt_header;
  '(_, m) ← ioremap cpu_has_1g_pages (PHYS_TO_VIRT root) (VIRT_TO_PHYS sdt_header) len (acpi_mmu s);
  let s := set_mmu m s in
  let entry_size := if xsdt then 8 else 4 in
  len ← read_field acpi_header_layout "length" s sdt_header;
  let n := u32 (u64 (len - size_of acpi_header_layout) / entry_size) in
  sdt_loop (Z.to_nat n) (sdt_header + size_of acpi_header_layout) entry_size sig s.

(** ** What the firmware holds *)

Definition fw_byte (a : Z) : Z := u8 (fw a).
Fixpoint fw_bytes (n : nat) (a : Z) : list Z :=
  match n with O => [] | S n' => fw_byte a :: fw_bytes n' (a + 1) end.
Definition fw_field (l : layout) (f : string) (a : Z) : Z := le (fw_bytes (Z.to_nat (field_size f l)) (a + offset_of f l)).

(** The bytes of a table sum to zero modulo 256. *)
Definition fw_sum (len a : Z) : Z := foldr Z.add 0 (fw_bytes (Z.to_nat len) a).
Definition sums_to_zero (len a : Z) : bool := fw_sum len a mod 256 =? 0.

Definition has_sig (sig : list Z) (a : Z) : bool := bool_decide (fw_bytes (length sig) a = sig).

Definition valid_rsdp (a : Z) : bool :=
  has_sig RSDP_SIGNATURE a && sums_to_zero RSDP_SIZE a && (negb (fw_field rsdp_layout "revision" a =? 2) || sums_to_zero XSDP_SIZE a).

(** The paragraphs from [a] on. *)
Fixpoint slots (n : nat) (a : Z) : list Z :=
  match n with O => [] | S n' => a :: slots n' (a + 16) end.

(** The first RSDP of the BIOS area, if any. *)
Definition first_rsdp : option Z := List.find valid_rsdp (slots (Z.to_nat 8192) RSDP_REGION_START).

(** ** Reads through the direct map *)

(** The physical byte [q] is reachable at its direct-map address. *)
Definition reach (s : acpi) (q : Z) : Prop := ∃ e, translate (mem (acpi_mmu s)) root (PHYS_TO_VIRT q) = Some (q, e).
Definition reaches (s : acpi) (a n : Z) : Prop := 0 <= a ∧ a + n <= 2 ^ 46 ∧ ∀ q, a <= q < a + n → reach s q.

Lemma reaches_sub s a n b k : reaches s a n → a <= b → b + k <= a + n → reaches s b k.
Proof. intros (? & ? & Hr) ??. split_and!; [lia..|]. intros q ?. apply Hr. lia. Qed.

Lemma p2v_add a i : 0 <= a → 0 <= i → a + i < 2 ^ 46 → PHYS_TO_VIRT a + i = PHYS_TO_VIRT (a + i).
Proof. intros. rewrite !PHYS_TO_VIRT_small by lia. lia. Qed.

Lemma read_byte_at s a n : reaches s a n → 0 < n → read_byte s (PHYS_TO_VIRT a) = Ok (fw_byte a).
Proof. intros (_ & _ & Hr) Hn. destruct (Hr a) as [e He]; [lia|]. unfold read_byte. by rewrite He. Qed.

Lemma reaches_next s a n : reaches s a (Z.of_nat (S n)) →
  read_byte s (PHYS_TO_VIRT a) = Ok (fw_byte a) ∧ (n ≠ 0%nat → PHYS_TO_VIRT a + 1 = PHYS_TO_VIRT (a + 1)) ∧ reaches s (a + 1) (Z.of_nat n).
Proof.
  intros Hr. split_and!; [apply (read_byte_at _ _ _ Hr); lia| |].
  - intros Hn. destruct Hr as (? & ? & _). apply p2v_add; lia.
  - eapply reaches_sub; [done|lia..].
Qed.

Lemma read_bytes_spec s n : ∀ a, reaches s a (Z.of_nat n) → read_bytes n s (PHYS_TO_VIRT a) = Ok (fw_bytes n a).
Proof.
  induction n as [|n IH]; intros a Hr; [done|]. cbn [read_bytes fw_bytes]. destruct (reaches_next _ _ _ Hr) as (-> & Ha & Hr'). rewrite bind_Ok.
  destruct n as [|n]; [done|]. rewrite Ha by done. by rewrite IH.
Qed.

Lemma read_field_spec l f s a n : reaches s a n → 0 <= offset_of f l → 0 < field_size f l → offset_of f l + field_size f l <= n →
  read_field l f s (PHYS_TO_VIRT a) = Ok (fw_field l f a).
Proof.
  intros Hr H1 H2 H3. unfold read_field, fw_field. pose proof Hr as (? & ? & _). rewrite p2v_add by lia.
  rewrite read_bytes_spec; [done|]. eapply reaches_sub; [done|lia..].
Qed.

Lemma sig_matches_spec s sig : ∀ a, reaches s a (Z.of_nat (length sig)) → sig_matches sig s (PHYS_TO_VIRT a) = Ok (has_sig sig a).
Proof.
  induction sig as [|c sig IH]; intros a Hr; [done|]. cbn [sig_matches length]. destruct (reaches_next _ _ _ Hr) as (-> & Ha & Hr'). rewrite bind_Ok.
  destruct (Z.eqb_spec (fw_byte a) c) as [Hc|Hne]; cbn [negb].
  - assert (has_sig (c :: sig) a = has_sig sig (a + 1)) as ->.
    { unfold has_sig. apply bool_decide_ext. cbn [length fw_bytes]. rewrite Hc. split; [by intros [= ->]|by intros ->]. }
    destruct sig as [|d sig]; [done|]. rewrite Ha by done. by apply IH.
  - unfold has_sig. rewrite bool_decide_eq_false_2; [done|]. cbn [length fw_bytes]. congruence.
Qed.

Lemma checksum_loop_spec s n : ∀ a sum, reaches s a (Z.of_nat n) → 
  checksum_loop n (u8 sum) s (PHYS_TO_VIRT a) = Ok (u8 (sum + foldr Z.add 0 (fw_bytes n a))).
Proof.
  induction n as [|n IH]; intros a sum Hr; [cbn; by rewrite Z.add_0_r|]. cbn [checksum_loop fw_bytes foldr]. destruct (reaches_next _ _ _ Hr) as (-> & Ha & Hr').
  rewrite bind_Ok. assert (u8 (u8 sum + fw_byte a) = u8 (sum + fw_byte a)) as -> by (unfold u8; apply Zplus_mod_idemp_l).
  destruct n as [|n]; [cbn; by rewrite Z.add_0_r|]. rewrite Ha by done. rewrite IH by done. f_equal. f_equal. lia.
Qed.

Lemma verify_checksum_spec s a len : 0 <= len → reaches s a len → verify_checksum (PHYS_TO_VIRT a) len s = Ok (sums_to_zero len a).
Proof.
  intros Hl Hr. unfold verify_checksum. rewrite (checksum_loop_spec s _ a 0) by by rewrite Z2Nat.id. done.
Qed.

(** Only page tables changed, and the new ones are frames that were free. *)
Definition grown (m : mmu F) (T : gmap Z (nat * Z)) (m' : mmu F) (T' : gmap Z (nat * Z)) : Prop :=
  mmu_wf root m' T' ∧ T ⊆ T' ∧ (∀ f, fa_avail (frames m') f → fa_avail (frames m) f) ∧
  (∀ t, is_Some (T' !! t) → T !! t = None → fa_avail (frames m) t) ∧
  (∀ a, ¬ table_word T' a → ld (mem m') a = ld (mem m) a).

Lemma mmu_grown_refl m T : mmu_wf root m T → grown m T m T.
Proof. intros Hwf. split_and!; try done. intros t [x Hx]. by rewrite Hx. Qed.

Lemma mmu_grown_trans m1 T1 m2 T2 m3 T3 : grown m1 T1 m2 T2 → grown m2 T2 m3 T3 → grown m1 T1 m3 T3.
Proof.
  intros (_ & HT & Hav & Hnew & Hmem) (Hwf & HT' & Hav' & Hnew' & Hmem'). split_and!; [done|by etrans|auto| |].
  - intros t Ht Hno. destruct (T2 !! t) eqn:E; [by apply Hnew|]. apply Hav. by apply Hnew'.
  - intros a Ha. rewrite Hmem', Hmem; [done| |done]. intros (t & i & [x Ht] & Hi). apply Ha. exists t, i. split; [|done]. eexists. by eapply lookup_weaken.
Qed.

(** [ioremap] extends what is reachable by the pages it maps. *)
Lemma ioremap_reach s T paddr size : mmu_wf root (acpi_mmu s) T → 0 <= paddr → 0 <= size → paddr + size <= 2 ^ 45 →
  paddr mod PAGE_SIZE + size <= PAGE_SIZE_2M - PAGE_SIZE →
  runs (ioremap cpu_has_1g_pages (PHYS_TO_VIRT root) paddr size (acpi_mmu s))
    (λ '(ptr, m), ptr = PHYS_TO_VIRT paddr ∧ (∃ T', grown (acpi_mmu s) T m T') ∧
       ∀ q, 0 <= q < 2 ^ 46 → reach s q ∨ upto (PAGE_ALIGN_UP (paddr mod PAGE_SIZE + size)) (q - PAGE_ALIGN_DOWN paddr) = true → reach (set_mmu m s) q)
    (λ msg, msg = no_frames_msg ∨ msg = huge_msg).
Proof.
  intros Hwf Hp Hs Hb Hfit. eapply runs_mono; [by apply (ioremap_spec root cpu_has_1g_pages _ T)| |done].
  intros [ptr m] (-> & T' & Hm & _). split; [done|]. destruct Hm as (Hwf' & HT & Htr & Hav & Hnew & Hmem). split; [by exists T'|]. intros q Hq Hr.
  specialize (Htr (PHYS_TO_VIRT q)). cbv zeta in Htr. pose proof (PAGE_ALIGN_DOWN_bounds paddr ltac:(lia)) as (? & ? & _).
  rewrite !lin_PHYS_TO_VIRT in Htr by (unfold PAGE_SIZE in *; lia). replace (q + _ - _) with (q - PAGE_ALIGN_DOWN paddr) in Htr by lia.
  unfold reach. cbn [set_mmu acpi_mmu]. destruct (upto _ _).
  - destruct Htr as (e & He & _). exists e. by replace (PAGE_ALIGN_DOWN paddr + (q - PAGE_ALIGN_DOWN paddr)) with q in He by lia.
  - rewrite Htr. by destruct Hr.
Qed.

Lemma reaches_same s s' a n : acpi_mmu s' = acpi_mmu s → reaches s a n → reaches s' a n.
Proof. intros E. unfold reaches, reach. by rewrite E. Qed.

(** ** The search for the RSDP *)

Definition rsdp_result (r : option Z) : Z := match r with Some a => PHYS_TO_VIRT a | None => NULL end.

Lemma rsdp_loop_spec m n : ∀ a fuel r b, 0 <= a → a + 16 * Z.of_nat n = RSDP_REGION_END + 1 → (n < fuel)%nat →
  reaches (Acpi m r b) a (RSDP_REGION_END + 0x15 - a) →
  let p := rsdp_result (List.find valid_rsdp (slots n a)) in
  rsdp_loop fuel (PHYS_TO_VIRT a) (Acpi m r b) = Ok (p, Acpi m p true).
Proof.
  induction n as [|n IH]; intros a fuel r b Ha Hend Hf Hr; destruct fuel as [|fuel]; [lia| |lia|]; cbn [rsdp_loop slots List.find]; unfold RSDP_REGION_END in *;
    rewrite !PHYS_TO_VIRT_small by lia; rewrite (Z.add_comm a), (Z.add_comm 0xFFFFF).
  { by rewrite (proj2 (Z.ltb_ge _ _)) by lia. }
  rewrite (proj2 (Z.ltb_lt _ _)) by lia. cbn [negb]. rewrite (Z.add_comm _ a), <- PHYS_TO_VIRT_small by lia.
  assert (∀ r', rsdp_loop fuel (PHYS_TO_VIRT a + 16) (Acpi m r' b) =
    Ok (rsdp_result (List.find valid_rsdp (slots n (a + 16))), Acpi m (rsdp_result (List.find valid_rsdp (slots n (a + 16)))) true)) as Hnext.
  { intros r'. rewrite p2v_add by lia. apply IH; [lia..|]. eapply reaches_same; [|eapply reaches_sub; [exact Hr|lia..]]. done. }
  assert (∀ r', reaches (Acpi m r' b) a 36) as Hr36.
  { intros r'. eapply reaches_same; [|eapply reaches_sub; [exact Hr|lia..]]. done. }
  rewrite sig_matches_spec by (eapply reaches_sub; [apply Hr36|lia|change (Z.of_nat (length RSDP_SIGNATURE)) with 8; lia]). rewrite bind_Ok.
  assert (valid_rsdp a = has_sig RSDP_SIGNATURE a && sums_to_zero RSDP_SIZE a && (negb (fw_field rsdp_layout "revision" a =? 2) || sums_to_zero XSDP_SIZE a)) as -> by done.
  destruct (has_sig RSDP_SIGNATURE a); cbn [negb andb]; [|apply Hnext].
  rewrite (verify_checksum_spec _ a RSDP_SIZE) by (done || (eapply reaches_sub; [apply Hr36|lia|unfold RSDP_SIZE; lia])). rewrite bind_Ok.
  destruct (sums_to_zero RSDP_SIZE a); cbn [negb andb]; [|apply Hnext].
  cbn [acpi_mmu searched rsdp_static].
  rewrite (read_field_spec _ _ _ _ 36) by (done || apply Hr36 || (vm_compute; done)). rewrite bind_Ok.
  destruct (_ =? 2); cbn [negb orb]; [|done].
  rewrite verify_checksum_spec by (done || apply Hr36). rewrite bind_Ok. destruct (sums_to_zero XSDP_SIZE a); cbn [negb]; [done|apply Hnext].
Qed.
End acpi.

(** ** Tables behind the RSDP *)

Section sdt_spec.
Context {F} `{FrameAllocator F} (b : bool) (root : Z) (fw : Z → Z).

Definition table_len (a : Z) : Z := fw_field fw acpi_header_layout "length" a.
(** A table with signature [sig] and a zero checksum. *)
Definition is_table (sig : list Z) (a : Z) : bool := has_sig fw sig a && sums_to_zero fw (table_len a) a.

Definition has_xsdt (rsdp : Z) : bool := fw_field fw rsdp_layout "revision" rsdp =? 2.
Definition sdt_addr (rsdp : Z) : Z :=
  if has_xsdt rsdp then fw_field fw xsdp_layout "xsdt_addr" rsdp else fw_field fw rsdp_layout "rsdt_addr" rsdp.
Definition entry_size (rsdp : Z) : Z := if has_xsdt rsdp then 8 else 4.

(** The first [n] addresses of [es] bytes from [a]. *)
Fixpoint entries (n : nat) (es a : Z) : list Z :=
  match n with O => [] | S n' => le (fw_bytes fw (Z.to_nat es) a) :: entries n' es (a + es) end.

Definition sdt_entries (rsdp : Z) : list Z :=
  let t := sdt_addr rsdp in
  entries (Z.to_nat ((table_len t - 36) / entry_size rsdp)) (entry_size rsdp) (t + 36).

(** The first entry of a valid RSDT or XSDT that leads to a valid table [sig]. *)
Definition first_table (rsdp : Z) (sig : list Z) : option Z :=
  if is_table (if has_xsdt rsdp then XSDT_SIGNATURE else RSDT_SIGNATURE) (sdt_addr rsdp)
  then List.find (is_table sig) (sdt_entries rsdp) else None.

(** A range [ioremap] maps without holes. *)
Definition io_range (a n : Z) : Prop := 0 <= a ∧ 0 <= n ∧ a + n <= 2 ^ 45 ∧ a mod PAGE_SIZE + n <= PAGE_SIZE_2M - PAGE_SIZE.

#[export] Instance io_range_dec a n : Decision (io_range a n).
Proof. unfold io_range. apply _. Defined.

Definition remaps (s : acpi F) (T : gmap Z (nat * Z)) (s' : acpi F) (T' : gmap Z (nat * Z)) : Prop :=
  grown root (acpi_mmu s) T (acpi_mmu s') T' ∧ (∀ q, 0 <= q < 2 ^ 46 → reach root s q → reach root s' q) ∧
  rsdp_static s' = rsdp_static s ∧ searched s' = searched s.

Lemma remaps_refl s T : mmu_wf root (acpi_mmu s) T → remaps s T s T.
Proof. intros. split_and!; try done. by apply mmu_grown_refl. Qed.

Lemma remaps_trans s1 T1 s2 T2 s3 T3 : remaps s1 T1 s2 T2 → remaps s2 T2 s3 T3 → remaps s1 T1 s3 T3.
Proof.
  intros (Hg & Hr & ? & ?) (Hg' & Hr' & ? & ?). split_and!; [by eapply mmu_grown_trans| |congruence..]. intros q ??. apply Hr'; [done|by apply Hr].
Qed.

Lemma remaps_wf s T s' T' : remaps s T s' T' → mmu_wf root (acpi_mmu s') T'.
Proof. intros Hk. apply Hk. Qed.

Lemma remaps_reaches s T s' T' a n : remaps s T s' T' → reaches root s a n → reaches root s' a n.
Proof. intros (_ & Hr & _) (? & ? & Ha). split_and!; [done..|]. intros q ?. apply Hr; [lia|by apply Ha]. Qed.

Definition map_panics (msg : string) : Prop := msg = no_frames_msg ∨ msg = huge_msg.

Lemma ioremap_remaps (s : acpi F) T paddr size : mmu_wf root (acpi_mmu s) T → io_range paddr size →
  runs (ioremap b (PHYS_TO_VIRT root) paddr size (acpi_mmu s))
    (λ '(ptr, m), ptr = PHYS_TO_VIRT paddr ∧ (∃ T', remaps s T (set_mmu m s) T') ∧ reaches root (set_mmu m s) paddr size ∧
       ∀ q, paddr <= q < PAGE_ALIGN_DOWN paddr + PAGE_ALIGN_UP (paddr mod PAGE_SIZE + size) → reach root (set_mmu m s) q) map_panics.
Proof.
  intros Hwf (Hp & Hs & Hb & Hf). eapply runs_mono; [by apply (ioremap_reach b root s T)| |done].
  intros [ptr m] (-> & [T' Hg] & Hr). split; [done|]. split; [exists T'; split_and!; [done| |done..]; intros q ??; apply Hr; [done|by left]|].
  pose proof (PAGE_ALIGN_DOWN_spec paddr ltac:(lia)) as Hd. change PAGE_SIZE_2M with 0x800000 in Hf.
  assert (0 <= paddr mod PAGE_SIZE < PAGE_SIZE) by (unfold PAGE_SIZE; zlia).
  destruct (PAGE_ALIGN_UP_bounds (paddr mod PAGE_SIZE + size)) as [Hu _]; [lia|unfold PAGE_SIZE in *; lia|].
  split; [split_and!; [done|lia|]|]; intros q Hq; (apply Hr; [unfold PAGE_SIZE in *; lia|right; apply upto_true; lia]).
Qed.

(** An entry the loop can follow. *)
Definition entry_ok (sig : list Z) (e : Z) : Prop := io_range e 36 ∧ (has_sig fw sig e = true → io_range e (table_len e)).

Lemma table_len_spec (s : acpi F) a : reaches root s a 36 → read_field root fw acpi_header_layout "length" s (PHYS_TO_VIRT a) = Ok (table_len a).
Proof. intros Hr. eapply read_field_spec; [done|by vm_compute..]. Qed.

Lemma sdt_loop_spec sig es n : length sig = 4%nat → 0 < es → ∀ a (s : acpi F) T, mmu_wf root (acpi_mmu s) T → reaches root s a (es * Z.of_nat n) → a + es * Z.of_nat n < 2 ^ 46 →
  Forall (entry_ok sig) (entries n es a) →
  runs (sdt_loop b root fw n (PHYS_TO_VIRT a) es sig s)
    (λ '(p, s'), p = rsdp_result (List.find (is_table sig) (entries n es a)) ∧ (∃ T', remaps s T s' T') ∧
       ∀ e, List.find (is_table sig) (entries n es a) = Some e → reaches root s' e (table_len e)) map_panics.
Proof.
  intros Hsig Hes. induction n as [|n IH]; intros a s T Hwf Hr Hb Hok; cbn [sdt_loop entries List.find].
  { cbn [runs]. split; [done|]. split; [|done]. exists T. by apply remaps_refl. }
  assert (es * Z.of_nat (S n) = es + es * Z.of_nat n ∧ 0 <= es * Z.of_nat n) as [En ?] by nia. rewrite En in *. clear En.
  rewrite read_bytes_spec, bind_Ok by (eapply reaches_sub; [done|lia..]). cbn [entries] in Hok. apply Forall_cons in Hok as [[Hio Hlen] Hok].
  set (e := le _) in *. clearbody e. change (size_of acpi_header_layout) with 36.
  eapply runs_bind; [by apply (ioremap_remaps s T)|]. intros [ptr m] (-> & [T1 Hk] & Hr36 & _). set (s1 := set_mmu m s) in *. clearbody s1.
  change (offset_of "signature" acpi_header_layout) with 0. rewrite Z.add_0_r.
  rewrite sig_matches_spec, bind_Ok by (eapply reaches_sub; [done|lia..]). cbn [negb].
  assert (∀ s2 T2, remaps s T s2 T2 → runs (sdt_loop b root fw n (PHYS_TO_VIRT a + es) es sig s2)
    (λ '(p, s'), p = rsdp_result (List.find (is_table sig) (entries n es (a + es))) ∧ (∃ T', remaps s T s' T') ∧
       ∀ e, List.find (is_table sig) (entries n es (a + es)) = Some e → reaches root s' e (table_len e)) map_panics) as Hnext.
  { intros s2 T2 Hk2. destruct Hr as (? & ? & Hr). rewrite p2v_add by lia. eapply runs_mono; [apply (IH _ _ T2)| |done].
    - by eapply remaps_wf.
    - eapply remaps_reaches; [done|]. split_and!; [lia..|]. intros q ?. apply Hr. lia.
    - lia.
    - done.
    - intros [p s'] (-> & [T3 ?] & ?). split; [done|]. split; [exists T3; by eapply remaps_trans|done]. }
  unfold is_table at 1 3. destruct (has_sig fw sig e) eqn:Es; cbn [negb andb]; [|by apply (Hnext _ T1)].
  rewrite table_len_spec, bind_Ok by done. specialize (Hlen eq_refl). pose proof (remaps_wf _ _ _ _ Hk) as Hwf1.
  eapply runs_bind; [by apply (ioremap_remaps s1 T1)|]. intros [ptr m2] (_ & [T2 Hk2] & Hrl & _). set (s2 := set_mmu m2 s1) in *. clearbody s2.
  assert (remaps s T s2 T2) as Hk' by by eapply remaps_trans.
  rewrite table_len_spec, bind_Ok by (eapply remaps_reaches; [exact Hk2|exact Hr36]).
  rewrite verify_checksum_spec, bind_Ok by (exact Hrl || apply Hlen). destruct (sums_to_zero _ _ _); [|by apply (Hnext _ T2)].
  split; [done|]. split; [by exists T2|]. by intros ? [= <-].
Qed.

(** What [sdt_find] needs of the firmware: the root table is long enough for
    its header, it and the tables it leads to are in ranges [ioremap] maps,
    and what the header's pages leave of the root table is already mapped,
    because the checksum is computed before the whole table is. *)
Definition sdt_ok (s : acpi F) (rsdp : Z) (sig : list Z) : Prop :=
  let t := sdt_addr rsdp in
  reaches root s rsdp (if has_xsdt rsdp then XSDP_SIZE else RSDP_SIZE) ∧
  io_range t 36 ∧ 36 <= table_len t ∧ io_range t (table_len t) ∧
  (∀ q, PAGE_ALIGN_DOWN t + PAGE_ALIGN_UP (t mod PAGE_SIZE + 36) <= q < t + table_len t → reach root s q) ∧
  Forall (entry_ok sig) (sdt_entries rsdp).

Lemma validate_sdt_header_spec (s : acpi F) a x : 36 <= table_len a → reaches root s a (table_len a) →
  validate_sdt_header root fw (PHYS_TO_VIRT a) x s = Ok (is_table (if x then XSDT_SIGNATURE else RSDT_SIGNATURE) a).
Proof.
  intros Hl Hr. unfold validate_sdt_header, is_table. change (offset_of "signature" acpi_header_layout) with 0. rewrite Z.add_0_r.
  assert (length (if x then XSDT_SIGNATURE else RSDT_SIGNATURE) = 4%nat) as Hs by by destruct x.
  rewrite sig_matches_spec, bind_Ok by (eapply reaches_sub; [exact Hr|lia|rewrite Hs; lia]).
  destruct (has_sig _ _ _); cbn [negb andb]; [|done].
  rewrite table_len_spec, bind_Ok by (eapply reaches_sub; [exact Hr|lia..]). apply verify_checksum_spec; [lia|done].
Qed.

Lemma sdt_addr_spec (s : acpi F) rsdp : reaches root s rsdp (if has_xsdt rsdp then XSDP_SIZE else RSDP_SIZE) →
  (if has_xsdt rsdp then read_field root fw xsdp_layout "xsdt_addr" s (PHYS_TO_VIRT rsdp) else read_field root fw rsdp_layout "rsdt_addr" s (PHYS_TO_VIRT rsdp)) =
  Ok (sdt_addr rsdp).
Proof. unfold sdt_addr. destruct (has_xsdt rsdp); intros Hr; (eapply read_field_spec; [exact Hr|by vm_compute..]). Qed.

Lemma sdt_find_spec (s : acpi F) T rsdp sig : mmu_wf root (acpi_mmu s) T → length sig = 4%nat → sdt_ok s rsdp sig →
  runs (sdt_find b root fw (PHYS_TO_VIRT rsdp) sig s)
    (λ '(p, s'), p = rsdp_result (first_table rsdp sig) ∧ (∃ T', remaps s T s' T') ∧
       ∀ e, first_table rsdp sig = Some e → reaches root s' e (table_len e)) map_panics.
Proof.
  intros Hwf Hsig (Hr & Hio & Hlen & Hiol & Hpre & Hok). unfold sdt_find.
  assert (reaches root s rsdp 20) as Hr20 by (eapply reaches_sub; [exact Hr|destruct (has_xsdt rsdp); unfold XSDP_SIZE, RSDP_SIZE; lia..]).
  rewrite (read_field_spec root fw rsdp_layout "revision" s rsdp 20), bind_Ok by (exact Hr20 || by vm_compute). fold (has_xsdt rsdp). cbv zeta.
  rewrite sdt_addr_spec, bind_Ok by exact Hr. unfold first_table, sdt_entries, entry_size in *. set (t := sdt_addr rsdp) in *. set (x := has_xsdt rsdp) in *. clearbody t x.
  change (size_of acpi_header_layout) with 36. eapply runs_bind; [by apply (ioremap_remaps s T)|]. intros [p m] (-> & [T1 Hk] & Hr36 & Hpg).
  set (s1 := set_mmu m s) in *. clearbody s1.
  assert (reaches root s1 t (table_len t)) as Hrt.
  { destruct Hk as (_ & Hk' & _). destruct Hiol as (? & ? & ? & ?). split_and!; [done|lia|]. intros q Hq.
    destruct (decide (q < PAGE_ALIGN_DOWN t + PAGE_ALIGN_UP (t mod PAGE_SIZE + 36))); [apply Hpg; lia|]. apply Hk'; [lia|]. apply Hpre. lia. }
  rewrite validate_sdt_header_spec, bind_Ok by (exact Hrt || lia).
  destruct (is_table _ t); cbn [negb]; [|split; [done|]; split; [by exists T1|done]].
  rewrite table_len_spec, bind_Ok by exact Hr36. rewrite VIRT_TO_PHYS_TO_VIRT by (destruct Hio; lia).
  pose proof (remaps_wf _ _ _ _ Hk) as Hwf1. eapply runs_bind; [by apply (ioremap_remaps s1 T1)|]. intros [p2 m2] (_ & [T2 Hk2] & _).
  set (s2 := set_mmu m2 s1) in *. clearbody s2. assert (remaps s T s2 T2) as Hks by by eapply remaps_trans.
  rewrite table_len_spec, bind_Ok by (eapply remaps_reaches; [exact Hk2|exact Hr36]).
  destruct Hiol as (Ht0 & Hl0 & Hiol & Hfit). change PAGE_SIZE_2M with 0x800000 in Hfit. assert (0 <= t mod PAGE_SIZE) by (unfold PAGE_SIZE; zlia). unfold PAGE_SIZE in *.
  set (es := if x then 8 else 4) in *. assert (4 <= es <= 8) as Hes by (unfold es; destruct x; lia).
  assert (0 <= (table_len t - 36) / es ∧ es * ((table_len t - 36) / es) <= table_len t - 36) as [Hd0 Hd].
  { split; [apply Z.div_pos; lia|apply Z.mul_div_le; lia]. }
  assert (u32 (u64 (table_len t - 36) / es) = (table_len t - 36) / es) as ->.
  { rewrite u64_small by lia. apply u32_small. split; [done|]. apply Z.div_lt_upper_bound; lia. }
  rewrite p2v_add by lia. eapply runs_mono; [apply (sdt_loop_spec _ _ _) with (T := T2)| |done].
  - done.
  - lia.
  - by eapply remaps_wf.
  - rewrite Z2Nat.id by done. eapply reaches_sub; [eapply remaps_reaches; [exact Hk2|exact Hrt]|lia..].
  - rewrite Z2Nat.id by done. lia.
  - exact Hok.
  - intros [q s'] (-> & [T3 Hk'] & Hf). split; [done|]. split; [exists T3; by eapply remaps_trans|done].
Qed.
End sdt_spec.

Lemma get_rsdp_spec {F} `{FrameAllocator F} b root fw (s : acpi F) T : searched s = false → mmu_wf root (acpi_mmu s) T →
  (∀ q, 0x100000 <= q < 0x100014 → reach root s q) →
  runs (get_rsdp b root fw s)
    (λ '(p, s'), p = rsdp_result (first_rsdp fw) ∧ (∃ T', grown root (acpi_mmu s) T (acpi_mmu s') T') ∧
       (∀ q, 0 <= q < 2 ^ 46 → reach root s q ∨ RSDP_REGION_START <= q <= RSDP_REGION_END → reach root s' q) ∧
       rsdp_static s' = p ∧ searched s' = true ∧ get_rsdp b root fw s' = Ok (p, s'))
    (λ msg, msg = no_frames_msg ∨ msg = huge_msg).
Proof.
  intros Hs Hwf Hhi. unfold get_rsdp at 1. rewrite Hs.
  eapply runs_bind; [apply (ioremap_reach b root s T); [done|by vm_compute..]|].
  intros [ptr m] (-> & Hwf' & Hr). change (PAGE_ALIGN_UP _) with 0x20000 in Hr. change (PAGE_ALIGN_DOWN _) with 0xE0000 in Hr.
  assert (∀ q, 0 <= q < 2 ^ 46 → reach root s q ∨ RSDP_REGION_START <= q <= RSDP_REGION_END → reach root (set_mmu m s) q) as Hreach.
  { intros q Hq [?|Hin]; apply Hr; [done|by left|done|right]. apply upto_true. unfold RSDP_REGION_START, RSDP_REGION_END in Hin. lia. }
  unfold set_mmu in *. pose proof (rsdp_loop_spec root fw m (Z.to_nat 8192) RSDP_REGION_START rsdp_fuel (rsdp_static s) (searched s)) as Hl. cbv zeta in Hl.
  unfold first_rsdp. generalize dependent (rsdp_result (List.find (valid_rsdp fw) (slots (Z.to_nat 8192) RSDP_REGION_START))). intros p Hl. rewrite Hl; clear Hl; [|done|done|apply Z2Nat.inj_lt; done|].
  2:{ unfold RSDP_REGION_START, RSDP_REGION_END. split_and!; [done..|]. intros q Hq. apply Hreach; [lia|].
      destruct (decide (q < 0x100000)); [right; unfold RSDP_REGION_START, RSDP_REGION_END; lia|left; apply Hhi; lia]. }
  cbn [runs]. split_and!; [done|exact Hwf'|exact Hreach|done..].
Qed.

(** C33: finding the RSDP.  [get_rsdp] terminates; when the sixteen bytes and
    more that a structure in the last paragraphs of the BIOS area reaches
    beyond it are mapped, it never faults, changes nothing but page tables and returns the direct-map address
    of the first paragraph of E0000h-FFFFFh that holds a valid RSDP (its
    signature, a zero checksum over 20 bytes and, for revision 2, over 36),
    or NULL when none does; the answer is kept, and a second call returns it
    without touching the page tables. *)
Theorem get_rsdp_finds_first {F} `{FrameAllocator F} b root fw (s : acpi F) T : searched s = false → mmu_wf root (acpi_mmu s) T →
  (∀ q, 0x100000 <= q < 0x100014 → reach root s q) →
  runs (get_rsdp b root fw s)
    (λ '(p, s'), p = rsdp_result (first_rsdp fw) ∧ (∃ T', grown root (acpi_mmu s) T (acpi_mmu s') T') ∧
       (∀ q, 0 <= q < 2 ^ 46 → reach root s q ∨ RSDP_REGION_START <= q <= RSDP_REGION_END → reach root s' q) ∧
       rsdp_static s' = p ∧ searched s' = true ∧ get_rsdp b root fw s' = Ok (p, s'))
    (λ msg, msg = no_frames_msg ∨ msg = huge_msg).
Proof. apply get_rsdp_spec. Qed.

(** C31: finding a table.  For firmware whose tables lie in ranges [ioremap]
    maps, [sdt_find] returns the direct-map address of the first entry of the
    XSDT (for an RSDP of revision 2) or RSDT that leads to a table with the
    wanted signature and a zero checksum, and the whole table is then
    readable; it returns NULL when there is none or when the root table's own
    signature or checksum is wrong.  It only adds mappings. *)
Theorem sdt_find_finds_first {F} `{FrameAllocator F} b root fw (s : acpi F) T rsdp sig :
  mmu_wf root (acpi_mmu s) T → length sig = 4%nat → sdt_ok root fw s rsdp sig →
  runs (sdt_find b root fw (PHYS_TO_VIRT rsdp) sig s)
    (λ '(p, s'), p = rsdp_result (first_table fw rsdp sig) ∧ (∃ T', remaps root s T s' T') ∧
       ∀ e, first_table fw rsdp sig = Some e → reaches root s' e (table_len fw e)) map_panics.
Proof. apply sdt_find_spec. Qed.

(** ** A firmware image *)

(** Bytes with a checksum byte in between. *)
Definition checksummed (l1 l2 : list Z) : list Z := l1 ++ [(- foldr Z.add 0 (l1 ++ l2)) mod 256] ++ l2.

Definition demo_rsdp : list Z := checksummed (codes "RSD PTR ") (codes "SNAPOS" ++ [0] ++ le_enc 4 0xE1000).
Definition demo_sdt (sig : string) (body : list Z) : list Z :=
  checksummed (codes sig ++ le_enc 4 (36 + Z.of_nat (length body)) ++ [1]) (replicate 26 0 ++ body).

(** A broken RSDP, a valid one, an RSDT and the two tables it names. *)
Definition demo_image : list (Z * list Z) :=
  [(0xE0020, codes "RSD PTR !"); (0xE0040, demo_rsdp); (0xE1000, demo_sdt "RSDT" (le_enc 4 0xE2000 ++ le_enc 4 0xE3000));
   (0xE2000, demo_sdt "FACP" []); (0xE3000, demo_sdt "APIC" (drop 36 demo_madt))].

Fixpoint image_byte (img : list (Z * list Z)) (a : Z) : Z :=
  match img with
  | [] => 0
  | (base, l) :: img' => if (base <=? a) && (a <? base + Z.of_nat (length l)) then znth 0 l (a - base) else image_byte img' a
  end.
Definition demo_fw : Z → Z := image_byte demo_image.

(** The state a run ends in. *)
Definition state_of {A B} (d : B) (m : res (A * B)) : B := match m with Ok (_, s) => s | _ => d end.

Definition demo_acpi : acpi pmm := Acpi (state_of demo_mmu (ioremap false (PHYS_TO_VIRT 0x1000) 0x100000 0x1000 demo_mmu)) NULL false.

Lemma demo_acpi_ok : (∃ T, mmu_wf 0x1000 (acpi_mmu demo_acpi) T) ∧ ∀ q, 0x100000 <= q < 0x100014 → reach 0x1000 demo_acpi q.
Proof.
  pose proof (ioremap_remaps false 0x1000 demo_fw (Acpi demo_mmu NULL false) demo_tables 0x100000 0x1000 demo_mmu_wf ltac:(by vm_compute)) as Hr.
  assert (ok (ioremap false (PHYS_TO_VIRT 0x1000) 0x100000 0x1000 demo_mmu) = true) as Hok by (vm_compute; reflexivity).
  unfold demo_acpi. cbn [acpi_mmu] in Hr. destruct (ioremap _ _ _ _ _) as [[p m]| | |]; try discriminate. cbn [runs state_of] in *.
  destruct Hr as (_ & [T Hk] & (_ & _ & Hr) & _). split; [exists T; exact (remaps_wf _ _ _ _ _ Hk)|]. intros q Hq. apply Hr. lia.
Qed.

Lemma get_rsdp_finds_first_witness :
  first_rsdp demo_fw = Some 0xE0040 ∧ ok (get_rsdp false 0x1000 demo_fw demo_acpi) = true ∧
  runs (get_rsdp false 0x1000 demo_fw demo_acpi)
    (λ '(p, s'), p = rsdp_result (first_rsdp demo_fw) ∧
       (∀ q, 0 <= q < 2 ^ 46 → reach 0x1000 demo_acpi q ∨ RSDP_REGION_START <= q <= RSDP_REGION_END → reach 0x1000 s' q) ∧
       rsdp_static s' = p ∧ searched s' = true ∧ get_rsdp false 0x1000 demo_fw s' = Ok (p, s'))
    (λ msg, msg = no_frames_msg ∨ msg = huge_msg).
Proof.
  split; [vm_compute; reflexivity|]. split; [vm_compute; reflexivity|]. destruct demo_acpi_ok as [[T Hwf] Hhi].
  eapply runs_mono; [exact (get_rsdp_finds_first false 0x1000 demo_fw demo_acpi T eq_refl Hwf Hhi)| |done]. by intros [p s'] (-> & _ & ?).
Defined.

(** The state after the search. *)
Definition demo_acpi_found : acpi pmm := state_of demo_acpi (get_rsdp false 0x1000 demo_fw demo_acpi).

Lemma demo_acpi_found_ok : (∃ T, mmu_wf 0x1000 (acpi_mmu demo_acpi_found) T) ∧ ∀ q, RSDP_REGION_START <= q <= RSDP_REGION_END → reach 0x1000 demo_acpi_found q.
Proof.
  destruct demo_acpi_ok as [[T Hwf] Hhi].
  pose proof (get_rsdp_spec false 0x1000 demo_fw demo_acpi T eq_refl Hwf Hhi) as Hr.
  assert (ok (get_rsdp false 0x1000 demo_fw demo_acpi) = true) as Hok by (vm_compute; reflexivity).
  unfold demo_acpi_found. destruct (get_rsdp _ _ _ _) as [[p m]| | |]; try discriminate. cbn [runs state_of] in *.
  destruct Hr as (_ & [T' Hwf'] & Hr & _). split; [exists T'; apply Hwf'|]. intros q Hq. apply Hr; [unfold RSDP_REGION_START, RSDP_REGION_END in Hq; lia|by right].
Qed.

Lemma demo_sdt_ok : sdt_ok 0x1000 demo_fw demo_acpi_found 0xE0040 MADT_SIGNATURE.
Proof.
  destruct demo_acpi_found_ok as [_ Hr]. unfold sdt_ok.
  assert (has_xsdt demo_fw 0xE0040 = false ∧ sdt_addr demo_fw 0xE0040 = 0xE1000 ∧ table_len demo_fw 0xE1000 = 44) as (-> & -> & ->) by (vm_compute; done).
  split; [split_and!; [done..|]; intros q Hq; apply Hr; unfold RSDP_REGION_START, RSDP_REGION_END, RSDP_SIZE in *; lia|].
  split; [by vm_compute|]. split; [done|]. split; [by vm_compute|]. split; [intros q Hq; apply Hr|].
  - change (PAGE_ALIGN_DOWN _) with 0xE1000 in Hq. change (PAGE_ALIGN_UP _) with 0x1000 in Hq. unfold RSDP_REGION_START, RSDP_REGION_END. lia.
  - assert (sdt_entries demo_fw 0xE0040 = [0xE2000; 0xE3000]) as -> by (vm_compute; done).
    repeat constructor; try (by vm_compute); intros _; by vm_compute.
Qed.

Lemma sdt_find_finds_first_witness :
  first_table demo_fw 0xE0040 MADT_SIGNATURE = Some 0xE3000 ∧ ok (sdt_find false 0x1000 demo_fw (PHYS_TO_VIRT 0xE0040) MADT_SIGNATURE demo_acpi_found) = true ∧
  runs (sdt_find false 0x1000 demo_fw (PHYS_TO_VIRT 0xE0040) MADT_SIGNATURE demo_acpi_found)
    (λ '(p, s'), p = rsdp_result (first_table demo_fw 0xE0040 MADT_SIGNATURE) ∧
       ∀ e, first_table demo_fw 0xE0040 MADT_SIGNATURE = Some e → reaches 0x1000 s' e (table_len demo_fw e)) map_panics.
Proof.
  split; [vm_compute; reflexivity|]. split; [vm_compute; reflexivity|]. destruct demo_acpi_found_ok as [[T Hwf] _].
  eapply runs_mono; [exact (sdt_find_finds_first false 0x1000 demo_fw demo_acpi_found T 0xE0040 MADT_SIGNATURE Hwf eq_refl demo_sdt_ok)| |done].
  by intros [p s'] (-> & _ & ?).
Defined.
