(* ===== verification/ApicInit.v ===== *)
(** * Bringing up the interrupt controllers ([init_apic] of apic.c)

    The function composes the legacy controllers (Pic), the firmware tables
    (Acpi, Madt), the kernel's mappings and heap, and the APICs (Apic). *)

From S2P Require Import Prelude Types FrameAlloc EarlyPmm Pmm Paging Vmm Kmalloc Mm Layout Apic Madt HeapApi ProcMem Pic Acpi.

(** The controllers, the ports and the statics of [get_rsdp]; the page tables
    are those of the heap of [apic]. *)
Record platform := Platform { pf_apic : apic; pf_io : io_ports; pf_rsdp : Z; pf_searched : bool }.

Definition no_rsdp_msg : string := "init_apic: couldn't find RSDP.".
Definition no_madt_msg : string := "init_apic: couldn't find MADT.".
Definition no_cores_msg : string := "madt_count_cores: cores count is zero.".
Definition no_ioapic_msg : string := "init_apic: couldn't find I/O APIC.".
Definition awake_msg : string := "init_apic: found more or less than 1 awake core.".

Section init.
Context (cpu_has_1g_pages : bool) (root : Z) (fw : Z → Z).

Definition ioremap_apic (paddr size : Z) (a : apic) : res (Z * apic) :=
  '(v, m) ← ioremap cpu_has_1g_pages (PHYS_TO_VIRT root) paddr size (as_mmu (aheap a));
  Ok (v, set_aheap (with_mmu m (aheap a)) a).

(** The search for the interrupt-controller table, and its bytes, which do not
    change afterwards. *)
Definition find_madt (ac : acpi pmm) : res (acpi pmm * list Z) :=
  '(rsdp, ac) ← get_rsdp cpu_has_1g_pages root fw ac;
  if rsdp =? NULL then Panic no_rsdp_msg else
  '(madt, ac) ← sdt_find cpu_has_1g_pages root fw rsdp MADT_SIGNATURE ac;
  if madt =? NULL then Panic no_madt_msg else
  len ← read_field root fw acpi_header_layout "length" ac madt;
  buf ← read_bytes root fw (Z.to_nat len) ac madt;
  Ok (ac, buf).

(** [lapic_timer_init] with its sleep; [elapsed] is the counter after it. *)
Definition calibrate_timer (elapsed vector : Z) (a : apic) (io : io_ports) : res (apic * io_ports) :=
  io ← pit_sleep_10ms io;
  Ok (lapic_timer_init elapsed vector a, io).

(** The part of [init_apic] that follows the table. *)
Definition apply_madt (buf : list Z) (a : apic) : res apic :=
  let fuel := S (length buf) in
  count ← madt_count_cores fuel buf;
  if count =? 0 then Panic no_cores_msg else
  a ← cores_table_init count a;
  addr ← field madt_layout "lapic_phys_addr" buf 0;
  '(v, a) ← ioremap_apic addr (size_of lapic_layout) a;
  let a := set_lapic v a in
  a ← madt_parse_recoreds cpu_has_1g_pages (PHYS_TO_VIRT root) fuel buf a;
  if ioapic_addr a =? NULL then Panic no_ioapic_msg else
  '(awake_cores_count, a) ← update_awake_cores a;
  if negb (awake_cores_count =? 1) then Panic awake_msg else
  '(_, a) ← ioremap_apic (VIRT_TO_PHYS (ioapic_addr a)) IOAPIC_SIZE a;
  Ok a.

Definition init_apic (elapsed : Z) (s : platform) : res platform :=
  let io := disable_pic (remap_pic PIC1_OFFSET PIC2_OFFSET (pf_io s)) in
  let a := irq_overrides_init (pf_apic s) in
  '(ac, buf) ← find_madt (Acpi (as_mmu (aheap a)) (pf_rsdp s) (pf_searched s));
  a ← apply_madt buf (set_aheap (with_mmu (acpi_mmu ac) (aheap a)) a);
  let a := enable_lapic a in
  '(a, io) ← calibrate_timer elapsed 32 a io;
  Ok (Platform a io (rsdp_static ac) (searched ac)).
End init.

(** ** The kernel's page tables and its heap *)

Record kspace (root : Z) (T : gmap Z (nat * Z)) (h : kheap) (pools : gmap Z Z) (fl : list (list Z)) (B : gset Z) : Prop := {
  ks_heap : heap_inv h pools fl B;
  ks_mmu : mmu_wf root (as_mmu h) T;
  ks_tables : ∀ t, is_Some (T !! t) → t < 2 ^ 46 ∧ pools !! PHYS_TO_VIRT t = None
}.

Definition kspace_ok (root : Z) (h : kheap) : Prop := ∃ T pools fl B, kspace root T h pools fl B.

(** A page table that is no pool page shares no word with the pools. *)
Lemma tables_spare_pools m root T pools a : pt_wf m root T → pages_ok pools →
  (∀ t, is_Some (T !! t) → t < 2 ^ 46 ∧ pools !! PHYS_TO_VIRT t = None) → table_word T a → ¬ pool_word pools a.
Proof.
  intros Hwf Hok HT Ha (pg & t' & Hpg & Hr). destruct (table_word_page _ _ Ha) as (t & Ht & Hra & Hal).
  { intros t Ht. split; [|by apply HT]. destruct Ht as [[n k] Ht]. by apply (proj1 (proj2 Hwf) _ _ _ Ht). }
  destruct (Hok _ _ Hpg) as (_ & Hpal & _). assert (pg = PHYS_TO_VIRT t) as -> by (unfold PAGE_SIZE in *; zlia).
  destruct (HT t Ht) as [_ Hno]. congruence.
Qed.

(** An available frame is no pool page. *)
Lemma avail_not_pool h pools fl B f : heap_inv h pools fl B → fa_avail (kframes h) f → f < 2 ^ 46 ∧ pools !! PHYS_TO_VIRT f = None.
Proof.
  intros Hinv Hf. destruct (hi_pmm _ _ _ _ Hinv) as [Hfa Hsmall]. destruct (fa_avail_frame _ _ Hfa Hf) as [_ ?]. pose proof (Hsmall _ Hf). split; [done|].
  destruct (pools !! PHYS_TO_VIRT f) as [t|] eqn:E; [|done]. destruct (hi_taken _ _ _ _ Hinv _ _ E) as (g & Hg & ? & Hna).
  apply PHYS_TO_VIRT_inj in Hg as ->; [done|lia..].
Qed.

Lemma kspace_grown root T h pools fl B m T' : kspace root T h pools fl B → grown root (as_mmu h) T m T' → kspace root T' (with_mmu m h) pools fl B.
Proof.
  intros [Hinv Hwf HT] (Hwf' & HTT & Hav & Hnew & Hmem). cbn [as_mmu frames mem] in *.
  assert (∀ t, is_Some (T' !! t) → t < 2 ^ 46 ∧ pools !! PHYS_TO_VIRT t = None) as HT'.
  { intros t Ht. destruct (T !! t) as [x|] eqn:E; [apply HT; by eexists|]. eapply avail_not_pool; [exact Hinv|by apply Hnew]. }
  split; [|split_and!; apply Hwf'|done].
  apply heap_inv_agree; [done|apply Hwf'|done|]. intros a Ha. apply Hmem. intros Hta.
  eapply tables_spare_pools; [apply Hwf'|apply Hinv|exact HT'|done|done].
Qed.

(** The heap takes pages for its pools from the free frames only. *)
Lemma kspace_keeps root T h pools fl B h' pools' fl' (used B' : gset Z) : kspace root T h pools fl B → heap_inv h' pools' fl' B' →
  Kmalloc.keeps h pools used h' pools' → kspace root T h' pools' fl' B' ∧ ∀ a, table_word T a → ld (kmem h') a = ld (kmem h) a.
Proof.
  intros [Hinv Hwf HT] Hinv' (Hsub & _ & Hmem & Hav & Hnew). destruct (hi_pmm _ _ _ _ Hinv) as [Hfa Hsmall].
  assert (∀ t, is_Some (T !! t) → t < 2 ^ 46 ∧ pools' !! PHYS_TO_VIRT t = None) as HT'.
  { intros t Ht. destruct (HT t Ht) as [Hlt Hno]. split; [done|]. destruct (pools' !! PHYS_TO_VIRT t) as [t'|] eqn:E; [|done]. exfalso.
    destruct (Hnew _ _ E) as [?|(f & Hf & Hfav)]; [congruence|]. destruct (fa_avail_frame _ _ Hfa Hfav) as [_ ?]. pose proof (Hsmall _ Hfav).
    destruct Ht as [[n k] Ht]. assert (table_frame t) as (_ & ? & _) by by apply (proj1 (proj2 (proj1 Hwf)) _ _ _ Ht).
    apply PHYS_TO_VIRT_inj in Hf as ->; [|lia..]. destruct Hwf as (_ & _ & Hdis). specialize (Hdis f Hfav). congruence. }
  assert (∀ a, table_word T a → ld (kmem h') a = ld (kmem h) a) as Hw.
  { intros a Ha. apply Hmem. right. eapply tables_spare_pools; [apply Hwf|apply Hinv'|exact HT'|done]. }
  split; [|done]. split; [done| |done]. destruct Hwf as (Hpt & _ & Hdis). split; [by eapply pt_wf_agree|]. split; [apply Hinv'|].
  intros f Hf. apply Hdis. by apply Hav.
Qed.

(** [kzalloc] leaves the page tables alone. *)
Lemma kspace_kzalloc root T h pools fl B size : kspace root T h pools fl B → 0 <= size <= 1024 →
  returns (kzalloc size h) (λ '(p, h'), ∃ pools' fl' B', kspace root T h' pools' fl' B' ∧ ∀ a, table_word T a → ld (kmem h') a = ld (kmem h) a).
Proof.
  intros Hk Hs. pose proof (ks_heap _ _ _ _ _ _ Hk) as Hinv. destruct (size_to_tier_spec size Hs) as (Ht & Hfit & _). unfold kzalloc, kmalloc. cbn [kmalloc_rec].
  rewrite (proj2 (Z.eqb_neq (size_to_tier_idx size) TOO_BIG_SIZE)) by (unfold TOO_BIG_SIZE; lia). cbn [negb].
  eapply returns_bind; [by apply (kmalloc_small_spec (size_to_tier_idx size) h pools fl B)|]. intros [p h'] (pools' & fl' & Hkeep & Hcase).
  destruct Hcase as [(-> & Hinv' & _)|(Hpn & Hpu & Hp & Hinv')].
  { rewrite Z.eqb_refl. destruct (kspace_keeps _ _ _ _ _ _ _ _ _ _ _ Hk Hinv' Hkeep) as [Hk' Hw]. by exists pools', fl', B. }
  rewrite (proj2 (Z.eqb_neq p NULL)) by done. destruct (kspace_keeps _ _ _ _ _ _ _ _ _ _ _ Hk Hinv' Hkeep) as [[_ Hwf HT] Hw].
  pose proof (hi_pages _ _ _ _ Hinv') as Hok. pose proof (slot_page _ _ _ Hok Hp) as (Hpg & Hlo & Hhi & _ & Ht'). destruct (Hok _ _ Hpg) as (_ & _ & ? & ?).
  destruct (slot_size_facts _ Ht') as (_ & _ & _ & ?).
  assert (∀ a, table_word T a → ld (zero_bytes p size (kmem h')) a = ld (kmem h') a) as Hz.
  { intros a Ha. apply zero_bytes_out; [lia..|]. intros Hr. eapply tables_spare_pools; [apply Hwf|exact Hok|exact HT|exact Ha|].
    eapply slot_pool_word; [done|exact Hp|lia]. }
  exists pools', fl', ({[p]} ∪ B). split; [split|].
  - eapply heap_inv_write; [exact Hinv'|by apply elem_of_union_l, elem_of_singleton|exact Hp|]. intros a Ha. apply zero_bytes_out; lia.
  - destruct Hwf as (Hpt & ? & Hdis). split; [by eapply pt_wf_agree|]. done.
  - done.
  - intros a Ha. cbn [kmem]. by rewrite Hz, Hw.
Qed.

(** ** What the records say beside the cores *)

Definition ok_or {A} (d : A) (m : res A) : A := match m with Ok x => x | _ => d end.

(** The address of the I/O APIC of a record that serves line 0. *)
Definition record_ioapic (r : list Z) : option Z :=
  if (rec_type_of r =? 1) && (size_of madt_record_ioapic_layout <=? Z.of_nat (length r)) &&
     (ok_or 0 (field madt_record_ioapic_layout "gsi_base" r 0) =? 0)
  then Some (ok_or 0 (field madt_record_ioapic_layout "ioapic_phys_addr" r 0)) else None.

(** The last such record wins. *)
Definition ioapic_phys (rs : list (list Z)) : option Z := last (omap record_ioapic rs).

(** The line a record overrides, and how. *)
Definition record_override (r : list Z) (l : list irq_override) : list irq_override :=
  let irq := ok_or 0 (field madt_record_override_layout "irq_src" r 0) in
  if (rec_type_of r =? 2) && (size_of madt_record_override_layout <=? Z.of_nat (length r)) && (irq <=? MAX_PIC_IRQ)
  then <[Z.to_nat irq := IrqOverride (ok_or 0 (field madt_record_override_layout "gsi" r 0)) (ok_or 0 (field madt_record_override_layout "flags" r 0))]> l
  else l.

Definition overrides_of (rs : list (list Z)) : list irq_override :=
  foldl (λ l r, record_override r l) ((λ i, IrqOverride (Z.of_nat i) 0) <$> seq 0 (Z.to_nat PIC_IRQ_COUNT)) rs.

(** What parsing leaves alone. *)
Definition same_devices (s s' : apic) : Prop :=
  lapic s' = lapic s ∧ lapic_regs s' = lapic_regs s ∧ ioapic_regs s' = ioapic_regs s ∧ irq_table s' = irq_table s ∧ aheap s' = aheap s.

Lemma parse_record_effect b kpgd r s s' : record_ok r → 0 <= rec_type_of r < 5 → madt_parse_record b kpgd r 0 s = Ok s' →
  same_devices s s' ∧ ioapic_addr s' = from_option PHYS_TO_VIRT (ioapic_addr s) (record_ioapic r) ∧
  irq_overrides s' = record_override r (irq_overrides s).
Proof.
  intros Hr Hty. unfold madt_parse_record, rec_type. rewrite (rec_type_ok r Hr), bind_Ok.
  unfold madt_parse_record_type_0, madt_parse_record_type_1, madt_parse_record_type_2, record_ioapic, record_override.
  rewrite rec_length_self, !bind_Ok by done. rewrite !Z.leb_antisym.
  destruct (Z.eqb_spec (rec_type_of r) 0) as [Ht|H0]; [rewrite ?Ht|]; cbn [Z.eqb andb].
  { intros E. unfold cores_table_set in E. res_inv E; subst; done. }
  destruct (Z.eqb_spec (rec_type_of r) 1) as [Ht|H1]; [rewrite ?Ht|]; cbn [Z.eqb andb].
  { intros E. destruct (_ <? _) eqn:El; cbn [negb andb]; res_inv E; subst; [done|..]; repeat match goal with H : field _ _ _ _ = Ok _ |- _ => rewrite H end; cbn [ok_or].
    - apply negb_true_iff in E0 as ->. done.
    - apply negb_false_iff in E0 as ->. done. }
  destruct (Z.eqb_spec (rec_type_of r) 2) as [Ht|H2]; [rewrite ?Ht|]; cbn [Z.eqb andb].
  { intros E. destruct (_ <? _) eqn:El; cbn [negb andb]; res_inv E; subst; [done|..]; repeat match goal with H : field _ _ _ _ = Ok _ |- _ => rewrite H end; cbn [ok_or].
    - rewrite E0. done.
    - rewrite E0. cbn [negb]. apply arr_set_Ok_inv in Hx2 as [_ ->]. done. }
  assert (((rec_type_of r =? 3) || (rec_type_of r =? 4)) = true) as Hor by (apply orb_true_iff; rewrite !Z.eqb_eq; lia).
  rewrite Hor. intros E. res_inv E. by subst.
Qed.

Lemma parse_all_effect b kpgd rs : ∀ s s', Forall record_ok rs → Forall (λ r, 0 <= rec_type_of r < 5) rs → parse_all b kpgd rs s = Ok s' →
  same_devices s s' ∧ ioapic_addr s' = from_option PHYS_TO_VIRT (ioapic_addr s) (ioapic_phys rs) ∧
  irq_overrides s' = foldl (λ l r, record_override r l) (irq_overrides s) rs.
Proof.
  induction rs as [|r rs IH]; intros s s' Hok Hty E; cbn [parse_all] in E; [by injection E as <-|].
  apply Forall_cons in Hok as [Hr Hok]. apply Forall_cons in Hty as [Ht Hty]. res_inv E.
  destruct (parse_record_effect _ _ _ _ _ Hr Ht Hx) as ((? & ? & ? & ? & ?) & Hi & Ho). destruct (IH _ _ Hok Hty E) as ((? & ? & ? & ? & ?) & Hi' & Ho').
  split; [split_and!; congruence|]. split; [|by rewrite Ho', Ho]. rewrite Hi', Hi. unfold ioapic_phys. cbn [omap list_omap].
  destruct (record_ioapic r) as [a|]; [|done]. rewrite last_cons. by destruct (last _).
Qed.

(** ** The core that runs *)

Definition wake (id : Z) (c : cpu_core) : cpu_core :=
  if apic_id c =? id then CpuCore (logical_id c) (acpi_processor_id c) (apic_id c) true else c.

Definition count_id (id : Z) (l : list cpu_core) : Z := Z.of_nat (length (filter (λ c, apic_id c = id) l)).

Lemma arr_get_mid {A} (pre post : list A) c : arr_get (pre ++ c :: post) (Z.of_nat (length pre)) = Ok c.
Proof. apply arr_get_Ok. split; [lia|]. rewrite Nat2Z.id. by apply list_lookup_middle. Qed.

Lemma arr_set_mid {A} (pre post : list A) c d : arr_set (pre ++ c :: post) (Z.of_nat (length pre)) d = Ok (pre ++ d :: post).
Proof. rewrite arr_set_Ok by (rewrite length_app; cbn; lia). rewrite Nat2Z.id. f_equal. by rewrite insert_app_r_alt, Nat.sub_diag by lia. Qed.

Lemma update_awake_spec n : ∀ pre post awake s, cores s = pre ++ post → length post = n →
  update_awake_loop n (Z.of_nat (length pre)) (u8 awake) s =
    Ok (u8 (awake + count_id (get_current_apic_id s) post), set_cores (cores_ptr s) (pre ++ (wake (get_current_apic_id s) <$> post)) s).
Proof.
  induction n as [|n IH]; intros pre post awake s Hc Hn; cbn [update_awake_loop].
  { destruct post; [|done]. cbn. rewrite Z.add_0_r. f_equal. f_equal. rewrite <- Hc. by destruct s. }
  destruct post as [|c post]; [done|]. cbn [length] in Hn. unfold cores_table_get, cores_table_get_count.
  rewrite (proj2 (Z.leb_gt _ _)) by (rewrite Hc, length_app; cbn; lia). rewrite Hc, arr_get_mid, bind_Ok. cbn [fmap list_fmap].
  assert (∀ x, Z.of_nat (length pre) + 1 = Z.of_nat (length (pre ++ [x : cpu_core]))) as Hp by (intros; rewrite length_app; cbn; lia).
  unfold wake at 1, count_id. rewrite filter_cons. destruct (Z.eqb_spec (apic_id c) (get_current_apic_id s)) as [He|He].
  - unfold cores_table_set, cores_table_get_count. rewrite (proj2 (Z.leb_gt _ _)) by (rewrite Hc, length_app; cbn; lia).
    rewrite Hc, arr_set_mid, !bind_Ok. set (c' := CpuCore _ _ _ true). rewrite (Hp c').
    replace (u8 (u8 awake + 1)) with (u8 (awake + 1)) by (unfold u8; by rewrite Zplus_mod_idemp_l).
    rewrite IH with (post := post) by (cbn [cores set_cores]; rewrite <- ?app_assoc; done || lia). cbn [set_cores cores_ptr get_current_apic_id lapic_regs].
    rewrite decide_True by done. cbn [length]. rewrite <- app_assoc. f_equal. f_equal. f_equal. unfold count_id, get_current_apic_id. cbn [set_cores lapic_regs]. lia.
  - rewrite (Hp c), IH with (post := post) by (rewrite <- ?app_assoc; done || lia). rewrite decide_False by done. by rewrite <- app_assoc.
Qed.

(** ** The ports *)

Lemma pic_setup_writes o1 o2 io : disable_pic (remap_pic o1 o2 io) =
  IoPorts (io_out io ++ writes (λ io, disable_pic (remap_pic o1 o2 io))) (pit_status io).
Proof. unfold writes, disable_pic, remap_pic, io_wait, outb. cbn [io_out pit_status]. f_equal. by rewrite <- !app_assoc. Qed.

(** Writes to other ports leave the legacy controllers alone. *)
Lemma pics_after_other p l : Forall (λ w : Z * Z, w.1 = PIT_CMD_PORT ∨ w.1 = PIT_CH0_PORT) l → pics_after p l = p.
Proof. intros Hl. revert p. induction Hl as [|[port v] l Hw _ IH]; intros p; [done|]. unfold pics_after in *. cbn [foldl]. rewrite IH. cbn in Hw. by destruct Hw as [-> | ->]. Qed.

Lemma pics_after_app p l1 l2 : pics_after p (l1 ++ l2) = pics_after (pics_after p l1) l2.
Proof. apply foldl_app. Qed.

(** ** The state of the kernel while it runs *)

(** The page tables of the heap as the firmware code sees them. *)
Definition view (a : apic) : acpi pmm := Acpi (as_mmu (aheap a)) NULL false.

Lemma ioremap_apic_spec b root T a pools fl B paddr size : kspace root T (aheap a) pools fl B → io_range paddr size →
  runs (ioremap_apic b root paddr size a) (λ '(v, a'), v = PHYS_TO_VIRT paddr ∧ (∃ T', kspace root T' (aheap a') pools fl B) ∧
    a' = set_aheap (aheap a') a ∧ reaches root (view a') paddr size ∧ (∀ x n, reaches root (view a) x n → reaches root (view a') x n)) map_panics.
Proof.
  intros Hk Hio. unfold ioremap_apic.
  eapply runs_bind; [apply (ioremap_remaps b root (λ _, 0) (view a) T); [apply Hk|done]|].
  intros [v m] (-> & [T' Hr] & Hreach & _). cbn [runs aheap set_aheap]. split; [done|]. split; [exists T'; eapply kspace_grown; [exact Hk|apply Hr]|].
  split; [done|]. split; [exact Hreach|]. intros x n. apply (remaps_reaches _ _ _ _ _ _ _ Hr).
Qed.

(** The firmware [init_apic] needs: an RSDP at [rsdp], its tables in reach,
    and an interrupt-controller table [e] of the records [rs] and a last
    one. *)
Record firmware_ok (root : Z) (fw : Z → Z) (a : apic) (rsdp e : Z) (rs : list (list Z)) (r : list Z) (l i : Z) : Prop := {
  fo_rsdp : first_rsdp fw = Some rsdp;
  fo_above : ∀ q, 0x100000 <= q < 0x100014 → reach root (view a) q;
  fo_sdt : let t := sdt_addr fw rsdp in io_range t 36 ∧ 36 <= table_len fw t ∧ io_range t (table_len fw t) ∧
    ∀ q, PAGE_ALIGN_DOWN t + PAGE_ALIGN_UP (t mod PAGE_SIZE + 36) <= q < t + table_len fw t →
      reach root (view a) q ∨ RSDP_REGION_START <= q <= RSDP_REGION_END;
  fo_entries : Forall (entry_ok fw MADT_SIGNATURE) (sdt_entries fw rsdp);
  fo_madt : first_table fw rsdp MADT_SIGNATURE = Some e;
  fo_records : madt_is (fw_bytes fw (Z.to_nat (table_len fw e)) e) (rs ++ [r]);
  fo_types : Forall (λ r, 0 <= rec_type_of r < 5) rs;
  fo_lapic : field madt_layout "lapic_phys_addr" (fw_bytes fw (Z.to_nat (table_len fw e)) e) 0 = Ok l ∧ io_range l (size_of lapic_layout);
  fo_ioapic : ioapic_phys rs = Some i ∧ io_range i IOAPIC_SIZE;
  fo_cores : 0 < Z.of_nat (length (cores_of rs)) <= 128;
  fo_self : count_id (get_current_apic_id a) (core_entries 0 (cores_of rs)) = 1
}.

Lemma slots_elem n : ∀ a x, In x (slots n a) → a <= x ∧ x <= a + 16 * (Z.of_nat n - 1).
Proof. induction n as [|n IH]; intros a x; cbn [slots In]; [done|]. intros [->|Hx]; [lia|]. apply IH in Hx. lia. Qed.

Lemma first_rsdp_range fw x : first_rsdp fw = Some x → RSDP_REGION_START <= x <= 0xFFFF0.
Proof.
  unfold first_rsdp. intros Hf. destruct (find_some _ _ Hf) as [Hin _]. clear Hf. destruct (slots_elem _ _ _ Hin) as [Hl Hh]. clear Hin.
  rewrite (Z2Nat.id 8192 (Pos2Z.is_nonneg 8192)) in Hh. unfold RSDP_REGION_START in *. lia.
Qed.

Lemma length_fw_bytes fw n : ∀ a, length (fw_bytes fw n a) = n.
Proof. induction n as [|n IH]; intros a; [done|]. cbn [fw_bytes length]. by rewrite IH. Qed.

(** What the search for the RSDP adds is enough for [sdt_find]. *)
Lemma firmware_sdt_ok root fw a rsdp e rs r l i (s' : acpi pmm) : firmware_ok root fw a rsdp e rs r l i →
  (∀ q, 0 <= q < 2 ^ 46 → reach root (view a) q ∨ RSDP_REGION_START <= q <= RSDP_REGION_END → reach root s' q) → sdt_ok root fw s' rsdp MADT_SIGNATURE.
Proof.
  intros Hfo Hr. pose proof (first_rsdp_range _ _ (fo_rsdp _ _ _ _ _ _ _ _ _ Hfo)) as Hx. destruct (fo_sdt _ _ _ _ _ _ _ _ _ Hfo) as (Hio & Hl & Hio' & Hpre).
  unfold RSDP_REGION_START in Hx. assert (reaches root s' rsdp 36) as Hr36.
  { split_and!; [lia..|]. intros q Hq. apply Hr; [lia|]. destruct (decide (q < 0x100000)); [right; unfold RSDP_REGION_START, RSDP_REGION_END; lia|].
    left. apply (fo_above _ _ _ _ _ _ _ _ _ Hfo). lia. }
  split; [eapply reaches_sub; [exact Hr36|destruct (has_xsdt fw rsdp); unfold XSDP_SIZE, RSDP_SIZE; lia..]|]. split; [done|]. split; [done|]. split; [done|].
  split; [|apply Hfo]. intros q Hq. apply Hr; [|by apply Hpre]. destruct Hio' as (? & ? & ? & _).
  pose proof (PAGE_ALIGN_DOWN_bounds (sdt_addr fw rsdp) ltac:(lia)) as (_ & ? & _).
  assert (0 <= sdt_addr fw rsdp mod PAGE_SIZE < PAGE_SIZE) by (unfold PAGE_SIZE; zlia).
  destruct (PAGE_ALIGN_UP_bounds (sdt_addr fw rsdp mod PAGE_SIZE + 36)) as [? _]; unfold PAGE_SIZE in *; lia.
Qed.

Definition apic_panics (msg : string) : Prop := map_panics msg ∨ msg = no_core_mem_msg.

(** The first half: from the BIOS area to the bytes of the table. *)
Lemma find_madt_spec b root fw a T pools fl B rsdp e rs r l i ptr : kspace root T (aheap a) pools fl B → firmware_ok root fw a rsdp e rs r l i →
  runs (find_madt b root fw (Acpi (as_mmu (aheap a)) ptr false))
    (λ '(ac, buf), buf = fw_bytes fw (Z.to_nat (table_len fw e)) e ∧ rsdp_static ac = PHYS_TO_VIRT rsdp ∧ searched ac = true ∧
       ∃ T', kspace root T' (with_mmu (acpi_mmu ac) (aheap a)) pools fl B) map_panics.
Proof.
  intros Hk Hfo. unfold find_madt. set (ac := Acpi (as_mmu (aheap a)) ptr false).
  pose proof (first_rsdp_range _ _ (fo_rsdp _ _ _ _ _ _ _ _ _ Hfo)) as Hx. unfold RSDP_REGION_START in Hx.
  eapply runs_bind; [apply (get_rsdp_spec b root fw ac T); [done|apply Hk|apply Hfo]|]. intros [p s1] (-> & [T1 Hg1] & Hr1 & Hst & Hse & _).
  rewrite (fo_rsdp _ _ _ _ _ _ _ _ _ Hfo) in *. cbn [rsdp_result] in *.
  assert (∀ q, 0 <= q < 2 ^ 45 → PHYS_TO_VIRT q =? NULL = false) as Hnn.
  { intros q Hq. apply Z.eqb_neq. rewrite PHYS_TO_VIRT_small by lia. unfold NULL, ID_VIRT_REGION_START. lia. }
  rewrite Hnn by lia. pose proof (firmware_sdt_ok _ _ _ _ _ _ _ _ _ s1 Hfo Hr1) as Hsdt.
  eapply runs_bind; [apply (sdt_find_spec b root fw s1 T1); [apply Hg1|done|exact Hsdt]|]. intros [p s2] (-> & [T2 Hg2] & Hr2).
  rewrite (fo_madt _ _ _ _ _ _ _ _ _ Hfo) in *. cbn [rsdp_result] in *. specialize (Hr2 _ eq_refl). pose proof Hr2 as (He0 & He1 & _).
  assert (36 <= table_len fw e) as Hlen.
  { destruct (fo_records _ _ _ _ _ _ _ _ _ Hfo) as (hdr & rest & Hb & Hh & _). apply (f_equal length) in Hb. rewrite length_fw_bytes, length_app in Hb. unfold FIRST_MADT_RECORD_OFFSET in Hh. lia. }
  rewrite (proj2 (Z.eqb_neq _ _)) by (rewrite PHYS_TO_VIRT_small by lia; unfold NULL, ID_VIRT_REGION_START; lia).
  rewrite table_len_spec, bind_Ok by (eapply reaches_sub; [exact Hr2|lia..]).
  rewrite read_bytes_spec, bind_Ok by (rewrite Z2Nat.id by lia; exact Hr2). cbn [runs].
  split; [done|]. destruct Hg2 as (Hg2 & _ & Hst2 & Hse2). split; [congruence|]. split; [congruence|].
  exists T2. eapply kspace_grown; [exact Hk|]. eapply mmu_grown_trans; [exact Hg1|exact Hg2].
Qed.

Lemma length_records rs : Forall record_ok rs → (length rs <= length (concat rs))%nat.
Proof. induction 1 as [|r rs (? & _) _ IH]; [done|]. cbn [concat length]. rewrite length_app. lia. Qed.

(** The second half: the cores, the mappings and the records. *)
Definition after_madt (root : Z) (a a' : apic) (rs : list (list Z)) (l i : Z) : Prop :=
  cores a' = (wake (get_current_apic_id a) <$> core_entries 0 (cores_of rs)) ∧ irq_overrides a' = overrides_of rs ∧
  ioapic_addr a' = PHYS_TO_VIRT i ∧ lapic a' = PHYS_TO_VIRT l ∧ irq_table a' = irq_table a ∧ kspace_ok root (aheap a') ∧
  reaches root (view a') l (size_of lapic_layout) ∧ reaches root (view a') i IOAPIC_SIZE.

Lemma apply_madt_spec b root fw a0 a T pools fl B rsdp e rs r l i : kspace root T (aheap a) pools fl B → firmware_ok root fw a0 rsdp e rs r l i →
  irq_overrides a = irq_overrides (irq_overrides_init a) → core_index a = 0 → lapic_regs a = lapic_regs a0 → irq_table a = irq_table a0 →
  runs (apply_madt b root (fw_bytes fw (Z.to_nat (table_len fw e)) e) a)
    (λ a', after_madt root a0 a' rs l i ∧ lapic_regs a' = lapic_regs a0) apic_panics.
Proof.
  intros Hk [_ _ _ _ _ Hmadt Hty [Hl Hlio] [Hi Hiio] Hc Hself] Hov Hci Hregs Htab. set (buf := fw_bytes fw _ e) in *. clearbody buf. unfold apply_madt.
  assert (length rs < S (length buf))%nat as Hf.
  { destruct Hmadt as (hdr & rst & -> & _ & Hok & _). apply length_records in Hok. rewrite !length_app in *. cbn in Hok. lia. }
  destruct (madt_read_spec b (PHYS_TO_VIRT root) (S (length buf)) buf rs r a Hmadt Hf) as (-> & _ & _). rewrite bind_Ok, (proj2 (Z.eqb_neq _ 0)) by lia.
  unfold cores_table_init, CPU_CORE_SIZE. rewrite u64_small, Nat2Z.id by lia.
  eapply runs_bind with (R := λ a1, (∃ T pools fl B, kspace root T (aheap a1) pools fl B) ∧ cores a1 = replicate (length (cores_of rs)) no_core ∧
    irq_overrides a1 = irq_overrides a ∧ core_index a1 = 0 ∧ lapic_regs a1 = lapic_regs a0 ∧ irq_table a1 = irq_table a0).
  { eapply runs_bind; [eapply runs_mono; [apply (kspace_kzalloc root T (aheap a) pools fl B); [done|lia]|intros x Hx; exact Hx|done]|].
    intros [p h] (pools' & fl' & B' & Hk' & _). destruct (p =? NULL); [by right|]. cbn [runs]. split; [by exists T, pools', fl', B'|]. done. }
  clear T pools fl B Hk. intros a1 ((T & pools & fl & B & Hk) & Hcs & Ho1 & Hci1 & Hr1 & Ht1). rewrite Hl, bind_Ok.
  eapply runs_bind; [eapply runs_mono; [by apply (ioremap_apic_spec b root T a1 pools fl B)|intros x Hx; exact Hx|intros msg ?; by left]|].
  intros [v a2] (-> & (T2 & Hk2) & Ea2 & Hreach2 & _).
  destruct (madt_read_spec b (PHYS_TO_VIRT root) (S (length buf)) buf rs r (set_lapic (PHYS_TO_VIRT l) a2) Hmadt Hf) as (_ & Hp & Hparse).
  destruct Hparse as (a3 & Ea3 & Hc3 & _); [done|rewrite Ea2; cbn; rewrite Ho1, Hov; done|rewrite Ea2; done|rewrite Ea2; done|].
  rewrite Hp in Ea3. rewrite Hp, Ea3, bind_Ok. apply parse_all_effect in Ea3 as ((Hl3 & Hr3 & _ & Ht3 & Hh3) & Hi3 & Ho3);
    [|destruct Hmadt as (hdr & rst & _ & _ & Hok & _); by apply Forall_app in Hok as [? _]|done].
  rewrite Hi in Hi3. cbn [from_option] in Hi3. destruct Hiio as (Hi0 & Hi1 & Hi2 & Hi4). unfold IOAPIC_SIZE in Hi2.
  rewrite Hi3, (proj2 (Z.eqb_neq _ NULL)) by (rewrite PHYS_TO_VIRT_small by lia; unfold NULL, ID_VIRT_REGION_START; lia).
  assert (lapic_regs a3 = lapic_regs a0) as Hregs3 by (rewrite Hr3, Ea2; done).
  assert (get_current_apic_id a3 = get_current_apic_id a0) as Hid by (unfold get_current_apic_id; by rewrite Hregs3).
  pose proof (update_awake_spec (length (cores a3)) [] (cores a3) 0 a3 eq_refl eq_refl) as Hu.
  unfold update_awake_cores. rewrite Hc3 in Hu at 2 3. cbn [length app] in Hu. change (Z.of_nat 0) with 0 in Hu. change (u8 0) with 0 in Hu. rewrite Hu, bind_Ok, Hid, Hself.
  set (a4 := set_cores _ _ a3). change (negb (u8 (0 + 1) =? 1)) with false. cbv iota. change (ioapic_addr a4) with (ioapic_addr a3). rewrite Hi3, VIRT_TO_PHYS_TO_VIRT by lia.
  assert (aheap a4 = aheap a2) as Hh4 by (cbn; by rewrite Hh3).
  eapply runs_bind; [eapply runs_mono; [apply (ioremap_apic_spec b root T2 a4 pools fl B); [by rewrite Hh4|done]|intros x Hx; exact Hx|intros msg ?; by left]|].
  intros [v a5] (_ & (T5 & Hk5) & Ea5 & Hreach5 & Hkeep5). cbn [runs]. rewrite Ea5. cbn [set_aheap a4 set_cores cores irq_overrides ioapic_addr lapic irq_table aheap lapic_regs].
  split; [|done]. split_and!; try done.
  - change (irq_overrides a3 = overrides_of rs). rewrite Ho3, Ea2. cbn [irq_overrides set_lapic set_aheap]. by rewrite Ho1, Hov.
  - change (irq_table a3 = irq_table a0). rewrite Ht3, Ea2. done.
  - by exists T5, pools, fl, B.
  - rewrite <- Ea5. apply Hkeep5. unfold view. rewrite Hh4. exact Hreach2.
Qed.


(** ** A machine *)

Definition demo_boot_records : list (list Z) :=
  [[0; 8; 0; 7; 1; 0; 0; 0]; [1; 12; 0; 0] ++ le_enc 4 0xFEC00000 ++ le_enc 4 0; [2; 10; 0; 1; 2; 0; 0; 0; 15; 0]; [0; 8; 1; 9; 1; 0; 0; 0]].
Definition demo_last_record : list Z := [4; 6; 255; 0; 0; 1].
Definition demo_boot_fw : Z → Z := image_byte
  [(0xE0040, demo_rsdp); (0xE1000, demo_sdt "RSDT" (le_enc 4 0xE2000 ++ le_enc 4 0xE3000)); (0xE2000, demo_sdt "FACP" []);
   (0xE3000, demo_sdt "APIC" (le_enc 4 0xFEE00000 ++ le_enc 4 0 ++ concat (demo_boot_records ++ [demo_last_record])))].

(** The core with APIC identifier 7 runs; the timer answers at the second poll. *)
Definition demo_boot : platform :=
  Platform (Apic 0 {[ lapic_reg "id" := Z.shiftl 7 24 ]} 0 0 {[ 1 := 0x170020 ]} [] 0 [] 0 false (replicate 224 (IrqDesc 0 0 0))
              (with_mmu (acpi_mmu demo_acpi) demo_heap)) (IoPorts [] [0x30; 0xB0]) NULL false.

Lemma demo_boot_kspace : (∃ T, kspace 0x1000 T (aheap (pf_apic demo_boot)) ∅ (replicate 6 []) ∅) ∧ ∀ q, 0x100000 <= q < 0x100014 → reach 0x1000 (view (pf_apic demo_boot)) q.
Proof.
  pose proof (ioremap_remaps false 0x1000 demo_fw (Acpi demo_mmu NULL false) demo_tables 0x100000 0x1000 demo_mmu_wf ltac:(by vm_compute)) as Hr.
  assert (ok (ioremap false (PHYS_TO_VIRT 0x1000) 0x100000 0x1000 demo_mmu) = true) as Hok by (vm_compute; reflexivity).
  assert (kspace 0x1000 demo_tables demo_heap ∅ (replicate 6 []) ∅) as Hk.
  { split; [exact demo_heap_inv|exact demo_mmu_wf|]. intros t [x Hx]. unfold demo_tables in Hx. apply lookup_singleton_Some in Hx as [<- _]. split; [lia|apply lookup_empty]. }
  unfold demo_boot, view, demo_acpi. cbn [pf_apic aheap acpi_mmu] in *. destruct (ioremap _ _ _ _ _) as [[p m]| | |]; try discriminate. cbn [runs state_of] in *.
  destruct Hr as (_ & [T Hr] & (_ & _ & Hreach) & _). split; [exists T; eapply kspace_grown; [exact Hk|apply Hr]|].
  intros q Hq. apply (Hreach q). lia.
Qed.

Lemma demo_boot_firmware : firmware_ok 0x1000 demo_boot_fw (pf_apic demo_boot) 0xE0040 0xE3000 demo_boot_records demo_last_record 0xFEE00000 0xFEC00000.
Proof.
  split.
  - vm_compute. reflexivity.
  - apply demo_boot_kspace.
  - cbv zeta. assert (sdt_addr demo_boot_fw 0xE0040 = 0xE1000 ∧ table_len demo_boot_fw 0xE1000 = 44) as [-> ->] by (vm_compute; done).
    split; [by vm_compute|]. split; [done|]. split; [by vm_compute|]. intros q Hq. right. change (PAGE_ALIGN_DOWN _) with 0xE1000 in Hq. change (PAGE_ALIGN_UP _) with 0x1000 in Hq.
    unfold RSDP_REGION_START, RSDP_REGION_END. lia.
  - assert (sdt_entries demo_boot_fw 0xE0040 = [0xE2000; 0xE3000]) as -> by (vm_compute; done). repeat constructor; try (by vm_compute); intros _; by vm_compute.
  - vm_compute. reflexivity.
  - exists (fw_bytes demo_boot_fw 44 0xE3000), []. split; [vm_compute; reflexivity|]. split; [vm_compute; reflexivity|].
    split; [apply (bool_decide_unpack _); vm_compute; exact I|vm_compute; reflexivity].
  - apply (bool_decide_unpack _). vm_compute. exact I.
  - split; [vm_compute; reflexivity|by vm_compute].
  - split; [vm_compute; reflexivity|by vm_compute].
  - by vm_compute.
  - vm_compute. reflexivity.
Qed.

