(* ===== verification/Machine.v ===== *)
(** * Machine code of the kernel's entry and exit paths

    The assembly routines that switch stacks and cross the border between
    user and kernel mode (switch.asm, isr.asm, syscall.asm), as lists of
    instructions with their effect on the registers and on memory.  A call of
    a C function is its effect as a whole, a parameter; the status flags other
    than ZF are not tracked, and none of the routines reads them. *)

From S2P Require Import Prelude Types.

Inductive reg := RAX | RBX | RCX | RDX | RSI | RDI | RBP | R8 | R9 | R10 | R11 | R12 | R13 | R14 | R15.
#[export] Instance reg_eq_dec : EqDecision reg.
Proof. solve_decision. Defined.

(** [kgs_base] is the register [swapgs] exchanges with the base of GS. *)
Record cpu := Cpu {
  gpr : reg → Z; rsp : Z; rip : Z; rflags : Z; zf : bool; seg_cs : Z; seg_ss : Z; gs_base : Z; kgs_base : Z; cmem : gmap Z Z
}.

Definition upd (g : reg → Z) (r : reg) (v : Z) : reg → Z := λ x, if decide (x = r) then v else g x.

Definition set_gpr r v c := Cpu (upd (gpr c) r v) (rsp c) (rip c) (rflags c) (zf c) (seg_cs c) (seg_ss c) (gs_base c) (kgs_base c) (cmem c).
Definition set_rsp v c := Cpu (gpr c) v (rip c) (rflags c) (zf c) (seg_cs c) (seg_ss c) (gs_base c) (kgs_base c) (cmem c).
Definition set_rip v c := Cpu (gpr c) (rsp c) v (rflags c) (zf c) (seg_cs c) (seg_ss c) (gs_base c) (kgs_base c) (cmem c).
Definition set_rflags v c := Cpu (gpr c) (rsp c) (rip c) v (zf c) (seg_cs c) (seg_ss c) (gs_base c) (kgs_base c) (cmem c).
Definition set_zf b c := Cpu (gpr c) (rsp c) (rip c) (rflags c) b (seg_cs c) (seg_ss c) (gs_base c) (kgs_base c) (cmem c).
Definition set_segs x y c := Cpu (gpr c) (rsp c) (rip c) (rflags c) (zf c) x y (gs_base c) (kgs_base c) (cmem c).
Definition set_cmem m c := Cpu (gpr c) (rsp c) (rip c) (rflags c) (zf c) (seg_cs c) (seg_ss c) (gs_base c) (kgs_base c) m.
Definition swapgs c := Cpu (gpr c) (rsp c) (rip c) (rflags c) (zf c) (seg_cs c) (seg_ss c) (kgs_base c) (gs_base c) (cmem c).

Inductive instr :=
| PUSH (r : reg)
| PUSHI (n : Z)
| POP (r : reg)
| PUSHFQ
| POPFQ
| MOV (d s : reg)
| MOVI (d : reg) (n : Z)
| MOV_FROM_RSP (d : reg)             (* mov d, rsp *)
| LOAD_SP (d : reg) (off : Z)        (* mov d, [rsp + off] *)
| STORE_RSP (base : reg)             (* mov [base], rsp *)
| LOAD_RSP (base : reg)              (* mov rsp, [base] *)
| ADD_RSP (n : Z)
| TEST (r : reg)                     (* test r, r *)
| TEST_SP (off mask : Z)             (* test qword [rsp + off], mask *)
| JZ (n : nat)                       (* over the next n instructions *)
| SWAPGS
| CLD
| CLI
| GS_STORE_RSP (off : Z)             (* mov gs:[off], rsp *)
| GS_LOAD_RSP (off : Z)              (* mov rsp, gs:[off] *)
| GS_ADD_RSP (off : Z)               (* add rsp, gs:[off] *)
| CALL (f : Z)
| CALL_REG (r : reg)
| CALL_TABLE (base idx : reg)        (* call [base + idx * 8] *)
| RET
| IRETQ
| SYSRET.

Definition push (v : Z) (c : cpu) : cpu := let a := u64 (rsp c - 8) in set_rsp a (set_cmem (st (cmem c) a v) c).
Definition top (c : cpu) : Z := ld (cmem c) (rsp c).
Definition drop_top (c : cpu) : cpu := set_rsp (u64 (rsp c + 8)) c.

Definition IF_BIT : Z := 0x200.
(** Bits 32-47 and 48-63 of the STAR register, which [syscall_init] loads. *)
Definition STAR_KERNEL : Z := 0x08.
Definition STAR_USER : Z := 0x13.
Definition FMASK : Z := IF_BIT.

Section exec.
Context (call : Z → cpu → res cpu).

(** Instructions that do not transfer control. *)
Definition step (i : instr) (c : cpu) : res cpu :=
  match i with
  | PUSH r => Ok (push (gpr c r) c)
  | PUSHI n => Ok (push n c)
  | POP r => Ok (set_gpr r (top c) (drop_top c))
  | PUSHFQ => Ok (push (rflags c) c)
  | POPFQ => Ok (set_rflags (top c) (drop_top c))
  | MOV d s => Ok (set_gpr d (gpr c s) c)
  | MOVI d n => Ok (set_gpr d n c)
  | MOV_FROM_RSP d => Ok (set_gpr d (rsp c) c)
  | LOAD_SP d off => Ok (set_gpr d (ld (cmem c) (u64 (rsp c + off))) c)
  | STORE_RSP b => Ok (set_cmem (st (cmem c) (gpr c b) (rsp c)) c)
  | LOAD_RSP b => Ok (set_rsp (ld (cmem c) (gpr c b)) c)
  | ADD_RSP n => Ok (set_rsp (u64 (rsp c + n)) c)
  | TEST r => Ok (set_zf (gpr c r =? 0) c)
  | TEST_SP off mask => Ok (set_zf (Z.land (ld (cmem c) (u64 (rsp c + off))) mask =? 0) c)
  | SWAPGS => Ok (swapgs c)
  | CLD => Ok (set_rflags (Z.ldiff (rflags c) 0x400) c)
  | CLI => Ok (set_rflags (Z.ldiff (rflags c) IF_BIT) c)
  | GS_STORE_RSP off => Ok (set_cmem (st (cmem c) (u64 (gs_base c + off)) (rsp c)) c)
  | GS_LOAD_RSP off => Ok (set_rsp (ld (cmem c) (u64 (gs_base c + off))) c)
  | GS_ADD_RSP off => Ok (set_rsp (u64 (rsp c + ld (cmem c) (u64 (gs_base c + off)))) c)
  | CALL f => call f c
  | CALL_REG r => call (gpr c r) c
  | CALL_TABLE b x => call (ld (cmem c) (u64 (gpr c b + gpr c x * 8))) c
  | JZ _ | RET | IRETQ | SYSRET => Fault
  end.

Definition do_ret (c : cpu) : cpu := set_rip (top c) (drop_top c).

(** rip, cs, rflags, rsp and ss from the stack. *)
Definition do_iretq (c : cpu) : cpu :=
  let w i := ld (cmem c) (u64 (rsp c + 8 * i)) in
  set_segs (w 1) (w 4) (set_rflags (w 2) (set_rsp (w 3) (set_rip (w 0) c))).

Definition do_sysret (c : cpu) : cpu :=
  set_segs (Z.lor (STAR_USER + 16) 3) (Z.lor (STAR_USER + 8) 3)
    (set_rflags (Z.lor (Z.land (gpr c R11) 0x3C7FD7) 2) (set_rip (gpr c RCX) c)).

(** [skip] instructions are still to be jumped over. *)
Fixpoint exec (skip : nat) (code : list instr) (c : cpu) : res cpu :=
  match code with
  | [] => Fault
  | i :: k =>
      match skip with
      | S n => exec n k c
      | O =>
          match i with
          | JZ n => if zf c then exec n k c else exec 0 k c
          | RET => Ok (do_ret c)
          | IRETQ => Ok (do_iretq c)
          | SYSRET => Ok (do_sysret c)
          | _ => c ← step i c; exec 0 k c
          end
      end
  end.
End exec.

(** What the processor does at a [syscall] instruction; [rip] is already that
    of the next instruction. *)
Definition hw_syscall (lstar : Z) (c : cpu) : cpu :=
  set_segs STAR_KERNEL (STAR_KERNEL + 8)
    (set_rflags (Z.ldiff (rflags c) FMASK) (set_rip lstar (set_gpr R11 (rflags c) (set_gpr RCX (rip c) c)))).

(** ** switch.asm *)

Definition __arch_switch_to : list instr :=
  [PUSHFQ; PUSH RBX; PUSH RBP; PUSH R12; PUSH R13; PUSH R14; PUSH R15; STORE_RSP RDI; LOAD_RSP RSI;
   POP R15; POP R14; POP R13; POP R12; POP RBP; POP RBX; POPFQ; RET].

Definition pop_all : list instr :=
  [POP R15; POP R14; POP R13; POP R12; POP R11; POP R10; POP R9; POP R8; POP RBP; POP RDI; POP RSI; POP RDX; POP RCX; POP RBX; POP RAX].
Definition push_all : list instr :=
  [PUSH RAX; PUSH RBX; PUSH RCX; PUSH RDX; PUSH RSI; PUSH RDI; PUSH RBP; PUSH R8; PUSH R9; PUSH R10; PUSH R11; PUSH R12; PUSH R13; PUSH R14; PUSH R15].

(** The error code is dropped, and GS exchanged on the way to user mode. *)
Definition return_from_frame : list instr := pop_all ++ [ADD_RSP 8; TEST_SP 8 3; JZ 1; SWAPGS; IRETQ].

Definition ret_from_fork : list instr := [TEST R12; JZ 2; MOV RDI R13; CALL_REG R12] ++ return_from_frame.

(** ** isr.asm: from the error code or vector on the stack to [iretq] *)

Definition enter_frame : list instr := [TEST_SP 16 3; JZ 1; SWAPGS] ++ push_all ++ [MOV_FROM_RSP RDI].

Definition int_err (n handler : Z) : list instr := enter_frame ++ [MOVI RSI n; CLD; CALL handler] ++ return_from_frame.
Definition int_no_err (n handler : Z) : list instr := [PUSHI 0] ++ int_err n handler.
Definition irq_tramp (v irq_router : Z) : list instr :=
  [PUSHI v] ++ enter_frame ++ [LOAD_SP RSI 120; CLD; CALL irq_router] ++ return_from_frame.

(** ** syscall.asm *)

Definition syscall_entry (syscall_table : Z) : list instr :=
  [SWAPGS; GS_STORE_RSP 8; GS_LOAD_RSP 0; GS_ADD_RSP 24] ++ push_all ++
  [MOV RCX R10; MOVI R12 syscall_table; CALL_TABLE R12 RAX] ++
  [POP R15; POP R14; POP R13; POP R12; POP R11; POP R10; POP R9; POP R8; POP RBP; POP RDI; POP RSI; POP RDX; POP RCX; POP RBX;
   ADD_RSP 8; CLI; GS_LOAD_RSP 8; SWAPGS; SYSRET].

(** ** Words on a stack *)

(** The words from [a] upwards. *)
Fixpoint stack (m : gmap Z Z) (a : Z) (l : list Z) : Prop :=
  match l with
  | [] => True
  | v :: l' => ld m a = v ∧ stack m (a + 8) l'
  end.

Lemma stack_agree m m' a l : (∀ x, a <= x < a + 8 * Z.of_nat (length l) → ld m' x = ld m x) → stack m a l → stack m' a l.
Proof.
  revert a. induction l as [|v l IH]; intros a Hm Hs; [done|]. cbn [stack length] in *. destruct Hs as [Hv Hs].
  split; [rewrite Hm by lia; done|]. apply IH; [|done]. intros x Hx. apply Hm. lia.
Qed.

Lemma stack_app m a l1 l2 : stack m a (l1 ++ l2) ↔ stack m a l1 ∧ stack m (a + 8 * Z.of_nat (length l1)) l2.
Proof.
  revert a. induction l1 as [|v l1 IH]; intros a; cbn [stack app length]; [rewrite Z.add_0_r; tauto|].
  rewrite IH. replace (a + 8 + 8 * Z.of_nat (length l1)) with (a + 8 * Z.of_nat (S (length l1))) by lia. tauto.
Qed.

Lemma stack_st_out m a l x v : x < a ∨ a + 8 * Z.of_nat (length l) <= x → stack m a l → stack (st m x v) a l.
Proof. intros Hx. apply stack_agree. intros y Hy. apply ld_st_ne. lia. Qed.

Lemma stack_lookup m a l i v : stack m a l → l !! i = Some v → ld m (a + 8 * Z.of_nat i) = v.
Proof.
  revert a i. induction l as [|x l IH]; intros a [|i] Hs Hi; try done; cbn [stack] in Hs; destruct Hs as [Hx Hs].
  - cbn in Hi. injection Hi as <-. by rewrite Z.add_0_r.
  - rewrite <- (IH (a + 8) i Hs Hi). f_equal. lia.
Qed.

(** The words a sequence of pushes leaves below [a]. *)
Fixpoint pushes (m : gmap Z Z) (a : Z) (vs : list Z) : gmap Z Z :=
  match vs with
  | [] => m
  | v :: vs' => pushes (st m (a - 8) v) (a - 8) vs'
  end.

Lemma pushes_stack vs : ∀ m a l, stack m a l → stack (pushes m a vs) (a - 8 * Z.of_nat (length vs)) (rev vs ++ l).
Proof.
  induction vs as [|v vs IH]; intros m a l Hs; cbn [pushes length rev app]; [by rewrite Z.sub_0_r|].
  rewrite <- app_assoc. replace (a - 8 * Z.of_nat (S (length vs))) with (a - 8 - 8 * Z.of_nat (length vs)) by lia. apply IH.
  cbn [app stack]. split; [apply ld_st_eq|]. replace (a - 8 + 8) with a by lia. apply stack_st_out; [lia|done].
Qed.

Lemma pushes_out vs : ∀ m a x, x < a - 8 * Z.of_nat (length vs) ∨ a <= x → ld (pushes m a vs) x = ld m x.
Proof.
  induction vs as [|v vs IH]; intros m a x Hx; cbn [pushes length] in *; [done|]. rewrite IH by lia. apply ld_st_ne. lia.
Qed.

(** Registers after a sequence of pops. *)
Fixpoint loads (g : reg → Z) (rs : list reg) (vs : list Z) : reg → Z :=
  match rs, vs with
  | r :: rs', v :: vs' => loads (upd g r v) rs' vs'
  | _, _ => g
  end.

Section exec_lemmas.
Context (call : Z → cpu → res cpu).

Lemma exec_pushes rs k : ∀ c, 8 * Z.of_nat (length rs) <= rsp c < 2 ^ 64 →
  exec call 0 ((PUSH <$> rs) ++ k) c =
  exec call 0 k (set_rsp (rsp c - 8 * Z.of_nat (length rs)) (set_cmem (pushes (cmem c) (rsp c) (gpr c <$> rs)) c)).
Proof.
  induction rs as [|r rs IH]; intros c Hc.
  { cbn. rewrite Z.sub_0_r. by destruct c. }
  cbn [fmap list_fmap app exec step mbind res_bind length] in *. unfold push. rewrite u64_small by lia.
  etransitivity; [apply IH; cbn; lia|]. unfold set_rsp, set_cmem. cbn [rsp cmem gpr pushes rip rflags zf seg_cs seg_ss gs_base kgs_base]. do 2 f_equal. lia.
Qed.

Lemma exec_pops rs k : ∀ vs c, length vs = length rs → stack (cmem c) (rsp c) vs → 0 <= rsp c → rsp c + 8 * Z.of_nat (length rs) < 2 ^ 64 →
  exec call 0 ((POP <$> rs) ++ k) c =
  exec call 0 k (Cpu (loads (gpr c) rs vs) (rsp c + 8 * Z.of_nat (length rs)) (rip c) (rflags c) (zf c) (seg_cs c) (seg_ss c) (gs_base c) (kgs_base c) (cmem c)).
Proof.
  induction rs as [|r rs IH]; intros [|v vs] c Hl Hs H0 Hc; cbn [length] in *; try lia.
  { cbn. rewrite Z.add_0_r. by destruct c. }
  destruct Hs as [Hv Hs]. cbn [fmap list_fmap app exec step mbind res_bind]. unfold top, drop_top, set_gpr, set_rsp. rewrite Hv, u64_small by lia.
  cbn [gpr rsp rip rflags zf seg_cs seg_ss gs_base kgs_base cmem].
  etransitivity; [apply (IH vs); cbn; [lia|done|lia|lia]|]. cbn [gpr rsp rip rflags zf seg_cs seg_ss gs_base kgs_base cmem loads]. do 2 f_equal. lia.
Qed.

(** One instruction that does not transfer control. *)
Definition straight (i : instr) : bool := match i with JZ _ | RET | IRETQ | SYSRET => false | _ => true end.

Lemma exec_step i k c c' : straight i = true → step call i c = Ok c' → exec call 0 (i :: k) c = exec call 0 k c'.
Proof. intros Hi Hs. destruct i; try done; cbn [exec]; rewrite Hs; reflexivity. Qed.

Lemma exec_ret k c : exec call 0 (RET :: k) c = Ok (do_ret c).
Proof. reflexivity. Qed.
Lemma exec_iretq k c : exec call 0 (IRETQ :: k) c = Ok (do_iretq c).
Proof. reflexivity. Qed.
Lemma exec_sysret k c : exec call 0 (SYSRET :: k) c = Ok (do_sysret c).
Proof. reflexivity. Qed.

Lemma exec_jz n k c : exec call 0 (JZ n :: k) c = if zf c then exec call n k c else exec call 0 k c.
Proof. reflexivity. Qed.
Lemma exec_skip n i k c : exec call (S n) (i :: k) c = exec call n k c.
Proof. reflexivity. Qed.

(** Pops never write. *)
Lemma exec_pops_mem rs k : ∀ c, ∃ c', exec call 0 ((POP <$> rs) ++ k) c = exec call 0 k c' ∧ cmem c' = cmem c.
Proof.
  induction rs as [|r rs IH]; intros c; [by exists c|]. cbn [fmap list_fmap app exec step mbind res_bind].
  destruct (IH (set_gpr r (top c) (drop_top c))) as (c' & E & Hm). exists c'. split; [exact E|exact Hm].
Qed.
End exec_lemmas.

Lemma loads_ne rs : ∀ g vs r, r ∉ rs → loads g rs vs r = g r.
Proof.
  induction rs as [|x rs IH]; intros g vs r Hr; [done|]. apply not_elem_of_cons in Hr as [Hne Hr]. destruct vs as [|v vs]; [done|].
  cbn [loads]. rewrite IH by done. unfold upd. by rewrite decide_False.
Qed.

(** Popping what was pushed gives the registers back. *)
Lemma loads_same rs : ∀ g g' r, NoDup rs → r ∈ rs → loads g rs (g' <$> rs) r = g' r.
Proof.
  induction rs as [|x rs IH]; intros g g' r Hnd Hr; [by apply not_elem_of_nil in Hr|]. apply NoDup_cons in Hnd as [Hx Hnd].
  cbn [fmap list_fmap loads]. destruct (decide (r ∈ rs)) as [Hin|Hin].
  - by apply IH.
  - apply elem_of_cons in Hr as [->|Hr]; [|done]. rewrite loads_ne by done. unfold upd. by rewrite decide_True.
Qed.

(** The registers of an interrupt frame, in the order they are popped. *)
Definition frame_regs : list reg := [R15; R14; R13; R12; R11; R10; R9; R8; RBP; RDI; RSI; RDX; RCX; RBX; RAX].

(** The state [return_from_frame] leaves, for the words above the registers. *)
Definition returned (c : cpu) (g : reg → Z) (wrip wcs wfl wrsp wss : Z) : cpu :=
  let user := negb (Z.land wcs 3 =? 0) in
  Cpu g wrsp wrip wfl (negb user) wcs wss (if user then kgs_base c else gs_base c) (if user then gs_base c else kgs_base c) (cmem c).

Lemma return_spec call c gs err wrip wcs wfl wrsp wss : 0 <= rsp c → rsp c + 168 < 2 ^ 64 → length gs = 15%nat →
  stack (cmem c) (rsp c) (gs ++ [err; wrip; wcs; wfl; wrsp; wss]) →
  exec call 0 return_from_frame c = Ok (returned c (loads (gpr c) frame_regs gs) wrip wcs wfl wrsp wss).
Proof.
  intros H0 H1 Hl Hs. apply stack_app in Hs as [Hs Ht]. rewrite Hl in Ht. change (8 * Z.of_nat 15) with 120 in Ht. cbn [stack] in Ht.
  destruct Ht as (_ & Hrip & Hcs & Hfl & Hrsp & Hss & _).
  change return_from_frame with ((POP <$> frame_regs) ++ ADD_RSP 8 :: TEST_SP 8 3 :: JZ 1 :: SWAPGS :: [IRETQ]).
  rewrite (exec_pops _ _ _ gs) by (done || (change (8 * Z.of_nat (length frame_regs)) with 120; lia)). change (8 * Z.of_nat (length frame_regs)) with 120.
  unfold returned. set (g := loads _ _ _). clearbody g. destruct c as [g0 sp ip fl z cs ss gb kb m]. cbn [gpr rsp rip rflags zf seg_cs seg_ss gs_base kgs_base cmem] in *.
  rewrite (exec_step _ _ _ _ (Cpu g (sp + 128) ip fl z cs ss gb kb m)); [| done |].
  2:{ cbn [step rsp]. rewrite u64_small by lia. replace (sp + 120 + 8) with (sp + 128) by lia. reflexivity. }
  rewrite (exec_step _ _ _ _ (Cpu g (sp + 128) ip fl (Z.land wcs 3 =? 0) cs ss gb kb m)); [| done |].
  2:{ cbn [step]. unfold set_zf. cbn [gpr rsp rip rflags zf seg_cs seg_ss gs_base kgs_base cmem]. rewrite u64_small by lia.
      replace (sp + 128 + 8) with (sp + 120 + 8 + 8) by lia. by rewrite Hcs. }
  assert (∀ gb kb b, do_iretq (Cpu g (sp + 128) ip fl b cs ss gb kb m) = Cpu g wrsp wrip wfl b wcs wss gb kb m) as Hir.
  { intros. unfold do_iretq, set_segs, set_rflags, set_rsp, set_rip. cbn [gpr rsp rip rflags zf seg_cs seg_ss gs_base kgs_base cmem]. rewrite !u64_small by lia.
    rewrite <- Hrip, <- Hcs, <- Hfl, <- Hrsp, <- Hss. f_equal; f_equal; lia. }
  rewrite exec_jz. cbn [zf]. destruct (Z.land wcs 3 =? 0); cbn [negb].
  - rewrite exec_skip, exec_iretq. by rewrite Hir.
  - rewrite (exec_step _ _ _ _ (Cpu g (sp + 128) ip fl false cs ss kb gb m)), exec_iretq by reflexivity. by rewrite Hir.
Qed.
