(* ===== verification/Switch.v ===== *)
(** * Context switches (arch/x86_64/kernel/process.c and switch.asm)

    A task that does not run has its registers on its kernel stack, in a
    [switch_frame] that [ctx.rsp] points to.  A new task gets a frame made up
    by process.c, with an [interrupt_frame] above it for the way out of the
    kernel. *)

From S2P Require Import Prelude Types FrameAlloc EarlyPmm Pmm Paging Vmm Kmalloc Mm ListHead Sched Machine.

(** ** process.c *)

(** The address of [ctx.rsp]. *)
Definition t_ctx_rsp (t : Z) : Z := u64 (t + 24).

(** The interrupt frame of a task that enters user mode at [entry]. *)
Definition user_frame (m : gmap Z Z) (iret entry_point : Z) : gmap Z Z :=
  let m := st m (u64 (iret + 128)) entry_point in
  let m := st m (u64 (iret + 136)) (0x20 + 3) in
  let m := st m (u64 (iret + 160)) (0x18 + 3) in
  let m := st m (u64 (iret + 144)) 0x202 in
  st m (u64 (iret + 152)) (TASK_USER_STACK_TOP_ADDR - 8).

Definition arch_init_context (ret_from_fork_addr t entry_point : Z) (s : sched) : sched :=
  let stack_top := u64 (t_kernel_stack (smem s) t + TASK_KERNEL_STACK_SIZE) in
  let iret_addr := u64 (stack_top - INTERRUPT_FRAME_SIZE) in
  let m := user_frame (zero_words 21 iret_addr (smem s)) iret_addr entry_point in
  let switch_addr := u64 (iret_addr - SWITCH_FRAME_SIZE) in
  let m := zero_words 8 switch_addr m in
  let m := st m (u64 (switch_addr + 56)) ret_from_fork_addr in
  let m := st m (u64 (switch_addr + 48)) 0x202 in
  set_smem (st m (t_ctx_rsp t) switch_addr) s.

Definition arch_update_init_task_context (t entry_point : Z) (s : sched) : sched :=
  let stack_top := u64 (t_kernel_stack (smem s) t + TASK_KERNEL_STACK_SIZE) in
  let iret_addr := u64 (stack_top - INTERRUPT_FRAME_SIZE) in
  set_smem (user_frame (smem s) iret_addr entry_point) s.

(** ** The switch itself *)

Definition saved_regs : list reg := [R15; R14; R13; R12; RBP; RBX].

(** The memory after [__arch_switch_to] saved the running task. *)
Definition save_frame (c : cpu) : gmap Z Z :=
  st (pushes (cmem c) (rsp c) (rflags c :: (gpr c <$> rev saved_regs))) (gpr c RDI) (rsp c - 56).

(** The first half: the running task is saved, the stack is the other one's. *)
Definition switched (c : cpu) : cpu :=
  Cpu (gpr c) (ld (save_frame c) (gpr c RSI)) (rip c) (rflags c) (zf c) (seg_cs c) (seg_ss c) (gs_base c) (kgs_base c) (save_frame c).

Lemma switch_halves call c : 56 <= rsp c < 2 ^ 64 →
  exec call 0 __arch_switch_to c = exec call 0 ((POP <$> saved_regs) ++ [POPFQ; RET]) (switched c).
Proof.
  intros Hr. change __arch_switch_to with (PUSHFQ :: (PUSH <$> rev saved_regs) ++ STORE_RSP RDI :: LOAD_RSP RSI :: (POP <$> saved_regs) ++ [POPFQ; RET]).
  set (k := (POP <$> saved_regs) ++ _). clearbody k.
  set (c1 := Cpu (gpr c) (rsp c - 8) (rip c) (rflags c) (zf c) (seg_cs c) (seg_ss c) (gs_base c) (kgs_base c) (st (cmem c) (rsp c - 8) (rflags c))).
  rewrite (exec_step _ _ _ _ c1) by (done || (unfold c1; cbn [step]; unfold push; rewrite u64_small by lia; reflexivity)).
  rewrite exec_pushes by (cbn [c1 rsp]; change (8 * Z.of_nat (length (rev saved_regs))) with 48; lia).
  change (8 * Z.of_nat (length (rev saved_regs))) with 48. cbn [c1 rsp]. replace (rsp c - 8 - 48) with (rsp c - 56) by lia.
  set (c2 := set_rsp _ _). rewrite (exec_step _ _ _ _ (set_cmem (save_frame c) c2)) by reflexivity.
  rewrite (exec_step _ _ _ _ (switched c)) by reflexivity. reflexivity.
Qed.

Lemma switch_spec call c ws wfl wrip : let m := save_frame c in let b := ld m (gpr c RSI) in
  56 <= rsp c < 2 ^ 64 → 0 <= b → b + 64 < 2 ^ 64 → length ws = 6%nat → stack m b (ws ++ [wfl; wrip]) →
  exec call 0 __arch_switch_to c =
    Ok (Cpu (loads (gpr c) saved_regs ws) (b + 64) wrip wfl (zf c) (seg_cs c) (seg_ss c) (gs_base c) (kgs_base c) m).
Proof.
  intros m b Hr Hb0 Hb Hl Hs. apply stack_app in Hs as [Hs Hs2]. rewrite Hl in Hs2. cbn [stack] in Hs2. destruct Hs2 as (Hfl & Hrip & _).
  rewrite switch_halves by done. rewrite (exec_pops _ _ _ ws) by (done || (change (8 * Z.of_nat (length saved_regs)) with 48; cbn [switched rsp]; fold m; fold b; lia)).
  change (8 * Z.of_nat (length saved_regs)) with 48. change (8 * Z.of_nat 6) with 48 in *. cbn [switched gpr rsp rip rflags zf seg_cs seg_ss gs_base kgs_base cmem]. fold m. fold b.
  generalize (loads (gpr c) saved_regs ws). intros g. clearbody m b.
  rewrite (exec_step _ _ _ _ (Cpu g (b + 56) (rip c) wfl (zf c) (seg_cs c) (seg_ss c) (gs_base c) (kgs_base c) m)), exec_ret; [| done |].
  2:{ cbn [step]. unfold top, drop_top, set_rflags, set_rsp. cbn [gpr rsp rip rflags zf seg_cs seg_ss gs_base kgs_base cmem]. rewrite Hfl, u64_small by lia. do 2 f_equal. lia. }
  unfold do_ret, top, drop_top, set_rip, set_rsp. cbn [gpr rsp rip rflags zf seg_cs seg_ss gs_base kgs_base cmem].
  replace (b + 56) with (b + 48 + 8) by lia. rewrite Hrip, u64_small by lia. do 2 f_equal. lia.
Qed.

Lemma switch_saves call c c' : 56 <= rsp c < 2 ^ 64 → exec call 0 __arch_switch_to c = Ok c' → cmem c' = save_frame c.
Proof.
  intros Hr. rewrite switch_halves by done. destruct (exec_pops_mem call saved_regs [POPFQ; RET] (switched c)) as (c3 & -> & Hm).
  intros E. injection E as <-. exact Hm.
Qed.

(** The words of the frame a task is left with. *)
Lemma save_frame_stack c : 56 <= rsp c → gpr c RDI < rsp c - 56 ∨ rsp c + 8 <= gpr c RDI →
  stack (save_frame c) (rsp c - 56) ((gpr c <$> saved_regs) ++ [rflags c; ld (cmem c) (rsp c)]).
Proof.
  intros Hr Hd. unfold save_frame. apply stack_st_out; [cbn; lia|].
  pose proof (pushes_stack (rflags c :: (gpr c <$> rev saved_regs)) (cmem c) (rsp c) [ld (cmem c) (rsp c)]) as Hp.
  change (8 * Z.of_nat (length (rflags c :: (gpr c <$> rev saved_regs)))) with 56 in Hp. by apply Hp.
Qed.

Lemma save_frame_out c x : x < rsp c - 56 ∨ rsp c <= x → x ≠ gpr c RDI → ld (save_frame c) x = ld (cmem c) x.
Proof. intros Hx Hne. unfold save_frame. rewrite ld_st_ne by done. apply pushes_out. cbn. lia. Qed.

(** A word outside the frame and the task's [ctx.rsp]. *)
Definition spares (c : cpu) (x : Z) : Prop := (x < rsp c - 56 ∨ rsp c <= x) ∧ x ≠ gpr c RDI.

(** C8: a context switch is a round trip.  When a task [A] calls
    [__arch_switch_to], whatever then runs without touching [A]'s frame and
    its [ctx.rsp], and at last some task switches back to [A], [A] continues
    behind its call with the callee-saved registers, the flags (and so its
    interrupt state) and the stack pointer it had. *)
Theorem switch_roundtrip call c1 c2 c3 : 56 <= rsp c1 → rsp c1 + 8 < 2 ^ 64 → 56 <= rsp c3 < 2 ^ 64 →
  exec call 0 __arch_switch_to c1 = Ok c2 →
  gpr c1 RDI < rsp c1 - 56 ∨ rsp c1 + 8 <= gpr c1 RDI →
  (∀ x, x = gpr c1 RDI ∨ rsp c1 - 56 <= x < rsp c1 + 8 → ld (cmem c3) x = ld (cmem c2) x ∧ spares c3 x) →
  gpr c3 RSI = gpr c1 RDI →
  ∃ c4, exec call 0 __arch_switch_to c3 = Ok c4 ∧ rip c4 = ld (cmem c1) (rsp c1) ∧ rsp c4 = rsp c1 + 8 ∧ rflags c4 = rflags c1 ∧
    (∀ r, r ∈ saved_regs → gpr c4 r = gpr c1 r) ∧ cmem c4 = save_frame c3.
Proof.
  intros H1 H1' H3 Hm2 Hd Hkeep Hsi. apply switch_saves in Hm2; [|lia].
  assert (∀ x, x = gpr c1 RDI ∨ rsp c1 - 56 <= x < rsp c1 + 8 → ld (save_frame c3) x = ld (save_frame c1) x) as Hk.
  { intros x Hx. destruct (Hkeep x Hx) as [Hv [Hs Hne]]. rewrite save_frame_out by done. by rewrite Hv, Hm2. }
  assert (ld (save_frame c3) (gpr c3 RSI) = rsp c1 - 56) as Hb.
  { rewrite Hsi, Hk by by left. apply ld_st_eq. }
  eexists. split.
  { apply (switch_spec call c3 (gpr c1 <$> saved_regs) (rflags c1) (ld (cmem c1) (rsp c1))); rewrite ?Hb; [lia|lia|lia|done|].
    eapply stack_agree; [|apply save_frame_stack; [lia|done]]. intros x Hx. apply Hk. right. cbn in Hx. lia. }
  cbn [rip rsp rflags gpr cmem]. rewrite Hb. split_and!; try done; [lia|]. intros r Hr. apply loads_same; [|done].
  apply (bool_decide_unpack _). vm_compute. exact I.
Qed.

(** ** New tasks *)

Lemma zero_words_range n p m x : 0 <= p → p + 8 * Z.of_nat n <= 2 ^ 64 → p <= x < p + 8 * Z.of_nat n → (x - p) mod 8 = 0 → ld (zero_words n p m) x = 0.
Proof.
  intros Hp Hn Hx Hm. assert (x = u64 (p + 8 * ((x - p) / 8))) as -> by (rewrite u64_small; zlia). apply zero_words_in. zlia.
Qed.

Lemma zero_words_other n p m x : 0 <= p → p + 8 * Z.of_nat n <= 2 ^ 64 → x < p ∨ p + 8 * Z.of_nat n <= x → ld (zero_words n p m) x = ld m x.
Proof. intros Hp Hn Hx. apply zero_words_out. intros j Hj. rewrite u64_small by lia. lia. Qed.

Ltac ld_frame := repeat first
  [rewrite ld_st_ne by lia | rewrite ld_st, decide_True by lia | rewrite zero_words_other by lia | rewrite zero_words_range by (lia || zlia)].

(** The kernel stack of [t], clear of its [task_struct]. *)
Definition stack_ok (m : gmap Z Z) (t : Z) : Prop :=
  let ks := t_kernel_stack m t in
  0 <= t ∧ t + TASK_STRUCT_SIZE < 2 ^ 64 ∧ 0 <= ks ∧ ks + TASK_KERNEL_STACK_SIZE < 2 ^ 64 ∧
  (t + TASK_STRUCT_SIZE <= ks ∨ ks + TASK_KERNEL_STACK_SIZE <= t).

#[export] Instance stack_ok_dec m t : Decision (stack_ok m t).
Proof. unfold stack_ok. apply _. Defined.

(** Where the frames of a new task lie. *)
Definition new_frame (m : gmap Z Z) (t : Z) : Z := t_kernel_stack m t + TASK_KERNEL_STACK_SIZE - 232.

Definition user_words (entry_point : Z) : list Z := [entry_point; 0x23; 0x202; TASK_USER_STACK_TOP_ADDR - 8; 0x1B].

Lemma init_context_frames rff t entry s : stack_ok (smem s) t →
  let m := smem (arch_init_context rff t entry s) in let b := new_frame (smem s) t in
  ld m (t_ctx_rsp t) = b ∧ stack m b (replicate 6 0 ++ [0x202; rff] ++ replicate 15 0 ++ 0 :: user_words entry).
Proof.
  intros (Ht & Ht' & Hk & Hk' & Hd). unfold arch_init_context, new_frame, t_ctx_rsp, user_frame. unfold TASK_KERNEL_STACK_SIZE, TASK_KERNEL_STACK_PAGE_COUNT, PAGE_SIZE, TASK_STRUCT_SIZE, INTERRUPT_FRAME_SIZE, SWITCH_FRAME_SIZE in *.
  set (ks := t_kernel_stack (smem s) t) in *. clearbody ks. generalize (smem s). intros m0. cbn [smem set_smem set_heap heap kmem].
  change (4 * 4096) with 16384 in *. rewrite !(u64_small (ks + 16384)) by lia. rewrite !(u64_small (ks + 16384 - 168)) by lia.
  rewrite !(u64_small (ks + 16384 - 168 - 64)) by lia. rewrite !(u64_small (ks + 16384 - 168 + _)), !(u64_small (ks + 16384 - 168 - 64 + _)), (u64_small (t + 24)) by lia.
  split; [rewrite ld_st_eq; lia|]. cbn [replicate app stack user_words]. split_and!; ld_frame; done.
Qed.

Lemma kthread_frames ke rff t fn arg s : stack_ok (smem s) t →
  let m := smem (arch_init_kthread_context ke rff t fn arg s) in let b := new_frame (smem s) t in
  ld m (t_ctx_rsp t) = b ∧
  stack m b ([0; 0; arg; fn; 0; 0] ++ [0x202; rff] ++ replicate 15 0 ++ [0; ke; 0x08; 0x202; t_kernel_stack (smem s) t + TASK_KERNEL_STACK_SIZE; 0x10]).
Proof.
  intros (Ht & Ht' & Hk & Hk' & Hd). unfold arch_init_kthread_context, new_frame, t_ctx_rsp. unfold TASK_KERNEL_STACK_SIZE, TASK_KERNEL_STACK_PAGE_COUNT, PAGE_SIZE, TASK_STRUCT_SIZE, INTERRUPT_FRAME_SIZE, SWITCH_FRAME_SIZE in *.
  set (ks := t_kernel_stack (smem s) t) in *. assert (ld (smem s) (u64 (t + 8)) = ks) as Hks by done. clearbody ks. generalize dependent (smem s). intros m0 Hks. cbn [smem set_smem set_heap heap kmem].
  change (4 * 4096) with 16384 in *. rewrite !(u64_small (ks + 16384)) by lia. rewrite !(u64_small (ks + 16384 - 168)) by lia.
  rewrite !(u64_small (ks + 16384 - 168 - 64)) by lia. rewrite !(u64_small (ks + 16384 - 168 + _)), !(u64_small (ks + 16384 - 168 - 64 + _)), !(u64_small (t + _)) in * by lia.
  split; [rewrite ld_st_eq; lia|]. cbn [replicate app stack]. split_and!; ld_frame; rewrite ?Hks, ?u64_small by lia; done.
Qed.

Lemma update_context_frame t entry s m0 : stack_ok (smem s) t → let top := t_kernel_stack (smem s) t + TASK_KERNEL_STACK_SIZE in
  stack m0 (top - 168) (replicate 16 0) → (∀ x, top - 168 <= x < top - 40 → ld (smem s) x = ld m0 x) →
  stack (smem (arch_update_init_task_context t entry s)) (top - 168) (replicate 15 0 ++ 0 :: user_words entry).
Proof.
  intros (Ht & Ht' & Hk & Hk' & Hd) top Hs Hm. unfold arch_update_init_task_context, user_frame. fold top.
  assert (0 <= top - 168 ∧ top < 2 ^ 64) as [H0 H1] by (unfold top, TASK_KERNEL_STACK_SIZE, TASK_KERNEL_STACK_PAGE_COUNT, PAGE_SIZE in *; lia). clearbody top.
  unfold INTERRUPT_FRAME_SIZE. cbn [smem set_smem set_heap heap kmem]. rewrite !(u64_small top), !(u64_small (top - 168)), !(u64_small (top - 168 + _)) by lia.
  change (replicate 15 0 ++ 0 :: user_words entry) with (replicate 16 0 ++ user_words entry). apply stack_app. split.
  - eapply stack_agree; [|exact Hs]. cbn [length replicate app]. intros x Hx. rewrite !ld_st_ne by lia. apply Hm. lia.
  - cbn [length replicate app stack user_words]. split_and!; ld_frame; done.
Qed.

(** The switch to a task whose [ctx.rsp] and frame the running task's own
    frame spares. *)
Lemma switch_to_new call c t b ws wfl wrip rest : 56 <= rsp c < 2 ^ 64 → gpr c RSI = t_ctx_rsp t → 0 <= b → b + 64 < 2 ^ 64 → length ws = 6%nat →
  ld (cmem c) (t_ctx_rsp t) = b → stack (cmem c) b (ws ++ [wfl; wrip] ++ rest) →
  (∀ x, x = t_ctx_rsp t ∨ b <= x < b + 64 + 8 * Z.of_nat (length rest) → spares c x) →
  exec call 0 __arch_switch_to c =
    Ok (Cpu (loads (gpr c) saved_regs ws) (b + 64) wrip wfl (zf c) (seg_cs c) (seg_ss c) (gs_base c) (kgs_base c) (save_frame c)) ∧
  stack (save_frame c) (b + 64) rest.
Proof.
  intros Hc Hsi Hb0 Hb Hl Hctx Hs Hsp.
  assert (ld (save_frame c) (gpr c RSI) = b) as Hb'. { destruct (Hsp (t_ctx_rsp t)) as [? ?]; [by left|]. by rewrite Hsi, save_frame_out. }
  assert (stack (save_frame c) b (ws ++ [wfl; wrip] ++ rest)) as Hs'.
  { eapply stack_agree; [|exact Hs]. intros x Hx. rewrite !length_app, Hl in Hx. cbn [length] in Hx. destruct (Hsp x) as [? ?]; [right; lia|]. by apply save_frame_out. }
  rewrite (app_assoc ws) in Hs'. apply stack_app in Hs' as [Hs1 Hs2]. rewrite length_app, Hl in Hs2. change (8 * Z.of_nat (6 + length [wfl; wrip])) with 64 in Hs2.
  split; [|exact Hs2]. pose proof (switch_spec call c ws wfl wrip) as Hsw. cbv zeta in Hsw. rewrite Hb' in Hsw. by apply Hsw.
Qed.

Lemma loads_zero rs : ∀ g r, r ∈ rs → loads g rs (replicate (length rs) 0) r = 0.
Proof.
  induction rs as [|x rs IH]; intros g r Hr; [by apply not_elem_of_nil in Hr|]. cbn [length replicate loads].
  destruct (decide (r ∈ rs)); [by apply IH|]. apply elem_of_cons in Hr as [->|]; [|done]. rewrite loads_ne by done. unfold upd. by rewrite decide_True.
Qed.

Lemma all_frame_regs r : r ∈ frame_regs.
Proof. destruct r; apply (bool_decide_unpack _); vm_compute; exact I. Qed.

(** The state in which a task enters user mode at [entry] with the stack and
    the interrupt state it should have and nothing of the kernel's registers. *)
Definition user_start (entry : Z) (gs kgs : Z) (c : cpu) : Prop :=
  rip c = entry ∧ seg_cs c = 0x23 ∧ seg_ss c = 0x1B ∧ rflags c = 0x202 ∧ rsp c = TASK_USER_STACK_TOP_ADDR - 8 ∧
  (∀ r, gpr c r = 0) ∧ gs_base c = gs ∧ kgs_base c = kgs.

Lemma return_to_user call c entry : 0 <= rsp c → rsp c + 168 < 2 ^ 64 → stack (cmem c) (rsp c) (replicate 15 0 ++ 0 :: user_words entry) →
  ∃ c', exec call 0 return_from_frame c = Ok c' ∧ user_start entry (kgs_base c) (gs_base c) c' ∧ cmem c' = cmem c.
Proof.
  intros H0 H1 Hs. eexists. split; [by apply (return_spec call c (replicate 15 0) 0)|]. unfold user_start, returned. cbn [gpr rsp rip rflags seg_cs seg_ss gs_base kgs_base cmem]. split; [|done]. split_and!; try done.
  intros r. change (replicate 15 0) with (replicate (length frame_regs) 0). apply loads_zero, all_frame_regs.
Qed.

(** C14: a new user task.  When the scheduler first switches to a task set up
    by [arch_init_context], [ret_from_fork] leaves the kernel at once: the
    task starts at its entry point in user mode, with interrupts enabled, its
    stack pointer just below the top of the user stack, all registers zero
    and GS exchanged; memory changes only where the old task was saved. *)
Theorem user_task_starts call rff t entry s c : stack_ok (smem s) t → cmem c = smem (arch_init_context rff t entry s) →
  56 <= rsp c < 2 ^ 64 → gpr c RSI = t_ctx_rsp t →
  (∀ x, x = t_ctx_rsp t ∨ new_frame (smem s) t <= x < new_frame (smem s) t + 232 → spares c x) →
  ∃ c1 c2, exec call 0 __arch_switch_to c = Ok c1 ∧ rip c1 = rff ∧ rflags c1 = 0x202 ∧ exec call 0 ret_from_fork c1 = Ok c2 ∧
    user_start entry (kgs_base c) (gs_base c) c2 ∧ cmem c2 = save_frame c.
Proof.
  intros Hst Hm Hc Hsi Hsp. destruct (init_context_frames rff t entry s Hst) as [Hctx Hs]. rewrite <- Hm in Hctx, Hs.
  destruct Hst as (_ & _ & Hk & Hk' & _). set (b := new_frame (smem s) t) in *.
  assert (0 <= b ∧ b + 232 < 2 ^ 64) as [Hb0 Hb1] by (unfold b, new_frame, TASK_KERNEL_STACK_SIZE, TASK_KERNEL_STACK_PAGE_COUNT, PAGE_SIZE in *; lia). clearbody b.
  destruct (switch_to_new call c t b (replicate 6 0) 0x202 rff (replicate 15 0 ++ 0 :: user_words entry)) as [Hsw Hs']; [done..|lia|done|done|done| |].
  { intros x Hx. apply Hsp. cbn in Hx. lia. }
  set (c0 := Cpu (loads (gpr c) saved_regs (replicate 6 0)) (b + 64) rff 0x202 true (seg_cs c) (seg_ss c) (gs_base c) (kgs_base c) (save_frame c)).
  destruct (return_to_user call c0 entry) as (c2 & Hret & Hus & Hmem); [cbn; lia|cbn; lia|exact Hs'|].
  eexists _, c2. split; [exact Hsw|]. split; [reflexivity|]. split; [reflexivity|]. split; [|split; [exact Hus|exact Hmem]].
  unfold ret_from_fork. cbn [app]. rewrite (exec_step _ _ _ _ c0); [|done|].
  - rewrite exec_jz. change (zf c0) with true. cbv iota. rewrite !exec_skip. exact Hret.
  - cbn [step gpr]. change (replicate 6 0) with (replicate (length saved_regs) 0). rewrite loads_zero by (apply (bool_decide_unpack _); vm_compute; exact I). reflexivity.
Qed.

(** C16: a kernel thread.  When the scheduler first switches to a task set up
    by [arch_init_kthread_context], [ret_from_fork] calls its function with
    its argument, on the task's own stack.  If the function returns with the
    frame above untouched, the thread goes on at [kthread_exit] in kernel
    mode on a fresh stack; if it has replaced the frame by
    [arch_update_init_task_context], as the init task does, the thread
    becomes a user task at the new entry point. *)
Theorem kthread_starts call ke rff t fn arg s c : stack_ok (smem s) t → cmem c = smem (arch_init_kthread_context ke rff t fn arg s) → fn ≠ 0 →
  56 <= rsp c < 2 ^ 64 → gpr c RSI = t_ctx_rsp t →
  (∀ x, x = t_ctx_rsp t ∨ new_frame (smem s) t <= x < new_frame (smem s) t + 232 → spares c x) →
  let top := t_kernel_stack (smem s) t + TASK_KERNEL_STACK_SIZE in
  ∃ c1 e, exec call 0 __arch_switch_to c = Ok c1 ∧ rip c1 = rff ∧ gpr e RDI = arg ∧ rsp e = top - 168 ∧ cmem e = save_frame c ∧
    ∀ c', call fn e = Ok c' → rsp c' = rsp e →
      ((∀ x, top - 168 <= x < top → ld (cmem c') x = ld (cmem e) x) →
       ∃ c2, exec call 0 ret_from_fork c1 = Ok c2 ∧ rip c2 = ke ∧ seg_cs c2 = 0x08 ∧ rsp c2 = top ∧ rflags c2 = 0x202 ∧ gs_base c2 = gs_base c') ∧
      (∀ entry s1, cmem c' = smem (arch_update_init_task_context t entry s1) → stack_ok (smem s1) t → t_kernel_stack (smem s1) t = t_kernel_stack (smem s) t →
         (∀ x, top - 168 <= x < top - 40 → ld (smem s1) x = ld (cmem e) x) →
         ∃ c2, exec call 0 ret_from_fork c1 = Ok c2 ∧ user_start entry (kgs_base c') (gs_base c') c2).
Proof.
  intros Hst Hm Hfn Hc Hsi Hsp top. destruct (kthread_frames ke rff t fn arg s Hst) as [Hctx Hs]. rewrite <- Hm in Hctx, Hs. fold top in Hs.
  destruct Hst as (_ & _ & Hk & Hk' & _). assert (168 <= top ∧ 0 <= new_frame (smem s) t ∧ new_frame (smem s) t + 64 = top - 168 ∧ top < 2 ^ 64) as (Ht0 & Hb0 & Hb & Ht1).
  { unfold top, new_frame, TASK_KERNEL_STACK_SIZE, TASK_KERNEL_STACK_PAGE_COUNT, PAGE_SIZE in *. lia. }
  set (b := new_frame (smem s) t) in *. clearbody b.
  destruct (switch_to_new call c t b [0; 0; arg; fn; 0; 0] 0x202 rff (replicate 15 0 ++ [0; ke; 0x08; 0x202; top; 0x10])) as [Hsw Hs']; [done..|lia|done|done|done| |].
  { intros x Hx. apply Hsp. cbn in Hx. lia. }
  rewrite Hb in Hsw, Hs'. set (g := loads (gpr c) saved_regs [0; 0; arg; fn; 0; 0]) in *. assert (g R12 = fn ∧ g R13 = arg) as [H12 H13] by done. clearbody g.
  set (e := Cpu (upd g RDI arg) (top - 168) rff 0x202 false (seg_cs c) (seg_ss c) (gs_base c) (kgs_base c) (save_frame c)).
  eexists _, e. split; [exact Hsw|]. split; [reflexivity|]. split; [reflexivity|]. split; [reflexivity|]. split; [reflexivity|]. intros c' Hcall Hrsp.
  assert (∀ c1, exec call 0 ret_from_fork (Cpu g (top - 168) rff 0x202 c1 (seg_cs c) (seg_ss c) (gs_base c) (kgs_base c) (save_frame c)) = exec call 0 return_from_frame c') as Hrun.
  { intros z. unfold ret_from_fork. cbn [app].
    rewrite (exec_step _ _ _ _ (Cpu g (top - 168) rff 0x202 false (seg_cs c) (seg_ss c) (gs_base c) (kgs_base c) (save_frame c))); [|done|].
    2:{ cbn [step gpr]. rewrite H12, (proj2 (Z.eqb_neq fn 0)) by done. reflexivity. }
    rewrite exec_jz. cbn [zf]. rewrite (exec_step _ _ _ _ e) by (done || (cbn [step gpr]; rewrite H13; reflexivity)).
    rewrite (exec_step _ _ _ _ c'); [done|done|]. cbn [step]. change (gpr e R12) with (g R12). by rewrite H12. }
  rewrite Hrun. change (rsp e) with (top - 168) in *. change (cmem e) with (save_frame c) in *. split.
  - intros Hkeep. eexists. split; [apply (return_spec call c' (replicate 15 0) 0 ke 0x08 0x202 top 0x10); rewrite ?Hrsp; [lia|lia|done|]|by cbn].
    eapply stack_agree; [|exact Hs']. intros x Hx. apply Hkeep. cbn in Hx. lia.
  - intros entry s1 Hm1 Hst1 Hks1 Hkeep. destruct (return_to_user call c' entry) as (c2 & Hret & Hus & _); [lia|lia| |by exists c2].
    rewrite Hm1, Hrsp. change top with (t_kernel_stack (smem s) t + TASK_KERNEL_STACK_SIZE). rewrite <- Hks1.
    apply (update_context_frame t entry s1 (save_frame c)); [done| |]; rewrite Hks1; fold top; [|done].
    change (replicate 15 0 ++ [0; ke; 0x08; 0x202; top; 0x10]) with (replicate 16 0 ++ [ke; 0x08; 0x202; top; 0x10]) in Hs'. by apply stack_app in Hs' as [? _].
Qed.

(** ** Concrete runs *)

Lemma switch_runs call c : 56 <= rsp c < 2 ^ 64 → ∃ c', exec call 0 __arch_switch_to c = Ok c'.
Proof.
  intros Hr. rewrite switch_halves by done. destruct (exec_pops_mem call saved_regs [POPFQ; RET] (switched c)) as (c3 & -> & _). by eexists.
Qed.

(** No function is called. *)
Definition no_call (f : Z) (c : cpu) : res cpu := Fault.

(** A processor about to switch from the task at [p] to the one at [n]. *)
Definition demo_cpu (p n sp : Z) (m : gmap Z Z) : cpu :=
  Cpu (upd (upd (λ _, 7) RDI (t_ctx_rsp p)) RSI (t_ctx_rsp n)) sp 0 0x202 false 0x08 0x10 0x9000 0 m.

Definition demo_task_mem : gmap Z Z := {[0x1008 := 0x10000; 0x20000 := 0x400100]}.
Definition demo_task : sched := Sched (Kheap demo_task_mem demo_pmm (replicate 6 0) 0) 0x2000 0x2000 4 0x2000 0 0 0.

Lemma demo_task_ok : stack_ok (smem demo_task) 0x1000.
Proof. unfold stack_ok. vm_compute. split_and!; try (discriminate || reflexivity). left. discriminate. Qed.

Lemma demo_stack : t_kernel_stack (smem demo_task) 0x1000 = 0x10000.
Proof. reflexivity. Qed.

Lemma demo_spares m x : x = t_ctx_rsp 0x1000 ∨ new_frame (smem demo_task) 0x1000 <= x < new_frame (smem demo_task) 0x1000 + 232 →
  spares (demo_cpu 0x2000 0x1000 0x20000 m) x.
Proof.
  change (new_frame (smem demo_task) 0x1000) with 0x13F18. change (t_ctx_rsp 0x1000) with 0x1018. intros Hx. split; cbn [demo_cpu rsp]; [lia|].
  change (x ≠ 0x2018). lia.
Qed.

(** Task 0x2000 switches to task 0x1000, which later switches back. *)
Lemma switch_roundtrip_witness : ∃ c2 c4, exec no_call 0 __arch_switch_to (demo_cpu 0x2000 0x1000 0x20000 demo_task_mem) = Ok c2 ∧
  exec no_call 0 __arch_switch_to (demo_cpu 0x1000 0x2000 0x13000 (cmem c2)) = Ok c4 ∧ rip c4 = 0x400100 ∧ rsp c4 = 0x20008 ∧ gpr c4 RBX = 7.
Proof.
  destruct (switch_runs no_call (demo_cpu 0x2000 0x1000 0x20000 demo_task_mem)) as (c2 & H2); [cbn; lia|].
  destruct (switch_roundtrip no_call (demo_cpu 0x2000 0x1000 0x20000 demo_task_mem) c2 (demo_cpu 0x1000 0x2000 0x13000 (cmem c2)))
    as (c4 & H4 & Hip & Hsp & _ & Hg & _); [cbn; lia|cbn; lia|cbn; lia|exact H2|left; reflexivity| |reflexivity|].
  { cbn [demo_cpu rsp cmem]. change (gpr (demo_cpu 0x2000 0x1000 0x20000 demo_task_mem) RDI) with 0x2018. intros x Hx. split; [done|].
    split; cbn [demo_cpu rsp]; [lia|]. change (x ≠ 0x1018). lia. }
  exists c2, c4. split; [exact H2|]. split; [exact H4|]. split; [exact Hip|]. split; [exact Hsp|].
  rewrite (Hg RBX) by (apply (bool_decide_unpack _); vm_compute; exact I). reflexivity.
Defined.

Lemma user_task_starts_witness : let m := smem (arch_init_context 0x600000 0x1000 0x400000 demo_task) in
  ∃ c1 c2, exec no_call 0 __arch_switch_to (demo_cpu 0x2000 0x1000 0x20000 m) = Ok c1 ∧ exec no_call 0 ret_from_fork c1 = Ok c2 ∧
    rip c2 = 0x400000 ∧ gpr c2 RBX = 0 ∧ gs_base c2 = 0.
Proof.
  intros m. destruct (user_task_starts no_call 0x600000 0x1000 0x400000 demo_task (demo_cpu 0x2000 0x1000 0x20000 m))
    as (c1 & c2 & H1 & _ & _ & H2 & (Hip & _ & _ & _ & _ & Hg & Hgs & _) & _); [exact demo_task_ok|reflexivity|cbn; lia|reflexivity|exact (demo_spares m)|].
  exists c1, c2. split; [exact H1|]. split; [exact H2|]. split; [exact Hip|]. split; [exact (Hg RBX)|exact Hgs].
Defined.

(** A thread function that returns at once. *)
Definition return_call (f : Z) (c : cpu) : res cpu := Ok c.

Lemma kthread_starts_witness : let m := smem (arch_init_kthread_context 0x700000 0x600000 0x1000 0x500000 42 demo_task) in
  ∃ c1 c2, exec return_call 0 __arch_switch_to (demo_cpu 0x2000 0x1000 0x20000 m) = Ok c1 ∧ exec return_call 0 ret_from_fork c1 = Ok c2 ∧
    rip c2 = 0x700000 ∧ rsp c2 = 0x14000.
Proof.
  intros m. destruct (kthread_starts return_call 0x700000 0x600000 0x1000 0x500000 42 demo_task (demo_cpu 0x2000 0x1000 0x20000 m))
    as (c1 & e & H1 & _ & _ & _ & _ & Hk); [exact demo_task_ok|reflexivity|discriminate|cbn; lia|reflexivity|exact (demo_spares m)|].
  destruct (Hk e eq_refl eq_refl) as [Hr _]. destruct (Hr (λ x _, eq_refl)) as (c2 & H2 & Hip & _ & Hsp & _).
  exists c1, c2. split; [exact H1|]. split; [exact H2|]. split; [exact Hip|exact Hsp].
Defined.
