(* ===== verification/Entry.v ===== *)
(** * Interrupts and system calls (isr.asm, syscall.asm, kernel/syscall.c)

    The paths from user or kernel code into a C handler and back. *)

From S2P Require Import Prelude Types FrameAlloc EarlyPmm Pmm Paging Vmm Kmalloc Mm ListHead Sched Machine.

(** ** Interrupts *)

(** The state in which the handler is called, for the code segment that was
    interrupted: the registers are saved above, RDI points to them. *)
Definition entered (c : cpu) (wcs arg : Z) : cpu :=
  let user := negb (Z.land wcs 3 =? 0) in
  Cpu (upd (upd (gpr c) RDI (rsp c - 120)) RSI arg) (rsp c - 120) (rip c) (Z.ldiff (rflags c) 0x400) (negb user) (seg_cs c) (seg_ss c)
    (if user then kgs_base c else gs_base c) (if user then gs_base c else kgs_base c) (pushes (cmem c) (rsp c) (gpr c <$> rev frame_regs)).

Lemma enter_spec call c wcs k : 120 <= rsp c → rsp c + 24 < 2 ^ 64 → ld (cmem c) (rsp c + 16) = wcs →
  exec call 0 (enter_frame ++ k) c = exec call 0 k
    (let user := negb (Z.land wcs 3 =? 0) in
     Cpu (upd (gpr c) RDI (rsp c - 120)) (rsp c - 120) (rip c) (rflags c) (negb user) (seg_cs c) (seg_ss c)
       (if user then kgs_base c else gs_base c) (if user then gs_base c else kgs_base c) (pushes (cmem c) (rsp c) (gpr c <$> rev frame_regs))).
Proof.
  intros H0 H1 Hcs. destruct c as [g sp ip fl z cs ss gb kb m]. cbn [gpr rsp rip rflags zf seg_cs seg_ss gs_base kgs_base cmem] in *.
  change (enter_frame ++ k) with (TEST_SP 16 3 :: JZ 1 :: SWAPGS :: (PUSH <$> rev frame_regs) ++ MOV_FROM_RSP RDI :: k).
  rewrite (exec_step _ _ _ _ (Cpu g sp ip fl (Z.land wcs 3 =? 0) cs ss gb kb m)); [|done|].
  2:{ cbn [step rsp cmem]. rewrite u64_small, Hcs by lia. reflexivity. }
  assert (∀ b gb kb, exec call 0 ((PUSH <$> rev frame_regs) ++ MOV_FROM_RSP RDI :: k) (Cpu g sp ip fl b cs ss gb kb m) =
    exec call 0 k (Cpu (upd g RDI (sp - 120)) (sp - 120) ip fl b cs ss gb kb (pushes m sp (g <$> rev frame_regs)))) as Hp.
  { intros. rewrite exec_pushes by (change (8 * Z.of_nat (length (rev frame_regs))) with 120; cbn [rsp]; lia).
    change (8 * Z.of_nat (length (rev frame_regs))) with 120. apply exec_step; reflexivity. }
  rewrite exec_jz. cbn [zf]. destruct (Z.land wcs 3 =? 0); cbn [negb].
  - rewrite exec_skip. apply Hp.
  - rewrite (exec_step _ _ _ _ (Cpu g sp ip fl false cs ss kb gb m)) by reflexivity. apply Hp.
Qed.

Lemma map_rev_fmap {A B} (f : A → B) l : rev (f <$> rev l) = f <$> l.
Proof. change (rev (map f (rev l)) = map f l). by rewrite <- map_rev, rev_involutive. Qed.

Lemma frame_regs_NoDup : NoDup frame_regs.
Proof. apply (bool_decide_unpack _). vm_compute. exact I. Qed.

(** From the call of a handler that preserves the frame to the interrupted
    code. *)
Lemma leave_spec call c e c' err wrip wcs wfl wrsp wss : 120 <= rsp c → rsp c + 48 < 2 ^ 64 →
  stack (cmem c) (rsp c) [err; wrip; wcs; wfl; wrsp; wss] → e = entered c wcs (gpr e RSI) →
  rsp c' = rsp e → gs_base c' = gs_base e → kgs_base c' = kgs_base e → (∀ x, rsp e <= x < rsp c + 48 → ld (cmem c') x = ld (cmem e) x) →
  ∃ c2, exec call 0 return_from_frame c' = Ok c2 ∧ (∀ r, gpr c2 r = gpr c r) ∧ rip c2 = wrip ∧ seg_cs c2 = wcs ∧ rflags c2 = wfl ∧
    rsp c2 = wrsp ∧ seg_ss c2 = wss ∧ gs_base c2 = gs_base c ∧ kgs_base c2 = kgs_base c.
Proof.
  intros H0 H1 Hs -> Hrsp Hgs Hkgs Hkeep. cbn [entered rsp gs_base kgs_base cmem] in *.
  assert (stack (cmem c') (rsp c - 120) ((gpr c <$> frame_regs) ++ [err; wrip; wcs; wfl; wrsp; wss])) as Hs'.
  { eapply stack_agree; [|pose proof (pushes_stack (gpr c <$> rev frame_regs) (cmem c) (rsp c) [err; wrip; wcs; wfl; wrsp; wss] Hs) as Hp;
      change (8 * Z.of_nat (length (gpr c <$> rev frame_regs))) with 120 in Hp; rewrite map_rev_fmap in Hp; exact Hp].
    intros x Hx. apply Hkeep. cbn in Hx. lia. }
  eexists. split; [apply (return_spec call c' (gpr c <$> frame_regs) err wrip wcs wfl wrsp wss); rewrite ?Hrsp; [lia|lia|done|exact Hs']|].
  unfold returned. cbn [gpr rsp rip rflags seg_cs seg_ss gs_base kgs_base]. rewrite Hgs, Hkgs. split_and!; try done.
  - intros r. apply loads_same; [apply frame_regs_NoDup|]. destruct r; apply (bool_decide_unpack _); vm_compute; exact I.
  - by destruct (Z.land wcs 3 =? 0).
  - by destruct (Z.land wcs 3 =? 0).
Qed.

(** C9: interrupts are transparent.  [c] is the state after the processor
    has pushed the interrupted rip, cs, rflags, rsp and ss.  The code for
    vector [v] calls [irq_router] with a pointer to the saved registers and
    the vector, with GS at the kernel's data whether user or kernel code was
    interrupted; if the handler gives the saved words back unchanged, the
    interrupted code continues with all its registers, flags, segments, its
    stack and both GS registers as they were. *)
Theorem irq_transparent call v router c c' wrip wcs wfl wrsp wss : 128 <= rsp c → rsp c + 40 < 2 ^ 64 →
  stack (cmem c) (rsp c) [wrip; wcs; wfl; wrsp; wss] → let e := entered (push v c) wcs v in
  call router e = Ok c' → rsp c' = rsp e → gs_base c' = gs_base e → kgs_base c' = kgs_base e →
  (∀ x, rsp e <= x < rsp c + 40 → ld (cmem c') x = ld (cmem e) x) →
  gpr e RDI = rsp e ∧ gpr e RSI = v ∧ gs_base e = (if Z.land wcs 3 =? 0 then gs_base c else kgs_base c) ∧
  ∃ c2, exec call 0 (irq_tramp v router) c = Ok c2 ∧ (∀ r, gpr c2 r = gpr c r) ∧ rip c2 = wrip ∧ seg_cs c2 = wcs ∧ rflags c2 = wfl ∧
    rsp c2 = wrsp ∧ seg_ss c2 = wss ∧ gs_base c2 = gs_base c ∧ kgs_base c2 = kgs_base c.
Proof.
  intros H0 H1 Hs e Hcall Hrsp Hgs Hkgs Hkeep. split; [done|]. split; [done|]. split; [cbn; by destruct (Z.land wcs 3 =? 0)|].
  assert (push v c = set_rsp (rsp c - 8) (set_cmem (st (cmem c) (rsp c - 8) v) c)) as Epush by (unfold push; by rewrite u64_small by lia).
  set (cp := push v c) in *. assert (rsp cp = rsp c - 8 ∧ gpr cp = gpr c ∧ gs_base cp = gs_base c ∧ kgs_base cp = kgs_base c) as (Er & Eg & Egs & Ekgs) by (rewrite Epush; done).
  assert (stack (cmem cp) (rsp cp) [v; wrip; wcs; wfl; wrsp; wss]) as Hs'.
  { rewrite Epush. cbn [set_rsp set_cmem rsp cmem]. split; [apply ld_st_eq|]. replace (rsp c - 8 + 8) with (rsp c) by lia. apply stack_st_out; [lia|exact Hs]. }
  destruct (leave_spec call cp e c' v wrip wcs wfl wrsp wss) as (c2 & Hret & Hg & Hrest); [lia|lia|exact Hs'|reflexivity|done..| |].
  { intros x Hx. apply Hkeep. lia. }
  rewrite Eg, Egs, Ekgs in *. exists c2. split; [|done]. unfold irq_tramp. cbn [app]. rewrite (exec_step _ _ _ _ cp) by reflexivity.
  assert (ld (cmem cp) (rsp cp + 16) = wcs) as Hcs by (destruct Hs' as (_ & _ & Hcs & _); rewrite <- Hcs; f_equal; lia).
  rewrite (enter_spec call cp wcs) by (done || lia). cbv zeta.
  rewrite (exec_step _ _ _ _ (Cpu (gpr e) (rsp e) (rip cp) (rflags cp) (zf e) (seg_cs cp) (seg_ss cp) (gs_base e) (kgs_base e) (cmem e))); [|done|].
  2:{ cbn [step rsp cmem]. rewrite u64_small by lia. replace (rsp cp - 120 + 120) with (rsp cp) by lia. rewrite pushes_out by lia. destruct Hs' as (-> & _). reflexivity. }
  rewrite (exec_step _ _ _ _ e) by reflexivity. rewrite (exec_step _ _ _ _ c') by done. exact Hret.
Qed.

(** ** System calls *)

(** [struct cpu_local_data], which GS points to in the kernel. *)
Definition CPU_KERNEL_STACK : Z := 0.
Definition CPU_USER_RSP : Z := 8.
Definition CPU_STACK_SIZE : Z := 24.

(** The table of kernel/syscall.c, for the addresses of its functions. *)
Definition syscall_table (sys_read sys_write sys_not_implemented : Z) : list Z :=
  [sys_read; sys_write] ++ replicate 254 sys_not_implemented.

Definition call_regs : list reg := [R15; R14; R13; R12; R11; R10; R9; R8; RBP; RDI; RSI; RDX; RCX; RBX].

(** The state in which the function of a system call is called, from the
    user's state [u] at the [syscall] instruction. *)
Definition syscall_state (table lstar : Z) (u : cpu) : cpu :=
  let c := hw_syscall lstar u in
  let G := kgs_base u in
  let m := st (cmem u) (u64 (G + 8)) (rsp u) in
  let top := u64 (ld m (u64 (G + 0)) + ld m (u64 (G + 24))) in
  Cpu (upd (upd (gpr c) RCX (gpr u R10)) R12 table) (top - 120) lstar (rflags c) (zf u) (seg_cs c) (seg_ss c) G (gs_base u)
    (pushes m top (gpr c <$> rev frame_regs)).

Lemma exec_syscall_entry call table lstar u : let e := syscall_state table lstar u in 0 <= rsp e → rsp e + 120 < 2 ^ 64 →
  exec call 0 (syscall_entry table) (hw_syscall lstar u) =
  (c' ← call (ld (cmem e) (u64 (table + gpr u RAX * 8))) e;
   exec call 0 ((POP <$> call_regs) ++ ADD_RSP 8 :: CLI :: GS_LOAD_RSP 8 :: SWAPGS :: [SYSRET]) c').
Proof.
  intros e H0 H1. unfold syscall_state in e. set (c := hw_syscall lstar u) in *. set (G := kgs_base u) in *. set (m := st (cmem u) (u64 (G + 8)) (rsp u)) in *.
  set (top := u64 (ld m (u64 (G + 0)) + ld m (u64 (G + 24)))) in *. change (rsp e) with (top - 120) in H0, H1.
  set (k := (POP <$> call_regs) ++ _). change (syscall_entry table) with
    (SWAPGS :: GS_STORE_RSP 8 :: GS_LOAD_RSP 0 :: GS_ADD_RSP 24 :: (PUSH <$> rev frame_regs) ++ MOV RCX R10 :: MOVI R12 table :: CALL_TABLE R12 RAX :: k).
  clearbody k.
  set (mk g sp m := Cpu g sp lstar (rflags c) (zf u) (seg_cs c) (seg_ss c) G (gs_base u) m).
  rewrite (exec_step _ _ _ _ (mk (gpr c) (rsp u) (cmem u))) by reflexivity.
  rewrite (exec_step _ _ _ _ (mk (gpr c) (rsp u) m)) by reflexivity.
  rewrite (exec_step _ _ _ _ (mk (gpr c) (ld m (u64 (G + 0))) m)) by reflexivity.
  rewrite (exec_step _ _ _ _ (mk (gpr c) top m)) by reflexivity.
  rewrite exec_pushes by (change (8 * Z.of_nat (length (rev frame_regs))) with 120; cbn [mk rsp]; lia).
  change (8 * Z.of_nat (length (rev frame_regs))) with 120.
  set (mp := pushes m top (gpr c <$> rev frame_regs)) in *.
  rewrite (exec_step _ _ _ _ (mk (upd (gpr c) RCX (gpr u R10)) (top - 120) mp)) by reflexivity.
  rewrite (exec_step _ _ _ _ e) by reflexivity. cbn [exec step mbind res_bind]. reflexivity.
Qed.

Lemma syscall_table_lookup sr sw ni n : 0 <= n < 256 → syscall_table sr sw ni !! Z.to_nat n = Some (if n =? 0 then sr else if n =? 1 then sw else ni).
Proof.
  intros Hn. destruct (Z.eqb_spec n 0) as [->|H0]; [done|]. destruct (Z.eqb_spec n 1) as [->|H1]; [done|].
  unfold syscall_table. rewrite lookup_app_r by (cbn; lia). apply lookup_replicate. split; [done|]. cbn [length]. lia.
Qed.

(** The registers on the kernel stack when the function is called. *)
Lemma syscall_saved table lstar u : let e := syscall_state table lstar u in
  stack (cmem e) (rsp e) ((gpr (hw_syscall lstar u) <$> frame_regs) ++ []).
Proof.
  intros e. unfold syscall_state in e. set (m := st _ _ _) in e. set (top := u64 _) in e. subst e. cbn [cmem rsp].
  pose proof (pushes_stack (gpr (hw_syscall lstar u) <$> rev frame_regs) m top [] I) as Hp.
  change (8 * Z.of_nat (length (gpr (hw_syscall lstar u) <$> rev frame_regs))) with 120 in Hp. rewrite map_rev_fmap in Hp. exact Hp.
Qed.

(** The end of [syscall_entry]. *)
Lemma exec_leave call g sp ip fl z cs ss gb kb m :
  exec call 0 [ADD_RSP 8; CLI; GS_LOAD_RSP 8; SWAPGS; SYSRET] (Cpu g sp ip fl z cs ss gb kb m) =
  Ok (Cpu g (ld m (u64 (gb + 8))) (g RCX) (Z.lor (Z.land (g R11) 0x3C7FD7) 2) z 0x23 0x1B kb gb m).
Proof. reflexivity. Qed.

(** C7: system calls.  A [syscall] instruction calls the function of the
    table its number selects: [sys_read] for 0, [sys_write] for 1 and
    [sys_not_implemented] for the other numbers below 256, with the user's
    arguments in the registers of the C convention, on the kernel stack of
    the current task.  If the function preserves what was saved there, user
    code continues behind the instruction with the result in RAX, its flags,
    segments and GS, and every register but RCX and R11, which the
    instruction clobbers, unchanged.  Its stack pointer is what the word
    [user_rsp] of the processor holds at that time, which is its own one
    exactly if no other task made a system call in between. *)
Theorem syscall_roundtrip call table lstar u c' sr sw ni : let e := syscall_state table lstar u in
  0 <= rsp e → rsp e + 120 < 2 ^ 64 → 0 <= table → table + 2048 < 2 ^ 64 → 0 <= gpr u RAX < 256 → stack (cmem e) table (syscall_table sr sw ni) →
  let f := if gpr u RAX =? 0 then sr else if gpr u RAX =? 1 then sw else ni in
  call f e = Ok c' → rsp c' = rsp e → gs_base c' = kgs_base u → kgs_base c' = gs_base u → (∀ x, rsp e <= x < rsp e + 120 → ld (cmem c') x = ld (cmem e) x) →
  gpr e RDI = gpr u RDI ∧ gpr e RSI = gpr u RSI ∧ gpr e RDX = gpr u RDX ∧ gpr e RCX = gpr u R10 ∧ gpr e R8 = gpr u R8 ∧ gpr e R9 = gpr u R9 ∧
  ∃ c2, exec call 0 (syscall_entry table) (hw_syscall lstar u) = Ok c2 ∧ gpr c2 RAX = gpr c' RAX ∧
    (∀ r, r ≠ RAX → r ≠ RCX → r ≠ R11 → gpr c2 r = gpr u r) ∧ rip c2 = rip u ∧ rflags c2 = Z.lor (Z.land (rflags u) 0x3C7FD7) 2 ∧
    seg_cs c2 = 0x23 ∧ seg_ss c2 = 0x1B ∧ gs_base c2 = gs_base u ∧ kgs_base c2 = kgs_base u ∧ rsp c2 = ld (cmem c') (u64 (kgs_base u + 8)).
Proof.
  intros e H0 H1 Ht0 Ht1 Hax Htab f Hcall Hrsp Hgs Hkgs Hkeep. do 6 (split; [reflexivity|]). rewrite exec_syscall_entry by done. fold e.
  assert (ld (cmem e) (u64 (table + gpr u RAX * 8)) = f) as ->.
  { rewrite u64_small by lia. replace (table + gpr u RAX * 8) with (table + 8 * Z.of_nat (Z.to_nat (gpr u RAX))) by lia. eapply stack_lookup; [exact Htab|].
    unfold f. by apply syscall_table_lookup. }
  rewrite Hcall, bind_Ok.
  assert (stack (cmem c') (rsp e) (gpr (hw_syscall lstar u) <$> call_regs)) as Hs.
  { assert (stack (cmem c') (rsp e) ((gpr (hw_syscall lstar u) <$> frame_regs) ++ [])) as Hs.
    { eapply stack_agree; [|apply syscall_saved]. intros x Hx. apply Hkeep. change (8 * Z.of_nat (length ((gpr (hw_syscall lstar u) <$> frame_regs) ++ []))) with 120 in Hx. exact Hx. }
    change (gpr (hw_syscall lstar u) <$> frame_regs) with ((gpr (hw_syscall lstar u) <$> call_regs) ++ [gpr (hw_syscall lstar u) RAX]) in Hs.
    rewrite <- app_assoc in Hs. by apply stack_app in Hs as [? _]. }
  rewrite <- Hrsp in Hs, H0, H1. rewrite (exec_pops _ _ _ (gpr (hw_syscall lstar u) <$> call_regs)) by (done || (change (8 * Z.of_nat (length call_regs)) with 112; lia)).
  set (g := loads _ _ _). assert (∀ r, r ∈ call_regs → g r = gpr (hw_syscall lstar u) r) as Hg.
  { intros r Hr. apply loads_same; [|done]. apply (bool_decide_unpack _). vm_compute. exact I. }
  assert (g RAX = gpr c' RAX) as Hrax. { apply loads_ne. apply (bool_decide_unpack _). vm_compute. exact I. }
  clearbody g. eexists. split; [apply exec_leave|]. cbn [gpr rsp rip rflags seg_cs seg_ss gs_base kgs_base cmem]. rewrite Hgs, Hkgs.
  rewrite (Hg RCX), (Hg R11) by (apply (bool_decide_unpack _); vm_compute; exact I). split_and!; try done.
  intros r H2 H3 H4. rewrite Hg by (destruct r; try done; apply (bool_decide_unpack _); vm_compute; exact I). by destruct r.
Qed.

(** ** Concrete runs *)

(** A handler that clobbers RAX and gives everything else back. *)
Definition demo_handler (f : Z) (c : cpu) : res cpu := Ok (set_gpr RAX f c).

(** User code at 0x400123 interrupted with its stack at 0x7000. *)
Definition demo_irq : cpu :=
  Cpu (λ _, 3) 0x1FFD8 0 0x2 false 0x08 0x10 0 0x9000 {[0x1FFD8 := 0x400123; 0x1FFE0 := 0x23; 0x1FFE8 := 0x202; 0x1FFF0 := 0x7000; 0x1FFF8 := 0x1B]}.

Lemma demo_irq_frame : stack (cmem demo_irq) (rsp demo_irq) [0x400123; 0x23; 0x202; 0x7000; 0x1B].
Proof. vm_compute. by split_and!. Qed.

Lemma irq_transparent_witness : ∃ c2, exec demo_handler 0 (irq_tramp 0x21 0x800000) demo_irq = Ok c2 ∧ gpr c2 RAX = 3 ∧ rip c2 = 0x400123 ∧ gs_base c2 = 0.
Proof.
  destruct (irq_transparent demo_handler 0x21 0x800000 demo_irq (set_gpr RAX 0x800000 (entered (push 0x21 demo_irq) 0x23 0x21)) 0x400123 0x23 0x202 0x7000 0x1B)
    as (_ & _ & _ & c2 & H & Hg & Hip & _ & _ & _ & _ & Hgs & _); [cbn; lia|cbn; lia|exact demo_irq_frame|reflexivity..|].
  exists c2. split; [exact H|]. split; [exact (Hg RAX)|]. split; [exact Hip|exact Hgs].
Defined.

Definition demo_table : list Z := syscall_table 0x801000 0x802000 0x803000.

(** A user program that calls [sys_write(1, 0x7000, 5)]. *)
Definition demo_user : cpu :=
  Cpu (λ r, match r with RAX | RDI => 1 | RSI => 0x7000 | RDX => 5 | _ => 3 end) 0x6FF0 0x400200 0x202 false 0x23 0x1B 0 0x9000
    (pushes {[0x9000 := 0x20000; 0x9018 := 0x4000]} 0x5800 (rev demo_table)).

Lemma demo_user_mem x : 0x5800 <= x → ld (cmem demo_user) x = ld {[0x9000 := 0x20000; 0x9018 := 0x4000]} x.
Proof. intros Hx. apply pushes_out. right. exact Hx. Qed.

Lemma demo_user_top : rsp (syscall_state 0x5000 0x808000 demo_user) = 0x23F88.
Proof.
  unfold syscall_state. cbn [rsp]. change (kgs_base demo_user) with 0x9000. rewrite !(u64_small (0x9000 + _)) by lia. rewrite !ld_st_ne by lia.
  rewrite !demo_user_mem by lia. reflexivity.
Qed.

Lemma demo_user_table : stack (cmem (syscall_state 0x5000 0x808000 demo_user)) 0x5000 demo_table.
Proof.
  assert (stack (cmem demo_user) 0x5000 demo_table) as Hs.
  { pose proof (pushes_stack (rev demo_table) {[0x9000 := 0x20000; 0x9018 := 0x4000]} 0x5800 [] I) as Hp. rewrite rev_involutive, app_nil_r in Hp. exact Hp. }
  pose proof demo_user_top as Htop. eapply stack_agree; [|exact Hs]. change (8 * Z.of_nat (length demo_table)) with 2048. intros x Hx.
  unfold syscall_state in *. cbn [cmem rsp] in *. set (t := u64 (_ + _)) in *. clearbody t. rewrite pushes_out by (cbn; lia). apply ld_st_ne.
  change (kgs_base demo_user) with 0x9000. rewrite u64_small; lia.
Qed.

Lemma demo_user_gs : let e := syscall_state 0x5000 0x808000 demo_user in gs_base e = 0x9000 ∧ kgs_base e = 0.
Proof. done. Qed.

Lemma syscall_roundtrip_witness : ∃ c2, exec demo_handler 0 (syscall_entry 0x5000) (hw_syscall 0x808000 demo_user) = Ok c2 ∧
  gpr c2 RAX = 0x802000 ∧ gpr c2 RDI = 1 ∧ rip c2 = 0x400200.
Proof.
  enough (∀ u, let e := syscall_state 0x5000 0x808000 u in rsp e = 0x23F88 → stack (cmem e) 0x5000 demo_table → gs_base e = kgs_base u ∧ kgs_base e = gs_base u →
    gpr u RAX = 1 → ∃ c2, exec demo_handler 0 (syscall_entry 0x5000) (hw_syscall 0x808000 u) = Ok c2 ∧ gpr c2 RAX = 0x802000 ∧ gpr c2 RDI = gpr u RDI ∧ rip c2 = rip u) as G
    by exact (G demo_user demo_user_top demo_user_table demo_user_gs eq_refl).
  intros u e Ht Htab [Hgs Hkgs] Hax.
  destruct (syscall_roundtrip demo_handler 0x5000 0x808000 u (set_gpr RAX 0x802000 e) 0x801000 0x802000 0x803000) as (_ & _ & _ & _ & _ & _ & c2 & H & Hr & Hg & Hip & _);
    [fold e; lia|fold e; lia|lia|lia|lia|exact Htab|rewrite Hax; reflexivity|reflexivity|exact Hgs|exact Hkgs|reflexivity|].
  exists c2. split; [exact H|]. split; [exact Hr|]. split; [|exact Hip]. by apply Hg.
Defined.
