(* ===== verification/Syscall.v ===== *)
(** * The system calls and the terminal's file

    [sys_read] and [sys_write] of fs/vfs.c, [sys_not_implemented] of
    kernel/syscall.c, and [tty_init] of kernel/tty.c, which makes the file the
    first three descriptors of the init task refer to. *)

From S2P Require Import Prelude Types FrameAlloc EarlyPmm Pmm Paging Vmm Kmalloc Mm ListHead Sched Wait Vga Tty Layout HeapApi StateMonad Block FsTypes Dcache Ext2File Ext2Dir Ext2Super Vfs.

(** ** fs/vfs.c *)

(** The functions behind the operation tables of the code. *)
Inductive file_fn := tty_read_fn | tty_write_fn | ext2_read_file_fn.

Definition fops_read (o : file_operations) : option file_fn :=
  match o with FOPS_NULL | ext2_dir_fops => None | ext2_file_fops => Some ext2_read_file_fn | tty_fops => Some tty_read_fn end.
Definition fops_write (o : file_operations) : option file_fn :=
  match o with FOPS_NULL | ext2_dir_fops | ext2_file_fops => None | tty_fops => Some tty_write_fn end.

(** The call a system call ends in: function, file, buffer and count. *)
Definition file_call : Type := file_fn * Z * Z * Z.

(** [t->fd[i]]. *)
Definition t_fd (m : gmap Z Z) (t i : Z) : Z := ld m (u64 (t + 32 + 8 * i)).

Section calls.
Context (files : gmap Z file) (m : gmap Z Z) (current : Z).

Definition sys_rw (op : file_operations → option file_fn) (fd buf count : Z) : res (Z + file_call) :=
  if OPEN_FILE_TABLE_COUNT <=? fd then Ok (inl (- EBADF)) else
  let f := t_fd m current fd in
  if f =? NULL then Ok (inl (- EBADF)) else
  let count := if SSIZE_MAX <? count then SSIZE_MAX else count in
  match files !! f with
  | None => Fault
  | Some fl => match op (f_fops fl) with None => Ok (inl (- EBADF)) | Some fn => Ok (inr (fn, f, buf, count)) end
  end.

Definition sys_read (fd buf count : Z) : res (Z + file_call) := sys_rw fops_read fd buf count.
Definition sys_write (fd buf count : Z) : res (Z + file_call) := sys_rw fops_write fd buf count.
End calls.

(** ** kernel/syscall.c *)

Definition sys_not_implemented (v : vga) : res (Z * vga) :=
  v ← vga_print (codes "sys not implemented triggered" ++ [10; 0]) v;
  Ok (- ENOSYS, v).

(** ** kernel/tty.c *)

(** sizeof(struct tty_struct): the buffer, three counters, two identifiers
    and two lists (a [spinlock_t] is empty). *)
Definition TTY_STRUCT_SIZE : Z := 512 + 24 + 8 + 32.

(** [tty0], [tty0_file] and the structure [tty0] points to. *)
Record tty_dev := TtyDev { tty0 : Z; tty0_file : Z; tty_data : tty_struct }.

(** The heads of its wait queues, and their initialisation (the words of the
    queues are in the memory of the scheduler). *)
Definition tty_read_wait (tty : Z) : Z := u64 (tty + 544).
Definition tty_fg_wait (tty : Z) : Z := u64 (tty + 560).
Definition tty_init_queues (tty : Z) (s : sched) : sched :=
  init_waitqueue_head (tty_fg_wait tty) (init_waitqueue_head (tty_read_wait tty) s).

Lemma tty_queues_empty tty s : 0 <= tty → tty + TTY_STRUCT_SIZE < 2 ^ 64 → let m := smem (tty_init_queues tty s) in
  dll m (tty_read_wait tty) [] ∧ dll m (tty_fg_wait tty) [].
Proof.
  intros H0 H1 m. subst m. unfold tty_init_queues, init_waitqueue_head. rewrite !smem_set_smem. unfold tty_read_wait, tty_fg_wait, TTY_STRUCT_SIZE in *.
  rewrite !(u64_small (tty + _)) by lia. assert (∀ m h, 0 <= h → h + 8 < 2 ^ 64 → dll (INIT_LIST_HEAD h m) h []) as Hd by (intros; apply dll_init; unfold nx, pv; rewrite u64_small; lia).
  split; [|apply Hd; lia]. eapply dll_agree; [apply (Hd (smem s) (tty + 544)); lia|].
  intros n Hn. apply list_elem_of_singleton in Hn as ->. unfold INIT_LIST_HEAD, nx, pv. rewrite !u64_small by lia. split; rewrite (ld_st_ne _ (tty + 560 + 8)), (ld_st_ne _ (tty + 560)) by lia; done.
Qed.

Section tty_init.
Context {H D : Type} `{!KernelHeap H, !DiskDriver D}.
Implicit Types s : fs H D.

Definition tty_init : M (fs H D) (Z * option tty_dev) :=
  tty ← fkzalloc TTY_STRUCT_SIZE;
  if tty =? NULL then mret (- ENOMEM, None) else
  let data := Tty (replicate (Z.to_nat TTY_BUF_SIZE) 0) 0 0 0 1 1 in
  let name := codes "tty0" in
  d ← d_alloc NULL (Qstr name 4 (vfs_hash_name name));
  if IS_ERR d then
    fkfree tty;;
    mret (PTR_ERR d, None)
  else
  f ← fkzalloc FILE_SIZE;
  if f =? NULL then
    fkfree tty;;
    d_free d;;
    mret (- ENOMEM, None)
  else
  puts (λ s, set_ofiles (<[f := File d 0 0 tty_fops]> (ofiles s)) s);;
  mret (0, Some (TtyDev tty f data)).

(** ** The allocations *)

(** The same state with another heap. *)
Definition put_heap (h : H) s : fs H D := set_fblk (set_heap h (fblk s)) s.

Lemma put_heap_twice h h' s : put_heap h (put_heap h' s) = put_heap h s.
Proof. reflexivity. Qed.
Lemma put_heap_dentries h x s : put_heap h (set_dentries x s) = set_dentries x (put_heap h s).
Proof. reflexivity. Qed.
Lemma set_dentries_twice x y s : set_dentries x (set_dentries y s) = set_dentries x s.
Proof. reflexivity. Qed.
Lemma set_dentries_id h x s : x = dentries s → set_dentries x (put_heap h s) = put_heap h s.
Proof. by intros ->. Qed.

Lemma fkzalloc_live s (B P : gset Z) size : h_live (heap (fblk s)) B P → 0 <= size <= 1024 →
  holds (fkzalloc size) s (λ p s', ∃ h, s' = put_heap h s ∧
    ((p = NULL ∧ h_live h B P) ∨ (p ≠ NULL ∧ p ∉ B ∪ P ∧ h_live h ({[p]} ∪ B) P))).
Proof. intros Hl Hs. eapply zoom_holds; [by apply bkzalloc_spec|]. intros p t (h & -> & Hc). by exists h. Qed.

Lemma fkmalloc_live s (B P : gset Z) size : h_live (heap (fblk s)) B P → 0 <= size <= 1024 →
  holds (fkmalloc size) s (λ p s', ∃ h, s' = put_heap h s ∧
    ((p = NULL ∧ h_live h B P) ∨ (p ≠ NULL ∧ p ∉ B ∪ P ∧ h_live h ({[p]} ∪ B) P))).
Proof. intros Hl Hs. eapply zoom_holds; [by apply bkmalloc_spec|]. intros p t (h & -> & Hc). by exists h. Qed.

Lemma fkfree_live s (B P : gset Z) p : h_live (heap (fblk s)) B P → p ∈ B →
  holds (fkfree p) s (λ _ s', ∃ h, s' = put_heap h s ∧ h_live h (B ∖ {[p]}) P).
Proof. intros Hl Hp. eapply zoom_holds; [by apply bkfree_spec|]. intros _ t (h & -> & Hc). by exists h. Qed.

Lemma add_remove (B : gset Z) p : p ∉ B → ({[p]} ∪ B) ∖ {[p]} = B.
Proof. set_solver. Qed.

(** [d_alloc] takes a dentry and its name, or gives back what it took. *)
Lemma d_alloc_live s (B P : gset Z) parent q : h_live (heap (fblk s)) B P → (∀ p, is_Some (dentries s !! p) → p ∈ B) →
  q_len q = Z.of_nat (length (q_str q)) → q_len q < 256 →
  holds (d_alloc parent q) s (λ d s', ∃ h, 
    (IS_ERR d = true ∧ PTR_ERR d = - ENOMEM ∧ s' = put_heap h s ∧ h_live h B P) ∨
    (∃ str, IS_ERR d = false ∧ d ≠ NULL ∧ d ∉ B ∪ P ∧ str ≠ NULL ∧ str ≠ d ∧ str ∉ B ∪ P ∧ h_live h ({[str]} ∪ ({[d]} ∪ B)) P ∧
       s' = set_dentries (<[d := Dentry str (Qstr (q_str q) (q_len q) (q_hash q)) NULL parent NULL NULL NULL]> (dentries s)) (put_heap h s))).
Proof.
  intros Hl Hdom Hq Hq2. unfold d_alloc. eapply holds_bind; [by apply (fkzalloc_live s B P)|]. intros d s1 (h1 & -> & [[-> Hl1]|(Hd & Hdn & Hl1)]).
  { rewrite Z.eqb_refl. apply holds_ret. exists h1. by left. }
  rewrite (proj2 (Z.eqb_neq d NULL)) by done. apply holds_puts. eapply holds_bind.
  { apply (fkmalloc_live _ ({[d]} ∪ B) P); [exact Hl1|]. rewrite u32_small by lia. lia. }
  intros str s2 (h2 & -> & [[-> Hl2]|(Hs & Hsn & Hl2)]).
  - rewrite Z.eqb_refl. eapply holds_bind; [apply (fkfree_live _ ({[d]} ∪ B) P); [exact Hl2|set_solver]|]. intros _ s3 (h3 & -> & Hl3).
    apply holds_puts, holds_ret. exists h3. left. rewrite add_remove in Hl3 by set_solver. split; [done|]. split; [done|]. split; [|exact Hl3].
    rewrite !put_heap_dentries, !put_heap_twice, set_dentries_twice. apply set_dentries_id, delete_insert_id. destruct (dentries s !! d) eqn:E; [|done]. exfalso. apply Hdn.
    apply elem_of_union_l, Hdom. by rewrite E.
  - rewrite (proj2 (Z.eqb_neq str NULL)) by done.
    assert (bytes_get (q_str q) 0 (q_len q) = Ok (q_str q)) as Hb.
    { unfold bytes_get. rewrite Hq, Z.add_0_l, !Z.leb_refl, Nat2Z.id. cbn [andb Z.to_nat drop]. by rewrite firstn_all. }
    eapply holds_lift; [exact Hb|]. apply holds_puts, holds_ret. exists h2. right. exists str. destruct (h_live_ptr _ _ _ d Hl1) as [_ He]; [set_solver|].
    split_and!; try done; [set_solver|set_solver|]. rewrite !put_heap_dentries, !put_heap_twice, set_dentries_twice. f_equal. apply insert_insert_eq.
Qed.

Lemma d_free_live s (B P : gset Z) d x : h_live (heap (fblk s)) B P → dentries s !! d = Some x → d ≠ NULL → d_name_str x ≠ NULL →
  d_name_str x ≠ d → d ∈ B → d_name_str x ∈ B →
  holds (d_free d) s (λ _ s', ∃ h, s' = set_dentries (delete d (dentries s)) (put_heap h s) ∧ h_live h (B ∖ {[d_name_str x]} ∖ {[d]}) P).
Proof.
  intros Hl Hx Hd Hs Hsd HdB HsB. unfold d_free. rewrite (proj2 (Z.eqb_neq d NULL)) by done. unfold holds. rewrite (at_ptr_step _ d x) by done.
  rewrite (proj2 (Z.eqb_neq (d_name_str x) NULL)) by done. cbn [negb].
  eapply holds_bind; [by apply (fkfree_live s B P)|]. intros _ s1 (h1 & -> & Hl1).
  eapply holds_bind; [apply (fkfree_live _ (B ∖ {[d_name_str x]}) P); [exact Hl1|set_solver]|]. intros _ s2 (h2 & -> & Hl2). exists h2. by split.
Qed.
End tty_init.

(** The terminal's file.  [tty_init] either leaves the terminal with an
    empty buffer and process 1 in the foreground, and a new file with the
    terminal's operations whose dentry is named tty0, all in fresh blocks; or
    it returns -ENOMEM with every block it took released and no dentry or
    file added. *)
Theorem tty_init_correct {H D} `{!KernelHeap H, !DiskDriver D} (s : fs H D) (B P : gset Z) : h_live (heap (fblk s)) B P →
  (∀ p, is_Some (dentries s !! p) → p ∈ B) →
  holds tty_init s (λ '(r, dev) s', ∃ h, 
    (r = - ENOMEM ∧ dev = None ∧ s' = put_heap h s ∧ h_live h B P) ∨
    (∃ t d str f, r = 0 ∧ dev = Some (TtyDev t f (Tty (replicate 512 0) 0 0 0 1 1)) ∧
       NoDup [t; d; str; f] ∧ Forall (λ p, p ≠ NULL ∧ p ∉ B ∪ P) [t; d; str; f] ∧ h_live h ({[f]} ∪ ({[str]} ∪ ({[d]} ∪ ({[t]} ∪ B)))) P ∧
       ofiles s' = <[f := File d 0 0 tty_fops]> (ofiles s) ∧
       dentries s' = <[d := Dentry str (Qstr (codes "tty0") 4 (vfs_hash_name (codes "tty0"))) NULL NULL NULL NULL NULL]> (dentries s) ∧
       heap (fblk s') = h)).
Proof.
  intros Hl Hdom. unfold tty_init. eapply holds_bind; [apply (fkzalloc_live s B P); [done|by vm_compute]|].
  intros t s1 (h1 & -> & [[-> Hl1]|(Ht & Htn & Hl1)]); [rewrite Z.eqb_refl; apply holds_ret; exists h1; by left|].
  rewrite (proj2 (Z.eqb_neq t NULL)) by done. eapply holds_bind.
  { apply (d_alloc_live _ ({[t]} ∪ B) P); [exact Hl1| |by vm_compute|by vm_compute]. intros p Hp. apply elem_of_union_r. by apply Hdom. }
  intros d s2 (h2 & [(-> & Hpe & -> & Hl2)|(str & -> & Hd & Hdn & Hs & Hsd & Hsn & Hl2 & ->)]).
  - eapply holds_bind; [apply (fkfree_live _ ({[t]} ∪ B) P); [exact Hl2|set_solver]|]. intros _ s3 (h3 & -> & Hl3). apply holds_ret.
    exists h3. left. rewrite add_remove in Hl3 by set_solver. done.
  - eapply holds_bind; [apply (fkzalloc_live _ ({[str]} ∪ ({[d]} ∪ ({[t]} ∪ B))) P); [exact Hl2|by vm_compute]|]. intros f s3 (h3 & -> & [[-> Hl3]|(Hf & Hfn & Hl3)]).
    + rewrite Z.eqb_refl. eapply holds_bind; [apply (fkfree_live _ ({[str]} ∪ ({[d]} ∪ ({[t]} ∪ B))) P t); [exact Hl3|clear; set_solver]|]. intros _ s4 (h4 & -> & Hl4).
      eapply holds_bind; [eapply d_free_live; [exact Hl4|apply lookup_insert_eq|done|done|done|clear - Hdn; set_solver|clear - Hsn; set_solver]|].
      intros _ s5 (h5 & -> & Hl5). apply holds_ret. exists h5. left. cbn [d_name_str] in Hl5.
      assert (({[str]} ∪ ({[d]} ∪ ({[t]} ∪ B))) ∖ {[t]} ∖ {[str]} ∖ {[d]} = B) as HB by (clear - Htn Hdn Hsn; set_solver). rewrite HB in Hl5. split; [done|]. split; [done|].
      split; [|exact Hl5]. rewrite !put_heap_dentries, !put_heap_twice, set_dentries_twice. apply set_dentries_id, delete_insert_id.
      destruct (dentries s !! d) eqn:E; [|done]. exfalso. apply Hdn, elem_of_union_l, elem_of_union_r, Hdom. by rewrite E.
    + rewrite (proj2 (Z.eqb_neq f NULL)) by done. apply holds_puts, holds_ret. exists h3. right. exists t, d, str, f. split; [done|]. split; [done|].
      split; [|split; [|done]].
      * clear - Hdn Hsn Hsd Hfn. repeat constructor; set_solver.
      * clear - Ht Htn Hd Hdn Hs Hsn Hf Hfn. repeat constructor; try done; set_solver.
Qed.

Lemma demo_tree_dentries p : is_Some (dentries demo_tree !! p) → p ∈ ({[ demo_root ]} : gset Z).
Proof. intros Hp. cbn in Hp. apply lookup_singleton_is_Some in Hp as <-. by apply elem_of_singleton. Qed.

Lemma demo_tty_init_ok : match tty_init demo_tree with Ok ((_, Some _), _) => true | _ => false end = true.
Proof. vm_compute. reflexivity. Qed.

Lemma tty_init_correct_witness :
  match tty_init demo_tree with Ok ((r, Some dev), s') => r = 0 ∧ is_Some (ofiles s' !! tty0_file dev) | _ => False end.
Proof.
  generalize demo_tty_init_ok (tty_init_correct demo_tree {[ demo_root ]} ∅ demo_tree_live demo_tree_dentries). unfold holds.
  generalize (tty_init demo_tree). generalize demo_tree. intros s0 [[[r [dev|]] s']| | |] Hb Hh; try discriminate Hb. destruct Hh as (h & Hc).
  destruct Hc as [(_ & Hd & _)|(t & d & str & f & -> & Hd & _ & _ & _ & Ho & _)]; [discriminate Hd|]. injection Hd as ->. split; [reflexivity|].
  rewrite Ho. cbn [tty0_file]. rewrite lookup_insert_eq. by eexists.
Defined.

(** The file table of a task: empty slots and open files. *)
Definition fd_table_ok (files : gmap Z file) (m : gmap Z Z) (t : Z) : Prop :=
  ∀ i, 0 <= i < OPEN_FILE_TABLE_COUNT → t_fd m t i = NULL ∨ is_Some (files !! t_fd m t i).

(** The system call finds no function to call. *)
Definition bad_fd (files : gmap Z file) (m : gmap Z Z) (t : Z) (op : file_operations → option file_fn) (fd : Z) : Prop :=
  OPEN_FILE_TABLE_COUNT <= fd ∨ t_fd m t fd = NULL ∨ ∃ fl, files !! t_fd m t fd = Some fl ∧ op (f_fops fl) = None.

Lemma sys_rw_spec files m t op fd buf count : fd_table_ok files m t → 0 <= fd → 0 <= count →
  (bad_fd files m t op fd ∧ sys_rw files m t op fd buf count = Ok (inl (- EBADF))) ∨
  (¬ bad_fd files m t op fd ∧ ∃ fl fn, files !! t_fd m t fd = Some fl ∧ op (f_fops fl) = Some fn ∧
     sys_rw files m t op fd buf count = Ok (inr (fn, t_fd m t fd, buf, Z.min count SSIZE_MAX))).
Proof.
  intros Hok Hfd Hc. unfold sys_rw, bad_fd. destruct (Z.leb_spec OPEN_FILE_TABLE_COUNT fd) as [Hl|Hl]; [left; tauto|].
  destruct (Z.eqb_spec (t_fd m t fd) NULL) as [Hn|Hn]; [left; tauto|]. destruct (Hok fd) as [?|[fl Hf]]; [lia|done|]. rewrite Hf.
  destruct (op (f_fops fl)) as [fn|] eqn:Eo.
  - right. split; [intros [?|[?|(fl' & [= ->] & ?)]]; [lia|done|congruence]|]. exists fl, fn. split; [done|]. split; [done|].
    destruct (Z.ltb_spec SSIZE_MAX count); by rewrite ?Z.min_r, ?Z.min_l by lia.
  - left. split; [|done]. right. right. by exists fl.
Qed.

(** C26: reading and writing by descriptor.  For a task whose file table is
    sound, [sys_read] and [sys_write] never fault: they return -EBADF exactly
    for a descriptor that is out of range, closed, or of a file without the
    operation (writing to a file of the disk is such a case), and otherwise
    end in the operation of that file with the caller's buffer and the count
    limited to SSIZE_MAX; no more is checked, so the buffer is any address
    the caller likes. *)
Theorem sys_rw_correct files m t fd buf count : fd_table_ok files m t → 0 <= fd → 0 <= count →
  ((bad_fd files m t fops_read fd ∧ sys_read files m t fd buf count = Ok (inl (- EBADF))) ∨
   (¬ bad_fd files m t fops_read fd ∧ ∃ fl fn, files !! t_fd m t fd = Some fl ∧ fops_read (f_fops fl) = Some fn ∧
      sys_read files m t fd buf count = Ok (inr (fn, t_fd m t fd, buf, Z.min count SSIZE_MAX)))) ∧
  ((bad_fd files m t fops_write fd ∧ sys_write files m t fd buf count = Ok (inl (- EBADF))) ∨
   (¬ bad_fd files m t fops_write fd ∧ ∃ fl, files !! t_fd m t fd = Some fl ∧ f_fops fl = tty_fops ∧
      sys_write files m t fd buf count = Ok (inr (tty_write_fn, t_fd m t fd, buf, Z.min count SSIZE_MAX)))).
Proof.
  intros Hok Hfd Hc. split; [by apply sys_rw_spec|]. destruct (sys_rw_spec files m t fops_write fd buf count Hok Hfd Hc) as [?|(Hb & fl & fn & Hf & Hop & Hs)]; [by left|right].
  split; [done|]. exists fl. destruct (f_fops fl); try discriminate Hop. injection Hop as <-. done.
Qed.

(** Descriptor 0 is the terminal, 3 a file of the disk, the others are closed. *)
Definition demo_files : gmap Z file := {[ 0x700 := File 0 0 0 tty_fops; 0x800 := File 0 0 1 ext2_file_fops ]}.
Definition demo_task : gmap Z Z := {[ 0x1020 := 0x700; 0x1038 := 0x800 ]}.

Lemma sys_rw_correct_witness :
  sys_read demo_files demo_task 0x1000 0 0x5000 (2 ^ 64 - 1) = Ok (inr (tty_read_fn, 0x700, 0x5000, 2 ^ 63 - 1)) ∧
  sys_write demo_files demo_task 0x1000 3 0x5000 10 = Ok (inl (- EBADF)).
Proof.
  assert (fd_table_ok demo_files demo_task 0x1000) as Hok.
  { intros i Hi. assert (forallb (λ i, (t_fd demo_task 0x1000 i =? NULL) || bool_decide (is_Some (demo_files !! t_fd demo_task 0x1000 i))) (seqZ 0 16) = true) as Hall by (vm_compute; reflexivity).
    rewrite forallb_forall in Hall. specialize (Hall i). rewrite <- list_elem_of_In, elem_of_seqZ in Hall. unfold OPEN_FILE_TABLE_COUNT in Hi. specialize (Hall ltac:(lia)).
    apply orb_true_iff in Hall as [Hn|Hs]; [left; by apply Z.eqb_eq|right; revert Hs; by case_bool_decide]. }
  split.
  - destruct (sys_rw_correct demo_files demo_task 0x1000 0 0x5000 (2 ^ 64 - 1) Hok) as [[[Hb _]|(_ & fl & fn & Hf & Hop & ->)] _]; [lia|lia| |].
    + exfalso. destruct Hb as [Hb|[Hb|(fl & Hf & Hop)]]; [by vm_compute in Hb|by vm_compute in Hb|]. vm_compute in Hf. injection Hf as <-. discriminate Hop.
    + vm_compute in Hf. injection Hf as <-. injection Hop as <-. vm_compute. reflexivity.
  - destruct (sys_rw_correct demo_files demo_task 0x1000 3 0x5000 10 Hok) as [_ [[_ ->]|(_ & fl & Hf & Hop & _)]]; [lia|lia|reflexivity|].
    vm_compute in Hf. injection Hf as <-. discriminate Hop.
Defined.
