(* ===== verification/Libc.v ===== *)
(** * The string routines of user programs (usr/libc/src/string.c)

    The file is the text of klibc/string.c once more, compiled for user mode:
    its functions are those of KString.v, on the bytes of the user's address
    space. *)

From S2P Require Import KString.

Definition memset := KString.memset.
Definition memcpy := KString.memcpy.
Definition memcmp := KString.memcmp.
Definition strlen := KString.strlen.
Definition strcpy := KString.strcpy.
Definition strncpy := KString.strncpy.
Definition strcmp := KString.strcmp.
Definition strncmp := KString.strncmp.
Definition strncat := KString.strncat.
