(* ===== verification/User.v ===== *)
(** * The first program (usr/bin/init.c)

    The program sees the kernel through the class [Terminal]: one function for
    the [syscall] instruction, the bytes of its address space, and what its
    calls on the descriptors 0 and 1 do.  Console.v proves that the kernel
    keeps these promises. *)

From S2P Require Import Prelude Types FrameAlloc EarlyPmm Pmm Paging Vmm Kmalloc KString ListHead Sched Wait Vga Tty Layout.

(** ** The kernel as the program sees it *)

(** [term p o s]: [p] is typed and not yet read, [o] has been shown. *)
Class Terminal (S : Type) := {
  sys : Z → Z → Z → Z → S → res (option Z * S);
  umem : S → gmap Z Z;
  set_umem : gmap Z Z → S → S;
  term : list Z → list Z → S → Prop;
  umem_set u s : umem (set_umem u s) = u;
  term_set p o u s : term p o s → term p o (set_umem u s);
  term_write p o s buf l : term p o s → 0 <= buf → buf + Z.of_nat (length l) < 2 ^ 62 → bytes_at (umem s) buf l →
    returns (sys 1 1 buf (Z.of_nat (length l)) s) (λ '(r, s'), r = Some (Z.of_nat (length l)) ∧ term p (o ++ l) s' ∧ umem s' = umem s);
  term_read l rest o s buf count : let p := l ++ newline :: rest in let k := Z.min count (Z.of_nat (length l) + 1) in
    term p o s → newline ∉ l → 0 < count < 2 ^ 62 → 0 <= buf → buf + count < 2 ^ 62 → mapped (umem s) buf (buf + count) →
    returns (sys 0 0 buf count s) (λ '(r, s'), r = Some k ∧ term (drop (Z.to_nat k) p) o s' ∧
      umem s' = umem_write buf (take (Z.to_nat k) p) (umem s));
  term_sleep p o s buf count : term p o s → newline ∉ p → 0 < count < 2 ^ 62 → returns (sys 0 0 buf count s) (λ '(r, s'), r = None)
}.

(** ** init.c *)

Section init.
Context {S : Type} `{!Terminal S}.
Implicit Types s : S.

Definition sys_read (fd buf count : Z) : S → res (option Z * S) := sys 0 (u32 fd) buf count.
Definition sys_write (fd buf count : Z) : S → res (option Z * S) := sys 1 (u32 fd) buf count.

(** Where the program is after some iterations: at the top of its loop, asleep
    in a call, or in the empty loops behind the [break], for ever. *)
Inductive progress := Running (s : S) | Asleep (s : S) | Idling (s : S).

Definition and_then (c : res (option Z * S)) (k : Z → S → res progress) : res progress :=
  '(r, s) ← c;
  match r with Some ret => k ret s | None => Ok (Asleep s) end.

(** The arrays on the stack of [_start]. *)
Context (buf prefix result : Z).

Definition prefix_text : list Z := codes "snapos> ".
Definition result_text : list Z := codes "input: ".

Definition start_iter s : res progress :=
  and_then (sys_write 1 prefix (Z.of_nat (length (prefix_text ++ [0])) - 1) s) (λ _ s,
  and_then (sys_read 0 buf (128 - 10) s) (λ ret s,
  if ret <? 0 then Ok (Idling s) else
  and_then (sys_write 1 result (Z.of_nat (length (result_text ++ [0])) - 1) s) (λ _ s,
  and_then (sys_write 1 buf ret s) (λ _ s,
  Ok (Running s))))).

(** The first [n] iterations. *)
Fixpoint start_loop (n : nat) s : res progress :=
  match n with
  | O => Ok (Running s)
  | Datatypes.S n' =>
      p ← start_iter s;
      match p with Running s => start_loop n' s | p => Ok p end
  end.

Definition start_locals s : S :=
  set_umem (umem_write result (result_text ++ [0]) (umem_write prefix (prefix_text ++ [0]) (umem s))) s.

Definition _start (n : nat) s : res progress := start_loop n (start_locals s).

(** ** One round of the dialogue *)

(** The three arrays do not overlap. *)
Definition locals_ok : Prop :=
  0 <= buf ∧ buf + 128 < 2 ^ 62 ∧ 0 <= prefix ∧ prefix + 9 < 2 ^ 62 ∧ 0 <= result ∧ result + 8 < 2 ^ 62 ∧
  (buf + 128 <= prefix ∨ prefix + 9 <= buf) ∧ (buf + 128 <= result ∨ result + 8 <= buf) ∧ (prefix + 9 <= result ∨ result + 8 <= prefix).

#[export] Instance locals_ok_dec : Decision locals_ok.
Proof. unfold locals_ok. apply _. Defined.

(** Between two iterations. *)
Record at_prompt (p o : list Z) s : Prop := {
  ap_term : term p o s;
  ap_prefix : bytes_at (umem s) prefix prefix_text;
  ap_result : bytes_at (umem s) result result_text;
  ap_buf : mapped (umem s) buf (buf + 128)
}.

Lemma returns_then c k Q R : returns c (λ '(r, s'), ∃ ret, r = Some ret ∧ R ret s') → (∀ ret s', R ret s' → returns (k ret s') Q) →
  returns (and_then c k) Q.
Proof. intros Hc Hk. unfold and_then. eapply returns_bind; [exact Hc|]. intros [r s'] (ret & -> & HR). by apply Hk. Qed.

(** A write leaves memory and the queue alone. *)
Lemma write_step p o s fd a l k Q : fd = 1 → term p o s → 0 <= a → a + Z.of_nat (length l) < 2 ^ 62 → bytes_at (umem s) a l →
  (∀ s', term p (o ++ l) s' → umem s' = umem s → returns (k (Z.of_nat (length l)) s') Q) →
  returns (and_then (sys_write fd a (Z.of_nat (length l)) s) k) Q.
Proof.
  intros -> Ht Ha Hl Hb Hk. apply (returns_then _ _ _ (λ ret s', ret = Z.of_nat (length l) ∧ term p (o ++ l) s' ∧ umem s' = umem s)).
  - eapply returns_mono; [by apply (term_write p o s a l)|]. intros [r s'] (-> & ? & ?). by eexists.
  - intros ret s' (-> & ? & ?). by apply Hk.
Qed.

Lemma write_then_bytes a l um : bytes_at (umem_write a l um) a l.
Proof.
  assert (∀ l' i, l = take i l ++ l' → bytes_at (umem_write a l um) (a + Z.of_nat i) l') as H.
  { intros l'. induction l' as [|x l' IH]; intros i Hi; [done|]. 
    assert (i < length l)%nat as Hlt by (destruct (decide (i < length l)%nat); [done|rewrite take_ge in Hi by lia; apply (f_equal length) in Hi; rewrite length_app in Hi; cbn in Hi; lia]).
    assert (l !! i = Some x) as Hx by (rewrite Hi, lookup_app_r; rewrite length_take; [|lia]; by rewrite Nat.min_l, Nat.sub_diag by lia).
    split.
    - rewrite umem_write_lookup, bool_decide_eq_true_2 by lia. replace (Z.to_nat (a + Z.of_nat i - a)) with i by lia. done.
    - replace (a + Z.of_nat i + 1) with (a + Z.of_nat (Datatypes.S i)) by lia. apply IH. rewrite (take_S_r _ _ _ Hx), <- app_assoc. done. }
  specialize (H l 0%nat eq_refl). by rewrite Z.add_0_r in H.
Qed.

Lemma bytes_outside a l b l' um : bytes_at um b l' → a + Z.of_nat (length l) <= b ∨ b + Z.of_nat (length l') <= a → bytes_at (umem_write a l um) b l'.
Proof. intros Hb Hd. eapply bytes_at_agree; [exact Hb|]. intros x Hx. rewrite umem_write_lookup, bool_decide_eq_false_2 by lia. done. Qed.

(** An iteration with a line in the queue echoes as much of it as fits in the
    buffer. *)
Lemma start_iter_spec l rest o s : locals_ok → newline ∉ l → at_prompt (l ++ newline :: rest) o s →
  let k := Nat.min 118 (length l + 1) in let p := l ++ newline :: rest in
  returns (start_iter s) (λ r, ∃ s', r = Running s' ∧ at_prompt (drop k p) (o ++ prefix_text ++ result_text ++ take k p) s').
Proof.
  intros (H1 & H2 & H3 & H4 & H5 & H6 & H7 & H8 & H9) Hl [Ht Hp Hr Hb] k p. unfold start_iter.
  change (Z.of_nat (length (prefix_text ++ [0])) - 1) with (Z.of_nat (length prefix_text)). change (Z.of_nat (length (result_text ++ [0])) - 1) with (Z.of_nat (length result_text)).
  apply (write_step p o s 1 prefix prefix_text); [done|done|done|change (length prefix_text) with 8%nat; lia|done|]. intros s1 Ht1 Hm1.
  assert (length (take k p) = k) as Hk by (rewrite length_take; unfold p; rewrite length_app; cbn [length]; lia).
  apply (returns_then _ _ _ (λ ret s', ret = Z.of_nat k ∧ term (drop k p) (o ++ prefix_text) s' ∧ umem s' = umem_write buf (take k p) (umem s))).
  { eapply returns_mono; [apply (term_read l rest (o ++ prefix_text) s1 buf (128 - 10)); [done|done|lia|done|lia|]|].
    - rewrite Hm1. intros a Ha. apply Hb. lia.
    - fold p. replace (Z.min (128 - 10) (Z.of_nat (length l) + 1)) with (Z.of_nat k) by lia. rewrite Nat2Z.id, Hm1. intros [r s'] (-> & ? & ?). by eexists. }
  intros ret s2 (-> & Ht2 & Hm2). rewrite (proj2 (Z.ltb_ge (Z.of_nat k) 0)) by lia.
  assert (∀ b t, bytes_at (umem s) b t → buf + 128 <= b ∨ b + Z.of_nat (length t) <= buf → bytes_at (umem s2) b t) as Hkeep.
  { intros b t Hbt Hd. rewrite Hm2. apply bytes_outside; [done|]. rewrite Hk. lia. }
  assert (bytes_at (umem s2) result result_text) as Hr2 by (apply Hkeep; [done|change (length result_text) with 7%nat; lia]).
  apply (write_step (drop k p) (o ++ prefix_text) s2 1 result result_text); [done|done|done|change (length result_text) with 7%nat; lia|done|]. intros s3 Ht3 Hm3.
  rewrite <- Hk at 1. apply (write_step (drop k p) ((o ++ prefix_text) ++ result_text) s3 1 buf (take k p)); [done|done|done|rewrite Hk; lia| |].
  { rewrite Hm3, Hm2. apply write_then_bytes. }
  intros s4 Ht4 Hm4. eexists. split; [reflexivity|]. rewrite <- !app_assoc in Ht4. split; [exact Ht4|rewrite Hm4, Hm3..].
  - apply Hkeep; [done|change (length prefix_text) with 8%nat; lia].
  - exact Hr2.
  - rewrite Hm2. by apply mapped_write.
Qed.

(** With no complete line it shows the prompt and sleeps. *)
Lemma start_iter_sleeps p o s : locals_ok → newline ∉ p → at_prompt p o s → returns (start_iter s) (λ r, ∃ s', r = Asleep s').
Proof.
  intros (H1 & H2 & H3 & H4 & _) Hn [Ht Hp _ _]. unfold start_iter. change (Z.of_nat (length (prefix_text ++ [0])) - 1) with (Z.of_nat (length prefix_text)).
  apply (write_step p o s 1 prefix prefix_text); [done|done|done|change (length prefix_text) with 8%nat; lia|done|]. intros s1 Ht1 _.
  unfold and_then, sys_read. eapply returns_bind; [by apply (term_sleep p (o ++ prefix_text) s1)|]. intros [r s2] ->. by eexists.
Qed.

Lemma start_at_prompt p o s : locals_ok → term p o s → mapped (umem s) buf (buf + 128) → at_prompt p o (start_locals s).
Proof.
  intros (H1 & H2 & H3 & H4 & H5 & H6 & H7 & H8 & H9) Ht Hm. unfold start_locals. split; [by apply term_set|rewrite umem_set..].
  - apply bytes_outside; [|change (length (result_text ++ [0])) with 8%nat; change (length prefix_text) with 8%nat; lia].
    eapply bytes_at_agree; [|intros; reflexivity]. pose proof (write_then_bytes prefix (prefix_text ++ [0]) (umem s)) as Hb. revert Hb. cbn. tauto.
  - pose proof (write_then_bytes result (result_text ++ [0]) (umem_write prefix (prefix_text ++ [0]) (umem s))) as Hb.
    revert Hb. generalize (umem_write result (result_text ++ [0]) (umem_write prefix (prefix_text ++ [0]) (umem s))). cbn. tauto.
  - by do 2 apply mapped_write.
Qed.

(** ** The dialogue *)

(** What is typed for some lines, and what the program answers. *)
Definition typed (ls : list (list Z)) : list Z := concat ((λ l, l ++ [newline]) <$> ls).
Definition answers (ls : list (list Z)) : list Z := concat ((λ l, prefix_text ++ result_text ++ l ++ [newline]) <$> ls).

Lemma start_loop_spec ls : ∀ tail o s, locals_ok → Forall (λ l, newline ∉ l ∧ (length l < 118)%nat) ls → at_prompt (typed ls ++ tail) o s →
  returns (start_loop (length ls) s) (λ r, ∃ s', r = Running s' ∧ at_prompt tail (o ++ answers ls) s').
Proof.
  induction ls as [|l ls IH]; intros tail o s Hok Hls Hs; cbn [length start_loop].
  { exists s. split; [done|]. by rewrite app_nil_r. }
  apply Forall_cons in Hls as [[Hl Hlen] Hls]. unfold typed in Hs. cbn [fmap list_fmap concat] in Hs. fold (typed ls) in Hs. rewrite <- !app_assoc in Hs. cbn [app] in Hs.
  eapply returns_bind; [by apply (start_iter_spec l (typed ls ++ tail) o s)|]. intros r (s1 & -> & Hs1).
  replace (Nat.min 118 (length l + 1)) with (length (l ++ [newline])) in Hs1 by (rewrite length_app; cbn [length]; lia).
  replace (l ++ newline :: typed ls ++ tail) with ((l ++ [newline]) ++ typed ls ++ tail) in Hs1 by by rewrite <- app_assoc. rewrite drop_app_length, take_app_length in Hs1.
  eapply returns_mono; [by apply (IH tail (o ++ prefix_text ++ result_text ++ l ++ [newline]) s1)|]. intros r (s' & -> & Hs'). exists s'. split; [done|].
  unfold answers. cbn [fmap list_fmap concat]. fold (answers ls). by rewrite <- !app_assoc in *.
Qed.

(** Two runs in a row. *)
Lemma start_loop_app n m s : start_loop (n + m) s = (p ← start_loop n s; match p with Running s => start_loop m s | p => Ok p end).
Proof.
  revert s. induction n as [|n IH]; intros s; [done|]. cbn [Nat.add start_loop]. destruct (start_iter s) as [[]| | |]; cbn; done.
Qed.
End init.

(** The dialogue of the first program, on any kernel that keeps the promises
    of [Terminal].  When the user has typed some lines of at most 117
    characters, then after one iteration per line the screen shows for every
    line the prompt, the text "input: " and the line, in order, and the lines
    are consumed; the program is then at its prompt, and in its next iteration
    it falls asleep until a further line is complete. *)
Lemma init_echoes {S} `{!Terminal S} buf prefix result ls tail o s : locals_ok buf prefix result → mapped (umem s) buf (buf + 128) →
  Forall (λ l, newline ∉ l ∧ (length l < 118)%nat) ls → newline ∉ tail → term (typed ls ++ tail) o s →
  returns (_start buf prefix result (length ls) s) (λ r, ∃ s', r = Running s' ∧ term tail (o ++ answers ls) s') ∧
  returns (_start buf prefix result (length ls + 1) s) (λ r, ∃ s', r = Asleep s').
Proof.
  intros Hok Hm Hls Hn Ht. pose proof (start_at_prompt buf prefix result _ _ s Hok Ht Hm) as Hs.
  pose proof (start_loop_spec buf prefix result ls tail o _ Hok Hls Hs) as Hrun. unfold _start. split.
  - eapply returns_mono; [exact Hrun|]. intros r (s' & -> & [Ht' _ _ _]). by exists s'.
  - rewrite start_loop_app. eapply returns_bind; [exact Hrun|]. intros r (s' & -> & Hs'). cbn [start_loop].
    eapply returns_bind; [by eapply start_iter_sleeps|]. intros r (s2 & ->). by exists s2.
Qed.
