(* ===== verification/Console.v ===== *)
(** * A session at the terminal

    The system calls of the first program joined with the kernel below them:
    the table of open files (Syscall.v), the terminal with its wait queues
    (Tty.v, Wait.v) and the screen (Vga.v).  The kernel is an instance of the
    interface [Terminal] that User.v asks for. *)

From S2P Require Import Prelude Types FrameAlloc EarlyPmm Pmm Paging Vmm Kmalloc KString ListHead Sched Wait Vga Tty Layout FsTypes Syscall User.

(** ** Writing to the terminal *)

Lemma copy_from_user_spec um l : ∀ src, 0 <= src → src + Z.of_nat (length l) < 2 ^ 64 → bytes_at um src l → copy_from_user src (length l) um = (l, 0).
Proof.
  induction l as [|c l IH]; intros src H0 H1 Hb; [done|]. cbn [length bytes_at copy_from_user] in *. destruct Hb as [-> Hb].
  rewrite u64_small by lia. by rewrite IH by (done || lia).
Qed.

(** What the screen shows after [l]. *)
Definition shown (l : list Z) (t : tape) : tape := fold_left (λ t c, tape_put c VGA_DEFAULT_TEXT_COLOR t) l t.

Lemma put_all_spec l : ∀ v, vga_inv v → returns (put_all l v) (λ v', vga_inv v' ∧ tape_of v' = shown l (tape_of v)).
Proof.
  induction l as [|c l IH]; intros v Hv; [done|]. cbn [put_all]. eapply returns_bind; [by apply vga_putchar_color_spec|]. intros v1 [Hv1 Ht1].
  eapply returns_mono; [by apply IH|]. intros v' [Hv' ->]. split; [done|]. by rewrite Ht1.
Qed.

Lemma bytes_at_split m p l1 l2 : bytes_at m p (l1 ++ l2) ↔ bytes_at m p l1 ∧ bytes_at m (p + Z.of_nat (length l1)) l2.
Proof.
  revert p. induction l1 as [|x l1 IH]; intros p; cbn [app bytes_at length]; [rewrite Z.add_0_r; tauto|]. rewrite IH.
  replace (p + 1 + Z.of_nat (length l1)) with (p + Z.of_nat (S (length l1))) by lia. tauto.
Qed.

Lemma tty_write_loop_spec fuel : ∀ l buf total c, (length l < fuel)%nat → 0 <= buf → 0 <= total → buf + Z.of_nat (length l) < 2 ^ 64 → total + Z.of_nat (length l) < 2 ^ 64 →
  bytes_at (cuser c) buf l → vga_inv (cvga c) →
  returns (tty_write_loop fuel buf total (total + Z.of_nat (length l)) c) (λ '(r, c'), r = total + Z.of_nat (length l) ∧
    ∃ v, c' = Con (ctty c) v (csched c) (cuser c) ∧ vga_inv v ∧ tape_of v = shown l (tape_of (cvga c))).
Proof.
  induction fuel as [|fuel IH]; intros l buf total c Hf Hb Ht Hbl Htl Hl Hv; [lia|]. cbn [tty_write_loop].
  destruct (Z.ltb_spec total (total + Z.of_nat (length l))) as [Hlt|Hge]; cbn [negb].
  2:{ destruct l; [|cbn in Hge; lia]. cbn. split; [lia|]. exists (cvga c). by destruct c. }
  set (n := Nat.min (length l) 128). assert (size_min (total + Z.of_nat (length l) - total) TTY_BOUNCE_BUF_SIZE = Z.of_nat n) as ->.
  { unfold size_min, TTY_BOUNCE_BUF_SIZE, n. destruct (Z.ltb_spec (total + Z.of_nat (length l) - total) 128); lia. }
  rewrite <- (take_drop n l) in Hl. apply bytes_at_split in Hl as [Hl1 Hl2].
  assert (length (take n l) = n) as Hn by (rewrite length_take; lia). assert (0 < n)%nat as Hn0 by lia. rewrite Nat2Z.id. rewrite <- Hn at 1.
  rewrite copy_from_user_spec by (done || lia). rewrite Z.sub_0_r, (u64_small (Z.of_nat n)), Nat2Z.id by lia. rewrite take_ge by lia.
  eapply returns_bind; [by apply put_all_spec|]. intros v1 [Hv1 Ht1]. rewrite (u64_small (total + _)), (proj2 (Z.eqb_neq (total + Z.of_nat n) 0)) by lia.
  rewrite Z.eqb_refl. cbn [negb]. rewrite u64_small by lia. rewrite Hn in Hl2.
  assert (length (drop n l) = length l - n)%nat as Hd by apply length_drop.
  replace (total + Z.of_nat (length l)) with (total + Z.of_nat n + Z.of_nat (length (drop n l))) by lia.
  eapply returns_mono; [apply (IH (drop n l)); cbn [cuser cvga]; try done; lia|]. intros [r c'] (-> & v & -> & Hvi & Hvt). split; [lia|].
  exists v. split; [done|]. split; [done|]. cbn [cvga] in Hvt. rewrite Hvt, Ht1. unfold shown. by rewrite <- fold_left_app, take_drop.
Qed.

Section writer.
Context (default_wake pid_filter_wake read_wait fg_wait wait_w wait_read t : Z) (lf lr : list Z).
Hypothesis Hap : reader_apart read_wait fg_wait wait_w wait_read t lf lr.

(** What a call of the terminal leaves of the scheduler's state. *)
Record settled (m0 : gmap Z Z) (s : sched) : Prop := {
  se_fg : dll (smem s) fg_wait lf;
  se_read : dll (smem s) read_wait lr;
  se_pid : t_pid (smem s) t = t_pid m0 t;
  se_cur : current_task s = t;
  se_keep : ∀ a, kept read_wait fg_wait wait_w wait_read t lf lr a → ld (smem s) a = ld m0 a
}.

Lemma read_node_kept n : n ∈ read_wait :: lr → not_node_word (nx n) (fg_nodes fg_wait wait_w lf) ∧ not_node_word (pv n) (fg_nodes fg_wait wait_w lf) ∧
  nx n ∉ entry_fields wait_w ∧ pv n ∉ entry_fields wait_w ∧ t ≠ nx n ∧ t ≠ pv n.
Proof.
  intros Hn. destruct Hap as (Hok & Ht & _ & _). assert (n ∈ read_nodes read_wait wait_read lr) as Hin by (by right).
  destruct (nodes_ok_apart _ _ _ Hok Hin) as [H1 H2]. destruct (Ht n) as [H3 H4]; [apply elem_of_app; by right|].
  split_and!; try done; intros Hf; destruct (fields_apart _ _ _ _ _ _ _ Hap _ (proj2 (elem_of_app _ _ _) (or_introl Hf))) as (_ & H5 & _); by destruct (H5 n Hin).
Qed.

Lemma write_enter_spec s : current_task s = t → dll (smem s) fg_wait lf → dll (smem s) read_wait lr →
  let s' := tty_write_enter default_wake pid_filter_wake wait_w s in
  waiting false fg_wait wait_w t lf s' ∧ current_task s' = t ∧
  ∀ a, a ∉ entry_fields wait_w → not_node_word a [wqe_entry wait_w] → ld (smem s') a = ld (smem s) a.
Proof.
  intros Hc Hdf Hdr s'. destruct (reader_entry_facts _ _ _ _ _ _ _ Hap wait_w) as (Hnd & Hfl & Hok1 & Hfa); [by left|].
  destruct (init_entry_spec default_wake t wait_w s Hnd Hfl Hok1) as (Hp1 & He1 & Hc1 & Hk1). set (s1 := init_waitqueue_entry default_wake wait_w t s) in *.
  assert (s' = set_smem (st (smem s1) (u64 (wait_w + 16)) pid_filter_wake) s1) as -> by (unfold s', tty_write_enter; by rewrite Hc).
  assert (∀ a, a ≠ u64 (wait_w + 16) → ld (smem (set_smem (st (smem s1) (u64 (wait_w + 16)) pid_filter_wake) s1)) a = ld (smem s1) a) as Hk2
    by (intros a Ha; rewrite smem_set_smem; apply ld_st_ne; congruence).
  assert (∀ a, a ∉ entry_fields wait_w → not_node_word a [wqe_entry wait_w] → ld (smem (set_smem (st (smem s1) (u64 (wait_w + 16)) pid_filter_wake) s1)) a = ld (smem s) a) as Hk.
  { intros a Ha Hn. rewrite Hk2 by by apply ne_field16. by apply Hk1. }
  destruct (Hfa (u64 (wait_w + 16)) (field16 wait_w)) as (H16 & _ & _). split; [|split; [by rewrite <- Hc, <- Hc1|exact Hk]]. split.
  - eapply dll_agree; [exact Hdf|]. intros n Hn. destruct Hap as (Hok & _ & _ & _). assert (n ∈ fg_nodes fg_wait wait_w lf) as Hin by (by right).
    assert (nodes_ok ([wqe_entry wait_w] ++ fg_wait :: lf)) as Hok' by (eapply nodes_ok_sublist; [|exact Hok]; by apply sublist_inserts_r).
    destruct (nodes_ok_apart _ _ _ Hok' Hn) as [H1 H2]. split; (apply Hk; [|done]); intros Hf; destruct (Hfa _ Hf) as (H3 & _ & _); by destruct (H3 n Hin).
  - intros _. unfold list_empty in *. rewrite Hk2; [done|]. intros Heq. destruct (H16 (wqe_entry wait_w)) as [? _]; [by left|congruence].
  - unfold wqe_private in *. rewrite Hk2; [done|]. intros Heq. unfold entry_fields in Hnd. apply NoDup_cons in Hnd as [_ Hnd]. apply NoDup_cons in Hnd as [Hnd _]. apply Hnd. rewrite Heq. by left.
Qed.

(** The wait for the foreground, which a foreground task passes at once. *)
Lemma write_wait_spec s m0 : smem s = m0 → current_task s = t → dll (smem s) fg_wait lf → dll (smem s) read_wait lr →
  let s1 := tty_write_enter default_wake pid_filter_wake wait_w s in let s2 := prepare_to_wait fg_wait wait_w TASK_INTERRUPTIBLE s1 in
  t_pid (smem s2) t = t_pid m0 t ∧ current_task s2 = t ∧ settled m0 (finish_wait fg_wait wait_w s2).
Proof.
  intros Hm0 Hc Hdf Hdr s1 s2. destruct (write_enter_spec s Hc Hdf Hdr) as (Hw1 & Hc1 & Hk1). fold s1 in Hw1, Hc1, Hk1.
  pose proof (fg_entry_apart _ _ _ _ _ _ _ Hap) as Hea.
  destruct (waiting_prepare false fg_wait wait_w t lf s1 TASK_INTERRUPTIBLE Hea Hw1) as [Hw2 Hf2]; [done|]. fold s2 in Hw2, Hf2.
  destruct (waiting_finish fg_wait wait_w t lf s2 Hea Hw2) as [Hw3 Hf3]. set (s3 := finish_wait fg_wait wait_w s2) in *.
  pose proof Hap as (Hok & Ht & _ & _). destruct (nodes_split _ _ _ _ _ _ _ Ht) as [Htf _].
  assert (t_pid (smem s1) t = t_pid m0 t) as Hp1.
  { unfold t_pid. rewrite <- Hm0. f_equal. apply Hk1.
    - intros Hf. destruct (fields_apart _ _ _ _ _ _ _ Hap t (proj2 (elem_of_app _ _ _) (or_introl Hf))) as (_ & _ & ?). done.
    - eapply not_node_word_sub; [|exact Htf]. intros n ->%list_elem_of_singleton. by left. }
  pose proof (frame_pid _ _ _ _ _ _ _ Hf2) as Hp2. pose proof (frame_pid _ _ _ _ _ _ _ Hf3) as Hp3.
  destruct Hf2 as (_ & Hf2 & Hcc2), Hf3 as (_ & Hf3 & Hcc3). split; [congruence|]. split; [congruence|]. split; [by apply Hw3| |congruence|congruence|].
  - eapply dll_agree; [exact Hdr|]. intros n Hn. destruct (read_node_kept n Hn) as (H1 & H2 & H3 & H4 & H5 & H6).
    assert (∀ a, not_node_word a (fg_nodes fg_wait wait_w lf) → not_node_word a [wqe_entry wait_w]) as Hsub.
    { intros a Ha. eapply not_node_word_sub; [|exact Ha]. intros x ->%list_elem_of_singleton. by left. }
    split; rewrite Hf3, Hf2 by (done || congruence); apply Hk1; auto.
  - intros a (Ha1 & Ha2 & Ha3). destruct (nodes_split _ _ _ _ _ _ _ Ha2) as [Haf _]. rewrite Hf3, Hf2 by done. rewrite <- Hm0. apply not_elem_of_app in Ha1 as [Ha1 _]. apply Hk1; [done|].
    eapply not_node_word_sub; [|exact Haf]. intros x ->%list_elem_of_singleton. by left.
Qed.
End writer.

(** ** The kernel behind the [syscall] instruction *)

Section kernel.
(** The open files, the operation of ext2's files on this state, and where the
    queues of the terminal and the entries on the kernel stack lie; [bounce]
    is what the kernel stack holds when [tty_read] is entered. *)
Context (files : gmap Z file) (ext2_read : Z → Z → Z → console → res (option Z * console)).
Context (run_queue default_wake pid_filter_wake read_wait fg_wait wait_fg wait_read wait_w : Z) (bounce : console → list Z).

(** Enough for the 511 characters the ring holds. *)
Definition read_fuel : nat := 512.

(** [f->fops->read(f, buf, count, &f->pos)] and the same for [write]; [None]
    when the task sleeps. *)
Definition call_file (fc : file_call) (c : console) : res (option Z * console) :=
  let '(fn, f, buf, count) := fc in
  match fn with
  | tty_read_fn =>
      n ← tty_read run_queue default_wake pid_filter_wake read_wait fg_wait wait_fg wait_read read_fuel buf count (bounce c) c;
      match n with RdDone r c => Ok (Some r, c) | RdSleep _ c => Ok (None, c) | RdAgain _ _ => OutOfFuel end
  | tty_write_fn => __tty_write run_queue default_wake pid_filter_wake fg_wait wait_w (S (Z.to_nat count)) buf count c
  | ext2_read_file_fn => ext2_read f buf count c
  end.

Definition finish_call (r : Z + file_call) (c : console) : res (option Z * console) :=
  match r with inl e => Ok (Some e, c) | inr fc => call_file fc c end.

(** The function that [syscall_table] selects for a number below 256. *)
Definition kernel_call (n fd buf count : Z) (c : console) : res (option Z * console) :=
  let m := smem (csched c) in let cur := current_task (csched c) in
  if n =? 0 then r ← Syscall.sys_read files m cur fd buf count; finish_call r c
  else if n =? 1 then r ← Syscall.sys_write files m cur fd buf count; finish_call r c
  else '(r, v) ← sys_not_implemented (cvga c); Ok (Some r, Con (ctty c) v (csched c) (cuser c)).

(** ** The promises of the kernel *)

Context (t f pid : Z) (lf lr : list Z) (screen : tape).

(** The task's descriptors 0 and 1 are the terminal's file; the words of the
    descriptor table, the task, the queues and the entries are apart. *)
Record console_env : Prop := {
  ce_read : reader_apart read_wait fg_wait wait_fg wait_read t lf lr;
  ce_write : reader_apart read_wait fg_wait wait_w wait_read t lf lr;
  ce_fds : Forall (λ a, kept read_wait fg_wait wait_fg wait_read t lf lr a ∧ kept read_wait fg_wait wait_w wait_read t lf lr a) [u64 (t + 32 + 8 * 0); u64 (t + 32 + 8 * 1)];
  ce_file : f ≠ NULL ∧ f_fops <$> files !! f = Some tty_fops;
  ce_bounce : ∀ c, length (bounce c) = 128%nat
}.

(** [p] is queued, [o] has been written to the screen since it was [screen],
    and the task is the foreground task. *)
Record kterm (p o : list Z) (c : console) : Prop := {
  kt_inv : tty_inv (ctty c);
  kt_ring : ring (ctty c) = p;
  kt_canon : canon_ok (ctty c);
  kt_fg : fg_pid (ctty c) = pid;
  kt_vga : vga_inv (cvga c);
  kt_tape : tape_of (cvga c) = shown o screen;
  kt_pid : t_pid (smem (csched c)) t = pid;
  kt_cur : current_task (csched c) = t;
  kt_fgq : dll (smem (csched c)) fg_wait lf;
  kt_readq : dll (smem (csched c)) read_wait lr;
  kt_fd0 : t_fd (smem (csched c)) t 0 = f;
  kt_fd1 : t_fd (smem (csched c)) t 1 = f
}.

Hypothesis Henv : console_env.

Lemma kept_fds m m' : (∀ a, kept read_wait fg_wait wait_fg wait_read t lf lr a → ld m' a = ld m a) ∨ (∀ a, kept read_wait fg_wait wait_w wait_read t lf lr a → ld m' a = ld m a) →
  t_fd m' t 0 = t_fd m t 0 ∧ t_fd m' t 1 = t_fd m t 1.
Proof.
  pose proof (ce_fds Henv) as Hf. rewrite !Forall_cons in Hf. destruct Hf as ([H0 H0'] & [H1 H1'] & _). unfold t_fd. intros [Hk|Hk]; split; apply Hk; done.
Qed.

Lemma sys_rw_tty m cur op fn fd buf count : t_fd m cur fd = f → 0 <= fd < OPEN_FILE_TABLE_COUNT → op tty_fops = Some fn → 0 <= count <= SSIZE_MAX →
  sys_rw files m cur op fd buf count = Ok (inr (fn, f, buf, count)).
Proof.
  intros Hf Hfd Hop Hc. pose proof (ce_file Henv) as [Hn Hfl]. unfold sys_rw. rewrite (proj2 (Z.leb_gt OPEN_FILE_TABLE_COUNT fd)) by lia. rewrite Hf.
  rewrite (proj2 (Z.eqb_neq f NULL)) by done. destruct (files !! f) as [fl|]; [|done]. injection Hfl as ->. rewrite Hop.
  by rewrite (proj2 (Z.ltb_ge SSIZE_MAX count)) by lia.
Qed.

Lemma kernel_write p o c buf l : kterm p o c → 0 <= buf → buf + Z.of_nat (length l) < 2 ^ 62 → bytes_at (cuser c) buf l →
  returns (kernel_call 1 1 buf (Z.of_nat (length l)) c) (λ '(r, c'), r = Some (Z.of_nat (length l)) ∧ kterm p (o ++ l) c' ∧ cuser c' = cuser c).
Proof.
  intros [Hi Hr Hcn Hfg Hv Ht Hp Hc Hqf Hqr H0 H1] Hb Hl Hby. unfold kernel_call. change (1 =? 0) with false. change (1 =? 1) with true. cbv iota zeta.
  unfold Syscall.sys_write. rewrite (sys_rw_tty _ _ fops_write tty_write_fn) by (rewrite ?Hc; (done || (unfold OPEN_FILE_TABLE_COUNT, SSIZE_MAX; lia))). rewrite bind_Ok.
  cbn [finish_call call_file]. unfold __tty_write, tty_write_wait.
  destruct (write_wait_spec default_wake pid_filter_wake read_wait fg_wait wait_w wait_read t lf lr (ce_write Henv) (csched c) (smem (csched c)) eq_refl Hc Hqf Hqr) as (Hp2 & Hc2 & Hse).
  cbn [set_csched csched ctty cvga cuser] in *. set (s2 := prepare_to_wait fg_wait wait_w TASK_INTERRUPTIBLE _) in *. clearbody s2.
  unfold __is_fg. rewrite Hc2, Hp2, Hp, Hfg, Z.eqb_refl. cbv iota zeta. destruct Hse as [Hsf Hsr Hsp Hsc Hsk]. set (s3 := finish_wait fg_wait wait_w s2) in *. clearbody s3.
  rewrite Nat2Z.id. eapply returns_bind; [pose proof (tty_write_loop_spec (S (length l)) l buf 0 (Con (ctty c) (cvga c) s3 (cuser c))) as Hw; rewrite Z.add_0_l in Hw; apply Hw; try done; cbn; lia|].
  intros [r c'] (-> & v & -> & Hv' & Ht'). cbn [ctty cvga csched cuser] in *. split; [done|]. split; [|done].
  destruct (kept_fds (smem (csched c)) (smem s3)) as [Hf0 Hf1]; [by right|]. split; cbn [ctty cvga csched cuser]; try done; try congruence.
  rewrite Ht', Ht. unfold shown. by rewrite fold_left_app.
Qed.

Lemma lines_app l1 l2 : lines (l1 ++ l2) = lines l1 + lines l2.
Proof. unfold lines. rewrite filter_app, length_app. lia. Qed.

Lemma lines_none l : newline ∉ l → lines l = 0.
Proof.
  induction l as [|c l IH]; intros Hl; [done|]. apply not_elem_of_cons in Hl as [Hc Hl]. unfold lines in *. rewrite filter_cons_False by done. by apply IH.
Qed.

Lemma lines_line l rest : newline ∉ l → lines (l ++ newline :: rest) = 1 + lines rest.
Proof.
  intros Hl. rewrite lines_app, lines_none by done. change (newline :: rest) with ([newline] ++ rest). rewrite lines_app. change (lines [newline]) with 1. lia.
Qed.

Lemma kernel_read l rest o c buf count : let p := l ++ newline :: rest in let k := Z.min count (Z.of_nat (length l) + 1) in
  kterm p o c → newline ∉ l → 0 < count < 2 ^ 62 → 0 <= buf → buf + count < 2 ^ 62 → mapped (cuser c) buf (buf + count) →
  returns (kernel_call 0 0 buf count c) (λ '(r, c'), r = Some k ∧ kterm (drop (Z.to_nat k) p) o c' ∧
    cuser c' = umem_write buf (take (Z.to_nat k) p) (cuser c)).
Proof.
  intros p k [Hi Hr Hcn Hfg Hv Ht Hp Hc Hqf Hqr H0 H1] Hl Hcount Hb Hbc Hm. unfold kernel_call. change (0 =? 0) with true. cbv iota zeta.
  unfold Syscall.sys_read. rewrite (sys_rw_tty _ _ fops_read tty_read_fn) by (rewrite ?Hc; (done || (unfold OPEN_FILE_TABLE_COUNT, SSIZE_MAX; lia))). rewrite bind_Ok.
  cbn [finish_call call_file]. pose proof (length_ring (ctty c)) as Hlen. pose proof (ring_len_range (ctty c)) as Hrange. rewrite Hr in Hlen. unfold p in Hlen. rewrite length_app in Hlen. cbn [length] in Hlen. unfold TTY_BUF_SIZE in Hrange.
  assert (canon_lines (ctty c) = 1 + lines rest) as Hcan by (rewrite Hcn, Hr; by apply lines_line). pose proof (lines_length rest) as Hlr.
  assert (reader_apart read_wait fg_wait wait_fg wait_read (current_task (csched c)) lf lr) as Hra by (rewrite Hc; apply Henv).
  eapply returns_bind; [apply (tty_read_line run_queue default_wake pid_filter_wake read_wait fg_wait wait_fg wait_read lf lr read_fuel buf count (bounce c) c l rest Hra)|].
  { rewrite Hc. congruence. } { done. } { done. } { done. } { lia. } { done. } { done. } { lia. } { done. } { fold k. lia. } { intros a Ha. apply Hm. lia. } { apply Henv. }
  { unfold read_fuel. fold k. lia. }
  intros n (c' & -> & [Hi' Hr' Hcn' Hfg' Hu' Hv' [Hqf' Hqr' Hp' Hc' Hk']] & Hst). unfold take_count in *. fold k in Hr', Hcn', Hu' |- *. rewrite Hc in *.
  split; [done|]. destruct (kept_fds (smem (csched c)) (smem (csched c'))) as [Hf0 Hf1]; [by left|]. split; [split|]; try done; try congruence.
  - unfold canon_ok. rewrite Hr', Hcn', Hcan. case_bool_decide as Hkl.
    + rewrite Hkl. replace (Z.to_nat (Z.of_nat (length l) + 1)) with (length (l ++ [newline])) by (rewrite length_app; cbn; lia).
      change (newline :: rest) with ([newline] ++ rest). rewrite app_assoc, drop_app_length. lia.
    + rewrite drop_app_le by lia. rewrite lines_line; [lia|]. intros Hin. apply Hl. rewrite <- (take_drop (Z.to_nat k) l). apply elem_of_app. by right.
  - apply Hqf'.
  - apply Hqr'.
  - rewrite Hu'. f_equal. unfold line_bytes, p. change (newline :: rest) with ([newline] ++ rest). rewrite (app_assoc l). symmetry. apply take_app_le. rewrite length_app. cbn. lia.
Qed.

Lemma kernel_sleep p o c buf count : kterm p o c → newline ∉ p → 0 < count < 2 ^ 62 → returns (kernel_call 0 0 buf count c) (λ '(r, c'), r = None).
Proof.
  intros [Hi Hr Hcn Hfg Hv Ht Hp Hc Hqf Hqr H0 H1] Hn Hcount. unfold kernel_call. change (0 =? 0) with true. cbv iota zeta.
  unfold Syscall.sys_read. rewrite (sys_rw_tty _ _ fops_read tty_read_fn) by (rewrite ?Hc; (done || (unfold OPEN_FILE_TABLE_COUNT, SSIZE_MAX; lia))). rewrite bind_Ok.
  cbn [finish_call call_file]. unfold tty_read, read_fuel. cbn [tty_read_loop]. unfold tty_read_iter. cbn [rd_total rd_ret]. rewrite (proj2 (Z.ltb_lt 0 count)) by lia. cbn [negb].
  cbn [set_csched ctty csched rd_bounce]. unfold __tty_read, __tty_has_line. rewrite Hcn, Hr, lines_none by done. change (negb (0 <? 0)) with true. cbv iota.
  destruct (__is_fg _ _ _); reflexivity.
Qed.

Definition kernel_terminal : Terminal console := {|
  sys := kernel_call; umem := cuser; set_umem := set_cuser; term := kterm;
  umem_set u c := eq_refl;
  term_set p o u c H := match H with Build_kterm _ _ _ a1 a2 a3 a4 a5 a6 a7 a8 a9 a10 a11 a12 => Build_kterm p o (set_cuser u c) a1 a2 a3 a4 a5 a6 a7 a8 a9 a10 a11 a12 end;
  term_write := kernel_write; term_read := kernel_read; term_sleep := kernel_sleep
|}.
End kernel.

#[export] Instance kept_dec rw fw e1 e2 t lf lr a : Decision (kept rw fw e1 e2 t lf lr a).
Proof. unfold kept. apply _. Defined.

(** C3: a session at the terminal, from the screen down to the queues.  Let
    the first program be the foreground task with the terminal as its
    descriptors 0 and 1, and let lines of at most 117 characters be queued.
    Then its loop, through the system calls, the file table, the terminal, the
    wait queues and the user copies, shows on the screen for every line in
    order the prompt "snapos> ", "input: " and the line, exactly as the tape
    of the console prescribes; the lines are gone from the ring, which holds
    what was typed behind them, and the line count is right.  In the next
    iteration the program falls asleep until a further line is complete. *)
Theorem session_echoes files ext2_read run_queue default_wake pid_filter_wake read_wait fg_wait wait_fg wait_read wait_w bounce t f pid lf lr
    (Henv : console_env files read_wait fg_wait wait_fg wait_read wait_w bounce t f lf lr) buf prefix result ls tail c :
  let T := kernel_terminal files ext2_read run_queue default_wake pid_filter_wake read_wait fg_wait wait_fg wait_read wait_w bounce t f pid lf lr (tape_of (cvga c)) Henv in
  kterm read_wait fg_wait t f pid lf lr (tape_of (cvga c)) (typed ls ++ tail) [] c →
  locals_ok buf prefix result → mapped (cuser c) buf (buf + 128) → Forall (λ l, newline ∉ l ∧ (length l < 118)%nat) ls → newline ∉ tail →
  returns (_start (Terminal0 := T) buf prefix result (length ls) c) (λ r, ∃ c', r = Running c' ∧
    tape_of (cvga c') = shown (answers ls) (tape_of (cvga c)) ∧ vga_inv (cvga c') ∧ ring (ctty c') = tail ∧ canon_ok (ctty c') ∧ tty_inv (ctty c')) ∧
  returns (_start (Terminal0 := T) buf prefix result (length ls + 1) c) (λ r, ∃ c', r = Asleep c').
Proof.
  intros T Hk Hok Hm Hls Hn. destruct (init_echoes (Terminal0 := T) buf prefix result ls tail [] c Hok Hm Hls Hn Hk) as [H1 H2]. split; [|exact H2].
  eapply returns_mono; [exact H1|]. intros r (c' & -> & [Hi Hr Hcn _ Hv Ht _ _ _ _ _ _]). by exists c'.
Qed.

(** ** A concrete session *)

(** Task 0x1000 with the terminal open, and "hi" and "ok" typed. *)
Definition demo_session : console :=
  let m := INIT_LIST_HEAD 0x600 (INIT_LIST_HEAD 0x700 (st (st (st ∅ 0x1000 5) 0x1020 0x8000) 0x1028 0x8000)) in
  let ring := <[0%nat := 10]> (<[1%nat := 111]> (<[2%nat := 107]> (<[3%nat := 10]> (tty_buffer demo_tty)))) in
  Con (Tty ring 510 4 2 5 1) (Vga (replicate 2000 0) 0 0) (Sched (Kheap m demo_pmm (replicate 6 0) 0) 0x1000 0x3000 4 0x1000 0 0 0)
    (umem_write 0x4000 (replicate 128 0) ∅).

Definition demo_open : gmap Z file := {[0x8000 := File 0x9000 0 0 tty_fops]}.

Lemma demo_env : console_env demo_open 0x700 0x600 0x800 0x900 0xA00 (λ _, replicate 128 0) 0x1000 0x8000 [] [].
Proof.
  split; [apply (bool_decide_unpack _); vm_compute; exact I..| |intros; reflexivity]. split; [discriminate|reflexivity].
Qed.

Lemma demo_session_ok : kterm 0x700 0x600 0x1000 0x8000 5 [] [] (tape_of (cvga demo_session)) (typed [[104; 105]; [111; 107]] ++ []) [] demo_session.
Proof.
  split; [apply (bool_decide_unpack _); vm_compute; exact I|vm_compute; reflexivity|vm_compute; reflexivity|reflexivity|apply (bool_decide_unpack _); vm_compute; exact I|reflexivity|vm_compute; reflexivity|reflexivity| | |vm_compute; reflexivity|vm_compute; reflexivity];
    (split; [vm_compute; done|apply (bool_decide_unpack _); vm_compute; exact I]).
Qed.

Lemma demo_session_buf : mapped (cuser demo_session) 0x4000 (0x4000 + 128).
Proof.
  intros a Ha. change (cuser demo_session) with (umem_write 0x4000 (replicate 128 0) ∅). rewrite umem_write_lookup, bool_decide_eq_true_2 by (rewrite length_replicate; lia).
  apply lookup_lt_is_Some_2. rewrite length_replicate. lia.
Qed.

(** What the screen shows: two lines of text. *)
Definition demo_screen : tape := shown (answers [[104; 105]; [111; 107]]) (Tape (replicate 2000 0) 0).

Lemma session_echoes_witness :
  returns (_start (Terminal0 := kernel_terminal demo_open (λ _ _ _ _, Fault) 0x500 0xD0 0xD1 0x700 0x600 0x800 0x900 0xA00 (λ _, replicate 128 0) 0x1000 0x8000 5 [] []
      (tape_of (cvga demo_session)) demo_env) 0x4000 0x4100 0x4200 2 demo_session)
    (λ r, ∃ c', r = Running c' ∧ tape_of (cvga c') = demo_screen ∧ ring (ctty c') = []) ∧ pos demo_screen = 160.
Proof.
  split; [|vm_compute; reflexivity].
  destruct (session_echoes demo_open (λ _ _ _ _, Fault) 0x500 0xD0 0xD1 0x700 0x600 0x800 0x900 0xA00 (λ _, replicate 128 0) 0x1000 0x8000 5 [] [] demo_env
    0x4000 0x4100 0x4200 [[104; 105]; [111; 107]] [] demo_session demo_session_ok) as [H _].
  - apply (bool_decide_unpack _). vm_compute. exact I.
  - exact demo_session_buf.
  - apply (bool_decide_unpack _). vm_compute. exact I.
  - apply not_elem_of_nil.
  - eapply returns_mono; [exact H|]. intros r (c' & -> & Ht & _ & Hr & _). exists c'. split; [reflexivity|]. split; [exact Ht|exact Hr].
Defined.
