(* ===== verification/ProcCreate.v ===== *)
(** * A new address space

    [mm_create] and [mm_alloc_main_stack] on the kernel's heap and page tables:
    from the invariant of the kernel to the invariant [proc_live] of a process
    (ProcMem.v), which the executable loader starts from. *)

From S2P Require Import Prelude Types FrameAlloc EarlyPmm Pmm Paging Vmm Kmalloc Mm Layout Apic Madt HeapApi ProcMem Pic Acpi ApicInit.

(** The kernel's heap with its live blocks [B] and pages [P], beside the page
    tables below [kroot]. *)
Record kernel_inv (kroot : Z) (T : gmap Z (nat * Z)) (B P : gset Z) (h : kheap) (pools : gmap Z Z) (fl : list (list Z)) : Prop := {
  kv_space : kspace kroot T h pools fl B;
  kv_tables : ∀ t, is_Some (T !! t) → PHYS_TO_VIRT t ∉ P;
  kv_pages : ∀ p, p ∈ P → page_live h pools p
}.

Section create.
Context (kroot : Z) (T : gmap Z (nat * Z)).

(** ** The [mm_struct] *)

(** The block comes from the slots at hand, of which one fewer remain. *)
Lemma kzalloc_mm n (B P : gset Z) h pools fl : kernel_inv kroot T B P h pools fl → (n < length (znth [] fl 0%Z))%nat →
  returns (kzalloc MM_STRUCT_SIZE h) (λ '(mm, h'), mm ≠ NULL ∧ mm ∉ B ∪ P ∧ ∃ pools' fl', kernel_inv kroot T ({[mm]} ∪ B) P h' pools' fl' ∧
    is_slot pools' 0 mm ∧ (n <= length (znth [] fl' 0%Z))%nat ∧ ∀ a, table_word T a → ld (kmem h') a = ld (kmem h) a).
Proof.
  intros [Hk HtP HP] Hn. pose proof (ks_heap _ _ _ _ _ _ Hk) as Hinv. destruct (znth [] fl 0) as [|q l] eqn:Hfl; [cbn in Hn; lia|]. cbn [length] in Hn.
  unfold kzalloc, kmalloc. cbn [kmalloc_rec]. change (size_to_tier_idx MM_STRUCT_SIZE) with 0. change (negb (0 =? TOO_BIG_SIZE)) with true. cbv iota.
  pose proof (kmalloc_small_head 1 0 _ _ _ _ _ _ Hinv ltac:(lia) Hfl) as Hs. destruct (kmalloc_small 2 0 h) as [[mm h']| | |] eqn:E; try done.
  cbn in Hs. destruct Hs as (-> & Hqn & pools' & fl' & Hkeep & Hcase). apply kmalloc_small_size in E; [|apply Hinv].
  destruct Hcase as [(-> & _)|(_ & HqB & Hqs & Hinv')]; [done|]. rewrite bind_Ok. rewrite (proj2 (Z.eqb_neq q NULL)) by done.
  destruct (kspace_keeps _ _ _ _ _ _ _ _ _ _ _ Hk Hinv' Hkeep) as [[_ Hwf HT] Hw]. pose proof (hi_pages _ _ _ _ Hinv') as Hok.
  assert (∀ p, p ∈ P → page_live h' pools' p) as HP' by (intros p Hp; by eapply page_live_keeps; [exact Hinv|exact Hkeep|done|apply HP]).
  pose proof (slot_page _ _ _ Hok Hqs) as (Hpg & Hlo & Hhi & _ & _). destruct (Hok _ _ Hpg) as (_ & _ & ? & ?). change (slot_size 0) with 32 in *. unfold MM_STRUCT_SIZE.
  assert (∀ a, table_word T a → ld (zero_bytes q 32 (kmem h')) a = ld (kmem h') a) as Hz.
  { intros a Ha. apply zero_bytes_out; [lia..|]. intros Hr. eapply tables_spare_pools; [apply Hwf|exact Hok|exact HT|exact Ha|].
    eapply slot_pool_word; [done|exact Hqs|exact Hr]. }
  split; [done|]. split.
  { intros [?|HqP]%elem_of_union; [done|]. eapply (slot_not_page h' pools'); [done|exact Hqs|by apply HP'|done]. }
  exists pools', fl'. split; [|split; [done|split]].
  - split; [split| |]; try done.
    + eapply heap_inv_write; [exact Hinv'|by apply elem_of_union_l, elem_of_singleton|exact Hqs|]. change (slot_size 0) with 32. intros a Ha. apply zero_bytes_out; lia.
    + destruct Hwf as (Hpt & ? & Hdis). split; [by eapply pt_wf_agree|]. done.
  - pose proof (spare_slots _ _ _ _ _ _ _ _ [q] Hinv Hinv' (proj1 Hkeep)) as Hs. rewrite Hfl in Hs. cbn [length] in Hs.
    assert (S (length l) <= length (znth [] fl' 0) + 1)%nat; [|lia]. apply Hs.
    intros x [->%elem_of_singleton|?]%elem_of_union; [right; left; by left|by left].
  - intros a Ha. cbn [kmem]. by rewrite Hz, Hw.
Qed.

(** ** The page table *)

(** The tables of the new process: the kernel's, below a root of its own. *)
Definition new_tables (f : Z) : gmap Z (nat * Z) := <[f := (3%nat, 0)]> (delete kroot T).

Lemma new_tables_Some f t x : new_tables f !! t = Some x → (t = f ∧ x = (3%nat, 0)) ∨ (t ≠ kroot ∧ T !! t = Some x).
Proof.
  unfold new_tables. intros [[-> <-]|[Hne Hd]]%lookup_insert_Some; [by left|]. apply lookup_delete_Some in Hd as [? ?]. right. split; [congruence|done].
Qed.

Lemma copy_root_wf m f : pt_wf m kroot T → table_frame f → T !! f = None →
  let m' := copy_words 512 (PHYS_TO_VIRT f) (PHYS_TO_VIRT kroot) m in
  pt_wf m' f (new_tables f) ∧ (∀ va, translate m' f va = translate m kroot va) ∧ pt_wf m' kroot T ∧ (∀ va, translate m' kroot va = translate m kroot va).
Proof.
  intros Hpt Hf HTf m'. pose proof Hpt as (Hr & Hfr & Hent). assert (table_frame kroot) as Hkr by by eapply Hfr. assert (f ≠ kroot) as Hfk by (intros ->; congruence).
  destruct (copy_table f kroot m Hf Hkr Hfk) as [Hcopy Hsame]. fold m' in Hcopy, Hsame. clearbody m'.
  assert (∀ t i, is_Some (T !! t) → 0 <= i < 512 → ld m' (entry_addr t i) = ld m (entry_addr t i)) as Hold.
  { intros t i [[n k] Ht] Hi. apply Hsame; [by eapply Hfr|intros ->; congruence|done]. }
  destruct (pt_wf_agree m m' kroot T Hpt) as [Hpt' Htr']; [intros a (t & i & Ht & Hi & ->); by apply Hold|].
  assert (∀ t n k, T !! t = Some (n, k) → n ≠ 3%nat → new_tables f !! t = Some (n, k)) as Hin.
  { intros t n k Ht Hn. unfold new_tables. rewrite lookup_insert_ne by (intros <-; congruence). apply lookup_delete_Some. split; [intros <-; congruence|done]. }
  split_and!; try done.
  - split_and!; [apply lookup_insert_eq| |].
    + intros t n k [[-> [= -> ->]]|[_ Ht]]%new_tables_Some; [by split|by eapply Hfr].
    + intros t n k i Ht Hi Hp Hl. apply new_tables_Some in Ht as [[-> [= -> ->]]|[Hne Ht]].
      * rewrite Hcopy in * by done. destruct (Hent _ _ _ _ Hr Hi Hp Hl) as (n' & [= <-] & Hn'). exists 2%nat. split; [done|]. by apply Hin.
      * rewrite Hold in * by (done || by eexists). destruct (Hent _ _ _ _ Ht Hi Hp Hl) as (n' & -> & Hn'). exists n'. split; [done|]. apply Hin; [done|].
        destruct (Hfr _ _ _ Ht) as [_ ?]. lia.
  - intros va. unfold translate. rewrite !hw_walk_S. cbv zeta. rewrite Hcopy by apply index_of_range. destruct (present _) eqn:Hp; [|done]. cbn [negb is_leaf].
    eapply hw_walk_agree; [exact Hpt| |].
    + destruct (Hent _ _ _ _ Hr (index_of_range 3 va) Hp eq_refl) as (n' & [= <-] & Hnext). rewrite Hnext. do 2 f_equal. by rewrite pre_index, pre_top by lia.
    + intros t' n' Ht'. apply Hold; [by eexists|apply index_of_range].
Qed.

Lemma copy_kpgtbl_spec (s : mmu pmm) : mmu_wf kroot s T → (∀ f, fa_avail (frames s) f → f < 2 ^ 46) →
  returns (vmm_copy_kpgtbl (PHYS_TO_VIRT kroot) s) (λ '(p, s'), fa_inv (frames s') ∧ (∀ g, fa_avail (frames s') g → fa_avail (frames s) g) ∧ pmm_size (frames s') = pmm_size (frames s) ∧
    ((p = ERR_PTR (- ENOMEM) ∧ mem s' = mem s) ∨
     ∃ f, p = PHYS_TO_VIRT f ∧ fa_avail (frames s) f ∧ ¬ fa_avail (frames s') f ∧ mem s' = copy_words 512 (PHYS_TO_VIRT f) (PHYS_TO_VIRT kroot) (mem s))).
Proof.
  intros (_ & Hfa & _) Hsmall. unfold vmm_copy_kpgtbl. pose proof (alloc_page_size _ Hfa) as Hsz. unfold alloc_page in *. pose proof (fa_alloc_spec (frames s) Hfa) as Halloc.
  change (fa_alloc (frames s)) with (pmm_alloc_frame (frames s)) in Halloc. destruct (pmm_alloc_frame (frames s)) as [[f fr]| | |]; try done. rewrite bind_Ok in *. cbn in Halloc.
  destruct Halloc as (Hfr & Hcase). destruct (Z.eqb_spec f NULL) as [->|Hne]; rewrite bind_Ok; cbn in Hsz.
  - change (NULL =? NULL) with true. cbv iota. cbn [returns runs frames mem]. split; [done|].
    split; [|split; [done|by left]]. destruct Hcase as [(_ & _ & Hno)|(_ & _ & Hsub)]; [by intros g ?%Hno|done].
  - destruct Hcase as [(-> & _)|(Hav & Hav' & Hsub)]; [done|]. pose proof (fa_avail_frame _ _ Hfa Hav) as [_ ?]. specialize (Hsmall _ Hav).
    rewrite (proj2 (Z.eqb_neq (PHYS_TO_VIRT f) NULL)) by (rewrite PHYS_TO_VIRT_small by lia; unfold ID_VIRT_REGION_START, NULL; lia).
    cbn [returns runs frames mem]. split; [done|]. split; [done|]. split; [done|]. right. by exists f.
Qed.

(** ** The whole of [mm_create] *)

(** Releasing the block again when there is no frame for the table. *)
Lemma kfree_slot list_fuel h pools fl (B : gset Z) p : heap_inv h pools fl B → p ∈ B → ok (kfree list_fuel p h) = true.
Proof.
  intros Hinv Hp. destruct (hi_used _ _ _ _ Hinv _ Hp) as [t Hs]. pose proof (slot_page _ _ _ (hi_pages _ _ _ _ Hinv) Hs) as (Hpg & _).
  destruct (hi_hdr _ _ _ _ Hinv _ _ Hpg) as [Hmagic _]. unfold kfree. cbn [kfree_rec]. rewrite Hmagic, Z.eqb_refl.
  pose proof (kfree_small_spec _ _ _ _ _ _ Hinv Hp Hs) as Hf. by destruct (kfree_small p h).
Qed.

Lemma copy_spares_pool pools f src m a : pages_ok pools → pools !! PHYS_TO_VIRT f = None → 0 <= f < 2 ^ 46 → f mod PAGE_SIZE = 0 → pool_word pools a →
  ld (copy_words 512 (PHYS_TO_VIRT f) src m) a = ld m a.
Proof.
  intros Hok Hno Hf Hal (pg & t & Hpg & Ha). apply copy_words_out. intros j Hj Heq. destruct (Hok _ _ Hpg) as (_ & Hpal & _).
  apply PHYS_TO_VIRT_aligned in Hal. assert (pg = PHYS_TO_VIRT f); [|congruence]. revert Heq Hal. rewrite PHYS_TO_VIRT_small by lia. unfold ID_VIRT_REGION_START.
  change (Z.of_nat 512) with 512 in Hj. rewrite u64_small by lia. unfold PAGE_SIZE in *. intros Heq Hal. zlia.
Qed.

(** The memory with the new table, and with the [mm_struct] filled in. *)
Lemma new_process_inv n (B P : gset Z) h pools fl mm f m' (s' : mmu pmm) tr : (∀ va, translate (kmem h) kroot va = tr va) → kernel_inv kroot T B P h pools fl → (n <= length (znth [] fl 0%Z))%nat →
  mm ∈ B → is_slot pools 0 mm → fa_avail (kframes h) f → ¬ fa_avail (frames s') f → fa_inv (frames s') →
  (∀ g, fa_avail (frames s') g → fa_avail (kframes h) g) → pmm_size (frames s') = pmm_size (kframes h) →
  mem s' = copy_words 512 (PHYS_TO_VIRT f) (PHYS_TO_VIRT kroot) (kmem h) →
  (∀ a, ¬ (mm <= a < mm + 32) → ld m' a = ld (mem s') a) → ld m' (mm_pgd mm) = PHYS_TO_VIRT f → ld m' (mm_allocs_head mm) = NULL →
  let h' := with_mem m' (with_mmu s' h) in
  proc_live (Proc f mm (new_tables f) tr ∅ [] n) B P h' ∧ ∀ va, translate (kmem h') kroot va = tr va.
Proof.
  intros Hold [[Hinv Hwf HT] HtP HP] Hn Hmm Hslot Hf Hf' Hfa' Hsub Hsz Hmem Hm' Hpgd Hhead h'. pose proof (hi_pages _ _ _ _ Hinv) as Hok. destruct (hi_pmm _ _ _ _ Hinv) as [Hfa Hsmall].
  destruct (fa_avail_frame _ _ Hfa Hf) as [Hal Hf0]. destruct (avail_not_pool _ _ _ _ _ Hinv Hf) as [Hlt Hnp]. pose proof Hwf as (Hpt & _ & Hdis). pose proof (Hdis f Hf) as HTf.
  pose proof (fa_avail_frame _ _ Hfa Hf : table_frame f) as Htf. destruct (copy_root_wf (kmem h) f Hpt Htf HTf) as (Hpf & Htr & Hpk & Htrk). 
  assert (∀ a, pool_word pools a → ld (mem s') a = ld (kmem h) a) as Hpool by (intros a Ha; rewrite Hmem; apply (copy_spares_pool pools); [exact Hok|exact Hnp|lia|exact Hal|exact Ha]).
  rewrite <- Hmem in *. clear Hmem.
  assert (∀ t, is_Some (new_tables f !! t) → t < 2 ^ 46 ∧ pools !! PHYS_TO_VIRT t = None ∧ PHYS_TO_VIRT t ∉ P) as Htab.
  { intros t [x [[-> _]|[_ Ht]]%new_tables_Some].
    - split; [done|]. split; [done|]. intros HfP. destruct (HP _ HfP) as (g & Hg & _ & ? & _ & Hna & _). apply PHYS_TO_VIRT_inj in Hg as ->; [done|lia..].
    - split; [by apply HT; eexists|]. split; [by apply HT; eexists|]. by apply HtP; eexists. }
  (* words of tables are no words of the block *)
  assert (∀ R S a, pt_wf (mem s') R S → (∀ t, is_Some (S !! t) → t < 2 ^ 46 ∧ pools !! PHYS_TO_VIRT t = None) → table_word S a → ld m' a = ld (mem s') a) as Hagree.
  { intros R S a Hw HS Ha. apply Hm'. intros Hr. eapply tables_spare_pools; [exact Hw|exact Hok|exact HS|exact Ha|]. eapply (slot_pool_word pools 0 mm); done. }
  destruct (pt_wf_agree (mem s') m' f (new_tables f) Hpf) as [Hpf' Htr'].
  { intros a Ha. eapply Hagree; [exact Hpf| |done]. intros t Ht. by destruct (Htab t Ht) as (? & ? & _). }
  destruct (pt_wf_agree (mem s') m' kroot T Hpk) as [_ Htrk']; [intros a Ha; by eapply Hagree|].
  split; [|intros va; cbn [h' with_mem kmem]; by rewrite Htrk', Htrk, Hold]. exists pools, fl. unfold h'.
  split; cbn [pr_root pr_mm pr_tables pr_tr pr_user pr_ranges pr_spare]; try done.
  - pose proof (heap_inv_agree h pools fl B (mem s') (frames s') Hinv Hfa' Hsub Hpool) as Hinv2. eapply (heap_inv_write _ _ _ _ mm 0); [exact Hinv2|done|done|exact Hm'].
  - split; [exact Hpf'|]. split; [exact Hfa'|]. intros g Hg. destruct (new_tables f !! g) as [x|] eqn:E; [|done]. apply new_tables_Some in E as [[-> _]|[_ E]]; [done|].
    specialize (Hdis g (Hsub g Hg)). congruence.
  - intros va. cbn [with_mem kmem]. by rewrite Htr', Htr, Hold.
  - intros p Hp. destruct (HP p Hp) as (g & -> & ? & ? & Hg & Hna & Hno). exists g. cbn [with_mem with_mmu kframes]. rewrite Hsz. split_and!; try done; [lia|lia|]. by intros ?%Hsub.
  - intros a [->|[]%elem_of_nil]%elem_of_cons. by split.
  - apply NoDup_singleton.
Qed.

Lemma mm_create_live list_fuel n (B P : gset Z) h pools fl : kernel_inv kroot T B P h pools fl → (n < length (znth [] fl 0%Z))%nat →
  returns (mm_create list_fuel (PHYS_TO_VIRT kroot) h) (λ '(mm, h'), mm = ERR_PTR (- ENOMEM) ∨
    (IS_ERR mm = false ∧ mm ∉ B ∪ P ∧ (∀ va, translate (kmem h') kroot va = translate (kmem h) kroot va) ∧ ∃ f,
       proc_live (Proc f mm (new_tables f) (translate (kmem h) kroot) ∅ [] n) ({[mm]} ∪ B) P h')).
Proof.
  intros Hk Hn. unfold mm_create. eapply returns_bind; [by eapply kzalloc_mm|]. intros [mm h1] (Hmn & HmB & pools1 & fl1 & Hk1 & Hslot & Hn1 & Hw).
  rewrite (proj2 (Z.eqb_neq mm NULL)) by done. pose proof (kv_space _ _ _ _ _ _ _ Hk) as [Hinv Hwf0 _]. pose proof (kv_space _ _ _ _ _ _ _ Hk1) as [Hinv1 Hwf1 HT1]. destruct (hi_pmm _ _ _ _ Hinv1) as [_ Hsmall].
  eapply returns_bind; [by apply copy_kpgtbl_spec|]. intros [p s'] (Hfa' & Hsub & Hsz & [(-> & Hmem)|(f & -> & Hf & Hf' & Hmem)]).
  { change (IS_ERR (ERR_PTR (- ENOMEM))) with true. cbv iota.
    assert (heap_inv (with_mmu s' h1) pools1 fl1 ({[mm]} ∪ B)) as Hinv2 by (apply heap_inv_agree; [done..|]; intros a _; by rewrite Hmem).
    assert (ok (kfree list_fuel mm (with_mmu s' h1)) = true) as Hok by (eapply kfree_slot; [exact Hinv2|by apply elem_of_union_l, elem_of_singleton]).
    destruct (kfree list_fuel mm (with_mmu s' h1)); [by left|discriminate..]. }
  cbn [as_mmu frames mem] in *. destruct (fa_avail_frame _ _ (proj1 (hi_pmm _ _ _ _ Hinv1)) Hf) as [Hal _]. rewrite IS_ERR_page by exact Hal. cbn [returns runs].
  pose proof (hi_pages _ _ _ _ Hinv1) as Hok. destruct (slot_page _ _ _ Hok Hslot) as (Hpg & Hlo & Hhi & _). destruct (hi_taken _ _ _ _ Hinv1 _ _ Hpg) as (g & Hg & Hgr & _).
  destruct (Hok _ _ Hpg) as (_ & _ & ? & ?). change (slot_size 0) with 32 in *.
  assert (mm_allocs_head mm = mm + 16 ∧ mm_ref_count mm = mm + 24) as [E16 E24] by (unfold mm_allocs_head, mm_ref_count; rewrite !u64_small by lia; split; reflexivity).
  right. split; [eapply direct_ptr; [exact Hgr|rewrite <- Hg; unfold PAGE_SIZE in *; lia]|]. split; [exact HmB|].
  assert (∀ va, translate (kmem h1) kroot va = translate (kmem h) kroot va) as Htr1 by (eapply pt_wf_agree; [apply Hwf0|exact Hw]).
  set (m1 := st (kmem (with_mmu s' h1)) (mm_pgd mm) (PHYS_TO_VIRT f)). set (m2 := st m1 (mm_allocs_head mm) NULL). set (m3 := st m2 (mm_ref_count mm) _).
  destruct (new_process_inv n ({[mm]} ∪ B) P h1 pools1 fl1 mm f m3 s' (translate (kmem h) kroot) Htr1 Hk1 Hn1) as [Hlive Htr]; [apply elem_of_union_l, elem_of_singleton; reflexivity|exact Hslot|exact Hf|exact Hf'|exact Hfa'|exact Hsub|exact Hsz|exact Hmem|..].
  { intros a Ha. unfold m3, m2, m1, mm_pgd. rewrite E16, E24, !ld_st_ne by lia. reflexivity. }
  { unfold m3, m2, m1, mm_pgd. rewrite E16, E24, !ld_st_ne by lia. apply ld_st_eq. }
  { unfold m3, m2. rewrite E16, E24, ld_st_ne by lia. apply ld_st_eq. }
  split; [exact Htr|]. exists f. exact Hlive.
Qed.
End create.

(** ** The user stack *)

Definition stack_bottom : Z := TASK_USER_STACK_TOP_ADDR - TASK_USER_STACK_SIZE.

Lemma main_stack_live b list_fuel c (B P : gset Z) h : proc_live c B P h → (0 < pr_spare c)%nat → (length (pr_ranges c) < list_fuel)%nat →
  runs (mm_alloc_main_stack b list_fuel (pr_mm c) h) (λ '(r, h'), r < 0 ∨ (r = 0 ∧ ∃ T' tr fs a,
    let c' := proc_ranged (proc_backed c T' tr fs) a stack_bottom in a ∉ B ∪ P ∧ proc_live c' ({[a]} ∪ B) P h' ∧ length fs = 4%nat ∧
    (∀ va, stack_bottom <= va < TASK_USER_STACK_TOP_ADDR → mapped_as stack_prot (znth 0 fs ((va - stack_bottom) / PAGE_SIZE) + (va - stack_bottom) mod PAGE_SIZE) (tr va)) ∧
    (∀ va, lin va < stack_bottom ∨ TASK_USER_STACK_TOP_ADDR <= lin va → tr va = pr_tr c va))) (map_panic stack_prot).
Proof.
  intros Hl Hsp Hfu. pose proof Hl as (pools & fl & Hc). unfold mm_alloc_main_stack. fold stack_bottom. rewrite (pi_pgd _ _ _ _ _ _ Hc).
  eapply runs_bind; [apply (proc_alloc_range b c B P h stack_bottom TASK_USER_STACK_SIZE stack_prot Hl); by vm_compute|].
  change (PAGE_ALIGN_UP TASK_USER_STACK_SIZE / PAGE_SIZE) with 4. intros [r s'] (T' & fs & Hb & _ & Hl' & Hcase).
  destruct Hcase as [[-> Hlen]|[-> _]]; cycle 1.
  { change (- ENOMEM <? 0) with true. left. by vm_compute. }
  change (4 <? 0) with false. cbv iota. set (c1 := proc_backed c T' _ fs) in *. change (pr_mm c) with (pr_mm c1).
  eapply runs_bind; [eapply runs_mono; [apply (proc_add_alloc list_fuel c1 B P (with_mmu s' h) stack_bottom TASK_USER_STACK_PAGE_COUNT Hl' Hsp Hfu)|intros x Hx; exact Hx|done]|].
  intros [r h'] (-> & a & Ha & Hl2). change (0 <? 0) with false. right. split; [done|]. exists T', (translate (mem s') (pr_root c)), fs, a.
  split; [done|]. split; [exact Hl2|]. split; [lia|]. destruct Hb as (_ & _ & _ & _ & Htr & _).
  assert (lin stack_bottom = stack_bottom ∧ TASK_USER_STACK_TOP_ADDR = stack_bottom + 0x4000 ∧ stack_bottom = 0x7FFFFFFFB000) as (Hlb & Htop & Hbot) by by vm_compute.
  split; intros va Hva; specialize (Htr va); cbv zeta in Htr; rewrite Hlb, Hlen in Htr; change (PAGE_SIZE * 4) with 0x4000 in Htr.
  - assert (lin va = va) as Hlv by (unfold lin; apply Z.mod_small; lia). rewrite Hlv, (proj2 (upto_true _ _)) in Htr by lia. exact Htr.
  - rewrite (proj2 (upto_false _ _)) in Htr by lia. rewrite Htr. apply (pi_tr _ _ _ _ _ _ Hc).
Qed.
