(* ===== verification/InitTask.v ===== *)
(** * The first task (kernel/init_task.c)

    [init_task_init] runs as a kernel thread and turns itself into a user
    task: it makes an address space, gives it a stack and the program, and
    replaces the frame its thread returns through. *)

From S2P Require Import Prelude Types FrameAlloc EarlyPmm Pmm Paging Vmm Kmalloc Mm ListHead Sched HeapApi StateMonad Layout ByteMem Block FsTypes Dcache Ext2File Ext2Dir Ext2Super Vfs ProcMem Elf ElfLoad Apic Madt Pic Acpi ApicInit Machine Switch ProcCreate.

(** The messages of its panics, without the newline at their end. *)
Definition no_task_msg : string := "init_task_init: no current task.".
Definition no_mm_msg : string := "init_task_init: err mm_create.".
Definition no_stack_msg : string := "init_task_init: err alloc_user_stack.".
Definition no_elf_msg : string := "init_task_init: elf load failed.".

Section init_task.
Context {D : Type} `{!DiskDriver D} (cpu_has_1g_pages : bool) (list_fuel : nat) (kpgd tty0_file : Z).
Implicit Types s : loader D.

(** A store of a word of the kernel's memory. *)
Definition set_word (a v : Z) s : loader D := set_l_heap (with_mem (st (kmem (l_heap s)) a v) (l_heap s)) s.
Definition store (a v : Z) : M (loader D) () := puts (set_word a v).
Definition set_cr3 (v : Z) s : loader D := Loader (l_fs s) (l_user s) v.

(** [arch_activate_mm]. *)
Definition activate_mm (mm : Z) : M (loader D) () := puts (λ s, set_cr3 (VIRT_TO_PHYS (ld (kmem (l_heap s)) mm)) s).

(** Up to the entry point; [t->mm] is [mm] from its store on. *)
Definition init_task_load (t : Z) (path : list Z) : M (loader D) Z :=
  if t =? NULL then lift (Panic no_task_msg) else
  mm ← on_heap (mm_create list_fuel kpgd);
  store (u64 (t + 16)) mm;;
  if IS_ERR mm then lift (Panic no_mm_msg) else
  activate_mm mm;;
  r ← on_heap (mm_alloc_main_stack cpu_has_1g_pages list_fuel mm);
  if r <? 0 then lift (Panic no_stack_msg) else
  entry_point ← elf_load cpu_has_1g_pages list_fuel path mm;
  if IS_ERR entry_point then lift (Panic no_elf_msg) else
  mret entry_point.

(** [arch_update_init_task_context] on this state, and the descriptors. *)
Definition update_context (t entry_point : Z) s : loader D :=
  let m := kmem (l_heap s) in
  let stack_top := u64 (t_kernel_stack m t + TASK_KERNEL_STACK_SIZE) in
  set_l_heap (with_mem (user_frame m (u64 (stack_top - INTERRUPT_FRAME_SIZE)) entry_point) (l_heap s)) s.

Definition init_task_finish (t entry_point : Z) s : loader D :=
  set_word (u64 (t + 48)) tty0_file (set_word (u64 (t + 40)) tty0_file (set_word (u64 (t + 32)) tty0_file (update_context t entry_point s))).

Definition init_task_init (t : Z) (path : list Z) : M (loader D) () :=
  entry_point ← init_task_load t path;
  puts (init_task_finish t entry_point).
End init_task.

(** ** The program in memory *)

Section ready.
Context {D : Type} `{!DiskDriver D}.
Implicit Types s : loader D.

Definition init_panic (msg : string) : Prop :=
  msg = no_mm_msg ∨ msg = no_stack_msg ∨ msg = no_elf_msg ∨ load_panic msg.

(** [path] is answered from the dentry cache. *)
Definition cached (path : list Z) (d : Z) (x : fs kheap D) : Prop :=
  ∀ h, let x' := set_fblk (set_heap h (fblk x)) x in vfs_lookup path x' = Ok (d, x').

(** The user's stack and the segments of the program are in the address space
    that CR3 selects. *)
Record task_loaded (fb : Z → Z) (phs : list elf_program_header_64) s : Prop := {
  tl_stack : ∀ va, stack_bottom <= va < TASK_USER_STACK_TOP_ADDR → ∃ pa, mapped_as stack_prot pa (translate (kmem (l_heap s)) (l_cr3 s) va);
  tl_segments : ∀ ph i, ph ∈ segments phs → 0 <= i < ph_mem_size ph → ∃ pa,
    mapped_as (seg_prot ph) pa (translate (kmem (l_heap s)) (l_cr3 s) (ph_vaddr ph + i)) ∧
    ldb (l_user s) pa = (if i <? ph_file_size ph then fb (ph_offset ph + i) else 0)
}.

Lemma on_heap_steps {A} (m : M kheap A) s Q E : runs (m (l_heap s)) (λ '(x, h), Q x h) E → steps (on_heap m) s (λ x s', ∃ h, s' = set_l_heap h s ∧ Q x h) E.
Proof. intros Hm. unfold steps, on_heap, zoom. destruct (m (l_heap s)) as [[x h]| | |]; try done. cbn. by exists h. Qed.

Lemma steps_panic {A} msg s (Q : A → loader D → Prop) (E : string → Prop) : E msg → steps (lift (Panic msg)) s Q E.
Proof. done. Qed.

Lemma steps_puts {A} (f : loader D → loader D) (k : M (loader D) A) s Q E : steps k (f s) Q E → steps (puts f;; k) s Q E.
Proof. done. Qed.

Lemma file_ready_only (x x' : fs kheap D) d sb ii inode tbl : only_blk x x' → file_ready x d sb ii inode tbl → file_ready x' d sb ii inode tbl.
Proof.
  intros Ho [(y & ino & H1 & H2 & H3 & H4 & H5 & H6 & H7 & H8) Hi Hl Hv Hs]. pose proof Ho as (E & _).
  split; [|by rewrite E|done|by eapply vol_ok_only|done]. exists y, ino. rewrite E. split_and!; done.
Qed.

(** A block of the heap lies in its slot of 32 bytes or more. *)
Lemma block_words h pools fl (B : gset Z) p : heap_inv h pools fl B → p ∈ B → ∃ t, is_slot pools t p ∧ 32 <= slot_size t ∧ p ≠ NULL ∧ 0 <= p ∧ p + slot_size t < 2 ^ 64.
Proof.
  intros Hinv Hp. destruct (hi_used _ _ _ _ Hinv _ Hp) as [t Hs]. exists t. pose proof (hi_pages _ _ _ _ Hinv) as Hok.
  destruct (slot_page _ _ _ Hok Hs) as (Hpg & Hlo & Hhi & _ & Ht). destruct (slot_size_facts t Ht) as (_ & _ & _ & ?). destruct (Hok _ _ Hpg) as (_ & _ & ? & ?). unfold NULL. split_and!; [done|lia..].
Qed.

(** The program on top of a new address space with its stack. *)
Lemma load_program_steps b list_fuel path d sb ii inode tbl c (B P : gset Z) s entry phs : cached path d (l_fs s) → IS_ERR d = false → file_ready (l_fs s) d sb ii inode tbl →
  proc_live c B P (l_heap s) → (∀ x, is_Some (ofiles (l_fs s) !! x) → x ∈ B) → l_cr3 s = pr_root c → executable (content (l_fs s) sb inode tbl) (ii_size ii) entry phs →
  (length (segments phs) <= pr_spare c)%nat → (length (pr_ranges c) + length (segments phs) < S list_fuel)%nat →
  (∀ ph, ph ∈ segments phs → seg_lo ph + seg_len ph <= stack_bottom) →
  (∀ va, stack_bottom <= va < TASK_USER_STACK_TOP_ADDR → ∃ pa, mapped_as stack_prot pa (pr_tr c va)) →
  steps (elf_load b list_fuel path (pr_mm c)) s (λ r s', IS_ERR r = true ∨ (r = entry ∧ task_loaded (content (l_fs s) sb inode tbl) phs s')) load_panic.
Proof.
  intros Hc Hd Hf Hl Ho Hcr Hex Hsp Hfu Hlow Hst. assert (vfs_lookup path (l_fs s) = Ok (d, l_fs s)) as Hlk.
  { specialize (Hc (heap (fblk (l_fs s)))). cbv zeta in Hc. replace (set_fblk (set_heap (heap (fblk (l_fs s))) (fblk (l_fs s))) (l_fs s)) with (l_fs s) in Hc; [done|]. by destruct (l_fs s) as [[] ? ? ? ? ? ? ? ?]. }
  eapply steps_mono; [by apply (elf_load_steps b list_fuel (l_fs s) d sb ii inode tbl Hf path c B P s entry phs)|].
  intros r s' (c' & N & (pools & fl & Hc') & _ & _ & Hcr' & Hg & _ & [(e & He & ->)|[-> Hld]]).
  - left. unfold IS_ERR, ERR_PTR, MAX_ERRNO in *. apply Z.leb_le. unfold u64. zlia.
  - right. split; [done|]. rewrite Forall_forall in Hld. split.
    + intros va Hva. destruct (Hst va Hva) as [pa Hpa]. exists pa. rewrite Hcr', Hcr, <- (gr_root _ _ _ _ Hg), (pi_tr _ _ _ _ _ _ Hc'), (gr_tr _ _ _ _ Hg); [done|].
      apply Forall_forall. intros ph Hph. apply upto_false. right. specialize (Hlow ph Hph). assert (lin va = va) as ->; [|lia].
      unfold lin. apply Z.mod_small. assert (TASK_USER_STACK_TOP_ADDR = 0x7FFFFFFFF000 ∧ stack_bottom = 0x7FFFFFFFB000) as [? ?] by by vm_compute. lia.
    + intros ph i Hph Hi. destruct (Hld ph Hph i Hi) as (pa & Hmap & _ & Hpa). exists pa. split; [|done]. rewrite Hcr', Hcr, <- (gr_root _ _ _ _ Hg), (pi_tr _ _ _ _ _ _ Hc'). done.
Qed.
End ready.


(** ** A concrete first task *)

(** 27 free frames; one 32-byte block and the block of the task in use. *)
Definition demo_wide : kheap := Kheap ∅ (Pmm [0xff; 0x1f; 0x00; 0x00; 0x00]) (replicate 6 0) 0.
Definition demo_first : Z * kheap := match kmalloc_small 2 0 demo_wide with Ok x => x | _ => (0, demo_wide) end.
Definition demo_second : Z * kheap := match kmalloc_small 2 3 demo_first.2 with Ok x => x | _ => (0, demo_wide) end.
Definition demo_task_block : Z := demo_second.1.

Lemma ok_value {A} (m : res A) d : ok m = true → m = Ok (match m with Ok x => x | _ => d end).
Proof. by destruct m. Qed.

Lemma demo_wide_space : kspace 0x1000 demo_tables demo_wide ∅ (replicate 6 []) ∅.
Proof.
  assert (fa_inv (kframes demo_wide)) as Hfa by (split; [split_and!; [by repeat (constructor; [lia|])|vm_compute; discriminate|reflexivity]|done]). split.
  - split; cbn [demo_wide kmem kframes free_heads]; try done.
    + split; [exact Hfa|]. intros f (_ & Hf & Ht). destruct (decide (f / PAGE_SIZE < 40)); [unfold PAGE_SIZE in *; zlia|]. rewrite taken_beyond in Ht by (simpl; lia). done.
    + intros t Ht. tier_cases t H; (split; [done|by apply NoDup_nil]).
    + intros t p Ht. split; [|by intros [(pg & k & ? & _) _]]. tier_cases t H; intros []%not_elem_of_nil.
  - destruct demo_mmu_wf as [Hpt _]. split; [exact Hpt|]. split; [exact Hfa|]. intros f Hf. apply lookup_singleton_None. intros <-. destruct Hf as (_ & _ & Hf). vm_compute in Hf. done.
  - intros t [x Hx]. unfold demo_tables in Hx. apply lookup_singleton_Some in Hx as [<- _]. split; [lia|apply lookup_empty].
Qed.

(** A small request on a kernel without pages. *)
Lemma kspace_alloc root T h pools fl (B : gset Z) tier p h' : kspace root T h pools fl B → 0 <= tier < 6 → kmalloc_small 2 tier h = Ok (p, h') → p ≠ NULL →
  ∃ pools' fl', kspace root T h' pools' fl' ({[p]} ∪ B).
Proof.
  intros Hk Ht E Hp. pose proof (kmalloc_small_spec tier h pools fl B (ks_heap _ _ _ _ _ _ Hk) Ht) as Hs. rewrite E in Hs. cbn in Hs.
  destruct Hs as (pools' & fl' & Hkeep & [(-> & _)|(_ & _ & _ & Hinv')]); [done|]. exists pools', fl'. by eapply kspace_keeps.
Qed.

(** The free list of the first tier has three slots. *)
Definition three_free (h : kheap) : bool :=
  let m := kmem h in let a := znth 0 (free_heads h) 0 in negb (a =? NULL) && negb (ld m a =? NULL) && negb (ld m (ld m a) =? NULL).

Lemma three_free_spec h pools fl (B : gset Z) : heap_inv h pools fl B → three_free h = true → (2 < length (znth [] fl 0%Z))%nat.
Proof.
  intros Hinv Hf. destruct (hi_chain _ _ _ _ Hinv 0 ltac:(lia)) as [Hch _]. unfold three_free in Hf. apply andb_true_iff in Hf as [[Ha Hb]%andb_true_iff Hc].
  apply negb_true_iff in Ha as Ha%Z.eqb_neq, Hb as Hb%Z.eqb_neq, Hc as Hc%Z.eqb_neq.
  destruct (znth [] fl 0) as [|x [|y [|z l]]]; cbn [chain length] in *; [congruence|destruct Hch as (<- & _ & ?); congruence|destruct Hch as (<- & _ & <- & _ & ?); congruence|lia].
Qed.

Lemma two_blocks root T h pools fl (B : gset Z) p1 h1 p2 h2 : kspace root T h pools fl B → kmalloc_small 2 0 h = Ok (p1, h1) → kmalloc_small 2 3 h1 = Ok (p2, h2) →
  p1 ≠ NULL → p2 ≠ NULL → three_free h2 = true → ∃ pools fl, kernel_inv root T ({[p2]} ∪ ({[p1]} ∪ B)) ∅ h2 pools fl ∧ (2 < length (znth [] fl 0%Z))%nat.
Proof.
  intros Hk0 E1 E2 Hn1 Hn2 Hf. destruct (kspace_alloc _ _ _ _ _ _ 0 p1 h1 Hk0 ltac:(lia) E1 Hn1) as (pools1 & fl1 & Hk1).
  destruct (kspace_alloc _ _ _ _ _ _ 3 p2 h2 Hk1 ltac:(lia) E2 Hn2) as (pools2 & fl2 & Hk). exists pools2, fl2. split; [split; [exact Hk|intros; apply not_elem_of_empty|intros ? []%not_elem_of_empty]|].
  eapply three_free_spec; [apply Hk|exact Hf].
Qed.

Lemma demo_kernel : ∃ pools fl, kernel_inv 0x1000 demo_tables ({[demo_task_block]} ∪ ({[demo_first.1]} ∪ ∅)) ∅ demo_second.2 pools fl ∧ (2 < length (znth [] fl 0%Z))%nat.
Proof.
  eapply (two_blocks 0x1000 demo_tables demo_wide _ _ ∅ demo_first.1 demo_first.2 demo_second.1 demo_second.2 demo_wide_space).
  - rewrite <- surjective_pairing. apply ok_value. vm_compute. reflexivity.
  - rewrite <- surjective_pairing. apply ok_value. vm_compute. reflexivity.
  - apply Z.eqb_neq. vm_compute. reflexivity.
  - apply Z.eqb_neq. vm_compute. reflexivity.
  - vm_compute. reflexivity.
Qed.

Definition demo_first_task : loader (gmap Z (list Z)) := set_l_heap demo_second.2 demo_loader.

