(* ===== verification/Kernel.v ===== *)
(** * The order of initialisation (kernel/kernel.c, arch/x86_64/kernel/setup.c)

    [init], [setup_stage2] and [kmain] over the operations they call, which
    are those of the components: the class [KernelOps] collects them on one
    state.  [panic] prints its message, if any, and stops the machine. *)

From S2P Require Import Prelude Types StateMonad.

(** ** What is called *)

Class KernelOps (S : Type) := {
  op_enable_no_execute : M S ();
  op_check_1gib_pages_support : M S bool;
  op_set_cpu_has_1g_pages : bool → M S ();
  op_gdt_init : M S ();
  op_idt_init : M S ();
  op_init_apic : M S ();
  op_syscall_init : M S ();
  op_write_gs_cpu0 : M S ();
  op_early_pmm_init : M S Z;
  op_vmm_init : M S Z;
  op_vga_init : M S ();
  op_vga_print : string → M S ();
  op_pmm_init : M S Z;
  op_ahci_init : M S Z;
  op_vfs_init : M S ();
  op_vfs_scan_partitions : M S Z;
  op_vfs_mount_root : M S Z;
  op_print_root_volume : M S ();
  op_ps2_kyb_init : M S Z;
  op_tty_init : M S Z;
  op_create_idle_task : M S ();
  op_kthread_run_init : M S Z;
  op_timer_irq_init : M S Z;
  op_local_irq_enable : M S ();
  op_schedule : M S ()
}.

Section kernel.
Context {S : Type} `{!KernelOps S}.

(** ** setup.c *)

Definition init : M S () :=
  op_enable_no_execute;;
  b ← op_check_1gib_pages_support;
  op_set_cpu_has_1g_pages b;;
  op_gdt_init;;
  op_idt_init.

Definition setup_stage2 : M S () :=
  op_init_apic;;
  op_syscall_init;;
  op_write_gs_cpu0.

(** ** kernel.c *)

(** [panic(NULL)] prints nothing; the messages are without their newline. *)
Definition panic {A} (msg : string) : M S A := lift (Panic msg).
Definition NULL_msg : string := "".

Definition negative (r : Z) : bool := r <? 0.
Definition nonzero (r : Z) : bool := negb (r =? 0).

Definition check (bad : Z → bool) (msg : string) (m : M S Z) : M S () :=
  r ← m;
  if bad r then panic msg else mret ().

(** Up to the call of [schedule], behind which the boot task halts in a loop. *)
Definition kmain : M S () :=
  check negative NULL_msg op_early_pmm_init;;
  check negative NULL_msg op_vmm_init;;
  op_vga_init;;
  op_vga_print "vga_init ";;
  check nonzero "pmm_init() failed." op_pmm_init;;
  op_vga_print "pmm_init ";;
  setup_stage2;;
  op_vga_print "stage2_init ";;
  check negative "failed to init ACHI." op_ahci_init;;
  op_vga_print "ahci_init ";;
  op_vfs_init;;
  check negative "partition_scan failed." op_vfs_scan_partitions;;
  op_vga_print "vfs_init ";;
  check negative "couldn't mount root," op_vfs_mount_root;;
  op_print_root_volume;;
  check nonzero "couldn't init kyb." op_ps2_kyb_init;;
  check negative "couldn'y init tty." op_tty_init;;
  op_create_idle_task;;
  check negative "kthread run err" op_kthread_run_init;;
  check nonzero "failed to init timer irq." op_timer_irq_init;;
  op_local_irq_enable;;
  op_schedule.

(** ** Stages *)

(** [arrives m s Q]: [m] returns in a state with [Q], or panics. *)
Definition arrives {A} (m : M S A) (s : S) (Q : A → S → Prop) : Prop := runs (m s) (λ '(x, s'), Q x s') (λ _, True).

Lemma arrives_bind {A B} (m : M S A) (f : A → M S B) s R Q : arrives m s R → (∀ x s', R x s' → arrives (f x) s' Q) → arrives (m ≫= f) s Q.
Proof. intros Hm Hf. unfold arrives. rewrite bind_run. eapply runs_bind; [exact Hm|]. by intros [x s'] ?%Hf. Qed.

Lemma arrives_check bad msg m s (R : Z → S → Prop) Q : arrives m s R → (∀ r s', R r s' → bad r = false → Q s') → arrives (check bad msg m) s (λ _, Q).
Proof. intros Hm HQ. unfold check. eapply arrives_bind; [exact Hm|]. intros r s' Hr. destruct (bad r) eqn:E; [done|]. by apply HQ in Hr. Qed.

(** The stages of the machine: before paging, with the frame allocator, with
    interrupts and system calls set up, with the disk, with the root file
    system, with the terminal, and with the first task queued. *)
Inductive stage := ST_START | ST_EARLY | ST_VMM | ST_PMM | ST_PLATFORM | ST_DISK | ST_PARTITIONS | ST_ROOT | ST_KEYBOARD | ST_TTY | ST_IDLE | ST_TASK | ST_TIMER.

(** What an operation needs and leaves: [at_stage] is the state's invariant at
    a stage, and success of the operation of a stage leads to the next. *)
Class KernelStages := {
  at_stage : stage → S → Prop;
  st_early s : at_stage ST_START s → arrives op_early_pmm_init s (λ r s', negative r = false → at_stage ST_EARLY s');
  st_vmm s : at_stage ST_EARLY s → arrives op_vmm_init s (λ r s', negative r = false → at_stage ST_VMM s');
  st_vga s : at_stage ST_VMM s → arrives op_vga_init s (λ _ s', at_stage ST_VMM s');
  st_print msg k s : k ≠ ST_START → k ≠ ST_EARLY → at_stage k s → arrives (op_vga_print msg) s (λ _ s', at_stage k s');
  st_pmm s : at_stage ST_VMM s → arrives op_pmm_init s (λ r s', nonzero r = false → at_stage ST_PMM s');
  st_platform s : at_stage ST_PMM s → arrives setup_stage2 s (λ _ s', at_stage ST_PLATFORM s');
  st_disk s : at_stage ST_PLATFORM s → arrives op_ahci_init s (λ r s', negative r = false → at_stage ST_DISK s');
  st_vfs s : at_stage ST_DISK s → arrives op_vfs_init s (λ _ s', at_stage ST_DISK s');
  st_partitions s : at_stage ST_DISK s → arrives op_vfs_scan_partitions s (λ r s', negative r = false → at_stage ST_PARTITIONS s');
  st_root s : at_stage ST_PARTITIONS s → arrives op_vfs_mount_root s (λ r s', negative r = false → at_stage ST_ROOT s');
  st_volume s : at_stage ST_ROOT s → arrives op_print_root_volume s (λ _ s', at_stage ST_ROOT s');
  st_keyboard s : at_stage ST_ROOT s → arrives op_ps2_kyb_init s (λ r s', nonzero r = false → at_stage ST_KEYBOARD s');
  st_tty s : at_stage ST_KEYBOARD s → arrives op_tty_init s (λ r s', negative r = false → at_stage ST_TTY s');
  st_idle s : at_stage ST_TTY s → arrives op_create_idle_task s (λ _ s', at_stage ST_IDLE s');
  st_task s : at_stage ST_IDLE s → arrives op_kthread_run_init s (λ r s', negative r = false → at_stage ST_TASK s');
  st_timer s : at_stage ST_TASK s → arrives op_timer_irq_init s (λ r s', nonzero r = false → at_stage ST_TIMER s');
  st_enable s : at_stage ST_TIMER s → arrives op_local_irq_enable s (λ _ s', at_stage ST_TIMER s')
}.
End kernel.

Arguments KernelStages S {_}.

Ltac stage H := eapply arrives_bind; [first [eapply arrives_check; [by apply H|]; cbn beta; intros ? ? Hst Hr; exact (Hst Hr) | by eapply H | eapply H; [| |eassumption]; done]|]; cbn beta; intros [] ? ?.

(** The order of [kmain] respects what every operation needs: whatever the
    operations do, each is called in a state of its stage, and [kmain] either
    panics or calls [schedule] with the first task queued, the timer running
    and interrupts enabled. *)
Lemma kmain_order {S} `{!KernelOps S, !KernelStages S} (s : S) Q : at_stage ST_START s →
  (∀ s', at_stage ST_TIMER s' → arrives op_schedule s' Q) → arrives kmain s Q.
Proof.
  intros H0 Hsched. unfold kmain.
  stage st_early. stage st_vmm. stage st_vga. stage st_print. stage st_pmm. stage st_print. stage st_platform. stage st_print. stage st_disk. stage st_print. stage st_vfs.
  stage st_partitions. stage st_print. stage st_root. stage st_volume. stage st_keyboard. stage st_tty. stage st_idle. stage st_task. stage st_timer. stage st_enable.
  by apply Hsched.
Qed.
